(* ===== verification/_CoqProject ===== *)
-Q . S2P
Prelude.v
PyDict.v
Json.v
Calendar.v
JsonText.v
Models.v
Sql.v
KeyedTable.v
Tables.v
Schema.v
Database.v
TransferPort.v
TransferRepository.v
TransferMemory.v
TransferTheorems.v
Signaling.v
SignalingTheorems.v
Presence.v
Socket.v
PresenceInvariant.v
SocketInvariant.v
PresenceTheorems.v
Hashing.v
RateLimits.v
RateLimitTheorems.v
Security.v
Sessions.v
SessionTheorems.v
TransferService.v
TransferServiceTheorems.v
Accounts.v
Devices.v
Challenges.v
LinkingOtps.v
Tickets.v
Events.v
Rows.v
Cleanup.v
Transactions.v
Integrity.v
History.v
DeviceCrypto.v
Auth.v
DeviceAuth.v
DeviceRoutes.v
TransferRoutes.v
Adapters.v
Turn.v
Main.v
Application.v
RouteCalls.v
Keys.v
Isolation.v
Config.v
Regex.v
Redaction.v
Fixtures.v
TestEnvironment.v
ConfigTheorems.v
RedactionTheorems.v
Logging.v
Lifecycles.v
CleanupTheorems.v
DatabaseTheorems.v
CryptoTheorems.v
DeviceAuthTheorems.v
Interleaving.v
AuthTheorems.v
TurnTheorems.v
ChallengeTheorems.v
ApplicationTheorems.v
ApplicationAccess.v
CrossSite.v
Pipeline.v
ApplicationPresence.v
