(* ===== verification/Prelude.v ===== *)
(** * SelfRelay control plane: a verification development

    SelfRelay moves files between the trusted devices of one account over
    WebRTC.  This development models its control plane, the Python backend
    under [src/backend/app]: who is authenticated, which device may talk to
    which, the state of transfers, and the private PostgreSQL database behind
    it ([src/supabase/migrations]).

    ** How the program and the development correspond

    Definitions keep the program's names.  A handler is a function in the
    monad [M S] below: state in, result or exception and state out.  [await]
    points matter where two coroutines share state: in the presence manager,
    which is therefore also given as a step relation, and in the repositories,
    whose statements are the atomic steps of [History.statement].  Instants are
    microseconds, UUIDs 128-bit numbers, Python text lists of code points
    (lone surrogates included), JSON as [json.loads] reads it.

    - Foundations.  [Prelude] (identifiers, exceptions, the monad), [PyDict],
      [Json], [JsonText], [Calendar] (Python's dictionaries, text, JSON,
      instants), [Hashing] (SHA-256, HMAC), [Regex] (the part of [re] in use).
    - Database.  [Models] ([repositories/models.py]), [Rows] (its [from_row]
      conversions and the select lists), [Sql] (the statement shapes of the
      repositories), [Schema] (tables, CHECK constraints and keys of the
      migrations), [KeyedTable], [Tables] (what a statement makes of a
      well-formed table), [Database] ([database.py], over a driver that may fail
      at every call), [Transactions] (the transaction blocks of the
      repositories, statement by statement).
    - Repositories, each on PostgreSQL ([Module Pg]) and in memory
      ([Module Mem]): [TransferRepository], [TransferMemory], [Sessions],
      [RateLimits], [Accounts], [Devices], [Challenges], [LinkingOtps],
      [Tickets], [Events], [Cleanup].  [Integrity] has what every statement owes
      the whole database, [History] every writing statement as one step of it.
    - Services.  [Signaling], [Presence], [Socket] ([presence.py]),
      [TransferService], [TransferRoutes] ([transfers.py]), [Auth] ([auth.py]),
      [DeviceCrypto], [DeviceAuth], [DeviceRoutes] ([device_crypto.py],
      [device_auth.py], [session_api.py]), [Turn] ([turn.py]), [Security]
      ([security.py]), [Adapters] ([adapters.py]), [Config] ([config.py]),
      [Redaction], [Logging] ([logging.py]), [Main] ([main.py],
      [operator_metrics.py], [availability]).
    - The whole.  [Application] is the routes of [main.py] over one state: a
      request is data, its session and CSRF checks and its handler are
      [serve_on], over any stores.  [serve] is the wiring of production, over one
      database; [TestEnvironment] the wiring of the tests, over in-memory stores
      that share objects; [Pipeline] an HTTP request through the middlewares and
      exception handlers around either.  [RouteCalls], [Isolation] and [Keys] are
      what every route does to the database, [ApplicationTheorems],
      [ApplicationAccess], [ApplicationPresence], [CrossSite] and [Pipeline] the
      theorems about any requests.  [Interleaving] runs the login and
      registration of [DeviceAuth] on a database on which others run statements
      between its calls, and whose calls may fail.

    Services reach repositories through classes of operations
    ([TransferRepository], [PresencePorts], [SessionRepositoryPort],
    [AccountStore], [DeviceStore], [ChallengeStore], [LinkingOtpStore],
    [TicketStore], [SecurityEventStore], [LimiterStore]).  Where a theorem
    about a client needs more than the operations, the class has laws
    ([TransferRepositoryLaws], [PresencePortsLaws], [RateLimiterLaws]), proved
    of both repositories; the theorems on authentication are stated over the
    private database itself.

    ** What is proved

    - The application (the files named above): requests run
      repository statements and nothing else on the database; a session is only
      ever opened by a completed login or enrolment, with a signature verified
      under the device's key, and every fingerprint stays the digest of its key;
      an HTTP request has the Origin, live session and CSRF secret its route
      wants, or it is answered with an error and changes nothing but the last
      use of its own session; a request stays in its account; a device that was
      logged out is locked out of every route and socket, whatever was requested
      since; and on the presence manager a request is a sequence of the steps
      its limits are proved for.
    - Failures ([DatabaseTheorems]): wherever the driver fails, a transaction
      happens whole or not at all, so the database still moves by whole
      statements and the theorems over runs of statements apply; what a caller
      sees of an outage and of its end; two defects of the boundary.
    - Authentication ([DeviceAuthTheorems], [AuthTheorems], [CryptoTheorems],
      [SessionTheorems], [Interleaving]): a completed login or registration has
      proved possession of the device's key over a message that determines every
      field of its challenge, also when other requests run between its calls or
      a call fails; an honest login completes; an email code vouches for
      its own account and its bootstrap token works once; a state-changing
      request carries a live session and its CSRF secret; the life of a stored
      session.
    - What is final ([Lifecycles]): revocation, and the single use of
      challenges, linking codes and socket tickets, over every later run of
      statements.
    - Transfers ([TransferTheorems], [TransferServiceTheorems]): the status
      machine, one answer per offer, the constraints the SQL respects, the
      refinement of the SQL repository by the in-memory one on what the schema
      admits, capacity, access to a peer's key, and that an ended transfer
      neither signals nor keeps a budget.
    - The presence manager ([PresenceInvariant], [SocketInvariant],
      [PresenceTheorems], [SignalingTheorems]): its resource limits under every
      interleaving of its atomic blocks, that the coroutines are sequences of
      those blocks, to whom a message is forwarded, ordered delivery, and what
      the envelope check accepts (deadlines through binary floating point
      included).
    - Rate limits ([RateLimitTheorems]): at most the limit in any window, the
      agreement of both limiters, and the race on a bucket's first request.
    - The database as a whole ([Integrity], [History], [CleanupTheorems],
      [ChallengeTheorems]): every statement keeps it well-formed and leaves no
      reference dangling (so the foreign keys never refuse one); the retention
      job deletes the oldest due rows and nothing else, and drains; the two
      challenge repositories answer alike.
    - The rest: TURN credentials go to an eligible peer of the same epoch
      within the limits ([TurnTheorems]); request bodies are bounded
      ([Security]); startup never fakes a provider ([ConfigTheorems]); no line
      of the configured logger shows a secret ([RedactionTheorems], [Logging]).

    Theorems with hypotheses are instantiated at concrete inputs ([Fixtures]
    has a database with one account, two devices and their secrets).

    ** Bounds and fuel

    [Hashing.blocks] has one unit of fuel per word where a block takes sixteen.
    [Regex.sub] has one per character, and every match consumes one
    ([sub_scanned] needs no more).  [Auth.remove_all] has one per character.
    The socket loop counts down the program's own [MAX_SOCKET_MESSAGES].  The
    cleanup's number of rounds is bounded by the number of due rows
    ([cleanup_drains]).

    ** Parameters

    Code outside the repository is a class of operations: [Cryptography] (the
    package's SPKI parsing and ECDSA verification), [HttpClient] (httpx),
    [UnicodeDatabase], [RegexDatabase] and [UrlLibrary] (the character tables
    and authority checks of Python's standard library), [AuthGateway] and
    [TurnCredentialProvider] (the providers, of which [Adapters] has the
    program's own clients), and the random bytes and clock readings a handler
    consumes, which are its arguments ([uuid4] and [gen_random_uuid] draws
    included; a statement whose draw is taken raises, as the key does).

    ** Not modelled

    - The frontend, the Pages gateway, the availability worker and the
      deployment files (other languages), tests and fixtures.
    - FastAPI and Starlette: routing, dependency injection and pydantic's
      parsing are the argument types of the route functions.
    - asyncpg: its calls answer or raise, as an argument says; what it sends
      over the wire is not modelled, and a repository's row is the record it
      becomes ([Rows] shows that it becomes it).
    - Requests interleave on the database by whole statements: [serve] runs one
      request at a time, and the theorems over runs of statements hold of any
      interleaving of them.  A login and a registration are also proved between
      the statements of others ([Interleaving]); the presence manager's blocks
      interleave in [PresenceInvariant]; of the other handlers the reads between
      two interleaved statements are not followed.  Roles and grants of the migrations; deadlocks, and
      isolation below one statement except where a theorem is about it
      ([first_requests_race], [connect_race_leaks]).
    - A WebSocket send: what [_serve_connection] writes to its socket arrives (a
      closed socket is an event of the reading side).
    - Loggers that do not reach the root logger's handlers, such as the
      server's own. *)
From Stdlib Require Export ZArith Lia.
From stdpp Require Export base option list strings numbers decidable.

(** ** Identifiers and instants

    [UUID] is the 128-bit integer behind a Python [uuid.UUID].  A [timestamp]
    is an aware Python [datetime] (or a PostgreSQL [timestamptz]) counted in
    microseconds since the Unix epoch, the resolution both share; a
    [timedelta] is a difference of two of them. *)
Abbreviation UUID := N.
Abbreviation timestamp := Z.
Abbreviation timedelta := Z.

Definition microseconds_per_second : Z := 1000000.
Definition seconds (n : Z) : timedelta := (n * microseconds_per_second)%Z.
Definition minutes (n : Z) : timedelta := seconds (60 * n).
Definition hours (n : Z) : timedelta := minutes (60 * n).
Definition days (n : Z) : timedelta := hours (24 * n).

(** ** Exceptions and outcomes

    One constructor per exception class the modelled code raises or catches.
    [BackendUnavailableError] is what [app/database.py] turns an error of the
    driver into: a [PostgresError], an [InterfaceError], an [OSError] or its
    subclass [TimeoutError]. *)
Inductive exn :=
| ValueError
| TypeError
| RuntimeError
| KeyError
| UnicodeEncodeError
| BackendUnavailableError
| PostgresError
| InterfaceError
| OSError
| TimeoutError
| ConnectionLimitError
| TransferError
| TransferCapacityError
| OtpRateLimitedError
| OtpInvalidError
| InvalidOtpError
| AuthGatewayUnavailableError
| TurnCredentialProviderError
| DeviceAuthFailure
| DeviceLinkingRateLimited
| DeviceCryptoError
| TurnAuthorizationError
| TurnCredentialRateLimitedError
| TurnProviderUnavailableError
| ConfigurationError
| UnsupportedAlgorithm
| HTTPException (status_code : Z).

#[export] Instance exn_eq_dec : EqDecision exn.
Proof. solve_decision. Defined.

Inductive outcome (A : Type) :=
| Ok (a : A)
| Raise (e : exn).
Arguments Ok {A} a.
Arguments Raise {A} e.

#[export] Instance outcome_eq_dec {A} `{!EqDecision A} : EqDecision (outcome A).
Proof. solve_decision. Defined.

(** [isinstance(error, cls)] for the class hierarchy of the code: a
    [TransferCapacityError] is a [TransferError], which is a [ValueError]. *)
Definition is_transfer_error (e : exn) : bool :=
  match e with TransferError | TransferCapacityError => true | _ => false end.

Definition is_value_error (e : exn) : bool :=
  match e with
  | ValueError | UnicodeEncodeError | TransferError | TransferCapacityError
  | OtpInvalidError | InvalidOtpError | DeviceAuthFailure | DeviceLinkingRateLimited
  | DeviceCryptoError | TurnAuthorizationError | ConfigurationError => true
  | _ => false
  end.

Definition is_runtime_error (e : exn) : bool :=
  match e with
  | RuntimeError | BackendUnavailableError | ConnectionLimitError
  | OtpRateLimitedError | TurnCredentialRateLimitedError
  | AuthGatewayUnavailableError | TurnCredentialProviderError
  | TurnProviderUnavailableError => true
  | _ => false
  end.

(** ** Computations

    A coroutine of the program is a function of the state it can reach.  A
    Python exception does not undo the mutations made before it, so the state
    is returned on both outcomes. *)
Definition M (S A : Type) : Type := S → outcome A * S.

Definition ret {S A} (a : A) : M S A := λ s, (Ok a, s).
Definition raise {S A} (e : exn) : M S A := λ s, (Raise e, s).
Definition bind {S A B} (m : M S A) (k : A → M S B) : M S B :=
  λ s, match m s with
       | (Ok a, s') => k a s'
       | (Raise e, s') => (Raise e, s')
       end.
Definition gets {S A} (f : S → A) : M S A := λ s, (Ok (f s), s).
Definition modify {S} (f : S → S) : M S unit := λ s, (Ok tt, f s).
Definition lift {S A} (o : outcome A) : M S A := λ s, (o, s).

Lemma bind_ok_inv {S A B} (m : M S A) (k : A → M S B) s b s' :
  bind m k s = (Ok b, s') → ∃ a s1, m s = (Ok a, s1) ∧ k a s1 = (Ok b, s').
Proof. unfold bind. destruct (m s) as [[a|e] s1]; [eauto|done]. Qed.

(** [try: m except E as error: h error], the handler taking the exceptions
    [catches] selects. *)
Definition try_except {S A} (m : M S A) (catches : exn → bool) (h : exn → M S A) : M S A :=
  λ s, match m s with
       | (Raise e, s') => if catches e then h e s' else (Raise e, s')
       | r => r
       end.

Declare Scope py_scope.
Delimit Scope py_scope with py.
Notation "'let!' x := m 'in' k" := (bind m (λ x, k))
  (at level 10, x name, m at level 100, k at level 200) : py_scope.
Notation "'do!' m 'in' k" := (bind m (λ _, k))
  (at level 10, m at level 100, k at level 200) : py_scope.
Open Scope py_scope.

(** [for x in l: body x] *)
Fixpoint for_each {S A} (body : A → M S unit) (l : list A) : M S unit :=
  match l with
  | [] => ret tt
  | x :: l' => do! body x in for_each body l'
  end.

(** Run a computation on a part of the state. *)
Definition zoom {S T A} (get : S → T) (put : T → S → S) (m : M T A) : M S A :=
  λ s, let '(o, t) := m (get s) in (o, put t s).

(** ** Relations preserved by computations

    [respects R m]: whatever [m] returns or raises, its final state is related
    to its initial state.  For a preorder [R] this is compositional, and the
    hints below let [auto with respects] walk through a handler's body. *)
Definition respects {S A} (R : S → S → Prop) (m : M S A) : Prop :=
  ∀ s, R s (m s).2.

Section respects.
Context {S : Type} (R : S → S → Prop) `{!PreOrder R}.

Lemma respects_ret {A} (a : A) : respects R (ret a).
Proof. intros s. simpl. reflexivity. Qed.

Lemma respects_raise {A} e : respects R (@raise S A e).
Proof. intros s. simpl. reflexivity. Qed.

Lemma respects_gets {A} (f : S → A) : respects R (gets f).
Proof. intros s. simpl. reflexivity. Qed.

Lemma respects_lift {A} (o : outcome A) : respects R (@lift S A o).
Proof. intros s. simpl. reflexivity. Qed.

Lemma respects_bind {A B} (m : M S A) (k : A → M S B) :
  respects R m → (∀ a, respects R (k a)) → respects R (bind m k).
Proof.
  intros Hm Hk s. unfold bind. specialize (Hm s).
  destruct (m s) as [[a|e] s']; simpl in *; [|done].
  etrans; [exact Hm|apply Hk].
Qed.

Lemma respects_try {A} (m : M S A) c h :
  respects R m → (∀ e, respects R (h e)) → respects R (try_except m c h).
Proof.
  intros Hm Hh s. unfold try_except. specialize (Hm s).
  destruct (m s) as [[a|e] s']; simpl in *; [done|].
  destruct (c e); simpl; [etrans; [exact Hm|apply Hh]|done].
Qed.

Lemma respects_for_each {A} (body : A → M S unit) l :
  (∀ x, respects R (body x)) → respects R (for_each body l).
Proof.
  intros Hb. induction l as [|x l IH]; simpl.
  - apply respects_ret.
  - apply respects_bind; auto.
Qed.
End respects.

(** [zoom] runs the computation on its part and leaves the rest. *)
Lemma zoom_fst {S T A} (g : S → T) (p : T → S → S) (m : M T A) s :
  (zoom g p m s).1 = (m (g s)).1.
Proof. unfold zoom. by destruct (m (g s)). Qed.

Lemma zoom_snd {S T A} (g : S → T) (p : T → S → S) (m : M T A) s :
  (zoom g p m s).2 = p (m (g s)).2 s.
Proof. unfold zoom. by destruct (m (g s)). Qed.

(** The preorder that turns [respects] into preservation of an invariant. *)
Definition keeps {S} (I : S → Prop) : S → S → Prop := λ s s', I s → I s'.

#[export] Instance keeps_preorder {S} (I : S → Prop) : PreOrder (keeps I).
Proof. split; [intros s H; exact H|intros x y z H1 H2 H; auto]. Qed.

Create HintDb respects.
#[export] Hint Resolve respects_ret respects_raise respects_gets respects_lift
  respects_bind respects_try respects_for_each : respects.
#[export] Hint Extern 1 (PreOrder _) => typeclasses eauto : respects.

(** ** Tactics of the development *)

(** Case on the innermost scrutinee of a [match] or [if] of the goal or of a
    hypothesis, keeping its equation. *)
Ltac case_match_goal :=
  match goal with
  | |- context [match ?x with _ => _ end] =>
      lazymatch x with
      | context [match _ with _ => _ end] => fail
      | _ => let H := fresh "Hm" in destruct x eqn:H
      end
  end.

Ltac case_match_in Hyp :=
  match type of Hyp with
  | context [match ?x with _ => _ end] =>
      lazymatch x with
      | context [match _ with _ => _ end] => fail
      | _ => let H := fresh "Hm" in destruct x eqn:H
      end
  end.

(** Boolean guards of the code to propositions. *)
Ltac to_prop :=
  repeat match goal with
  | H : _ && _ = true |- _ => apply andb_true_iff in H as [? ?]
  | H : _ || _ = false |- _ => apply orb_false_iff in H as [? ?]
  | H : negb _ = true |- _ => apply negb_true_iff in H
  | H : negb _ = false |- _ => apply negb_false_iff in H
  | H : bool_decide _ = true |- _ => apply bool_decide_eq_true in H
  | H : bool_decide _ = false |- _ => apply bool_decide_eq_false in H
  | H : (_ <=? _)%Z = true |- _ => apply Z.leb_le in H
  | H : (_ <=? _)%Z = false |- _ => apply Z.leb_gt in H
  | H : (_ <? _)%Z = true |- _ => apply Z.ltb_lt in H
  | H : (_ <? _)%Z = false |- _ => apply Z.ltb_ge in H
  | H : (_ =? _)%Z = true |- _ => apply Z.eqb_eq in H
  | H : (_ =? _)%Z = false |- _ => apply Z.eqb_neq in H
  | H : (_ <=? _)%nat = true |- _ => apply Nat.leb_le in H
  | H : (_ <=? _)%nat = false |- _ => apply Nat.leb_gt in H
  | H : (_ <? _)%nat = true |- _ => apply Nat.ltb_lt in H
  | H : (_ <? _)%nat = false |- _ => apply Nat.ltb_ge in H
  end.

(** [x is None], and SQL's [IS NULL] *)
Definition is_null {A} (o : option A) : bool := match o with None => true | Some _ => false end.

(** ** Generic lemmas on lists *)

Definition sum_Z (l : list Z) : Z := foldr Z.add 0%Z l.

Lemma sum_Z_app l1 l2 : sum_Z (l1 ++ l2) = (sum_Z l1 + sum_Z l2)%Z.
Proof. induction l1 as [|x l1 IH]; simpl; [done|]. rewrite IH. lia. Qed.

Lemma sum_Z_nonneg l : Forall (λ x, 0 ≤ x)%Z l → (0 ≤ sum_Z l)%Z.
Proof. induction 1; simpl; lia. Qed.

(** [next((x for x in l if p x), None)] *)
Fixpoint first_match {A} (p : A → bool) (l : list A) : option A :=
  match l with
  | [] => None
  | x :: l' => if p x then Some x else first_match p l'
  end.

Lemma first_match_Some {A} (p : A → bool) l x :
  first_match p l = Some x → x ∈ l ∧ p x = true.
Proof.
  induction l as [|y l IH]; simpl; [done|].
  destruct (p y) eqn:Hp; intros H.
  - simplify_eq. split; [left|done].
  - destruct (IH H). split; [by right|done].
Qed.

Lemma first_match_None {A} (p : A → bool) l :
  first_match p l = None ↔ ∀ x, x ∈ l → p x = false.
Proof.
  induction l as [|y l IH]; simpl.
  - split; [intros _ x Hx; by apply not_elem_of_nil in Hx|done].
  - destruct (p y) eqn:Hp; split.
    + done.
    + intros H. specialize (H y ltac:(left)). congruence.
    + intros H x [->|Hx]%elem_of_cons; [done|]. by apply IH.
    + intros H. apply IH. intros x Hx. apply H. by right.
Qed.

Lemma first_match_filter {A} (p : A → bool) l :
  first_match p l = head (List.filter p l).
Proof.
  induction l as [|x l IH]; simpl; [done|]. by destruct (p x).
Qed.

Lemma first_match_app {A} (p : A → bool) l1 l2 :
  first_match p (l1 ++ l2) = match first_match p l1 with Some x => Some x | None => first_match p l2 end.
Proof. induction l1 as [|x l1 IH]; simpl; [done|]. by destruct (p x). Qed.
