(* ===== verification/PyDict.v ===== *)
(** * PyDict: Python dictionaries

    A [dict] iterates over its items in insertion order, and assigning to a
    present key keeps the key's position.  Both are visible in the program
    ([list(d.values())], [next(...)] over the values), so a dictionary is the
    list of its items, with the operations of the language on it. *)
From S2P Require Import Prelude.
From stdpp Require Import list.

Abbreviation dict K V := (list (K * V)).

Section dict.
Context {K V : Type} `{!EqDecision K}.
Implicit Types (d : dict K V) (k : K) (v : V).

(** [d.get(k)] *)
Fixpoint dict_get (k : K) (d : dict K V) : option V :=
  match d with
  | [] => None
  | (k', v) :: d' => if decide (k = k') then Some v else dict_get k d'
  end.

(** [d[k] = v] *)
Fixpoint dict_set (k : K) (v : V) (d : dict K V) : dict K V :=
  match d with
  | [] => [(k, v)]
  | (k', v') :: d' => if decide (k = k') then (k, v) :: d' else (k', v') :: dict_set k v d'
  end.

(** [d.pop(k, None)] and [del d[k]] for a present key *)
Fixpoint dict_del (k : K) (d : dict K V) : dict K V :=
  match d with
  | [] => []
  | (k', v') :: d' => if decide (k = k') then d' else (k', v') :: dict_del k d'
  end.

Definition dict_values (d : dict K V) : list V := map snd d.
Definition dict_keys (d : dict K V) : list K := map fst d.

(** The representation invariant of a dictionary: keys are unique. *)
Definition dict_ok (d : dict K V) : Prop := NoDup (dict_keys d).

Lemma dict_get_set_eq k v d : dict_get k (dict_set k v d) = Some v.
Proof.
  induction d as [|[k' v'] d IH]; simpl; repeat case_decide; simpl;
    repeat case_decide; congruence.
Qed.

Lemma dict_get_set_ne k k' v d :
  k ≠ k' → dict_get k (dict_set k' v d) = dict_get k d.
Proof.
  intros Hne. induction d as [|[k0 v0] d IH]; simpl; repeat case_decide; simpl;
    repeat case_decide; congruence.
Qed.

Lemma dict_get_set k k' v d :
  dict_get k (dict_set k' v d) = if decide (k = k') then Some v else dict_get k d.
Proof.
  case_decide; [subst; apply dict_get_set_eq|by apply dict_get_set_ne].
Qed.

Lemma dict_get_Some_In k v d : dict_get k d = Some v → (k, v) ∈ d.
Proof.
  induction d as [|[k' v'] d IH]; simpl; [done|]. case_decide; intros Hg.
  - simplify_eq. left.
  - right. auto.
Qed.

Lemma dict_get_None k d : dict_get k d = None ↔ k ∉ dict_keys d.
Proof.
  induction d as [|[k' v'] d IH]; simpl; [split; [intros _; apply not_elem_of_nil|done]|].
  rewrite not_elem_of_cons. case_decide; [|by rewrite IH; intuition].
  split; [done|]. intros [? _]. done.
Qed.

Lemma dict_In_get k v d : dict_ok d → (k, v) ∈ d → dict_get k d = Some v.
Proof.
  unfold dict_ok. induction d as [|[k' v'] d IH]; simpl; intros Hnd Hin.
  - by apply not_elem_of_nil in Hin.
  - apply NoDup_cons in Hnd as [Hk Hnd]. apply elem_of_cons in Hin as [[= -> ->]|Hin].
    + by rewrite decide_True.
    + rewrite decide_False; [auto|]. intros ->. apply Hk.
      apply list_elem_of_fmap. by exists (k', v).
Qed.

Lemma dict_keys_set_in k v d : k ∈ dict_keys d → dict_keys (dict_set k v d) = dict_keys d.
Proof.
  induction d as [|[k' v'] d IH]; simpl; intros Hin; [by apply not_elem_of_nil in Hin|].
  case_decide; simpl; [congruence|]. f_equal. apply IH.
  by apply elem_of_cons in Hin as [?|?].
Qed.

Lemma dict_set_fresh k v d : k ∉ dict_keys d → dict_set k v d = d ++ [(k, v)].
Proof.
  induction d as [|[k' v'] d IH]; simpl; [done|]. intros Hk.
  apply not_elem_of_cons in Hk as [Hne Hk].
  rewrite decide_False by done. by rewrite IH.
Qed.

Lemma dict_set_set k v v' d : dict_set k v (dict_set k v' d) = dict_set k v d.
Proof.
  induction d as [|[k0 v0] d IH]; simpl; [by rewrite decide_True|].
  destruct (decide (k = k0)) as [->|]; simpl; [by rewrite decide_True|].
  rewrite decide_False by done. by rewrite IH.
Qed.

Lemma dict_keys_set_elem k k' v d :
  k ∈ dict_keys (dict_set k' v d) ↔ k = k' ∨ k ∈ dict_keys d.
Proof.
  destruct (decide (k' ∈ dict_keys d)) as [Hin|Hin].
  - rewrite dict_keys_set_in by done. split; [by right|]. by intros [->|?].
  - rewrite dict_set_fresh by done. unfold dict_keys. rewrite map_app.
    rewrite elem_of_app. simpl. rewrite list_elem_of_singleton. tauto.
Qed.

Lemma dict_ok_set k v d : dict_ok d → dict_ok (dict_set k v d).
Proof.
  unfold dict_ok. intros Hd. destruct (decide (k ∈ dict_keys d)) as [Hin|Hin].
  - by rewrite dict_keys_set_in.
  - rewrite dict_set_fresh by done. unfold dict_keys. rewrite map_app. simpl.
    apply NoDup_app. split_and!; [done| |apply NoDup_singleton].
    intros x Hx ->%list_elem_of_singleton. done.
Qed.

Lemma dict_del_keys_sub k x d : x ∈ dict_keys (dict_del k d) → x ∈ dict_keys d.
Proof.
  induction d as [|[k' v'] d IH]; simpl; [done|]. case_decide; simpl.
  - intros. by right.
  - intros [->|?]%elem_of_cons; [left|right; auto].
Qed.

Lemma dict_ok_del k d : dict_ok d → dict_ok (dict_del k d).
Proof.
  unfold dict_ok. induction d as [|[k' v'] d IH]; simpl; [done|].
  intros [Hk Hnd]%NoDup_cons. case_decide; [done|]. simpl. apply NoDup_cons.
  split; [|auto]. intros ?%dict_del_keys_sub. done.
Qed.

Lemma dict_get_del_eq k d : dict_ok d → dict_get k (dict_del k d) = None.
Proof.
  unfold dict_ok. induction d as [|[k' v'] d IH]; simpl; [done|].
  intros [Hk Hnd]%NoDup_cons. case_decide.
  - subst. by apply dict_get_None.
  - simpl. rewrite decide_False by done. auto.
Qed.

Lemma dict_get_del_ne k k' d : k ≠ k' → dict_get k (dict_del k' d) = dict_get k d.
Proof.
  intros Hne. induction d as [|[k0 v0] d IH]; simpl; [done|].
  repeat case_decide; simpl; repeat case_decide; congruence.
Qed.

Lemma dict_get_del k k' d :
  dict_ok d → dict_get k (dict_del k' d) = if decide (k = k') then None else dict_get k d.
Proof.
  intros Hd. case_decide; [subst; by apply dict_get_del_eq|by apply dict_get_del_ne].
Qed.

Lemma dict_values_In v d :
  dict_ok d → v ∈ dict_values d ↔ ∃ k, dict_get k d = Some v.
Proof.
  intros Hd. unfold dict_values. rewrite list_elem_of_fmap. split.
  - intros [[k v'] [-> Hin]]. exists k. by apply dict_In_get.
  - intros [k Hk]. exists (k, v). split; [done|]. by apply dict_get_Some_In.
Qed.

Lemma dict_ok_nil : dict_ok [].
Proof. apply NoDup_nil_2. Qed.

Lemma dict_ok_filter (p : K * V → bool) d : dict_ok d → dict_ok (List.filter p d).
Proof.
  unfold dict_ok. induction d as [|[k v] d IH]; simpl; [done|].
  intros [Hk Hnd]%NoDup_cons. destruct (p (k, v)); [|auto]. simpl.
  apply NoDup_cons. split; [|auto]. intros Hin. apply Hk.
  apply list_elem_of_fmap in Hin as [[k' v'] [-> Hin]].
  apply list_elem_of_In, filter_In in Hin as [Hin _].
  apply list_elem_of_fmap. exists (k', v'). split; [done|]. by apply list_elem_of_In.
Qed.

Lemma dict_get_filter (p : K * V → bool) k d :
  dict_ok d →
  dict_get k (List.filter p d) =
  match dict_get k d with Some v => if p (k, v) then Some v else None | None => None end.
Proof.
  unfold dict_ok. induction d as [|[k' v'] d IH]; simpl; [done|]. intros [Hk Hnd]%NoDup_cons.
  specialize (IH Hnd). destruct (decide (k = k')) as [->|Hne].
  - destruct (p (k', v')); simpl; [by rewrite decide_True|].
    rewrite IH. apply dict_get_None in Hk. by rewrite Hk.
  - destruct (p (k', v')); simpl; [by rewrite decide_False|done].
Qed.

(** *** Sums over the values of a dictionary *)
Section sums.
Variable f : K → V → Z.

Definition dict_sum (d : dict K V) : Z := sum_Z (map (λ kv, f kv.1 kv.2) d).

(** The summand of a key, zero when the key is absent. *)
Definition summand (k : K) (d : dict K V) : Z :=
  match dict_get k d with Some v => f k v | None => 0%Z end.

Lemma dict_sum_set k v d :
  dict_sum (dict_set k v d) = (dict_sum d - summand k d + f k v)%Z.
Proof.
  unfold dict_sum, summand. induction d as [|[k' v'] d IH]; simpl; [lia|].
  case_decide; simpl; [subst; lia|]. rewrite IH. lia.
Qed.

Lemma dict_sum_del k d : dict_sum (dict_del k d) = (dict_sum d - summand k d)%Z.
Proof.
  unfold dict_sum, summand. induction d as [|[k' v'] d IH]; simpl; [lia|].
  case_decide; simpl; [subst; lia|]. rewrite IH. lia.
Qed.

Lemma dict_sum_nonneg d : (∀ k v, 0 ≤ f k v)%Z → (0 ≤ dict_sum d)%Z.
Proof.
  intros Hf. apply sum_Z_nonneg, Forall_forall. intros x Hx.
  apply list_elem_of_fmap in Hx as [[k v] [-> _]]. apply Hf.
Qed.

Lemma dict_sum_lookup_le k v d :
  (∀ k v, 0 ≤ f k v)%Z → dict_get k d = Some v → (f k v ≤ dict_sum d)%Z.
Proof.
  intros Hf Hk. pose proof (dict_sum_nonneg (dict_del k d) Hf) as H.
  rewrite dict_sum_del in H. unfold summand in H. rewrite Hk in H. lia.
Qed.
End sums.
End dict.

Lemma dict_sum_ext {K V} `{!EqDecision K} (f g : K → V → Z) (d : dict K V) :
  (∀ k v, (k, v) ∈ d → f k v = g k v) → dict_sum f d = dict_sum g d.
Proof.
  unfold dict_sum. induction d as [|[k v] d IH]; simpl; intros H; [done|].
  rewrite H by left. rewrite IH; [done|]. intros. apply H. by right.
Qed.

Create HintDb pydict.
#[export] Hint Resolve dict_ok_set dict_ok_del dict_ok_nil dict_ok_filter : pydict.
#[export] Hint Rewrite @dict_get_set_eq : pydict.
