(* ===== verification/Json.v ===== *)
(** * Json: Python text and JSON values

    Python [str] values received from a peer are sequences of code points, a
    lone surrogate included ([json.loads] accepts them), so their UTF-8
    encoding can raise.  JSON values are what [json.loads] builds; a float is
    kept by its [repr], the text [json.dumps] writes for it. *)
From S2P Require Import Prelude PyDict.
From stdpp Require Import list strings pretty.
From Stdlib Require Import Ascii.

Abbreviation pystr := (list N).

(** The code points of an ASCII literal. *)
Fixpoint u (s : string) : pystr :=
  match s with
  | EmptyString => []
  | String a s' => N_of_ascii a :: u s'
  end.

(** Lexicographic order of code points, the order of [str]. *)
Fixpoint pystr_leb (a b : pystr) : bool :=
  match a, b with
  | [], _ => true
  | _ :: _, [] => false
  | x :: a', y :: b' => if (x <? y)%N then true else if (y <? x)%N then false else pystr_leb a' b'
  end.

(** ** UTF-8 *)

(** [c.encode("utf-8")] for one code point; surrogates do not encode. *)
Definition utf8_char (c : N) : option (list N) :=
  (if c <? 128 then Some [c]
   else if c <? 2048 then Some [192 + c / 64; 128 + c mod 64]
   else if (55296 <=? c) && (c <=? 57343) then None
   else if c <? 65536 then Some [224 + c / 4096; 128 + c / 64 mod 64; 128 + c mod 64]
   else if c <? 1114112
   then Some [240 + c / 262144; 128 + c / 4096 mod 64; 128 + c / 64 mod 64; 128 + c mod 64]
   else None)%N.

Fixpoint utf8 (s : pystr) : outcome (list N) :=
  match s with
  | [] => Ok []
  | c :: s' =>
      match utf8_char c, utf8 s' with
      | Some b, Ok bs => Ok (b ++ bs)
      | _, _ => Raise UnicodeEncodeError
      end
  end.

(** [len(s.encode("utf-8"))] *)
Definition utf8_len (s : pystr) : outcome Z :=
  match utf8 s with
  | Ok bs => Ok (Z.of_nat (length bs))
  | Raise e => Raise e
  end.

(** ** JSON *)
Inductive json :=
| JNull
| JBool (b : bool)
| JInt (z : Z)
| JFloat (repr : string)
| JStr (s : pystr)
| JList (l : list json)
| JObj (members : list (pystr * json)).

(** Hashable values: a list or a dict in a set membership test raises. *)
Definition hashable (j : json) : bool :=
  match j with JList _ | JObj _ => false | _ => true end.

(** [d.get(key)], with Python's [None] for a missing key. *)
Definition get_member (key : string) (d : dict pystr json) : json :=
  default JNull (dict_get (u key) d).

(** [j == z] for an integer [z]: Python compares numbers by value. *)
Definition eq_int (j : json) (z : Z) : bool :=
  match j with
  | JInt z' => (z' =? z)%Z
  | JBool b => (Z.b2z b =? z)%Z
  | JFloat repr => bool_decide (repr = (pretty z +:+ ".0")%string)
  | _ => false
  end.

(** [j == s] for a string literal *)
Definition eq_str (j : json) (s : pystr) : bool :=
  match j with JStr s' => bool_decide (s' = s) | _ => false end.

(** [set(d) == {...}] *)
Definition keys_are (d : dict pystr json) (names : list string) : bool :=
  forallb (λ k, bool_decide (k ∈ map u names)) (dict_keys d) &&
  forallb (λ n, bool_decide (u n ∈ dict_keys d)) names.

(** [set(d).issubset({...})] *)
Definition keys_within (d : dict pystr json) (names : list string) : bool :=
  forallb (λ k, bool_decide (k ∈ map u names)) (dict_keys d).

(** ** [json.dumps(value, separators=(",", ":"), ensure_ascii=ascii)] *)
Definition hex_digit (n : N) : N := (if n <? 10 then 48 + n else 87 + n)%N.

Definition u_escape (n : N) : pystr :=
  u "\u" ++ [hex_digit (n / 4096 mod 16); hex_digit (n / 256 mod 16);
             hex_digit (n / 16 mod 16); hex_digit (n mod 16)]%N.

Definition escape_char (ascii : bool) (c : N) : pystr :=
  if (c =? 34)%N then u "\" ++ [34%N]
  else if (c =? 92)%N then u "\\"
  else if (c =? 10)%N then u "\n"
  else if (c =? 13)%N then u "\r"
  else if (c =? 9)%N then u "\t"
  else if (c =? 8)%N then u "\b"
  else if (c =? 12)%N then u "\f"
  else if (c <? 32)%N then u_escape c
  else if ascii && (126 <? c)%N then
    if (c <? 65536)%N then u_escape c
    else u_escape (55296 + (c - 65536) / 1024)%N ++ u_escape (56320 + (c - 65536) mod 1024)%N
  else [c].

Definition dumps_str (ascii : bool) (s : pystr) : pystr :=
  [34%N] ++ mjoin (map (escape_char ascii) s) ++ [34%N].

Fixpoint intersperse (sep : pystr) (l : list pystr) : pystr :=
  match l with
  | [] => []
  | [x] => x
  | x :: l' => x ++ sep ++ intersperse sep l'
  end.

Fixpoint dumps (ascii : bool) (j : json) : pystr :=
  match j with
  | JNull => u "null"
  | JBool true => u "true"
  | JBool false => u "false"
  | JInt z => u (pretty z)
  | JFloat repr => u repr
  | JStr s => dumps_str ascii s
  | JList l => u "[" ++ intersperse (u ",") (map (dumps ascii) l) ++ u "]"
  | JObj ms => u "{" ++ intersperse (u ",")
      (map (λ m, dumps_str ascii m.1 ++ u ":" ++ dumps ascii m.2) ms) ++ u "}"
  end.

(** ** [json.loads(raw, object_pairs_hook=_json_object_no_duplicates)]

    The decoder hands every object's member pairs to the hook, innermost
    objects first.  A parse tree carries those pairs as they were written. *)
Inductive tree :=
| TAtom (j : json)
| TList (l : list tree)
| TPairs (pairs : list (pystr * tree)).

(** [_json_object_no_duplicates] *)
Fixpoint _json_object_no_duplicates (result : dict pystr json) (pairs : list (pystr * json)) :
    outcome (dict pystr json) :=
  match pairs with
  | [] => Ok result
  | (key, value) :: pairs' =>
      match dict_get key result with
      | Some _ => Raise ValueError
      | None => _json_object_no_duplicates (dict_set key value result) pairs'
      end
  end.

Fixpoint loads (t : tree) : outcome json :=
  match t with
  | TAtom j => Ok j
  | TList l =>
      (fix go l := match l with
       | [] => Ok (JList [])
       | t :: l' =>
           match loads t, go l' with
           | Ok j, Ok (JList js) => Ok (JList (j :: js))
           | Raise e, _ => Raise e
           | _, Raise e => Raise e
           | _, _ => Raise ValueError
           end
       end) l
  | TPairs pairs =>
      let values := (fix go pairs := match pairs with
        | [] => Ok []
        | (k, t) :: pairs' =>
            match loads t with
            | Raise e => Raise e
            | Ok j => match go pairs' with Ok js => Ok ((k, j) :: js) | Raise e => Raise e end
            end
        end) pairs in
      match values with
      | Raise e => Raise e
      | Ok values =>
          match _json_object_no_duplicates [] values with
          | Ok d => Ok (JObj d)
          | Raise e => Raise e
          end
      end
  end.

(** The hook accepts exactly the member lists without a repeated name, and
    then builds the dictionary that holds them in order. *)
Lemma no_duplicates_app result pairs d :
  dict_ok result → _json_object_no_duplicates result pairs = Ok d → d = result ++ pairs ∧ dict_ok d.
Proof.
  revert result. induction pairs as [|[k v] pairs IH]; intros result Hok; simpl.
  - intros. simplify_eq. by rewrite app_nil_r.
  - destruct (dict_get k result) eqn:Hg; [done|]. intros H.
    apply IH in H as [-> ?]; [|by apply dict_ok_set]. apply dict_get_None in Hg.
    rewrite dict_set_fresh in * by done. by rewrite <- app_assoc in *.
Qed.

Lemma no_duplicates_ok result pairs :
  dict_ok (result ++ pairs) → _json_object_no_duplicates result pairs = Ok (result ++ pairs).
Proof.
  revert result. induction pairs as [|[k v] pairs IH]; intros result Hok; simpl.
  - by rewrite app_nil_r.
  - assert (k ∉ dict_keys result) as Hk.
    { unfold dict_ok, dict_keys in Hok. rewrite map_app in Hok. apply NoDup_app in Hok as (_&H&_).
      intros Hin. apply (H k Hin). left. }
    assert (dict_get k result = None) as -> by by apply dict_get_None.
    rewrite dict_set_fresh by done. rewrite IH; rewrite <- app_assoc; done.
Qed.

(** Messages of ASCII text always encode, one byte per character. *)
Lemma utf8_ascii s : Forall (λ c, c < 128)%N s → utf8 s = Ok s.
Proof.
  induction 1 as [|c s Hc _ IH]; simpl; [done|]. rewrite IH. unfold utf8_char.
  apply N.ltb_lt in Hc. by rewrite Hc.
Qed.
