(* ===== verification/Calendar.v ===== *)
(** * Calendar: [datetime.isoformat] of an aware UTC instant

    The text of an instant, as the notifications and the signed challenges
    carry it, and that the text determines the instant. *)
From S2P Require Import Prelude Json.
From stdpp Require Import list strings.

Fixpoint digits (k : nat) (n : Z) : pystr :=
  match k with
  | O => []
  | S k' => digits k' (n / 10)%Z ++ [Z.to_N (48 + n mod 10)%Z]
  end.

(** Year, month and day of a day count since 1970-01-01, in the proleptic
    Gregorian calendar. *)
Definition civil_from_days (d : Z) : Z * Z * Z :=
  (let z := d + 719468 in
   let era := z / 146097 in
   let doe := z mod 146097 in
   let yoe := (doe - doe / 1460 + doe / 36524 - doe / 146096) / 365 in
   let doy := doe - (365 * yoe + yoe / 4 - yoe / 100) in
   let mp := (5 * doy + 2) / 153 in
   let day := doy - (153 * mp + 2) / 5 + 1 in
   let month := if mp <? 10 then mp + 3 else mp - 9 in
   (yoe + era * 400 + (if month <=? 2 then 1 else 0), month, day))%Z.

(** Date and time of day, to the second. *)
Definition iso_seconds (t : timestamp) : pystr :=
  let secs := (t / microseconds_per_second)%Z in
  let '(y, m, d) := civil_from_days (secs / 86400) in
  let s := (secs mod 86400)%Z in
  digits 4 y ++ u "-" ++ digits 2 m ++ u "-" ++ digits 2 d ++ u "T" ++
  digits 2 (s / 3600) ++ u ":" ++ digits 2 (s / 60 mod 60) ++ u ":" ++ digits 2 (s mod 60).

Definition isoformat (t : timestamp) : pystr :=
  let us := (t mod microseconds_per_second)%Z in
  iso_seconds t ++ (if (us =? 0)%Z then [] else u "." ++ digits 6 us) ++ u "+00:00".

(** [isoformat(timespec="microseconds").replace("+00:00", "Z")] *)
Definition isoformat_z (t : timestamp) : pystr :=
  iso_seconds t ++ u "." ++ digits 6 (t mod microseconds_per_second)%Z ++ u "Z".

Example isoformat_1 : isoformat 1756284905123456 = u "2025-08-27T08:55:05.123456+00:00".
Proof. reflexivity. Qed.
Example isoformat_2 : isoformat (seconds 951782399) = u "2000-02-28T23:59:59+00:00".
Proof. reflexivity. Qed.

(** ** The text determines the instant *)

(** The instants a [datetime] represents: years 1 to 9999. *)
Definition datetime_range (t : timestamp) : Prop := (seconds (-62135596800) ≤ t < seconds 253402300800)%Z.

Lemma digits_length k n : length (digits k n) = k.
Proof. revert n. induction k as [|k IH]; intros n; simpl; [done|]. rewrite length_app, IH. simpl. lia. Qed.

Lemma digits_inj k a b :
  (0 ≤ a < 10 ^ Z.of_nat k)%Z → (0 ≤ b < 10 ^ Z.of_nat k)%Z → digits k a = digits k b → a = b.
Proof.
  revert a b. induction k as [|k IH]; intros a b Ha Hb; simpl; [lia|].
  rewrite Nat2Z.inj_succ, Z.pow_succ_r in * by lia. intros [Hq Hr]%app_inj_2; [|done].
  apply IH in Hq; [|split; [apply Z.div_pos|apply Z.div_lt_upper_bound]; lia..].
  injection Hr as Hr. pose proof (Z.mod_pos_bound a 10). pose proof (Z.mod_pos_bound b 10).
  rewrite (Z.div_mod a 10), (Z.div_mod b 10) by done. lia.
Qed.

(** The calendar fields of the day [z] of the era [era]. *)
Lemma civil_fields d : ∃ era yoe doy mp,
  (d + 719468 = era * 146097 + (365 * yoe + yoe / 4 - yoe / 100 + doy) ∧
   0 ≤ yoe < 400 ∧ 0 ≤ doy ≤ 365 ∧ mp = (5 * doy + 2) / 153 ∧
   civil_from_days d = (yoe + era * 400 + (if (if mp <? 10 then mp + 3 else mp - 9) <=? 2 then 1 else 0),
     (if mp <? 10 then mp + 3 else mp - 9), doy - (153 * mp + 2) / 5 + 1))%Z.
Proof.
  set (z := (d + 719468)%Z). set (doe := (z mod 146097)%Z).
  set (yoe := ((doe - doe / 1460 + doe / 36524 - doe / 146096) / 365)%Z).
  set (doy := (doe - (365 * yoe + yoe / 4 - yoe / 100))%Z).
  exists (z / 146097)%Z, yoe, doy, ((5 * doy + 2) / 153)%Z.
  assert (0 ≤ doe < 146097)%Z as Hdoe by by apply Z.mod_pos_bound.
  split_and!; try done.
  - unfold doy. pose proof (Z.div_mod z 146097). fold doe in H. lia.
  - unfold yoe. clearbody doe. clear -Hdoe. Z.to_euclidean_division_equations; lia.
  - unfold yoe. clearbody doe. clear -Hdoe. Z.to_euclidean_division_equations; lia.
  - unfold doy, yoe. clearbody doe. clear -Hdoe. Z.to_euclidean_division_equations; lia.
  - unfold doy, yoe. clearbody doe. clear -Hdoe. Z.to_euclidean_division_equations; lia.
Qed.

Lemma civil_from_days_inj d d' : civil_from_days d = civil_from_days d' → d = d'.
Proof.
  intros Heq.
  destruct (civil_fields d) as (era&yoe&doy&mp&Hd&Hy&Hdoy&Hmp&Hc).
  destruct (civil_fields d') as (era'&yoe'&doy'&mp'&Hd'&Hy'&Hdoy'&Hmp'&Hc').
  rewrite Hc, Hc' in Heq. injection Heq as Hyear Hmonth Hday.
  assert (0 ≤ mp ≤ 11 ∧ 0 ≤ mp' ≤ 11)%Z by (subst; Z.to_euclidean_division_equations; lia).
  assert (mp = mp') as Hm.
  { destruct (Z.ltb_spec mp 10), (Z.ltb_spec mp' 10); lia. }
  rewrite <- Hm in *. assert (doy = doy') by lia. assert (yoe + era * 400 = yoe' + era' * 400)%Z by lia.
  assert (era = era' ∧ yoe = yoe') as [-> ->] by lia. lia.
Qed.

Lemma civil_bounds d : ∃ y m dd, civil_from_days d = (y, m, dd) ∧ (1 ≤ m ≤ 12 ∧ 1 ≤ dd ≤ 31)%Z ∧
  (-719162 ≤ d < 2932897 → 1 ≤ y ≤ 9999)%Z.
Proof.
  destruct (civil_fields d) as (era&yoe&doy&mp&Hd&Hy&Hdoy&Hmp&Hc). do 3 eexists. split; [exact Hc|].
  clear Hc.
  assert (153 * mp ≤ 5 * doy + 2 < 153 * mp + 153)%Z as Hmp'.
  { subst mp. pose proof (Z.div_mod (5 * doy + 2) 153). pose proof (Z.mod_pos_bound (5 * doy + 2) 153). lia. }
  clear Hmp. split.
  - split; [destruct (Z.ltb_spec mp 10); lia|].
    clear -Hmp' Hdoy. Z.to_euclidean_division_equations. lia.
  - intros Hr.
    assert (4 * (yoe / 4) ≤ yoe < 4 * (yoe / 4) + 4 ∧ 100 * (yoe / 100) ≤ yoe < 100 * (yoe / 100) + 100)%Z as Hq.
    { clear -Hy. Z.to_euclidean_division_equations. lia. }
    assert (0 ≤ era ≤ 24)%Z by lia.
    destruct (Z.ltb_spec mp 10), (Z.leb_spec (mp + 3) 2), (Z.leb_spec (mp - 9) 2); lia.
Qed.

Lemma iso_seconds_length t : length (iso_seconds t) = 19%nat.
Proof.
  unfold iso_seconds. destruct (civil_from_days _) as [[y m] d]. rewrite !length_app, !digits_length. reflexivity.
Qed.

(** Two runs of digits that start equal texts are equal numbers. *)
Lemma digits_app_inj k a b r r' :
  (0 ≤ a < 10 ^ Z.of_nat k)%Z → (0 ≤ b < 10 ^ Z.of_nat k)%Z →
  digits k a ++ r = digits k b ++ r' → a = b ∧ r = r'.
Proof.
  intros Ha Hb [Hd Hr]%app_inj_1; [|by rewrite !digits_length]. split; [by apply (digits_inj k)|done].
Qed.

Lemma iso_seconds_inj t t' :
  datetime_range t → datetime_range t' → iso_seconds t = iso_seconds t' →
  (t / microseconds_per_second = t' / microseconds_per_second)%Z.
Proof.
  unfold datetime_range, iso_seconds, seconds, microseconds_per_second. intros Ht Ht'.
  assert (∀ t, -62135596800 * 1000000 ≤ t < 253402300800 * 1000000 →
    -719162 ≤ t / 1000000 / 86400 < 2932897)%Z as Hdays.
  { intros x Hx. Z.to_euclidean_division_equations. lia. }
  pose proof (Hdays t Ht) as Hd. pose proof (Hdays t' Ht') as Hd'.
  set (s := (t / 1000000)%Z) in *. set (s' := (t' / 1000000)%Z) in *. clearbody s s'. clear Hdays Ht Ht'.
  destruct (civil_bounds (s / 86400)) as (y&m&d&Hc&Hm&Hy).
  destruct (civil_bounds (s' / 86400)) as (y'&m'&d'&Hc'&Hm'&Hy'). specialize (Hy Hd). specialize (Hy' Hd').
  rewrite Hc, Hc'. intros Heq.
  assert (0 ≤ s mod 86400 < 86400 ∧ 0 ≤ s' mod 86400 < 86400)%Z as [Hs Hs'] by (split; by apply Z.mod_pos_bound).
  assert (∀ x, 0 ≤ x < 86400 → 0 ≤ x / 3600 < 100 ∧ 0 ≤ x / 60 mod 60 < 100 ∧ 0 ≤ x mod 60 < 100)%Z as Hb.
  { intros x Hx. Z.to_euclidean_division_equations. lia. }
  pose proof (Hb _ Hs) as (?&?&?). pose proof (Hb _ Hs') as (?&?&?).
  apply digits_app_inj in Heq as [-> Heq]; [|simpl; lia..]. apply app_inv_head in Heq.
  apply digits_app_inj in Heq as [-> Heq]; [|simpl; lia..]. apply app_inv_head in Heq.
  apply digits_app_inj in Heq as [-> Heq]; [|simpl; lia..]. apply app_inv_head in Heq.
  apply digits_app_inj in Heq as [Hh Heq]; [|simpl; lia..]. apply app_inv_head in Heq.
  apply digits_app_inj in Heq as [Hmin Heq]; [|simpl; lia..]. apply app_inv_head in Heq.
  apply digits_inj in Heq; [|simpl; lia..].
  rewrite <- Hc' in Hc. apply civil_from_days_inj in Hc.
  rewrite (Z.div_mod s 86400), (Z.div_mod s' 86400) by done. rewrite Hc.
  clear -Hs Hs' Hh Hmin Heq. revert Hs Hs' Hh Hmin Heq.
  generalize (s mod 86400)%Z (s' mod 86400)%Z. intros x x'. Z.to_euclidean_division_equations. lia.
Qed.

Lemma isoformat_z_inj t t' :
  datetime_range t → datetime_range t' → isoformat_z t = isoformat_z t' → t = t'.
Proof.
  unfold isoformat_z. intros Ht Ht' Heq. apply app_inj_1 in Heq as [Hs Heq]; [|by rewrite !iso_seconds_length].
  apply iso_seconds_inj in Hs; [|done..]. apply app_inv_head in Heq.
  assert (∀ x, 0 ≤ x mod microseconds_per_second < 10 ^ Z.of_nat 6)%Z as Hb by (intros; by apply Z.mod_pos_bound).
  apply digits_app_inj in Heq as [Hus _]; [|done..].
  rewrite (Z.div_mod t microseconds_per_second), (Z.div_mod t' microseconds_per_second) by done. congruence.
Qed.

Lemma isoformat_z_length t : length (isoformat_z t) = 27%nat.
Proof. unfold isoformat_z. by rewrite !length_app, iso_seconds_length, digits_length. Qed.
