(* ===== verification/JsonText.v ===== *)
(** * JsonText: a text determines what it encodes

    UTF-8 is injective, and so is [json.dumps] on the values the program signs:
    objects of strings, integers, booleans and nulls. *)
From Stdlib Require Import Ascii.
From S2P Require Import Prelude PyDict Json.
From stdpp Require Import list strings pretty.

(** ** UTF-8 *)
(** The base-64 digits of a code point. *)
Lemma sextets c :
  (c = 64 * (c / 64) + c mod 64 ∧ 0 ≤ c mod 64 < 64 ∧
   c / 64 = 64 * (c / 4096) + c / 64 mod 64 ∧ 0 ≤ c / 64 mod 64 < 64 ∧
   c / 4096 = 64 * (c / 262144) + c / 4096 mod 64 ∧ 0 ≤ c / 4096 mod 64 < 64)%N.
Proof.
  assert (c / 4096 = c / 64 / 64 ∧ c / 262144 = c / 4096 / 64)%N as [-> ->]
    by (split; by rewrite N.Div0.div_div).
  split_and!; try apply N.le_0_l; try (by apply N.mod_lt); apply N.div_mod; done.
Qed.

Lemma utf8_char_app c c' b b' r r' :
  utf8_char c = Some b → utf8_char c' = Some b' → b ++ r = b' ++ r' → c = c' ∧ r = r'.
Proof.
  pose proof (sextets c) as (?&?&?&?&?&?). pose proof (sextets c') as (?&?&?&?&?&?). unfold utf8_char.
  destruct (N.ltb_spec c 128), (N.ltb_spec c 2048), ((55296 <=? c) && (c <=? 57343))%N,
    (N.ltb_spec c 65536), (N.ltb_spec c 1114112); intros Hb; try discriminate Hb; injection Hb as <-; try lia;
  (destruct (N.ltb_spec c' 128), (N.ltb_spec c' 2048), ((55296 <=? c') && (c' <=? 57343))%N,
    (N.ltb_spec c' 65536), (N.ltb_spec c' 1114112); intros Hb'; try discriminate Hb'; injection Hb' as <-; try lia;
   cbn [app]; intros Heq; injection Heq; intros; split; first [done|lia]).
Qed.

Lemma utf8_inj s s' b : utf8 s = Ok b → utf8 s' = Ok b → s = s'.
Proof.
  revert s' b. induction s as [|c s IH]; intros s' b.
  - simpl. intros [= <-]. destruct s' as [|c' s']; [done|]. simpl.
    destruct (utf8_char c') as [x|] eqn:Hc; [|done]. destruct (utf8 s') as [y|]; [|done]. intros [= Hxy].
    apply app_eq_nil in Hxy as [-> _]. unfold utf8_char in Hc. repeat case_match; discriminate Hc.
  - simpl. destruct (utf8_char c) as [x|] eqn:Hc; [|done]. destruct (utf8 s) as [y|] eqn:Hs; [|done].
    intros [= <-]. destruct s' as [|c' s']; simpl.
    + intros [= Hxy]. symmetry in Hxy. apply app_eq_nil in Hxy as [-> _]. unfold utf8_char in Hc.
      repeat case_match; discriminate Hc.
    + destruct (utf8_char c') as [x'|] eqn:Hc'; [|done]. destruct (utf8 s') as [y'|] eqn:Hs'; [|done].
      intros [= Hxy]. symmetry in Hxy. destruct (utf8_char_app _ _ _ _ _ _ Hc Hc' Hxy) as [-> ->].
      f_equal. by apply (IH s' y').
Qed.

(** Every byte of an encoding is a byte. *)
Lemma utf8_bytes s b : utf8 s = Ok b → Forall (λ n, n < 256)%N b.
Proof.
  revert b. induction s as [|c s IH]; simpl; intros b; [intros [= <-]; constructor|].
  destruct (utf8_char c) as [x|] eqn:Hc; [|done]. destruct (utf8 s) as [y|]; [|done]. intros [= <-].
  apply Forall_app. split; [|by apply IH]. pose proof (sextets c) as (?&?&?&?&?&?). unfold utf8_char in Hc.
  destruct (N.ltb_spec c 128), (N.ltb_spec c 2048), ((55296 <=? c) && (c <=? 57343))%N,
    (N.ltb_spec c 65536), (N.ltb_spec c 1114112); try discriminate Hc; injection Hc as <-;
    repeat (apply Forall_cons; split); try apply Forall_nil; cbv beta; lia.
Qed.

(** ** Strings *)

(** The quotation of a character, read back. *)
Definition unescape (s : pystr) : option (N * pystr) :=
  match s with
  | 92%N :: x :: r =>
      if (x =? 117)%N then
        match r with
        | _ :: _ :: a :: b :: r' =>
            let v := λ d, if (d <? 58)%N then (d - 48)%N else (d - 87)%N in Some ((16 * v a + v b)%N, r')
        | _ => None
        end
      else if (x =? 110)%N then Some (10%N, r) else if (x =? 114)%N then Some (13%N, r)
      else if (x =? 116)%N then Some (9%N, r) else if (x =? 98)%N then Some (8%N, r)
      else if (x =? 102)%N then Some (12%N, r) else Some (x, r)
  | c :: r => Some (c, r)
  | [] => None
  end.

Lemma below_elem k c : (c < N.of_nat k)%N → c ∈ map N.of_nat (seq 0 k).
Proof.
  intros Hc. apply list_elem_of_fmap. exists (N.to_nat c). split; [lia|]. apply elem_of_seq. lia.
Qed.

Lemma unescape_escape c r : unescape (escape_char false c ++ r) = Some (c, r).
Proof.
  destruct (N.ltb_spec c 32) as [Hc|Hc].
  - pose proof (below_elem 32 c Hc) as Hin. cbn in Hin. clear Hc.
    repeat (apply elem_of_cons in Hin as [->|Hin]; [reflexivity|]). by apply not_elem_of_nil in Hin.
  - destruct (N.eqb_spec c 34) as [->|]; [reflexivity|]. destruct (N.eqb_spec c 92) as [->|]; [reflexivity|].
    assert (escape_char false c = [c]) as ->.
    { unfold escape_char.
      repeat match goal with |- context [(c =? ?k)%N] => destruct (N.eqb_spec c k); [lia|] end.
      destruct (N.ltb_spec c 32); [lia|]. done. }
    cbn [app]. unfold unescape. destruct c as [|p]; [done|].
    do 7 (destruct p as [p|p|]; try done).
Qed.

Lemma escape_char_app c c' r r' :
  escape_char false c ++ r = escape_char false c' ++ r' → c = c' ∧ r = r'.
Proof.
  intros Heq. pose proof (unescape_escape c r) as Hc. rewrite Heq, unescape_escape in Hc. by injection Hc.
Qed.

(** No quoted character starts with the closing quote. *)
Lemma escape_char_no_quote c r r' : escape_char false c ++ r ≠ 34%N :: r'.
Proof.
  intros Heq. pose proof (unescape_escape c r) as Hc. rewrite Heq in Hc. cbn in Hc. injection Hc as <- <-.
  discriminate Heq.
Qed.

Lemma dumps_str_app s s' r r' :
  dumps_str false s ++ r = dumps_str false s' ++ r' → s = s' ∧ r = r'.
Proof.
  unfold dumps_str. rewrite <- !app_assoc. cbn [app]. intros [= Heq]. revert s' Heq.
  induction s as [|c s IH]; intros [|c' s']; cbn [map mjoin list_join app]; rewrite <- ?app_assoc; intros Heq.
  - by injection Heq.
  - symmetry in Heq. by apply escape_char_no_quote in Heq.
  - by apply escape_char_no_quote in Heq.
  - apply escape_char_app in Heq as [-> Heq]. apply IH in Heq as [-> ->]. done.
Qed.

(** ** Numbers *)
Definition number_char (c : N) : bool := ((48 <=? c) && (c <=? 57) || (c =? 45))%N.

Lemma pretty_N_chars x s :
  forallb number_char (u s) = true → forallb number_char (u (pretty_N_go x s)) = true.
Proof.
  revert s. induction (N.lt_wf_0 x) as [x _ IH]; intros s Hs. destruct (decide (0 < x)%N) as [Hx|Hx].
  - rewrite pretty_N_go_step by done. apply IH; [by apply N.div_lt|]. cbn [u forallb].
    apply andb_true_iff. split; [|done].
    pose proof (below_elem 10 (x mod 10) ltac:(by apply N.mod_lt)) as Hin. cbn in Hin.
    repeat (apply elem_of_cons in Hin as [->|Hin]; [reflexivity|]). by apply not_elem_of_nil in Hin.
  - assert (x = 0%N) as -> by lia. by rewrite pretty_N_go_0.
Qed.

Lemma pretty_Z_chars (z : Z) : forallb number_char (u (pretty z)) = true.
Proof.
  assert (∀ n : N, forallb number_char (u (pretty n)) = true) as Hn.
  { intros n. unfold pretty, pretty_N. case_decide; [done|]. by apply pretty_N_chars. }
  unfold pretty, pretty_Z. destruct z as [|p|p]; [done|apply (Hn (Npos p))|]. cbn [u String.app forallb].
  apply (Hn (Npos p)).
Qed.

Lemma u_inj s s' : u s = u s' → s = s'.
Proof.
  revert s'. induction s as [|a s IH]; intros [|a' s']; cbn [u]; try done. intros [= Ha Hs].
  f_equal; [|by apply IH]. by rewrite <- (ascii_N_embedding a), <- (ascii_N_embedding a'), Ha.
Qed.

(** What may follow a value inside an object. *)
Definition delimited (r : pystr) : Prop :=
  match r with [] => True | c :: _ => c = 44%N ∨ c = 125%N end.

Lemma number_span a b r r' :
  forallb number_char a = true → forallb number_char b = true → delimited r → delimited r' →
  a ++ r = b ++ r' → a = b ∧ r = r'.
Proof.
  revert b. induction a as [|x a IH]; intros [|y b]; cbn [forallb app].
  - by intros _ _ _ _ ->.
  - intros _ [Hy _]%andb_true_iff Hr _ ->. destruct Hr as [->| ->]; discriminate Hy.
  - intros [Hx _]%andb_true_iff _ _ Hr <-. destruct Hr as [->| ->]; discriminate Hx.
  - intros [_ Ha]%andb_true_iff [_ Hb]%andb_true_iff Hr Hr' [= -> Heq].
    by destruct (IH b Ha Hb Hr Hr' Heq) as [-> ->].
Qed.

(** ** Flat objects *)
Definition atom (j : json) : bool :=
  match j with JNull | JBool _ | JInt _ | JStr _ => true | _ => false end.

Lemma pretty_N_nonempty (n : N) : pretty n ≠ "".
Proof.
  assert (∀ x s, s ≠ "" → pretty_N_go x s ≠ "") as Hne.
  { intros x. induction (N.lt_wf_0 x) as [x _ IH]. intros s Hs. destruct (decide (0 < x)%N).
    - rewrite pretty_N_go_step by done. apply IH; [by apply N.div_lt|done].
    - assert (x = 0%N) as -> by lia. by rewrite pretty_N_go_0. }
  unfold pretty, pretty_N. case_decide; [done|]. rewrite pretty_N_go_step by lia. by apply Hne.
Qed.

Lemma pretty_cons (z : Z) : ∃ c l, u (pretty z) = c :: l ∧ number_char c = true.
Proof.
  pose proof (pretty_Z_chars z) as Hz. destruct (u (pretty z)) as [|c l] eqn:Hu.
  - exfalso. assert (pretty z = "") as He by by apply u_inj.
    destruct z as [|p|p]; [done| |done]. by apply (pretty_N_nonempty (Npos p)).
  - exists c, l. split; [done|]. by apply andb_true_iff in Hz as [? _].
Qed.

Lemma dumps_atom_app j j' r r' :
  atom j = true → atom j' = true → delimited r → delimited r' →
  dumps false j ++ r = dumps false j' ++ r' → j = j' ∧ r = r'.
Proof.
  intros Hj Hj' Hr Hr'. destruct j as [|b|z| |s| |]; try discriminate Hj;
    destruct j' as [|b'|z'| |s'| |]; try discriminate Hj'; cbn [dumps];
    repeat match goal with b : bool |- _ => destruct b end;
    try (pose proof (pretty_cons z) as (c&l&Hz&Hc)); try (pose proof (pretty_cons z') as (c'&l'&Hz'&Hc'));
    try (rewrite Hz); try (rewrite Hz'); cbn [u app dumps_str]; intros Heq;
    try discriminate Heq; try (injection Heq as ->; first [done|discriminate Hc|discriminate Hc']);
    try (injection Heq as <- _; first [discriminate Hc|discriminate Hc']).
  - rewrite !app_comm_cons, <- Hz, <- Hz' in Heq.
    apply number_span in Heq as [Hu ->]; [|apply pretty_Z_chars..|done|done]. apply u_inj in Hu. split; [|done]. f_equal. by apply (inj pretty).
  - by apply dumps_str_app in Heq as [-> ->].
Qed.

Definition dumps_member (m : pystr * json) : pystr := dumps_str false m.1 ++ u ":" ++ dumps false m.2.

Lemma dumps_member_app m m' r r' :
  atom m.2 = true → atom m'.2 = true → delimited r → delimited r' →
  dumps_member m ++ r = dumps_member m' ++ r' → m = m' ∧ r = r'.
Proof.
  destruct m as [k v], m' as [k' v']. unfold dumps_member. cbn [fst snd]. intros Hv Hv' Hr Hr'.
  rewrite <- !app_assoc. intros [-> Heq]%dumps_str_app. apply app_inv_head in Heq.
  by destruct (dumps_atom_app _ _ _ _ Hv Hv' Hr Hr' Heq) as [-> ->].
Qed.

(** What follows a member of an object. *)
Lemma members_delimited ms : delimited match ms with [] => u "}" | _ => u "," ++
  intersperse (u ",") (map dumps_member ms) ++ u "}" end.
Proof. destruct ms; [by right|by left]. Qed.

Lemma dumps_members_inj ms ms' :
  forallb (λ m, atom m.2) ms = true → forallb (λ m, atom m.2) ms' = true →
  intersperse (u ",") (map dumps_member ms) ++ u "}" = intersperse (u ",") (map dumps_member ms') ++ u "}" →
  ms = ms'.
Proof.
  assert (∀ m l, intersperse (u ",") (map dumps_member (m :: l)) ++ u "}" =
    dumps_member m ++ match l with [] => u "}" | _ => u "," ++ intersperse (u ",") (map dumps_member l) ++ u "}" end)
    as Hcons.
  { intros m [|m2 l]; cbn [map intersperse]; [done|]. by rewrite <- !app_assoc. }
  assert (∀ m l, dumps_member m ++ l ≠ u "}") as Hne by (intros [k v] l; discriminate).
  revert ms'. induction ms as [|m ms IH]; intros [|m' ms']; cbn [forallb]; rewrite ?Hcons.
  - done.
  - intros _ _ Heq. symmetry in Heq. by apply Hne in Heq.
  - intros _ _ Heq. by apply Hne in Heq.
  - intros [Hm Hms]%andb_true_iff [Hm' Hms']%andb_true_iff Heq.
    apply dumps_member_app in Heq as [-> Heq]; [|done|done|apply members_delimited..]. f_equal.
    destruct ms as [|m1 ms], ms' as [|m2 ms']; [done|discriminate Heq..|].
    apply app_inv_head in Heq. by apply IH.
Qed.

(** The text of a flat object determines it. *)
Lemma dumps_flat_inj ms ms' :
  forallb (λ m, atom m.2) ms = true → forallb (λ m, atom m.2) ms' = true →
  dumps false (JObj ms) = dumps false (JObj ms') → ms = ms'.
Proof. intros Hms Hms' Heq. cbn [dumps] in Heq. apply app_inv_head in Heq. by apply dumps_members_inj. Qed.
