(* ===== verification/Models.v ===== *)
(** * Models: the records of [app/repositories/models.py]

    The frozen dataclasses the repositories return, one [Record] per class with
    the class's fields in order (prefixed, since projections share one name
    space), and the [dataclasses.replace] updates the program performs on
    them.  A record is also a row of the table it is read from. *)
From Stdlib.Strings Require Import Byte.
From S2P Require Import Prelude Json.
From stdpp Require Import list strings.

Abbreviation bytes := (list byte).

#[export] Instance byte_eq_dec : EqDecision byte := Byte.byte_eq_dec.

Record AccountRecord := {
  acc_id : UUID;
  acc_supabase_user_id : UUID;
  acc_email_normalized : pystr;
  acc_device_epoch : Z;
  acc_created_at : timestamp;
  acc_email_fallback_at : option timestamp;
  acc_deleted_at : option timestamp }.

Record DeviceRecord := {
  dev_id : UUID;
  dev_user_id : UUID;
  dev_epoch : Z;
  dev_label : pystr;
  dev_signing_public_key_spki : bytes;
  dev_fingerprint : bytes;
  dev_status : string;
  dev_created_at : timestamp;
  dev_last_seen_at : timestamp;
  dev_revoked_at : option timestamp;
  dev_linked_by_device_id : option UUID }.

Record SessionRecord := {
  ses_id : UUID;
  ses_user_id : UUID;
  ses_device_id : UUID;
  ses_token_hash : bytes;
  ses_csrf_hash : bytes;
  ses_epoch : Z;
  ses_created_at : timestamp;
  ses_last_seen_at : timestamp;
  ses_idle_expires_at : timestamp;
  ses_absolute_expires_at : timestamp;
  ses_revoked_at : option timestamp;
  ses_revocation_reason : option string }.

Record DeviceChallengeRecord := {
  chl_id : UUID;
  chl_device_id : UUID;
  chl_nonce_hash : bytes;
  chl_origin : pystr;
  chl_created_at : timestamp;
  chl_expires_at : timestamp;
  chl_consumed_at : option timestamp;
  chl_attempt_count : Z }.

Record DeviceLinkingOtpRecord := {
  otp_id : UUID;
  otp_user_id : UUID;
  otp_issuing_device_id : UUID;
  otp_otp_hash : bytes;
  otp_status : string;
  otp_attempt_count : Z;
  otp_created_at : timestamp;
  otp_expires_at : timestamp;
  otp_consumed_at : option timestamp }.

Record WebSocketTicketRecord := {
  tkt_id : UUID;
  tkt_session_id : UUID;
  tkt_token_hash : bytes;
  tkt_created_at : timestamp;
  tkt_expires_at : timestamp;
  tkt_consumed_at : option timestamp }.

Record TransferRequestRecord := {
  tr_id : UUID;
  tr_user_id : UUID;
  tr_sender_device_id : UUID;
  tr_recipient_device_id : UUID;
  tr_protocol_version : Z;
  tr_status : string;
  tr_created_at : timestamp;
  tr_expires_at : timestamp;
  tr_accepted_at : option timestamp;
  tr_completed_at : option timestamp;
  tr_failure_code : option string;
  tr_relay_used : bool }.

Record RateLimitBucketRecord := {
  rlb_scope : string;
  rlb_bucket_key : bytes;
  rlb_window_started_at : timestamp;
  rlb_window_expires_at : timestamp;
  rlb_request_count : Z }.

Record SecurityEventRecord := {
  ev_id : UUID;
  ev_user_id : option UUID;
  ev_device_id : option UUID;
  ev_event_type : string;
  ev_outcome : string;
  ev_network_fingerprint : option bytes;
  ev_details : list (pystr * json);
  ev_created_at : timestamp;
  ev_expires_at : timestamp }.

#[export] Instance account_eq_dec : EqDecision AccountRecord.
Proof. solve_decision. Defined.
#[export] Instance device_eq_dec : EqDecision DeviceRecord.
Proof. solve_decision. Defined.
#[export] Instance session_eq_dec : EqDecision SessionRecord.
Proof. solve_decision. Defined.
#[export] Instance challenge_eq_dec : EqDecision DeviceChallengeRecord.
Proof. solve_decision. Defined.
#[export] Instance otp_eq_dec : EqDecision DeviceLinkingOtpRecord.
Proof. solve_decision. Defined.
#[export] Instance ticket_eq_dec : EqDecision WebSocketTicketRecord.
Proof. solve_decision. Defined.
#[export] Instance transfer_eq_dec : EqDecision TransferRequestRecord.
Proof. solve_decision. Defined.
#[export] Instance bucket_eq_dec : EqDecision RateLimitBucketRecord.
Proof. solve_decision. Defined.

(** ** [replace(record, ...)] *)

(** The four columns a status change rewrites. *)
Definition tr_replace (r : TransferRequestRecord) (status : string)
    (accepted_at completed_at : option timestamp) (failure_code : option string) :
    TransferRequestRecord :=
  {| tr_id := tr_id r;
     tr_user_id := tr_user_id r;
     tr_sender_device_id := tr_sender_device_id r;
     tr_recipient_device_id := tr_recipient_device_id r;
     tr_protocol_version := tr_protocol_version r;
     tr_status := status;
     tr_created_at := tr_created_at r;
     tr_expires_at := tr_expires_at r;
     tr_accepted_at := accepted_at;
     tr_completed_at := completed_at;
     tr_failure_code := failure_code;
     tr_relay_used := tr_relay_used r |}.

Definition tr_with_failure_code (r : TransferRequestRecord) (code : option string) :
    TransferRequestRecord :=
  tr_replace r (tr_status r) (tr_accepted_at r) (tr_completed_at r) code.

Definition tr_with_relay_used (r : TransferRequestRecord) : TransferRequestRecord :=
  {| tr_id := tr_id r;
     tr_user_id := tr_user_id r;
     tr_sender_device_id := tr_sender_device_id r;
     tr_recipient_device_id := tr_recipient_device_id r;
     tr_protocol_version := tr_protocol_version r;
     tr_status := tr_status r;
     tr_created_at := tr_created_at r;
     tr_expires_at := tr_expires_at r;
     tr_accepted_at := tr_accepted_at r;
     tr_completed_at := tr_completed_at r;
     tr_failure_code := tr_failure_code r;
     tr_relay_used := true |}.

(** [replace(session, csrf_hash=.., last_seen_at=.., idle_expires_at=..,
    revoked_at=.., revocation_reason=..)]: the columns that change. *)
Definition ses_replace (r : SessionRecord) (csrf_hash : bytes)
    (last_seen_at idle_expires_at : timestamp) (revoked_at : option timestamp)
    (revocation_reason : option string) : SessionRecord :=
  {| ses_id := ses_id r;
     ses_user_id := ses_user_id r;
     ses_device_id := ses_device_id r;
     ses_token_hash := ses_token_hash r;
     ses_csrf_hash := csrf_hash;
     ses_epoch := ses_epoch r;
     ses_created_at := ses_created_at r;
     ses_last_seen_at := last_seen_at;
     ses_idle_expires_at := idle_expires_at;
     ses_absolute_expires_at := ses_absolute_expires_at r;
     ses_revoked_at := revoked_at;
     ses_revocation_reason := revocation_reason |}.

Definition ses_touched (r : SessionRecord) (last_seen idle : timestamp) : SessionRecord :=
  ses_replace r (ses_csrf_hash r) last_seen idle (ses_revoked_at r) (ses_revocation_reason r).

Definition ses_with_csrf (r : SessionRecord) (csrf_hash : bytes) : SessionRecord :=
  ses_replace r csrf_hash (ses_last_seen_at r) (ses_idle_expires_at r)
    (ses_revoked_at r) (ses_revocation_reason r).

Definition ses_with_revocation (r : SessionRecord) (at_ : timestamp) (reason : string) :
    SessionRecord :=
  ses_replace r (ses_csrf_hash r) (ses_last_seen_at r) (ses_idle_expires_at r)
    (Some at_) (Some reason).

Definition dev_replace (r : DeviceRecord) (epoch : Z) (label : pystr) (status : string)
    (last_seen_at : timestamp) (revoked_at : option timestamp) : DeviceRecord :=
  {| dev_id := dev_id r;
     dev_user_id := dev_user_id r;
     dev_epoch := epoch;
     dev_label := label;
     dev_signing_public_key_spki := dev_signing_public_key_spki r;
     dev_fingerprint := dev_fingerprint r;
     dev_status := status;
     dev_created_at := dev_created_at r;
     dev_last_seen_at := last_seen_at;
     dev_revoked_at := revoked_at;
     dev_linked_by_device_id := dev_linked_by_device_id r |}.

Definition acc_with_email_fallback (r : AccountRecord) (at_ : timestamp) : AccountRecord :=
  {| acc_id := acc_id r;
     acc_supabase_user_id := acc_supabase_user_id r;
     acc_email_normalized := acc_email_normalized r;
     acc_device_epoch := acc_device_epoch r;
     acc_created_at := acc_created_at r;
     acc_email_fallback_at := Some at_;
     acc_deleted_at := acc_deleted_at r |}.

Definition chl_replace (r : DeviceChallengeRecord) (consumed_at : option timestamp)
    (attempt_count : Z) : DeviceChallengeRecord :=
  {| chl_id := chl_id r;
     chl_device_id := chl_device_id r;
     chl_nonce_hash := chl_nonce_hash r;
     chl_origin := chl_origin r;
     chl_created_at := chl_created_at r;
     chl_expires_at := chl_expires_at r;
     chl_consumed_at := consumed_at;
     chl_attempt_count := attempt_count |}.

Definition otp_replace (r : DeviceLinkingOtpRecord) (status : string) (attempt_count : Z)
    (consumed_at : option timestamp) : DeviceLinkingOtpRecord :=
  {| otp_id := otp_id r;
     otp_user_id := otp_user_id r;
     otp_issuing_device_id := otp_issuing_device_id r;
     otp_otp_hash := otp_otp_hash r;
     otp_status := status;
     otp_attempt_count := attempt_count;
     otp_created_at := otp_created_at r;
     otp_expires_at := otp_expires_at r;
     otp_consumed_at := consumed_at |}.

Definition tkt_with_consumed_at (r : WebSocketTicketRecord) (at_ : timestamp) :
    WebSocketTicketRecord :=
  {| tkt_id := tkt_id r;
     tkt_session_id := tkt_session_id r;
     tkt_token_hash := tkt_token_hash r;
     tkt_created_at := tkt_created_at r;
     tkt_expires_at := tkt_expires_at r;
     tkt_consumed_at := Some at_ |}.
