(* ===== verification/Sql.v ===== *)
(** * Sql: the statements of the repositories

    What [Database.fetch] does with the statement shapes the repositories
    use.  A table is the list of its rows in an order PostgreSQL leaves
    unspecified.  A statement that would store a row violating a constraint of
    the schema raises; [app/database.py] turns that error into
    [BackendUnavailableError] and the statement has no effect. *)
From S2P Require Import Prelude.
From stdpp Require Import list.

Section statements.
Context {Row : Type}.
Implicit Types (t : list Row) (cond : Row → bool).

(** [SELECT ... WHERE ...] *)
Definition select cond t : list Row := List.filter cond t.

(** [UPDATE ... SET ... WHERE ... RETURNING ...]; [check] holds of the rows
    the table's CHECK constraints admit. *)
Definition update_set cond (set : Row → Row) t : list Row :=
  map (λ r, if cond r then set r else r) t.

Definition update_returning (check cond : Row → bool) (set : Row → Row) : M (list Row) (list Row) :=
  λ t, let rows := map set (List.filter cond t) in
       if forallb check rows then (Ok rows, update_set cond set t)
       else (Raise BackendUnavailableError, t).

(** [INSERT INTO ... RETURNING ...] of the rows a [SELECT] or [VALUES]
    produced; [admits t r] holds when [r] satisfies the CHECK constraints and
    clashes with no key of [t]. *)
Fixpoint insert_returning (admits : list Row → Row → bool) (new : list Row) : M (list Row) (list Row) :=
  λ t, match new with
       | [] => (Ok [], t)
       | r :: new' =>
           if admits t r
           then match insert_returning admits new' (t ++ [r]) with
                | (Ok rows, t') => (Ok (r :: rows), t')
                | (Raise e, _) => (Raise e, t)
                end
           else (Raise BackendUnavailableError, t)
       end.

(** [DELETE ... WHERE ... RETURNING ...] *)
Definition delete_returning cond : M (list Row) (list Row) :=
  λ t, (Ok (List.filter cond t), List.filter (λ r, negb (cond r)) t).

(** [ORDER BY key DESC], and [sorted(rows, key=key, reverse=True)]: a stable
    sort by decreasing key. *)
Fixpoint insert_desc (key : Row → Z) (r : Row) (l : list Row) : list Row :=
  match l with
  | [] => [r]
  | r' :: l' => if (key r' <=? key r)%Z then r :: l else r' :: insert_desc key r l'
  end.

Definition order_by_desc (key : Row → Z) (l : list Row) : list Row :=
  foldr (insert_desc key) [] l.

(** [first_row] and [required_row] of [app/repositories/base.py] *)
Definition first_row (rows : list Row) : option Row := head rows.

Definition required_row (rows : list Row) : outcome Row :=
  match first_row rows with
  | Some r => Ok r
  | None => Raise RuntimeError
  end.

Lemma select_elem cond t r : r ∈ select cond t ↔ r ∈ t ∧ cond r = true.
Proof. unfold select. by rewrite !list_elem_of_In, filter_In. Qed.

Lemma update_rows check cond set t rows t' :
  update_returning check cond set t = (Ok rows, t') →
  rows = map set (List.filter cond t) ∧ t' = update_set cond set t.
Proof. unfold update_returning. case_match_goal; intros H; simplify_eq; auto. Qed.

Lemma update_table check cond set t :
  (update_returning check cond set t).2 = t ∨ (update_returning check cond set t).2 = update_set cond set t.
Proof. unfold update_returning. case_match_goal; simpl; auto. Qed.

Lemma first_row_elem rows r : first_row rows = Some r → r ∈ rows.
Proof. destruct rows; simpl; intros; simplify_eq. left. Qed.

(** The first row of an [UPDATE] is the image of a row that matched. *)
Lemma update_first_row check cond set t rows t' r :
  update_returning check cond set t = (Ok rows, t') → first_row rows = Some r →
  ∃ old, old ∈ t ∧ cond old = true ∧ r = set old ∧ r ∈ t'.
Proof.
  intros [-> ->]%update_rows Hr%first_row_elem.
  apply list_elem_of_fmap in Hr as [old [-> Hold]].
  apply list_elem_of_In, filter_In in Hold as [Hin Hw].
  exists old. split_and!; [by apply list_elem_of_In|done|done|].
  apply list_elem_of_fmap. exists old. rewrite Hw.
  split; [done|by apply list_elem_of_In].
Qed.

(** No match: no row and no effect. *)
Lemma update_no_match check cond set t :
  (∀ r, r ∈ t → cond r = false) → update_returning check cond set t = (Ok [], t).
Proof.
  intros Hno. unfold update_returning, update_set.
  assert (List.filter cond t = []) as ->.
  { induction t as [|r t IH]; simpl; [done|]. rewrite Hno by left.
    apply IH. intros. apply Hno. by right. }
  simpl. f_equal. induction t as [|r t IH]; simpl; [done|].
  rewrite Hno by left. f_equal. apply IH. intros. apply Hno. by right.
Qed.

(** *** Ordering *)
Lemma insert_desc_perm key r l : insert_desc key r l ≡ₚ r :: l.
Proof.
  induction l as [|r' l IH]; simpl; [done|]. case_match_goal; [done|].
  rewrite IH. apply Permutation_swap.
Qed.

Lemma order_by_desc_perm key l : order_by_desc key l ≡ₚ l.
Proof.
  induction l as [|r l IH]; simpl; [done|]. by rewrite insert_desc_perm, IH.
Qed.

Lemma order_by_desc_elem key l r : r ∈ order_by_desc key l ↔ r ∈ l.
Proof. by rewrite order_by_desc_perm. Qed.
End statements.

(** *** Inserting *)
Lemma insert_returning_app {Row} admits (new t rows t' : list Row) :
  insert_returning admits new t = (Ok rows, t') → rows = new ∧ t' = t ++ new.
Proof.
  revert t rows t'. induction new as [|r new IH]; intros t rows t'; simpl.
  - intros. simplify_eq. by rewrite app_nil_r.
  - destruct (admits t r); [|done]. destruct (insert_returning _ _ _) as [[rows'|e] t2] eqn:Hi;
      intros; simplify_eq. apply IH in Hi as [-> ->]. by rewrite <- app_assoc.
Qed.

Lemma insert_returning_raise {Row} admits (new t t' : list Row) e :
  insert_returning admits new t = (Raise e, t') → t' = t.
Proof.
  revert t t'. induction new as [|r new IH]; intros t t'; simpl; [done|].
  destruct (admits t r); [|intros; by simplify_eq].
  destruct (insert_returning _ _ _) as [[rows'|e'] t2]; intros; by simplify_eq.
Qed.

(** The rows of an [UPDATE] that touches at most one row, the row with the
    key [k]: what the statement returns and stores. *)
Section keyed.
Context {Row K : Type} `{!EqDecision K} (key : Row → K).

Definition keys_unique (t : list Row) : Prop := NoDup (map key t).

Lemma filter_keyed (p : Row → bool) k t :
  keys_unique t →
  List.filter (λ r, bool_decide (key r = k) && p r) t =
  match first_match (λ r, bool_decide (key r = k)) t with
  | Some r => if p r then [r] else []
  | None => []
  end.
Proof.
  unfold keys_unique. induction t as [|r t IH]; simpl; [done|].
  intros [Hk Hnd]%NoDup_cons. case_bool_decide as Hr; simpl; [|by apply IH].
  assert (List.filter (λ r0, bool_decide (key r0 = k) && p r0) t = []) as ->.
  { rewrite IH by done.
    destruct (first_match _ t) as [r'|] eqn:Hf; [|done].
    apply first_match_Some in Hf as [Hin Heq]. apply bool_decide_eq_true in Heq.
    exfalso. apply Hk. apply list_elem_of_fmap. exists r'. split; congruence. }
  by destruct (p r).
Qed.

Lemma update_set_keyed (p : Row → bool) (f : Row → Row) k r t :
  keys_unique t → first_match (λ r, bool_decide (key r = k)) t = Some r → p r = true →
  update_set (λ r, bool_decide (key r = k) && p r) f t =
  map (λ r', if bool_decide (key r' = k) then f r else r') t.
Proof.
  unfold keys_unique, update_set. induction t as [|r0 t IH]; simpl; [done|].
  intros [Hk Hnd]%NoDup_cons. case_bool_decide as Hr; intros Hf Hp; simpl.
  - simplify_eq. rewrite Hp. f_equal. apply map_ext_in. intros r' Hin.
    apply list_elem_of_In in Hin. case_bool_decide as Hr'; simpl; [|done].
    exfalso. apply Hk. apply list_elem_of_fmap. by exists r'.
  - f_equal. by apply IH.
Qed.
End keyed.
