(* ===== verification/KeyedTable.v ===== *)
(** * KeyedTable: a table and the dictionary that holds the same rows

    The in-memory repositories keep their records in a dictionary keyed by the
    record's identifier; the SQL ones address rows by primary key.  The lemmas
    here turn a statement on the values of such a dictionary into the lookup
    and assignment the dictionary code performs. *)
From S2P Require Import Prelude PyDict Sql.
From stdpp Require Import list.

Section keyed.
Context {Row K : Type} `{!EqDecision K} (key : Row → K).
Implicit Types (d : dict K Row).

Definition keyed d : Prop := dict_ok d ∧ ∀ k r, (k, r) ∈ d → key r = k.

Lemma keyed_nil : keyed [].
Proof. split; [apply dict_ok_nil|]. intros k r H. by apply not_elem_of_nil in H. Qed.

Lemma keyed_get k r d : keyed d → dict_get k d = Some r → key r = k.
Proof. intros [_ H] ?%dict_get_Some_In. auto. Qed.

Lemma dict_set_elem k v k' r d :
  (k', r) ∈ dict_set k v d → (k' = k ∧ r = v) ∨ (k', r) ∈ d.
Proof.
  induction d as [|[k0 v0] d IH]; simpl.
  - intros [=]%list_elem_of_singleton. auto.
  - case_decide.
    + intros [[=]|?]%elem_of_cons; [auto|]. right. by right.
    + intros [[=]|Hin]%elem_of_cons; [right; subst; left|].
      destruct (IH Hin); [auto|]. right. by right.
Qed.

Lemma keyed_set k v d : keyed d → key v = k → keyed (dict_set k v d).
Proof.
  intros [Hok Hk] Hv. split; [by apply dict_ok_set|].
  intros k' r [[-> ->]|?]%dict_set_elem; auto.
Qed.

Lemma dict_del_elem k k' r d : (k', r) ∈ dict_del k d → (k', r) ∈ d.
Proof.
  induction d as [|[k0 v0] d IH]; simpl; [done|]. case_decide.
  - intros. by right.
  - intros [->|?]%elem_of_cons; [left|right; auto].
Qed.

Lemma keyed_del k d : keyed d → keyed (dict_del k d).
Proof.
  intros [Hok Hk]. split; [by apply dict_ok_del|]. intros k' r H%dict_del_elem. auto.
Qed.

Lemma keyed_values_keys d : keyed d → map key (dict_values d) = dict_keys d.
Proof.
  intros [_ Hk]. unfold dict_values, dict_keys. rewrite map_map. apply map_ext_in.
  intros [k r] Hin. simpl. apply Hk. by apply list_elem_of_In.
Qed.

Lemma keyed_unique d : keyed d → keys_unique key (dict_values d).
Proof. intros H. unfold keys_unique. rewrite keyed_values_keys by done. apply H. Qed.

Lemma keyed_first_match k d :
  keyed d → first_match (λ r, bool_decide (key r = k)) (dict_values d) = dict_get k d.
Proof.
  intros [_ Hk]. induction d as [|[k' r] d IH]; simpl; [done|].
  assert (key r = k') as Hr by (apply Hk; left).
  rewrite IH by (intros; apply Hk; by right).
  case_bool_decide; case_decide; congruence.
Qed.

Lemma keyed_values_set k v d :
  keyed d → is_Some (dict_get k d) →
  dict_values (dict_set k v d) =
  map (λ r, if bool_decide (key r = k) then v else r) (dict_values d).
Proof.
  intros [Hok Hk]. unfold dict_ok in Hok.
  induction d as [|[k' r] d IH]; simpl; [by intros [? ?]|].
  simpl in Hok. apply NoDup_cons in Hok as [Hnin Hok].
  assert (key r = k') as Hr by (apply Hk; left).
  case_decide; simpl.
  - intros _. subst. rewrite bool_decide_true by done. f_equal.
    unfold dict_values. symmetry. rewrite <- (map_id (map snd d)) at 2.
    apply map_ext_in. intros x Hx. apply list_elem_of_In, list_elem_of_fmap in Hx as [[k2 x2] [-> Hx]].
    rewrite bool_decide_false; [done|]. simpl. intros Heq. apply Hnin.
    apply list_elem_of_fmap. exists (k2, x2). split; [|done]. simpl.
    rewrite <- Heq. apply Hk. by right.
  - intros Hs. rewrite bool_decide_false by congruence. f_equal.
    apply IH; [done| |done]. intros. apply Hk. by right.
Qed.

(** What an [UPDATE] addressed by key does to the table of a dictionary. *)
Lemma update_returning_keyed check p f k d :
  keyed d →
  update_returning check (λ r, bool_decide (key r = k) && p r) f (dict_values d) =
  match dict_get k d with
  | Some r =>
      if p r then
        if check (f r) then (Ok [f r], dict_values (dict_set k (f r) d))
        else (Raise BackendUnavailableError, dict_values d)
      else (Ok [], dict_values d)
  | None => (Ok [], dict_values d)
  end.
Proof.
  intros Hd. unfold update_returning.
  assert (∀ t, (∀ r, r ∈ t → bool_decide (key r = k) && p r = false) →
            update_set (λ r, bool_decide (key r = k) && p r) f t = t) as Hno.
  { intros t Ht. unfold update_set. rewrite <- (map_id t) at 2. apply map_ext_in.
    intros r Hr. rewrite Ht; [done|]. by apply list_elem_of_In. }
  rewrite filter_keyed by by apply keyed_unique.
  rewrite keyed_first_match by done.
  destruct (dict_get k d) as [r|] eqn:Hg; simpl.
  - destruct (p r) eqn:Hp; simpl.
    + destruct (check (f r)); simpl; [|done]. f_equal.
      rewrite (update_set_keyed key p f k r); [|by apply keyed_unique| |done].
      * by rewrite keyed_values_set by done.
      * by rewrite keyed_first_match.
    + f_equal. apply Hno. intros r' Hr'. case_bool_decide as Hk'; simpl; [|done].
      apply dict_values_In in Hr' as [k' Hr']; [|apply Hd].
      pose proof (keyed_get _ _ _ Hd Hr'). congruence.
  - f_equal. apply Hno. intros r' Hr'. case_bool_decide as Hk'; simpl; [|done].
    apply dict_values_In in Hr' as [k' Hr']; [|apply Hd].
    pose proof (keyed_get _ _ _ Hd Hr'). congruence.
Qed.

(** The first row of a [SELECT] addressed by key. *)
Lemma select_keyed p k d :
  keyed d →
  first_row (select (λ r, bool_decide (key r = k) && p r) (dict_values d)) =
  match dict_get k d with Some r => if p r then Some r else None | None => None end.
Proof.
  intros Hd. unfold select. rewrite filter_keyed by by apply keyed_unique.
  rewrite keyed_first_match by done.
  destruct (dict_get k d) as [r|]; [|done]. by destruct (p r).
Qed.
End keyed.

Create HintDb keyed.
#[export] Hint Resolve keyed_nil keyed_set keyed_del : keyed.
