(* ===== verification/Tables.v ===== *)
(** * Tables: well-formed tables and how statements change them

    A table is well-formed when every row passes its CHECK constraints and no
    two rows share a key.  [Table] gives, for one row type, those constraints
    and the way the program may change a stored row; the lemmas show what an
    [UPDATE], an [INSERT] or a [DELETE] makes of a well-formed table. *)
From S2P Require Import Prelude Sql.
From stdpp Require Import list.

Class Table (Row : Type) := {
  row_check : Row → bool;
  (** The rows differ on every key of the table. *)
  apart : Row → Row → Prop;
  (** What may become of a stored row. *)
  grows : Row → Row → Prop;
  grows_preorder :: PreOrder grows;
  apart_grows a b a' b' : apart a b → grows a a' → grows b b' → apart a' b' }.

Section tables.
Context {Row : Type} `{!Table Row}.
Implicit Types (t : list Row) (r : Row).

Fixpoint sound t : Prop :=
  match t with
  | [] => True
  | r :: t' => row_check r = true ∧ Forall (apart r) t' ∧ sound t'
  end.

(** The table stays well-formed and each of its rows is still there, changed
    as the program may. *)
Definition table_step t t' : Prop :=
  sound t → sound t' ∧ ∀ r, r ∈ t → ∃ r', r' ∈ t' ∧ grows r r'.

#[export] Instance table_step_preorder : PreOrder table_step.
Proof.
  split.
  - intros t Hs. split; [done|]. intros r Hr. exists r. split; [done|reflexivity].
  - intros t1 t2 t3 H12 H23 H1. destruct (H12 H1) as [H2 Hr2]. destruct (H23 H2) as [H3 Hr3].
    split; [done|]. intros r Hr. destruct (Hr2 r Hr) as (r2&Hin2&?). destruct (Hr3 r2 Hin2) as (r3&?&?).
    exists r3. split; [done|by etrans].
Qed.

Lemma sound_check t r : sound t → r ∈ t → row_check r = true.
Proof.
  induction t as [|r0 t IH]; simpl; [by intros _ ?%not_elem_of_nil|].
  intros (?&_&?) [->|?]%elem_of_cons; auto.
Qed.

(** Apart rows differ in each key. *)
Lemma sound_NoDup {K} (key : Row → K) t : (∀ a b, apart a b → key a ≠ key b) → sound t → NoDup (map key t).
Proof.
  intros Hkey. induction t as [|r t IH]; simpl; [constructor|]. intros (_&Hall&Hs). constructor; [|by apply IH].
  intros (x&Hx&Hin)%list_elem_of_fmap. rewrite Forall_forall in Hall. by apply (Hkey r x (Hall x Hin)).
Qed.

(** Two rows that agree on a key are one row. *)
Lemma sound_unique t r r' : sound t → r ∈ t → r' ∈ t → ¬ apart r r' → ¬ apart r' r → r = r'.
Proof.
  induction t as [|r0 t IH]; simpl; [by intros _ ?%not_elem_of_nil|].
  intros (_&Hall&Hs) Hr Hr' Hna Hna'. rewrite Forall_forall in Hall.
  apply elem_of_cons in Hr as [->|Hr], Hr' as [->|Hr']; [done| | |by apply IH]; exfalso; auto.
Qed.

Lemma sound_app t r : sound t → row_check r = true → Forall (λ x, apart x r) t → sound (t ++ [r]).
Proof.
  induction t as [|r0 t IH]; simpl; [done|]. intros (?&?&?) Hr Hall. apply Forall_cons in Hall as [? ?].
  split_and!; [done|by apply Forall_app; auto|auto].
Qed.

Lemma sound_filter (p : Row → bool) t : sound t → sound (List.filter p t).
Proof.
  induction t as [|r t IH]; simpl; [done|]. intros (?&Hall&?). destruct (p r); simpl; [|auto].
  split_and!; [done| |auto]. rewrite Forall_forall in *. intros x Hx. apply Hall.
  apply list_elem_of_In, filter_In in Hx as [Hx _]. by apply list_elem_of_In.
Qed.

(** Changing rows, each as the program may, keeps the keys apart. *)
Lemma sound_map (f : Row → Row) t :
  sound t → (∀ r, r ∈ t → row_check (f r) = true ∧ grows r (f r)) → sound (map f t).
Proof.
  induction t as [|r t IH]; simpl; [done|]. intros (_&Hall&Hs) Hf.
  destruct (Hf r ltac:(left)) as [Hc Hg]. split_and!; [done| |apply IH; [done|intros; apply Hf; by right]].
  rewrite Forall_forall in *. intros x Hx. apply list_elem_of_fmap in Hx as (y&->&Hy).
  eapply apart_grows; [by apply Hall|done|]. apply Hf. by right.
Qed.

Lemma table_update_at cond set t :
  (sound t → ∀ r, r ∈ t → cond r = true → grows r (set r)) →
  table_step t (update_returning row_check cond set t).2.
Proof.
  intros Hset Hs. unfold update_returning. destruct (forallb row_check _) eqn:Hall; simpl.
  2: { by apply table_step_preorder. }
  rewrite forallb_forall in Hall.
  assert (∀ r, r ∈ t → grows r (if cond r then set r else r)) as Hg.
  { intros r Hr. destruct (cond r) eqn:Hc; [auto|reflexivity]. }
  split.
  - unfold update_set. apply sound_map; [done|]. intros r Hr. split; [|auto].
    destruct (cond r) eqn:Hc; [|by eapply sound_check]. apply Hall, in_map, filter_In. by rewrite <- list_elem_of_In.
  - intros r Hr. eexists. split; [|by apply Hg]. apply list_elem_of_fmap. by exists r.
Qed.

Lemma table_update cond set :
  (∀ r, cond r = true → grows r (set r)) → respects table_step (update_returning row_check cond set).
Proof. intros Hset t. apply table_update_at. auto. Qed.

Lemma table_insert admits new :
  (∀ t r, admits t r = true → row_check r = true ∧ Forall (λ x, apart x r) t) →
  respects table_step (insert_returning admits new).
Proof.
  intros Had. induction new as [|r new IH]; intros t Hs; cbn [insert_returning]; [by apply table_step_preorder|].
  destruct (admits t r) eqn:Ha; [|by apply table_step_preorder]. destruct (Had t r Ha) as [Hc Hap].
  assert (sound (t ++ [r])) as Hs' by by apply sound_app.
  specialize (IH _ Hs'). destruct (insert_returning _ _ _) as [[rows|e] t']; simpl in *; [|by apply table_step_preorder].
  destruct IH as [? Hr]. split; [done|]. intros x Hx. apply Hr, elem_of_app. by left.
Qed.

Lemma sound_sublist t t' : t' `sublist_of` t → sound t → sound t'.
Proof.
  induction 1 as [|r t1 t2 Hsub IH|r t1 t2 Hsub IH]; simpl; [done| |by intros (_&_&?); auto].
  intros (?&Hall&?). split_and!; [done| |auto]. rewrite Forall_forall in *. intros x Hx. apply Hall.
  by eapply elem_of_sublist.
Qed.

Lemma delete_sound cond t : sound t → sound (delete_returning cond t).2.
Proof. apply sound_filter. Qed.
End tables.
