(* ===== verification/Schema.v ===== *)
(** * Schema: the private database

    The tables of [supabase/migrations] the repositories read and write, and
    the CHECK constraints and keys PostgreSQL enforces on them. *)
From Stdlib.Strings Require Import Byte.
From S2P Require Import Prelude Json Models Sql.
From stdpp Require Import list strings.

Record Db := {
  app_users : list AccountRecord;
  devices : list DeviceRecord;
  app_sessions : list SessionRecord;
  device_challenges : list DeviceChallengeRecord;
  device_linking_otps : list DeviceLinkingOtpRecord;
  transfer_requests : list TransferRequestRecord;
  websocket_tickets : list WebSocketTicketRecord;
  security_events : list SecurityEventRecord;
  rate_limit_buckets : list RateLimitBucketRecord }.

(** A statement on one table, the other tables unchanged. *)
Definition on_app_users {A} : M (list AccountRecord) A → M Db A :=
  zoom app_users (λ t db, Build_Db t (devices db) (app_sessions db) (device_challenges db)
    (device_linking_otps db) (transfer_requests db) (websocket_tickets db) (security_events db) (rate_limit_buckets db)).
Definition on_devices {A} : M (list DeviceRecord) A → M Db A :=
  zoom devices (λ t db, Build_Db (app_users db) t (app_sessions db) (device_challenges db)
    (device_linking_otps db) (transfer_requests db) (websocket_tickets db) (security_events db) (rate_limit_buckets db)).
Definition on_app_sessions {A} : M (list SessionRecord) A → M Db A :=
  zoom app_sessions (λ t db, Build_Db (app_users db) (devices db) t (device_challenges db)
    (device_linking_otps db) (transfer_requests db) (websocket_tickets db) (security_events db) (rate_limit_buckets db)).
Definition on_device_challenges {A} : M (list DeviceChallengeRecord) A → M Db A :=
  zoom device_challenges (λ t db, Build_Db (app_users db) (devices db) (app_sessions db) t
    (device_linking_otps db) (transfer_requests db) (websocket_tickets db) (security_events db) (rate_limit_buckets db)).
Definition on_device_linking_otps {A} : M (list DeviceLinkingOtpRecord) A → M Db A :=
  zoom device_linking_otps (λ t db, Build_Db (app_users db) (devices db) (app_sessions db) (device_challenges db)
    t (transfer_requests db) (websocket_tickets db) (security_events db) (rate_limit_buckets db)).
Definition on_transfer_requests {A} : M (list TransferRequestRecord) A → M Db A :=
  zoom transfer_requests (λ t db, Build_Db (app_users db) (devices db) (app_sessions db) (device_challenges db)
    (device_linking_otps db) t (websocket_tickets db) (security_events db) (rate_limit_buckets db)).
Definition on_websocket_tickets {A} : M (list WebSocketTicketRecord) A → M Db A :=
  zoom websocket_tickets (λ t db, Build_Db (app_users db) (devices db) (app_sessions db) (device_challenges db)
    (device_linking_otps db) (transfer_requests db) t (security_events db) (rate_limit_buckets db)).
Definition on_security_events {A} : M (list SecurityEventRecord) A → M Db A :=
  zoom security_events (λ t db, Build_Db (app_users db) (devices db) (app_sessions db) (device_challenges db)
    (device_linking_otps db) (transfer_requests db) (websocket_tickets db) t (rate_limit_buckets db)).
Definition on_rate_limit_buckets {A} : M (list RateLimitBucketRecord) A → M Db A :=
  zoom rate_limit_buckets (λ t db, Build_Db (app_users db) (devices db) (app_sessions db) (device_challenges db)
    (device_linking_otps db) (transfer_requests db) (websocket_tickets db) (security_events db) t).

(** [async with database.transaction()]: an exception rolls every statement
    of the block back. *)
Definition transaction {A} (m : M Db A) : M Db A :=
  λ db, match m db with
        | (Ok a, db') => (Ok a, db')
        | (Raise e, _) => (Raise e, db)
        end.

(** SQL's [COALESCE]; [IS NULL] is [is_null]. *)
Definition coalesce {A} (o : option A) (a : A) : A := default a o.

(** An undeleted account. *)
Definition account_live (a : AccountRecord) : bool := is_null (acc_deleted_at a).

(** *** [transfer_requests]: CHECK constraints and primary key *)
Definition transfer_statuses : list string :=
  ["offered"; "accepted"; "negotiating"; "connected"; "transferring";
   "completed"; "rejected"; "expired"; "cancelled"; "failed"].

Definition transfer_check (r : TransferRequestRecord) : bool :=
  bool_decide (tr_sender_device_id r ≠ tr_recipient_device_id r) &&
  bool_decide (1 ≤ tr_protocol_version r ≤ 32767)%Z &&
  bool_decide (tr_status r ∈ transfer_statuses) &&
  (tr_created_at r <? tr_expires_at r)%Z &&
  match tr_accepted_at r with None => true | Some t => (tr_created_at r <=? t)%Z end &&
  match tr_completed_at r with
  | None => true
  | Some t => (coalesce (tr_accepted_at r) (tr_created_at r) <=? t)%Z
  end &&
  Bool.eqb (bool_decide (tr_status r = "completed")) (negb (is_null (tr_completed_at r))) &&
  match tr_failure_code r with
  | Some c => bool_decide (tr_status r = "failed") &&
              bool_decide (1 ≤ String.length c ≤ 64)
  | None => negb (bool_decide (tr_status r = "failed"))
  end &&
  (bool_decide (tr_status r ∈ ["offered"; "rejected"; "expired"]) ||
   negb (is_null (tr_accepted_at r))).

Definition transfer_admits (t : list TransferRequestRecord) (r : TransferRequestRecord) : bool :=
  transfer_check r && bool_decide (tr_id r ∉ map tr_id t).

(** *** [app_sessions]: CHECK constraints, primary key and unique token hash *)
Definition revocation_reasons : list string :=
  ["logout"; "revoked"; "expired"; "recovery"; "device_revoked"; "account_deleted";
   "rotation"; "security"].

Definition session_check (r : SessionRecord) : bool :=
  bool_decide (length (ses_token_hash r) = 32%nat) &&
  bool_decide (length (ses_csrf_hash r) = 32%nat) &&
  (0 <=? ses_epoch r)%Z &&
  (ses_created_at r <=? ses_last_seen_at r)%Z &&
  (ses_created_at r <? ses_idle_expires_at r)%Z &&
  (ses_idle_expires_at r <=? ses_absolute_expires_at r)%Z &&
  match ses_revoked_at r, ses_revocation_reason r with
  | None, None => true
  | Some _, Some reason => bool_decide (reason ∈ revocation_reasons)
  | _, _ => false
  end.

Definition session_admits (t : list SessionRecord) (r : SessionRecord) : bool :=
  session_check r && bool_decide (ses_id r ∉ map ses_id t) &&
  bool_decide (ses_token_hash r ∉ map ses_token_hash t).

(** *** [rate_limit_buckets]: CHECK constraints and primary key *)
Definition rate_limit_check (r : RateLimitBucketRecord) : bool :=
  bool_decide (1 ≤ String.length (rlb_scope r) ≤ 64) &&
  bool_decide (length (rlb_bucket_key r) = 32%nat) &&
  (rlb_window_started_at r <? rlb_window_expires_at r)%Z &&
  (0 <=? rlb_request_count r)%Z.

(** *** [app_users]: CHECK constraints and keys *)
Definition account_check (r : AccountRecord) : bool :=
  bool_decide (3 ≤ length (acc_email_normalized r) ≤ 320)%nat &&
  (0 <=? acc_device_epoch r)%Z &&
  match acc_email_fallback_at r with None => true | Some t => (acc_created_at r <=? t)%Z end &&
  match acc_deleted_at r with None => true | Some t => (acc_created_at r <=? t)%Z end.

Definition account_admits (t : list AccountRecord) (r : AccountRecord) : bool :=
  account_check r && bool_decide (acc_id r ∉ map acc_id t) &&
  bool_decide (acc_supabase_user_id r ∉ map acc_supabase_user_id t) &&
  bool_decide (acc_email_normalized r ∉ map acc_email_normalized t).

(** *** [devices]: CHECK constraints, primary key, unique fingerprint of an
    account *)
Definition device_statuses : list string := ["active"; "inactive"; "revoked"].

Definition device_check (r : DeviceRecord) : bool :=
  bool_decide (1 ≤ length (dev_label r) ≤ 100)%nat &&
  bool_decide (1 ≤ length (dev_signing_public_key_spki r) ≤ 1024)%nat &&
  bool_decide (length (dev_fingerprint r) = 32%nat) &&
  (0 <=? dev_epoch r)%Z &&
  bool_decide (dev_status r ∈ device_statuses) &&
  Bool.eqb (bool_decide (dev_status r = "revoked")) (negb (is_null (dev_revoked_at r))) &&
  (dev_created_at r <=? dev_last_seen_at r)%Z &&
  bool_decide (dev_linked_by_device_id r ≠ Some (dev_id r)).

Definition device_admits (t : list DeviceRecord) (r : DeviceRecord) : bool :=
  device_check r && bool_decide (dev_id r ∉ map dev_id t) &&
  bool_decide ((dev_user_id r, dev_fingerprint r) ∉ map (λ d, (dev_user_id d, dev_fingerprint d)) t).

(** *** [device_challenges] *)
Definition challenge_check (r : DeviceChallengeRecord) : bool :=
  bool_decide (length (chl_nonce_hash r) = 32%nat) &&
  bool_decide (1 ≤ length (chl_origin r) ≤ 2048)%nat &&
  (chl_created_at r <? chl_expires_at r)%Z &&
  match chl_consumed_at r with None => true | Some t => (chl_created_at r <=? t)%Z end &&
  ((0 <=? chl_attempt_count r) && (chl_attempt_count r <=? 10))%Z.

Definition challenge_admits (t : list DeviceChallengeRecord) (r : DeviceChallengeRecord) : bool :=
  challenge_check r && bool_decide (chl_id r ∉ map chl_id t) &&
  bool_decide (chl_nonce_hash r ∉ map chl_nonce_hash t).

(** *** [device_linking_otps] *)
Definition linking_otp_statuses : list string := ["active"; "consumed"; "expired"].

Definition linking_otp_check (r : DeviceLinkingOtpRecord) : bool :=
  bool_decide (length (otp_otp_hash r) = 32%nat) &&
  bool_decide (otp_status r ∈ linking_otp_statuses) &&
  ((0 <=? otp_attempt_count r) && (otp_attempt_count r <=? 10))%Z &&
  (otp_created_at r <? otp_expires_at r)%Z &&
  match otp_consumed_at r with None => true | Some t => (otp_created_at r <=? t)%Z end &&
  Bool.eqb (bool_decide (otp_status r = "consumed")) (negb (is_null (otp_consumed_at r))).

Definition linking_otp_admits (t : list DeviceLinkingOtpRecord) (r : DeviceLinkingOtpRecord) : bool :=
  linking_otp_check r && bool_decide (otp_id r ∉ map otp_id t) &&
  bool_decide (otp_otp_hash r ∉ map otp_otp_hash t).

(** *** [websocket_tickets] *)
Definition ticket_check (r : WebSocketTicketRecord) : bool :=
  bool_decide (length (tkt_token_hash r) = 32%nat) &&
  (tkt_created_at r <? tkt_expires_at r)%Z &&
  match tkt_consumed_at r with None => true | Some t => (tkt_created_at r <=? t)%Z end.

Definition ticket_admits (t : list WebSocketTicketRecord) (r : WebSocketTicketRecord) : bool :=
  ticket_check r && bool_decide (tkt_id r ∉ map tkt_id t) &&
  bool_decide (tkt_token_hash r ∉ map tkt_token_hash t).

(** *** [security_events] *)
Definition event_types : list string :=
  ["otp_started"; "otp_verified"; "otp_failed"; "session_created"; "session_revoked";
   "device_challenge_issued"; "device_challenge_failed"; "device_registered"; "device_revoked";
   "device_logged_out"; "device_linking_otp_created"; "device_linking_failed"; "device_linked";
   "email_fallback_completed"; "transfer_created"; "transfer_failed"; "turn_credential_issued";
   "rate_limited"; "security_alert"].

(** [details::text]: [jsonb] output puts a space after every comma and colon. *)
Fixpoint jsonb_text (j : json) : pystr :=
  match j with
  | JList l => u "[" ++ intersperse (u ", ") (map jsonb_text l) ++ u "]"
  | JObj ms => u "{" ++ intersperse (u ", ")
      (map (λ m, dumps_str false m.1 ++ u ": " ++ jsonb_text m.2) ms) ++ u "}"
  | _ => dumps false j
  end.

Definition event_check (r : SecurityEventRecord) : bool :=
  bool_decide (ev_event_type r ∈ event_types) &&
  bool_decide (ev_outcome r ∈ ["success"; "failure"; "blocked"]) &&
  match ev_network_fingerprint r with None => true | Some f => bool_decide (length f = 32%nat) end &&
  match utf8_len (jsonb_text (JObj (ev_details r))) with Ok n => (n <=? 2048)%Z | Raise _ => false end &&
  (ev_created_at r <=? ev_expires_at r)%Z.

Definition event_admits (t : list SecurityEventRecord) (r : SecurityEventRecord) : bool :=
  event_check r && bool_decide (ev_id r ∉ map ev_id t).

(** ** Unqualified columns

    PostgreSQL refuses a column reference that names a column of two tables
    of the query's [FROM] clause. *)
Definition resolves (tables : list (list string)) (column : string) : bool :=
  (length (List.filter (λ t, bool_decide (column ∈ t)) tables) =? 1)%nat.

(** A statement whose select list is [columns], over the tables of [FROM]. *)
Definition select_list {S A} (columns : list string) (tables : list (list string)) (m : M S A) : M S A :=
  if forallb (resolves tables) columns then m else raise BackendUnavailableError.

Definition app_users_columns : list string :=
  ["id"; "supabase_user_id"; "email_normalized"; "device_epoch"; "created_at"; "email_fallback_at"; "deleted_at"].
Definition device_linking_otps_columns : list string :=
  ["id"; "user_id"; "issuing_device_id"; "otp_hash"; "status"; "attempt_count"; "created_at"; "expires_at";
   "consumed_at"].
Definition security_events_columns : list string :=
  ["id"; "user_id"; "device_id"; "event_type"; "outcome"; "network_fingerprint"; "details"; "created_at";
   "expires_at"].

(** ** Foreign keys

    That each reference of a row names a stored row.  A device, a linking code
    and a transfer name a device together with its account. *)
Definition opt_all {A} (p : A → bool) (o : option A) : bool := match o with None => true | Some a => p a end.

Definition has_account (db : Db) (account_id : UUID) : bool :=
  existsb (λ a, bool_decide (acc_id a = account_id)) (app_users db).
Definition has_device (db : Db) (device_id : UUID) : bool :=
  existsb (λ d, bool_decide (dev_id d = device_id)) (devices db).
Definition has_own_device (db : Db) (account_id device_id : UUID) : bool :=
  existsb (λ d, bool_decide (dev_user_id d = account_id) && bool_decide (dev_id d = device_id)) (devices db).
Definition has_session (db : Db) (session_id : UUID) : bool :=
  existsb (λ s, bool_decide (ses_id s = session_id)) (app_sessions db).

Definition device_fks (db : Db) (r : DeviceRecord) : bool :=
  has_account db (dev_user_id r) && opt_all (has_device db) (dev_linked_by_device_id r).
Definition session_fks (db : Db) (r : SessionRecord) : bool := has_own_device db (ses_user_id r) (ses_device_id r).
Definition challenge_fks (db : Db) (r : DeviceChallengeRecord) : bool := has_device db (chl_device_id r).
Definition linking_otp_fks (db : Db) (r : DeviceLinkingOtpRecord) : bool :=
  has_account db (otp_user_id r) && has_own_device db (otp_user_id r) (otp_issuing_device_id r).
Definition transfer_fks (db : Db) (r : TransferRequestRecord) : bool :=
  has_account db (tr_user_id r) && has_own_device db (tr_user_id r) (tr_sender_device_id r) &&
  has_own_device db (tr_user_id r) (tr_recipient_device_id r).
Definition ticket_fks (db : Db) (r : WebSocketTicketRecord) : bool := has_session db (tkt_session_id r).
Definition event_fks (db : Db) (r : SecurityEventRecord) : bool :=
  opt_all (has_account db) (ev_user_id r) && opt_all (has_device db) (ev_device_id r).

Definition foreign_keys (db : Db) : bool :=
  forallb (device_fks db) (devices db) && forallb (session_fks db) (app_sessions db) &&
  forallb (challenge_fks db) (device_challenges db) && forallb (linking_otp_fks db) (device_linking_otps db) &&
  forallb (transfer_fks db) (transfer_requests db) && forallb (ticket_fks db) (websocket_tickets db) &&
  forallb (event_fks db) (security_events db).
