(* ===== verification/Database.v ===== *)
(** * Database: [app/database.py] over a driver that fails

    The object that owns the connection pool.  What asyncpg and [wait_for] make
    of a call is an argument: an answer, or the exception raised, which for a
    statement is raised before or after the server ran it. *)
From S2P Require Import Prelude.
From stdpp Require Import list.

(** The pool the object holds, the pools open on the server, and its tables. *)
Record Database (T : Type) := {
  _pool : option N;
  opened : list N;
  tables : T }.
Arguments _pool {T} _.
Arguments opened {T} _.
Arguments tables {T} _.
Arguments Build_Database {T} _ _ _.

(** How a statement ends: it ran and the reply came, it ran and the reply was
    lost, or it did not run. *)
Inductive course := Answered | Lost (e : exn) | Refused (e : exn).

Definition run_statement {T A} (c : course) (statement : M T A) : M T A :=
  λ t, match c with
       | Answered => statement t
       | Lost e => match statement t with (_, t') => (Raise e, t') end
       | Refused e => (Raise e, t)
       end.

(** The body of a transaction: it fetches, and computes in between. *)
Inductive script (T A : Type) : Type :=
| Return (a : A)
| Throw (e : exn)
| Fetch (B : Type) (statement : M T B) (k : B → script T A).
Arguments Return {T A} a.
Arguments Throw {T A} e.
Arguments Fetch {T A B} statement k.

Fixpoint and_then {T A B} (s : script T A) (k : A → script T B) : script T B :=
  match s with
  | Return a => k a
  | Throw e => Throw e
  | Fetch statement k' => Fetch statement (λ b, and_then (k' b) k)
  end.

Definition computed {T A} (o : outcome A) : script T A :=
  match o with Ok a => Return a | Raise e => Throw e end.

(** The body's statements take the courses given, and are answered after
    them. *)
Fixpoint perform {T A} (s : script T A) (courses : list course) : M T A :=
  match s with
  | Return a => ret a
  | Throw e => raise e
  | Fetch statement k =>
      let! b := run_statement (default Answered (head courses)) statement in perform (k b) (tail courses)
  end.

(** What the driver makes of a transaction: of taking a connection, of [BEGIN],
    of each statement, of [COMMIT], of [ROLLBACK] and of giving the connection
    back. *)
Record journey := {
  acquired : outcome unit;
  begun : outcome unit;
  courses : list course;
  committed : course;
  rolled_back : outcome unit;
  released : outcome unit }.

Definition smooth : journey :=
  {| acquired := Ok tt; begun := Ok tt; courses := []; committed := Answered; rolled_back := Ok tt; released := Ok tt |}.

Section database.
Context {T : Type}.
Implicit Types (d : Database T).

Definition is_connected d : bool := negb (is_null (_pool d)).

Definition pool : M (Database T) N :=
  λ d, match _pool d with
       | Some p => (Ok p, d)
       | None => (Raise BackendUnavailableError, d)
       end.

(** [except (asyncpg.PostgresError, asyncpg.InterfaceError, OSError,
    TimeoutError) as error: raise BackendUnavailableError from error] *)
Definition provider_error (e : exn) : bool := bool_decide (e ∈ [PostgresError; InterfaceError; OSError; TimeoutError]).

Definition translating {A} (m : M (Database T) A) : M (Database T) A :=
  try_except m provider_error (λ _, raise BackendUnavailableError).

(** [connect], in two steps: another coroutine may run while the pool is being
    created, and [created] is what [wait_for(create_pool(...))] gives. *)
Definition connect_checks : M (Database T) bool := gets (λ d, is_null (_pool d)).

Definition connect_creates (created : outcome N) : M (Database T) unit :=
  translating (
    let! p := lift created in
    modify (λ d, Build_Database (Some p) (p :: opened d) (tables d))).

Definition connect (created : outcome N) : M (Database T) unit :=
  let! missing := connect_checks in
  if missing then connect_creates created else ret tt.

Definition close (closed : outcome unit) : M (Database T) unit :=
  λ d, match _pool d with
       | None => (Ok tt, d)
       | Some p =>
           match closed with
           | Ok _ => (Ok tt, Build_Database None (List.filter (λ q, negb (bool_decide (q = p))) (opened d)) (tables d))
           | Raise e => (Raise e, d)
           end
       end.

Definition on_tables {A} : M T A → M (Database T) A := zoom tables (λ t d, Build_Database (_pool d) (opened d) t).

Definition fetch {A} (c : course) (statement : M T A) : M (Database T) A :=
  translating (do! pool in on_tables (run_statement c statement)).

(** [execute] answers the command's tag. *)
Definition execute {A} (c : course) (command : M T A) : M (Database T) A :=
  translating (do! pool in on_tables (run_statement c command)).

(** [async with connection.transaction(): <body>] *)
Definition in_transaction {A} (j : journey) (body : script T A) : M T A :=
  λ t, match perform body (courses j) t with
       | (Ok a, t') => run_statement (committed j) (λ _, (Ok a, t')) t
       | (Raise e, _) => (match rolled_back j with Ok _ => Raise e | Raise e' => Raise e' end, t)
       end.

(** [async with self.pool.acquire() as connection] *)
Definition with_connection {A} (j : journey) (m : M T A) : M T A :=
  do! lift (acquired j) in
  λ t, match m t with
       | (o, t') => (match released j with Ok _ => o | Raise e => Raise e end, t')
       end.

(** The same exceptions but [OSError]. *)
Definition transaction_error (e : exn) : bool := bool_decide (e ∈ [PostgresError; InterfaceError; TimeoutError]).

Definition transaction {A} (j : journey) (body : script T A) : M (Database T) A :=
  try_except (
    do! pool in
    on_tables (with_connection j (do! lift (begun j) in in_transaction j body)))
    transaction_error (λ _, raise BackendUnavailableError).
End database.
