(* ===== verification/TransferPort.v ===== *)
(** * TransferPort: the transfer state machine and the repository interface

    The constants of [app/repositories/transfers.py], the evolution of a
    transfer record they allow, and the interface the services use
    ([TransferRepositoryPort] of [app/transfers.py] and [app/presence.py]) with
    the laws an implementation owes them. *)
From S2P Require Import Prelude Models.
From stdpp Require Import list strings relations.

Definition _ACTIVE_STATUSES : list string :=
  ["offered"; "accepted"; "negotiating"; "connected"; "transferring"].

Definition _FAILABLE_STATUSES : list string :=
  ["accepted"; "negotiating"; "connected"; "transferring"].

(** [_VALID_TRANSITIONS.get(from_status)] *)
Definition _VALID_TRANSITIONS (from_status : string) : option (list string) :=
  if decide (from_status = "offered") then Some ["accepted"; "rejected"; "expired"; "cancelled"]
  else if decide (from_status = "accepted") then Some ["negotiating"; "cancelled"; "failed"; "expired"]
  else if decide (from_status = "negotiating") then Some ["connected"; "cancelled"; "failed"; "expired"]
  else if decide (from_status = "connected") then Some ["transferring"; "cancelled"; "failed"; "expired"]
  else if decide (from_status = "transferring") then Some ["completed"; "cancelled"; "failed"; "expired"]
  else None.

(** [allowed_targets is not None and to_status in allowed_targets] *)
Definition allowed_transition (from_status to_status : string) : bool :=
  match _VALID_TRANSITIONS from_status with
  | None => false
  | Some targets => bool_decide (to_status ∈ targets)
  end.

Definition terminal (status : string) : Prop := _VALID_TRANSITIONS status = None.

#[export] Instance terminal_dec status : Decision (terminal status).
Proof. unfold terminal. apply _. Defined.

(** One documented transition, and any number of them. *)
Definition status_step (from_status to_status : string) : Prop :=
  allowed_transition from_status to_status = true.

(** The columns no operation rewrites. *)
Definition same_transfer (r r' : TransferRequestRecord) : Prop :=
  tr_id r' = tr_id r ∧ tr_user_id r' = tr_user_id r ∧
  tr_sender_device_id r' = tr_sender_device_id r ∧
  tr_recipient_device_id r' = tr_recipient_device_id r ∧
  tr_protocol_version r' = tr_protocol_version r ∧
  tr_created_at r' = tr_created_at r ∧ tr_expires_at r' = tr_expires_at r.

Definition row_evolves (r r' : TransferRequestRecord) : Prop :=
  same_transfer r r' ∧
  rtc status_step (tr_status r) (tr_status r') ∧
  (∀ t, tr_accepted_at r = Some t → tr_accepted_at r' = Some t) ∧
  (tr_relay_used r = true → tr_relay_used r' = true).

(** No record is lost, and each one moves along the state machine. *)
Definition rows_evolve (t t' : list TransferRequestRecord) : Prop :=
  ∀ r, r ∈ t → ∃ r', r' ∈ t' ∧ row_evolves r r'.

#[export] Instance same_transfer_preorder : PreOrder same_transfer.
Proof.
  split; [intros r; repeat split|].
  intros r1 r2 r3 (?&?&?&?&?&?&?) (?&?&?&?&?&?&?). repeat split; congruence.
Qed.

#[export] Instance row_evolves_preorder : PreOrder row_evolves.
Proof.
  split.
  - intros r. split_and!; auto; reflexivity.
  - intros r1 r2 r3 (?&?&?&?) (?&?&?&?). split_and!; auto; etrans; eauto.
Qed.

#[export] Instance rows_evolve_preorder : PreOrder rows_evolve.
Proof.
  split.
  - intros t r Hr. exists r. split; [done|reflexivity].
  - intros t1 t2 t3 H1 H2 r Hr. destruct (H1 r Hr) as (r2&Hr2&?).
    destruct (H2 r2 Hr2) as (r3&?&?). exists r3. split; [done|]. etrans; eauto.
Qed.

Lemma rows_evolve_app t new : rows_evolve t (t ++ new).
Proof. intros r Hr. exists r. split; [apply elem_of_app; by left|reflexivity]. Qed.

Lemma rows_evolve_map t (f : TransferRequestRecord → TransferRequestRecord) :
  (∀ r, r ∈ t → row_evolves r (f r)) → rows_evolve t (map f t).
Proof.
  intros Hf r Hr. exists (f r). split; [|auto]. apply list_elem_of_fmap. eauto.
Qed.

Lemma allowed_transition_valid a b :
  allowed_transition a b = true → a ∈ _ACTIVE_STATUSES.
Proof.
  unfold allowed_transition, _VALID_TRANSITIONS, _ACTIVE_STATUSES.
  repeat case_decide; subst; intros; try done; set_solver.
Qed.

Lemma terminal_final s s' : rtc status_step s s' → terminal s → s' = s.
Proof.
  intros Hs Ht. inversion Hs as [|? y ? Hstep]; [done|]. subst. unfold status_step in Hstep.
  unfold allowed_transition in Hstep. by rewrite Ht in Hstep.
Qed.

(** Every status of [from] may move to [to]. *)
Definition all_may_move (from : list string) (to : string) : bool :=
  forallb (λ s, allowed_transition s to) from.

Lemma all_may_move_step from to s : all_may_move from to = true → s ∈ from → status_step s to.
Proof.
  unfold all_may_move. rewrite forallb_forall. intros H Hs. apply H. by apply list_elem_of_In.
Qed.

(** The clocks an operation reads: the repository's own clock ([self._clock],
    or [CURRENT_TIMESTAMP]) and the process's wall clock ([datetime.now]). *)
Record Instant := { at_clock : timestamp; at_wall : timestamp }.

(** The successive readings within one call: an operation that consults its
    clock more than once takes [c 0], [c 1], ... *)
Abbreviation readings := (nat → Instant).

Class TransferRepository (R : Type) := {
  transfer_rows : R → list TransferRequestRecord;
  get_by_id : UUID → UUID → R → option TransferRequestRecord;
  list_for_account : UUID → R → list TransferRequestRecord;
  create : readings → UUID → UUID → UUID → UUID → Z → timestamp → M R TransferRequestRecord;
  accept : readings → UUID → UUID → UUID → M R (option TransferRequestRecord);
  reject : readings → UUID → UUID → UUID → M R (option TransferRequestRecord);
  cancel : readings → UUID → UUID → UUID → M R (option TransferRequestRecord);
  expire : readings → UUID → UUID → M R (option TransferRequestRecord);
  mark_negotiating : readings → UUID → UUID → M R (option TransferRequestRecord);
  mark_relay_used : readings → UUID → UUID → M R (option TransferRequestRecord) }.

(** [r] is the result of moving a stored transfer of the account from one of
    [from] to [to], its deadline still ahead (or, for an expiry, passed). *)
Definition moved (t t' : list TransferRequestRecord) (now : timestamp)
    (account_id transfer_id : UUID) (from : list string) (to : string) (unexpired : bool)
    (r : TransferRequestRecord) : Prop :=
  ∃ old, old ∈ t ∧ r ∈ t' ∧ tr_id old = transfer_id ∧ tr_user_id old = account_id ∧
    tr_status old ∈ from ∧ tr_status r = to ∧ same_transfer old r ∧
    (if unexpired then now < tr_expires_at old else tr_expires_at old ≤ now)%Z.

Definition evolves {R} `{TransferRepository R} (s s' : R) : Prop :=
  rows_evolve (transfer_rows s) (transfer_rows s').

#[export] Instance evolves_preorder {R} `{TransferRepository R} : PreOrder (@evolves R _).
Proof.
  split; unfold evolves; [intros s; reflexivity|].
  intros x y z H1 H2. etrans; eauto.
Qed.

(** What an implementation owes its clients.  [repo_ok] is its representation
    invariant; every operation keeps it and only evolves the stored records.
    [served a s] says that the store lists the transfers of [a] (its account is
    live). *)
Class TransferRepositoryLaws (R : Type) `{TransferRepository R} := {
  repo_ok : R → Prop;
  lawful : R → R → Prop := λ s s', repo_ok s → repo_ok s' ∧ evolves s s';
  ids_unique s r1 r2 : repo_ok s → r1 ∈ transfer_rows s → r2 ∈ transfer_rows s →
    tr_id r1 = tr_id r2 → r1 = r2;
  get_by_id_owned a i s r : repo_ok s → get_by_id a i s = Some r →
    r ∈ transfer_rows s ∧ tr_id r = i ∧ tr_user_id r = a;
  list_for_account_owned a s r : r ∈ list_for_account a s →
    r ∈ transfer_rows s ∧ tr_user_id r = a;
  served : UUID → R → Prop;
  list_for_account_all a s : repo_ok s → served a s →
    list_for_account a s ≡ₚ List.filter (λ r, bool_decide (tr_user_id r = a)) (transfer_rows s);
  create_appends now u a d1 d2 v e s r s' :
    repo_ok s → u ∉ map tr_id (transfer_rows s) → create now u a d1 d2 v e s = (Ok r, s') →
    transfer_rows s' = transfer_rows s ++ [r] ∧ served a s;
  create_lawful now u a d1 d2 v e s : u ∉ map tr_id (transfer_rows s) →
    lawful s (create now u a d1 d2 v e s).2;
  accept_lawful now a i d : respects lawful (accept now a i d);
  reject_lawful now a i d : respects lawful (reject now a i d);
  cancel_lawful now a i d : respects lawful (cancel now a i d);
  expire_lawful now a i : respects lawful (expire now a i);
  mark_negotiating_lawful now a i : respects lawful (mark_negotiating now a i);
  mark_relay_used_lawful now a i : respects lawful (mark_relay_used now a i);
  create_result now u a d1 d2 v e s r s' :
    repo_ok s → create now u a d1 d2 v e s = (Ok r, s') →
    r ∈ transfer_rows s' ∧ tr_id r = u ∧ tr_user_id r = a ∧ tr_sender_device_id r = d1 ∧
    tr_recipient_device_id r = d2 ∧ tr_protocol_version r = v ∧ tr_status r = "offered" ∧
    tr_expires_at r = e ∧ d1 ≠ d2;
  accept_result now a i d s r s' :
    repo_ok s → accept now a i d s = (Ok (Some r), s') →
    moved (transfer_rows s) (transfer_rows s') (at_clock (now 0)) a i ["offered"] "accepted" true r ∧
    tr_recipient_device_id r = d;
  reject_result now a i d s r s' :
    repo_ok s → reject now a i d s = (Ok (Some r), s') →
    moved (transfer_rows s) (transfer_rows s') (at_clock (now 0)) a i ["offered"] "rejected" true r ∧
    tr_recipient_device_id r = d;
  cancel_result now a i d s r s' :
    repo_ok s → cancel now a i d s = (Ok (Some r), s') →
    moved (transfer_rows s) (transfer_rows s') (at_clock (now 0)) a i _ACTIVE_STATUSES "cancelled" true r ∧
    (tr_sender_device_id r = d ∨ tr_recipient_device_id r = d);
  expire_result now a i s r s' :
    repo_ok s → expire now a i s = (Ok (Some r), s') →
    ∃ k, moved (transfer_rows s) (transfer_rows s') (at_clock (now k)) a i _ACTIVE_STATUSES "expired" false r;
  mark_negotiating_result now a i s r s' :
    repo_ok s → mark_negotiating now a i s = (Ok (Some r), s') →
    moved (transfer_rows s) (transfer_rows s') (at_clock (now 0)) a i ["accepted"] "negotiating" true r }.

#[export] Instance lawful_preorder {R} `{TransferRepositoryLaws R} : PreOrder (@lawful R _ _).
Proof.
  split; unfold lawful.
  - intros s Hs. split; [done|reflexivity].
  - intros x y z H1 H2 Hx. destruct (H1 Hx) as [Hy ?]. destruct (H2 Hy) as [Hz ?].
    split; [done|]. etrans; eauto.
Qed.
