(* ===== verification/TransferRepository.v ===== *)
(** * TransferRepository: [TransferRequestRepository] on PostgreSQL

    The class of [app/repositories/transfers.py], statement for statement on
    the tables of [Schema.Db], and its proof that it implements the transfer
    interface. *)
From S2P Require Import Prelude Models Sql Schema TransferPort.
From stdpp Require Import list strings relations.

Module Pg.

(** [EXISTS (SELECT 1 FROM app_users WHERE id = user_id AND deleted_at IS NULL)] *)
Definition owner_live (db : Db) (user_id : UUID) : bool :=
  existsb (λ a, bool_decide (acc_id a = user_id) && account_live a) (app_users db).

Definition get_by_id (account_id transfer_id : UUID) (db : Db) : option TransferRequestRecord :=
  first_row (select (λ r, bool_decide (tr_id r = transfer_id) &&
                          (bool_decide (tr_user_id r = account_id) &&
                           owner_live db (tr_user_id r))) (transfer_requests db)).

Definition list_for_account (account_id : UUID) (db : Db) : list TransferRequestRecord :=
  order_by_desc tr_created_at
    (select (λ r, bool_decide (tr_user_id r = account_id) && owner_live db (tr_user_id r))
       (transfer_requests db)).

Definition list_for_device (account_id device_id : UUID) (db : Db) : list TransferRequestRecord :=
  order_by_desc tr_created_at
    (select (λ r, bool_decide (tr_user_id r = account_id) &&
                  (bool_decide (tr_sender_device_id r = device_id) ||
                   bool_decide (tr_recipient_device_id r = device_id)) &&
                  owner_live db (tr_user_id r))
       (transfer_requests db)).

(** The rows of the [INSERT ... SELECT ... FROM app_users JOIN devices AS
    sender JOIN devices AS recipient WHERE ...] of [create]; [id] is the
    [gen_random_uuid()] default, the other unnamed columns take theirs. *)
Definition create_rows (now : timestamp) (id account_id sender_device_id recipient_device_id : UUID)
    (protocol_version : Z) (expires_at : timestamp) (db : Db) : list TransferRequestRecord :=
  account ← List.filter (λ a, bool_decide (acc_id a = account_id) && account_live a) (app_users db);
  sender ← List.filter (λ d, bool_decide (dev_user_id d = acc_id account) &&
                             bool_decide (dev_id d = sender_device_id) &&
                             bool_decide (dev_status d = "active") &&
                             bool_decide (dev_epoch d = acc_device_epoch account)) (devices db);
  recipient ← List.filter (λ d, bool_decide (dev_user_id d = acc_id account) &&
                                bool_decide (dev_id d = recipient_device_id) &&
                                bool_decide (dev_status d = "active") &&
                                bool_decide (dev_epoch d = acc_device_epoch account) &&
                                bool_decide (dev_id sender ≠ dev_id d)) (devices db);
  [{| tr_id := id;
      tr_user_id := acc_id account;
      tr_sender_device_id := dev_id sender;
      tr_recipient_device_id := dev_id recipient;
      tr_protocol_version := protocol_version;
      tr_status := "offered";
      tr_created_at := now;
      tr_expires_at := expires_at;
      tr_accepted_at := None;
      tr_completed_at := None;
      tr_failure_code := None;
      tr_relay_used := false |}].

Definition create (at_ : readings) (id account_id sender_device_id recipient_device_id : UUID)
    (protocol_version : Z) (expires_at : timestamp) : M Db TransferRequestRecord :=
  let! new := gets (create_rows (at_clock (at_ 0)) id account_id sender_device_id
                      recipient_device_id protocol_version expires_at) in
  let! rows := on_transfer_requests (insert_returning transfer_admits new) in
  lift (required_row rows).

(** The predicate on [devices AS actor] that [_transition] adds. *)
Definition actor_ok (db : Db) (actor_device_id : UUID) (actor_role : option string)
    (r : TransferRequestRecord) : bool :=
  existsb (λ actor,
    existsb (λ account,
      bool_decide (acc_id account = dev_user_id actor) &&
      bool_decide (dev_id actor = actor_device_id) &&
      bool_decide (dev_user_id actor = tr_user_id r) &&
      bool_decide (dev_status actor = "active") &&
      bool_decide (dev_epoch actor = acc_device_epoch account) &&
      account_live account &&
      (if decide (actor_role = Some "recipient")
       then bool_decide (dev_id actor = tr_recipient_device_id r)
       else if decide (actor_role = Some "participant")
       then bool_decide (dev_id actor = tr_sender_device_id r) ||
            bool_decide (dev_id actor = tr_recipient_device_id r)
       else true)) (app_users db)) (devices db).

(** The [WHERE] and [SET] clauses [_transition] assembles. *)
Definition transition_where (db : Db) (now : timestamp) (account_id transfer_id : UUID)
    (from_statuses : list string) (require_unexpired : bool)
    (actor_device_id : option UUID) (actor_role : option string)
    (r : TransferRequestRecord) : bool :=
  bool_decide (tr_id r = transfer_id) &&
  (bool_decide (tr_user_id r = account_id) &&
   bool_decide (tr_status r ∈ from_statuses) &&
   (if require_unexpired then (now <? tr_expires_at r)%Z else (tr_expires_at r <=? now)%Z) &&
   owner_live db (tr_user_id r) &&
   match actor_device_id with
   | None => true
   | Some d => actor_ok db d actor_role r
   end).

Definition transition_set (now : timestamp) (to_status : string) (failure_code : option string)
    (r : TransferRequestRecord) : TransferRequestRecord :=
  tr_replace r to_status
    (if decide (to_status = "accepted") then Some (coalesce (tr_accepted_at r) now)
     else if decide (to_status = "cancelled") then Some (coalesce (tr_accepted_at r) now)
     else tr_accepted_at r)
    (if decide (to_status = "completed") then Some now else tr_completed_at r)
    (if decide (to_status = "failed") then failure_code else None).

Definition _transition (at_ : readings) (account_id transfer_id : UUID)
    (from_statuses : list string) (to_status : string) (require_unexpired : bool)
    (actor_device_id : option UUID) (actor_role : option string)
    (failure_code : option string) : M Db (option TransferRequestRecord) :=
  let! db := gets id in
  let! rows := on_transfer_requests
    (update_returning transfer_check
       (transition_where db (at_clock (at_ 0)) account_id transfer_id from_statuses
          require_unexpired actor_device_id actor_role)
       (transition_set (at_clock (at_ 0)) to_status failure_code)) in
  ret (first_row rows).

Definition transition (at_ : readings) (account_id transfer_id : UUID)
    (from_status to_status : string) : M Db (option TransferRequestRecord) :=
  if allowed_transition from_status to_status
  then _transition at_ account_id transfer_id [from_status] to_status
         (negb (bool_decide (to_status = "expired"))) None None None
  else ret None.

Definition accept (at_ : readings) (account_id transfer_id recipient_device_id : UUID) :=
  _transition at_ account_id transfer_id ["offered"] "accepted" true
    (Some recipient_device_id) (Some "recipient") None.

Definition reject (at_ : readings) (account_id transfer_id recipient_device_id : UUID) :=
  _transition at_ account_id transfer_id ["offered"] "rejected" true
    (Some recipient_device_id) (Some "recipient") None.

Definition cancel (at_ : readings) (account_id transfer_id actor_device_id : UUID) :=
  _transition at_ account_id transfer_id _ACTIVE_STATUSES "cancelled" true
    (Some actor_device_id) (Some "participant") None.

Definition mark_negotiating at_ account_id transfer_id :=
  transition at_ account_id transfer_id "accepted" "negotiating".
Definition mark_connected at_ account_id transfer_id :=
  transition at_ account_id transfer_id "negotiating" "connected".
Definition mark_transferring at_ account_id transfer_id :=
  transition at_ account_id transfer_id "connected" "transferring".
Definition complete at_ account_id transfer_id :=
  transition at_ account_id transfer_id "transferring" "completed".

Definition fail (at_ : readings) (account_id transfer_id : UUID) (failure_code : string)
    (actor_device_id : option UUID) :=
  _transition at_ account_id transfer_id _FAILABLE_STATUSES "failed" true
    actor_device_id (Some "participant") (Some failure_code).

Definition expire (at_ : readings) (account_id transfer_id : UUID) :=
  _transition at_ account_id transfer_id _ACTIVE_STATUSES "expired" false None None None.

Definition relay_where (db : Db) (now : timestamp) (account_id transfer_id : UUID)
    (r : TransferRequestRecord) : bool :=
  bool_decide (tr_id r = transfer_id) &&
  (bool_decide (tr_user_id r = account_id) &&
   bool_decide (tr_status r ∈ _ACTIVE_STATUSES) &&
   (now <? tr_expires_at r)%Z && owner_live db (tr_user_id r)).

Definition mark_relay_used (at_ : readings) (account_id transfer_id : UUID) :
    M Db (option TransferRequestRecord) :=
  let! db := gets id in
  let! rows := on_transfer_requests
    (update_returning transfer_check (relay_where db (at_clock (at_ 0)) account_id transfer_id)
       tr_with_relay_used) in
  ret (first_row rows).

(** The compatibility names of the class. *)
Definition mark_expired := expire.
Definition mark_complete := complete.
Definition mark_failed := fail.
Definition set_relay_used := mark_relay_used.
Definition update_status := transition.
Definition list_by_account := list_for_account.

End Pg.

#[export] Instance db_transfers : TransferRepository Db := {|
  transfer_rows := transfer_requests;
  get_by_id := Pg.get_by_id;
  list_for_account := Pg.list_for_account;
  create := Pg.create;
  accept := Pg.accept;
  reject := Pg.reject;
  TransferPort.cancel := Pg.cancel;
  expire := Pg.expire;
  mark_negotiating := Pg.mark_negotiating;
  mark_relay_used := Pg.mark_relay_used |}.

(** ** Evolution *)

Lemma transition_set_evolves now to code r :
  status_step (tr_status r) to → row_evolves r (Pg.transition_set now to code r).
Proof.
  intros Hs. split_and!; simpl; [repeat split|by apply rtc_once| |done].
  intros t Ht. rewrite Ht. simpl. by repeat case_decide.
Qed.

Lemma transition_where_true db now a i from u d role r :
  Pg.transition_where db now a i from u d role r = true →
  tr_id r = i ∧ tr_user_id r = a ∧ tr_status r ∈ from ∧
  (if u then now < tr_expires_at r else tr_expires_at r ≤ now)%Z ∧
  match d with None => True | Some d => Pg.actor_ok db d role r = true end.
Proof.
  unfold Pg.transition_where. intros H. to_prop. split_and!; try done.
  - destruct u; to_prop; done.
  - by destruct d.
Qed.

(** The representation invariant: the primary key. *)
Definition transfers_ok (db : Db) : Prop := keys_unique tr_id (transfer_requests db).

Lemma update_set_keys (cond : TransferRequestRecord → bool) f t :
  (∀ r, cond r = true → tr_id (f r) = tr_id r) → map tr_id (update_set cond f t) = map tr_id t.
Proof.
  intros Hf. unfold update_set. rewrite map_map. apply map_ext. intros r.
  destruct (cond r) eqn:Hc; auto.
Qed.

(** An [UPDATE] of the table that evolves the rows it matches is lawful. *)
Lemma update_lawful db cond f :
  (∀ r, cond r = true → row_evolves r (f r)) →
  transfers_ok db →
  let db' := (on_transfer_requests (update_returning transfer_check cond f) db).2 in
  transfers_ok db' ∧ evolves db db'.
Proof.
  intros Hf Hok. simpl. unfold on_transfer_requests. rewrite zoom_snd.
  unfold transfers_ok, evolves. simpl.
  edestruct (@update_table TransferRequestRecord) as [->| ->]; [split; [done|reflexivity]|].
  split.
  - unfold keys_unique. rewrite update_set_keys; [done|]. intros r Hr. by apply Hf in Hr as [[? _] _].
  - apply rows_evolve_map. intros r _. destruct (cond r) eqn:Hc; [auto|reflexivity].
Qed.

Lemma _transition_lawful at_ a i from to u d role code :
  all_may_move from to = true →
  respects (λ db db', transfers_ok db → transfers_ok db' ∧ evolves db db')
    (Pg._transition at_ a i from to u d role code).
Proof.
  intros Hall db Hok. unfold Pg._transition, bind, gets, ret. simpl.
  pose proof (update_lawful db
    (Pg.transition_where db (at_clock (at_ 0)) a i from u d role)
    (Pg.transition_set (at_clock (at_ 0)) to code)) as Hup.
  destruct (on_transfer_requests _ _) as [[rows|e] db'] eqn:Hu; simpl in *; apply Hup;
    try done; intros r (_&_&Hf&_)%transition_where_true; apply transition_set_evolves;
    by eapply all_may_move_step.
Qed.

Lemma transition_lawful at_ a i from to :
  respects (λ db db', transfers_ok db → transfers_ok db' ∧ evolves db db')
    (Pg.transition at_ a i from to).
Proof.
  unfold Pg.transition. destruct (allowed_transition from to) eqn:Ha.
  - apply _transition_lawful. simpl. by rewrite Ha.
  - intros db Hok. split; [done|reflexivity].
Qed.

(** ** Results *)

Lemma _transition_result at_ a i from to u d role code db r db' :
  Pg._transition at_ a i from to u d role code db = (Ok (Some r), db') →
  moved (transfer_requests db) (transfer_requests db') (at_clock (at_ 0)) a i from to u r ∧
  match d with
  | None => True
  | Some d => ∃ old, same_transfer old r ∧ Pg.actor_ok db d role old = true
  end.
Proof.
  unfold Pg._transition, bind, gets, ret, on_transfer_requests, zoom. simpl.
  destruct (update_returning _ _ _ _) as [o t'] eqn:Hu. destruct o as [rows|]; [|done].
  intros Heq. simplify_eq. simpl.
  edestruct (@update_first_row TransferRequestRecord) as (old&Hin&Hw&Hr&Hin'); [done..|].
  apply transition_where_true in Hw as (Hi&Ha&Hf&Hx&Hd).
  assert (same_transfer old r) as Hsame by (subst r; repeat split).
  split.
  - exists old. split_and!; try done. by subst r.
  - destruct d; [|done]. eauto.
Qed.

Lemma actor_ok_true db d role r :
  Pg.actor_ok db d role r = true →
  ∃ actor account, actor ∈ devices db ∧ account ∈ app_users db ∧
    acc_id account = dev_user_id actor ∧ dev_id actor = d ∧
    dev_user_id actor = tr_user_id r ∧ dev_status actor = "active" ∧
    dev_epoch actor = acc_device_epoch account ∧ acc_deleted_at account = None ∧
    (role = Some "recipient" → d = tr_recipient_device_id r) ∧
    (role = Some "participant" → d = tr_sender_device_id r ∨ d = tr_recipient_device_id r).
Proof.
  unfold Pg.actor_ok. intros (actor&Ha&H)%existsb_exists.
  apply existsb_exists in H as (account&Hc&H). apply list_elem_of_In in Ha, Hc.
  exists actor, account. destruct (acc_deleted_at account) eqn:Hdel;
    unfold account_live in H; rewrite Hdel in H; simpl in H; to_prop; [done|].
  split_and!; try done; intros ->.
  - rewrite decide_True in * by done. to_prop. congruence.
  - rewrite decide_False, decide_True in * by done.
    match goal with H : _ || _ = true |- _ => apply orb_true_iff in H as [?|?] end;
      to_prop; [left|right]; congruence.
Qed.

Lemma first_row_select {Row} (p : Row → bool) t r :
  first_row (select p t) = Some r → r ∈ t ∧ p r = true.
Proof. intros H%first_row_elem. by apply select_elem in H. Qed.

Lemma create_rows_elem now id a d1 d2 v e db r :
  r ∈ Pg.create_rows now id a d1 d2 v e db →
  tr_id r = id ∧ tr_user_id r = a ∧ tr_sender_device_id r = d1 ∧
  tr_recipient_device_id r = d2 ∧ tr_protocol_version r = v ∧ tr_status r = "offered" ∧
  tr_expires_at r = e ∧ d1 ≠ d2.
Proof.
  unfold Pg.create_rows. intros H. apply list_elem_of_bind in H as (acc&H&Hacc).
  apply list_elem_of_bind in H as (s&H&Hs). apply list_elem_of_bind in H as (d&H&Hd).
  apply list_elem_of_In, filter_In in Hacc as [_ Hacc], Hs as [_ Hs], Hd as [_ Hd].
  apply list_elem_of_singleton in H. subst r. simpl. to_prop. split_and!; congruence.
Qed.

Lemma transfers_ok_insert t new rows t' :
  keys_unique tr_id t → insert_returning transfer_admits new t = (Ok rows, t') →
  keys_unique tr_id t'.
Proof.
  revert t rows t'. induction new as [|r new IH]; intros t rows t' Hu; simpl.
  - intros. by simplify_eq.
  - destruct (transfer_admits t r) eqn:Ha; [|done].
    destruct (insert_returning _ _ _) as [[rows'|e] t2] eqn:Hi; intros; simplify_eq.
    eapply IH; [|exact Hi]. unfold keys_unique in *. rewrite map_app. simpl.
    unfold transfer_admits in Ha. to_prop. apply NoDup_app. split_and!; [done| |apply NoDup_singleton].
    intros x Hx ->%list_elem_of_singleton. done.
Qed.

Lemma create_lawful_db now u a d1 d2 v e db :
  transfers_ok db → transfers_ok (Pg.create now u a d1 d2 v e db).2 ∧
  evolves db (Pg.create now u a d1 d2 v e db).2.
Proof.
  intros Hok. unfold Pg.create, bind, gets, lift, on_transfer_requests, zoom. simpl.
  destruct (insert_returning _ _ _) as [[rows|x] t'] eqn:Hi; simpl.
  - split; [by eapply transfers_ok_insert|].
    apply insert_returning_app in Hi as [-> ->]. apply rows_evolve_app.
  - apply insert_returning_raise in Hi as ->. split; [done|unfold evolves; reflexivity].
Qed.

Lemma keys_unique_eq {Row K} (key : Row → K) t r1 r2 :
  keys_unique key t → r1 ∈ t → r2 ∈ t → key r1 = key r2 → r1 = r2.
Proof.
  unfold keys_unique. induction t as [|r t IH]; simpl; intros Hnd H1 H2 Heq;
    [by apply not_elem_of_nil in H1|].
  apply NoDup_cons in Hnd as [Hk Hnd]. apply elem_of_cons in H1 as [->|H1], H2 as [->|H2].
  - done.
  - exfalso. apply Hk. apply list_elem_of_fmap. eauto.
  - exfalso. apply Hk. apply list_elem_of_fmap. exists r1. by rewrite Heq.
  - auto.
Qed.

(** An actor transition yields a record naming the actor in the role. *)
Lemma actor_result (role : string) at_ a i from to u d code db r db' :
  Pg._transition at_ a i from to u (Some d) (Some role) code db = (Ok (Some r), db') →
  moved (transfer_requests db) (transfer_requests db') (at_clock (at_ 0)) a i from to u r ∧
  (role = "recipient" → tr_recipient_device_id r = d) ∧
  (role = "participant" → tr_sender_device_id r = d ∨ tr_recipient_device_id r = d).
Proof.
  intros H. apply _transition_result in H as [Hm (old&(_&_&Hs1&Hs2&_)&Ha)].
  apply actor_ok_true in Ha as (?&?&?&?&?&?&?&?&?&?&Hr&Hp).
  split_and!; [done| |].
  - intros ->. rewrite Hs2. symmetry. auto.
  - intros ->. rewrite Hs1, Hs2. destruct (Hp eq_refl); auto.
Qed.

(** The join of [create] has one row per account row, so with the primary key
    an insert adds one row. *)
Lemma create_rows_live now id a d1 d2 v e db r :
  r ∈ Pg.create_rows now id a d1 d2 v e db → Pg.owner_live db a = true.
Proof.
  unfold Pg.create_rows. intros H. apply list_elem_of_bind in H as (acc&_&Hacc).
  apply list_elem_of_In, filter_In in Hacc as [Hin Hacc]. to_prop.
  unfold Pg.owner_live. apply existsb_exists. exists acc. split; [done|].
  rewrite bool_decide_true by done. done.
Qed.

Lemma insert_same_key t new rows t' id :
  (∀ r, r ∈ new → tr_id r = id) → insert_returning transfer_admits new t = (Ok rows, t') →
  length new ≤ 1.
Proof.
  destruct new as [|r1 [|r2 new]]; simpl; [lia|lia|]. intros Hid.
  destruct (transfer_admits t r1); [|done]. unfold transfer_admits at 1.
  rewrite (bool_decide_false (tr_id r2 ∉ _)); [by rewrite andb_false_r|].
  intros Hn. apply Hn. apply list_elem_of_fmap. exists r1. split.
  - rewrite (Hid r1), (Hid r2); [done|right; left|left].
  - apply elem_of_app. right. by apply list_elem_of_singleton.
Qed.

Lemma create_appends_db now u a d1 d2 v e db r db' :
  Pg.create now u a d1 d2 v e db = (Ok r, db') →
  transfer_requests db' = transfer_requests db ++ [r] ∧ Pg.owner_live db a = true.
Proof.
  unfold Pg.create, bind, gets, lift, on_transfer_requests, zoom. simpl.
  destruct (insert_returning _ _ _) as [[rows|x] t'] eqn:Hi; [|done].
  pose proof (insert_same_key _ _ _ _ u (λ r Hr, proj1 (create_rows_elem _ _ _ _ _ _ _ _ r Hr)) Hi) as Hlen.
  apply insert_returning_app in Hi as [-> ->]. unfold required_row.
  destruct (Pg.create_rows _ _ _ _ _ _ _ _) as [|r0 [|r1 l]] eqn:Hc; simpl in *; [done| |lia].
  intros; simplify_eq. split; [done|]. eapply (create_rows_live _ u _ d1 d2 v e _ r). rewrite Hc. left.
Qed.

Lemma select_filter_live db a :
  Pg.owner_live db a = true →
  select (λ r, bool_decide (tr_user_id r = a) && Pg.owner_live db (tr_user_id r)) (transfer_requests db) =
  List.filter (λ r, bool_decide (tr_user_id r = a)) (transfer_requests db).
Proof.
  intros Hl. apply filter_ext. intros r. case_bool_decide as Hu; [|done]. by rewrite Hu, Hl.
Qed.

#[export] Instance db_transfers_laws : TransferRepositoryLaws Db.
Proof.
  refine {| repo_ok := transfers_ok; served := λ a db, Pg.owner_live db a = true |}; simpl.
  - intros s r1 r2. apply keys_unique_eq.
  - intros a i s r _ H. apply first_row_select in H as [Hin H]. to_prop. auto.
  - intros a s r H. apply order_by_desc_elem, select_elem in H as [Hin H]. to_prop. auto.
  - intros a s _ Hl. unfold Pg.list_for_account. by rewrite order_by_desc_perm, select_filter_live.
  - intros now u a d1 d2 v e s r s' _ _. apply create_appends_db.
  - intros now u a d1 d2 v e db _. apply create_lawful_db.
  - intros. by apply _transition_lawful.
  - intros. by apply _transition_lawful.
  - intros. by apply _transition_lawful.
  - intros. by apply _transition_lawful.
  - intros. apply transition_lawful.
  - intros now a i db Hok. unfold Pg.mark_relay_used, bind, gets, ret. simpl.
    pose proof (update_lawful db (Pg.relay_where db (at_clock (now 0)) a i) tr_with_relay_used) as Hup.
    destruct (on_transfer_requests _ _) as [[rows|e] db'] eqn:Hu; simpl in *; apply Hup;
      try done; intros r _; by split_and!.
  - intros now u a d1 d2 v e s r s' _. unfold Pg.create, bind, gets, lift, on_transfer_requests, zoom.
    simpl. destruct (insert_returning _ _ _) as [[rows|x] t'] eqn:Hi; [|done].
    apply insert_returning_app in Hi as [-> ->]. unfold required_row.
    destruct (first_row _) as [r'|] eqn:Hf; intros; simplify_eq. apply first_row_elem in Hf.
    apply create_rows_elem in Hf as Hr. split; [|exact Hr]. simpl. apply elem_of_app. by right.
  - intros now a i d s r s' _ H. apply actor_result in H as (?&?&_). auto.
  - intros now a i d s r s' _ H. apply actor_result in H as (?&?&_). auto.
  - intros now a i d s r s' _ H. apply actor_result in H as (?&_&?). auto.
  - intros now a i s r s' _ H. exists 0%nat. by apply _transition_result in H as [Hm _].
  - intros now a i s r s' _. unfold Pg.mark_negotiating, Pg.transition. simpl.
    intros H. by apply _transition_result in H as [Hm _].
Defined.
