(* ===== verification/TransferMemory.v ===== *)
(** * TransferMemory: [InMemoryTransferRequestRepository]

    The dictionary-backed repository of [app/repositories/transfers.py], which
    the test application wires in place of PostgreSQL, and its proof that it
    implements the same interface. *)
From S2P Require Import Prelude PyDict Models Sql KeyedTable TransferPort.
From stdpp Require Import list strings relations.

(** [_records], and the [_records] of the device repository when there is
    one. *)
Record MemTransfers := {
  mt_records : dict UUID TransferRequestRecord;
  mt_device_repository : option (dict UUID DeviceRecord) }.

Definition mt_put (r : TransferRequestRecord) (m : MemTransfers) : MemTransfers :=
  {| mt_records := dict_set (tr_id r) r (mt_records m);
     mt_device_repository := mt_device_repository m |}.

Module Mem.

(** [InMemoryDeviceRepository.get_by_id] on the device repository's records *)
Definition device_lookup (devices : dict UUID DeviceRecord) (account_id device_id : UUID) :
    option DeviceRecord :=
  match dict_get device_id devices with
  | Some d => if decide (dev_user_id d = account_id) then Some d else None
  | None => None
  end.

Definition get_by_id (account_id transfer_id : UUID) (m : MemTransfers) :
    option TransferRequestRecord :=
  match dict_get transfer_id (mt_records m) with
  | Some r => if decide (tr_user_id r = account_id) then Some r else None
  | None => None
  end.

Definition list_for_account (account_id : UUID) (m : MemTransfers) : list TransferRequestRecord :=
  order_by_desc tr_created_at
    (List.filter (λ r, bool_decide (tr_user_id r = account_id)) (dict_values (mt_records m))).

Definition list_for_device (account_id device_id : UUID) (m : MemTransfers) :
    list TransferRequestRecord :=
  List.filter (λ r, bool_decide (tr_sender_device_id r = device_id) ||
                    bool_decide (tr_recipient_device_id r = device_id))
    (list_for_account account_id m).

(** The device check of [create]: [true] when the offer must be refused. *)
Definition devices_unavailable (m : MemTransfers)
    (account_id sender_device_id recipient_device_id : UUID) : bool :=
  match mt_device_repository m with
  | None => false
  | Some devices =>
      match device_lookup devices account_id sender_device_id,
            device_lookup devices account_id recipient_device_id with
      | Some sender, Some recipient =>
          bool_decide (dev_status sender ≠ "active") ||
          bool_decide (dev_status recipient ≠ "active") ||
          bool_decide (dev_epoch sender ≠ dev_epoch recipient)
      | _, _ => true
      end
  end.

Definition create (now : readings) (id account_id sender_device_id recipient_device_id : UUID)
    (protocol_version : Z) (expires_at : timestamp) : M MemTransfers TransferRequestRecord :=
  if decide (sender_device_id = recipient_device_id) then raise ValueError
  else
    let! unavailable := gets (λ m, devices_unavailable m account_id sender_device_id recipient_device_id) in
    if (unavailable : bool) then raise ValueError
    else
      let record :=
        {| tr_id := id;
           tr_user_id := account_id;
           tr_sender_device_id := sender_device_id;
           tr_recipient_device_id := recipient_device_id;
           tr_protocol_version := protocol_version;
           tr_status := "offered";
           tr_created_at := at_clock (now 0);
           tr_expires_at := expires_at;
           tr_accepted_at := None;
           tr_completed_at := None;
           tr_failure_code := None;
           tr_relay_used := false |} in
      do! modify (mt_put record) in
      ret record.

Definition _updated_record (wall : timestamp) (record : TransferRequestRecord) (status : string)
    (failure_code : option string) : TransferRequestRecord :=
  tr_replace record status
    (match tr_accepted_at record with
     | Some t => Some t
     | None => if decide (status ∈ ["accepted"; "cancelled"]) then Some wall else None
     end)
    (if decide (status = "completed") then Some wall else tr_completed_at record)
    failure_code.

(** Store the updated record and return it. *)
Definition store (updated : TransferRequestRecord) : M MemTransfers (option TransferRequestRecord) :=
  do! modify (mt_put updated) in ret (Some updated).

Definition transition (now : Instant) (account_id transfer_id : UUID)
    (from_status to_status : string) : M MemTransfers (option TransferRequestRecord) :=
  if negb (allowed_transition from_status to_status) then ret None
  else
    let! found := gets (λ m, dict_get transfer_id (mt_records m)) in
    match found with
    | None => ret None
    | Some record =>
        if bool_decide (tr_user_id record ≠ account_id) ||
           bool_decide (tr_status record ≠ from_status) then ret None
        else if (if decide (to_status = "expired")
                 then (at_clock now <? tr_expires_at record)%Z
                 else (tr_expires_at record <=? at_clock now)%Z) then ret None
        else store (_updated_record (at_wall now) record to_status None)
    end.

Definition _actor_transition (now : Instant) (account_id transfer_id : UUID)
    (from_statuses : list string) (to_status : string) (actor_device_id : UUID)
    (recipient_only : bool) (failure_code : option string) :
    M MemTransfers (option TransferRequestRecord) :=
  let! m := gets id in
  let refused :=
    match mt_device_repository m with
    | None => false
    | Some devices =>
        match device_lookup devices account_id actor_device_id with
        | None => true
        | Some actor => bool_decide (dev_status actor ≠ "active")
        end
    end in
  if refused then ret None
  else
    match dict_get transfer_id (mt_records m) with
    | None => ret None
    | Some record =>
        if bool_decide (tr_user_id record ≠ account_id) ||
           bool_decide (tr_status record ∉ from_statuses) ||
           (tr_expires_at record <=? at_clock now)%Z ||
           (recipient_only && bool_decide (tr_recipient_device_id record ≠ actor_device_id)) ||
           (negb recipient_only &&
            bool_decide (actor_device_id ∉ [tr_sender_device_id record; tr_recipient_device_id record]))
        then ret None
        else store (_updated_record (at_wall now) record to_status failure_code)
    end.

Definition accept (now : readings) (account_id transfer_id recipient_device_id : UUID) :=
  _actor_transition (now 0) account_id transfer_id ["offered"] "accepted" recipient_device_id true None.

Definition reject (now : readings) (account_id transfer_id recipient_device_id : UUID) :=
  _actor_transition (now 0) account_id transfer_id ["offered"] "rejected" recipient_device_id true None.

Definition cancel (now : readings) (account_id transfer_id actor_device_id : UUID) :=
  _actor_transition (now 0) account_id transfer_id _ACTIVE_STATUSES "cancelled" actor_device_id false None.

Definition _expire_active (now : Instant) (account_id transfer_id : UUID) :
    M MemTransfers (option TransferRequestRecord) :=
  let! found := gets (λ m, dict_get transfer_id (mt_records m)) in
  match found with
  | None => ret None
  | Some record =>
      if bool_decide (tr_user_id record ≠ account_id) ||
         bool_decide (tr_status record ∉ _ACTIVE_STATUSES) ||
         (at_clock now <? tr_expires_at record)%Z then ret None
      else store (_updated_record (at_wall now) record "expired" None)
  end.

Definition expire (now : readings) (account_id transfer_id : UUID) :
    M MemTransfers (option TransferRequestRecord) :=
  let! expired_offer := transition (now 0) account_id transfer_id "offered" "expired" in
  match expired_offer with
  | Some r => ret (Some r)
  | None => _expire_active (now 1) account_id transfer_id
  end.

Definition mark_negotiating (now : readings) account_id transfer_id :=
  transition (now 0) account_id transfer_id "accepted" "negotiating".
Definition mark_connected (now : readings) account_id transfer_id :=
  transition (now 0) account_id transfer_id "negotiating" "connected".
Definition mark_transferring (now : readings) account_id transfer_id :=
  transition (now 0) account_id transfer_id "connected" "transferring".
Definition complete (now : readings) account_id transfer_id :=
  transition (now 0) account_id transfer_id "transferring" "completed".

(** The loop of [fail] over [_FAILABLE_STATUSES], the [i]-th attempt reading
    the clocks at [now i]. *)
Fixpoint fail_loop (now : readings) (i : nat) (account_id transfer_id : UUID)
    (failure_code : string) (statuses : list string) :
    M MemTransfers (option TransferRequestRecord) :=
  match statuses with
  | [] => ret None
  | status_value :: statuses' =>
      let! result := transition (now i) account_id transfer_id status_value "failed" in
      match result with
      | Some r => store (tr_with_failure_code r (Some failure_code))
      | None => fail_loop now (S i) account_id transfer_id failure_code statuses'
      end
  end.

Definition fail (now : readings) (account_id transfer_id : UUID) (failure_code : string)
    (actor_device_id : option UUID) : M MemTransfers (option TransferRequestRecord) :=
  match actor_device_id with
  | None => fail_loop now 0 account_id transfer_id failure_code _FAILABLE_STATUSES
  | Some d => _actor_transition (now 0) account_id transfer_id _FAILABLE_STATUSES "failed" d false
                (Some failure_code)
  end.

Definition mark_relay_used (now : readings) (account_id transfer_id : UUID) :
    M MemTransfers (option TransferRequestRecord) :=
  let! found := gets (λ m, dict_get transfer_id (mt_records m)) in
  match found with
  | None => ret None
  | Some record =>
      if bool_decide (tr_user_id record ≠ account_id) ||
         bool_decide (tr_status record ∉ _ACTIVE_STATUSES) ||
         (tr_expires_at record <=? at_clock (now 0%nat))%Z then ret None
      else store (tr_with_relay_used record)
  end.

(** The compatibility names of the class. *)
Definition mark_expired := expire.
Definition mark_complete := complete.
Definition mark_failed := fail.
Definition set_relay_used := mark_relay_used.
Definition update_status (now : readings) := transition (now 0).
Definition list_by_account := list_for_account.

End Mem.

#[export] Instance mem_transfers : TransferRepository MemTransfers := {|
  transfer_rows := λ m, dict_values (mt_records m);
  get_by_id := Mem.get_by_id;
  list_for_account := Mem.list_for_account;
  create := Mem.create;
  accept := Mem.accept;
  reject := Mem.reject;
  TransferPort.cancel := Mem.cancel;
  expire := Mem.expire;
  mark_negotiating := Mem.mark_negotiating;
  mark_relay_used := Mem.mark_relay_used |}.

(** ** Evolution

    The records are keyed by identifier ([mem_ok]), and storing a record that
    evolves from the one it replaces evolves the repository. *)
Definition mem_ok (m : MemTransfers) : Prop := keyed tr_id (mt_records m).

Lemma mem_put_ok r m : mem_ok m → mem_ok (mt_put r m).
Proof. intros. by apply keyed_set. Qed.

Lemma updated_record_evolves wall r to code :
  status_step (tr_status r) to → row_evolves r (Mem._updated_record wall r to code).
Proof.
  intros Hs. split_and!; simpl; [repeat split|by apply rtc_once| |done].
  intros t Ht. by rewrite Ht.
Qed.

Lemma mem_put_evolves k old r m :
  dict_get k (mt_records m) = Some old → mem_ok m → row_evolves old r →
  evolves m (mt_put r m).
Proof.
  intros Hk Hok Hev. unfold evolves. simpl. intros x Hx.
  pose proof (keyed_get _ _ _ _ Hok Hk) as Hid.
  assert (tr_id r = k) as Hrk by (destruct Hev as [[? _] _]; congruence).
  apply dict_values_In in Hx as [kx Hx]; [|apply Hok].
  destruct (decide (kx = k)) as [->|Hne].
  - exists r. split; [|by simplify_eq].
    apply dict_values_In; [apply dict_ok_set, Hok|]. exists (tr_id r). apply dict_get_set_eq.
  - exists x. split; [|reflexivity].
    apply dict_values_In; [apply dict_ok_set, Hok|]. exists kx.
    rewrite dict_get_set_ne by congruence. done.
Qed.

Lemma mem_put_elem r m : mem_ok m → r ∈ dict_values (mt_records (mt_put r m)).
Proof.
  intros Hok. apply dict_values_In; [apply dict_ok_set, Hok|].
  exists (tr_id r). apply dict_get_set_eq.
Qed.

(** Storing a successor of the record found under [k] is lawful, and makes a
    transition the interface describes. *)
Lemma store_lawful k old r m :
  dict_get k (mt_records m) = Some old → row_evolves old r → mem_ok m →
  mem_ok (mt_put r m) ∧ evolves m (mt_put r m).
Proof. intros Hk Hr Hok. split; [by apply mem_put_ok|by eapply mem_put_evolves]. Qed.

Lemma store_moved k old r m now a from to (u : bool) :
  mem_ok m → dict_get k (mt_records m) = Some old → tr_user_id old = a →
  tr_status old ∈ from → tr_status r = to → same_transfer old r →
  (if u then now < tr_expires_at old else tr_expires_at old ≤ now)%Z →
  moved (dict_values (mt_records m)) (dict_values (mt_records (mt_put r m))) now a k from to u r.
Proof.
  intros Hok Hk Ha Hf Ht Hs Hu. exists old. split_and!; try done.
  - apply dict_values_In; [apply Hok|]. eauto.
  - by apply mem_put_elem.
  - by eapply keyed_get.
Qed.

(** What [transition] does when it changes the store. *)
Lemma transition_cases now a i from to m :
  Mem.transition now a i from to m = (Ok None, m) ∨
  ∃ old, allowed_transition from to = true ∧ dict_get i (mt_records m) = Some old ∧
    tr_user_id old = a ∧ tr_status old = from ∧
    (if decide (to = "expired") then tr_expires_at old ≤ at_clock now
     else at_clock now < tr_expires_at old)%Z ∧
    let r := Mem._updated_record (at_wall now) old to None in
    Mem.transition now a i from to m = (Ok (Some r), mt_put r m).
Proof.
  unfold Mem.transition. destruct (allowed_transition from to) eqn:Ha; [|by left]. simpl.
  unfold bind, gets, ret, Mem.store, modify. simpl.
  destruct (dict_get i (mt_records m)) as [old|] eqn:Hg; [|by left].
  destruct (bool_decide (tr_user_id old ≠ a) || bool_decide (tr_status old ≠ from)) eqn:Hb;
    [by left|].
  to_prop. destruct (decide (to = "expired")) as [->|Hto];
    (case_match_goal; [by left|]);
    right; exists old; to_prop; split_and!; try done; by apply dec_stable.
Qed.

(** And [_actor_transition]. *)
Lemma actor_transition_cases now a i from to d recipient_only code m :
  Mem._actor_transition now a i from to d recipient_only code m = (Ok None, m) ∨
  ∃ old, dict_get i (mt_records m) = Some old ∧
    tr_user_id old = a ∧ tr_status old ∈ from ∧ (at_clock now < tr_expires_at old)%Z ∧
    (if recipient_only then tr_recipient_device_id old = d
     else tr_sender_device_id old = d ∨ tr_recipient_device_id old = d) ∧
    let r := Mem._updated_record (at_wall now) old to code in
    Mem._actor_transition now a i from to d recipient_only code m = (Ok (Some r), mt_put r m).
Proof.
  unfold Mem._actor_transition, bind, gets. cbn -[Mem.device_lookup dict_get].
  match goal with |- context [if ?b then ret None else _] => destruct b end; [by left|].
  destruct (dict_get i (mt_records m)) as [old|] eqn:Hg; [|by left].
  match goal with |- context [if ?b then ret None else _] => destruct b eqn:Hb end; [by left|].
  right. exists old. to_prop. split_and!; try done; try (by apply dec_stable).
  destruct recipient_only; simpl in *; to_prop.
  - by apply dec_stable.
  - match goal with H : ¬ (d ∉ _) |- _ => apply dec_stable in H; set_solver end.
Qed.

Lemma expire_active_cases now a i m :
  Mem._expire_active now a i m = (Ok None, m) ∨
  ∃ old, dict_get i (mt_records m) = Some old ∧
    tr_user_id old = a ∧ tr_status old ∈ _ACTIVE_STATUSES ∧ (tr_expires_at old ≤ at_clock now)%Z ∧
    let r := Mem._updated_record (at_wall now) old "expired" None in
    Mem._expire_active now a i m = (Ok (Some r), mt_put r m).
Proof.
  unfold Mem._expire_active, bind, gets. simpl.
  destruct (dict_get i (mt_records m)) as [old|] eqn:Hg; [|by left].
  match goal with |- context [if ?b then ret None else _] => destruct b eqn:Hb end; [by left|].
  right. exists old. to_prop. split_and!; try done; by apply dec_stable.
Qed.

(** ** The interface laws *)

Definition mem_lawful (m m' : MemTransfers) : Prop := mem_ok m → mem_ok m' ∧ evolves m m'.

Lemma mem_lawful_refl m : mem_lawful m m.
Proof. intros Hok. split; [done|reflexivity]. Qed.

Lemma mem_lawful_trans m1 m2 m3 : mem_lawful m1 m2 → mem_lawful m2 m3 → mem_lawful m1 m3.
Proof.
  intros H1 H2 Hok. destruct (H1 Hok) as [Hok2 E1]. destruct (H2 Hok2) as [Hok3 E2].
  split; [done|]. by etrans.
Qed.

Lemma store_updated_lawful k old wall to code m :
  dict_get k (mt_records m) = Some old → status_step (tr_status old) to →
  mem_lawful m (mt_put (Mem._updated_record wall old to code) m).
Proof.
  intros Hk Hs Hok. eapply store_lawful; [done| |done]. by apply updated_record_evolves.
Qed.

Lemma mem_transition_lawful now a i from to : respects mem_lawful (Mem.transition now a i from to).
Proof.
  intros m. destruct (transition_cases now a i from to m) as [->|(old&Hal&Hg&_&Hf&_&H)].
  - apply mem_lawful_refl.
  - simpl in H. rewrite H. eapply store_updated_lawful; [done|]. by rewrite Hf.
Qed.

Lemma mem_actor_lawful now a i from to d ro code :
  all_may_move from to = true →
  respects mem_lawful (Mem._actor_transition now a i from to d ro code).
Proof.
  intros Hall m.
  destruct (actor_transition_cases now a i from to d ro code m) as [->|(old&Hg&_&Hf&_&_&H)].
  - apply mem_lawful_refl.
  - simpl in H. rewrite H. eapply store_updated_lawful; [done|]. by eapply all_may_move_step.
Qed.

Lemma mem_expire_active_lawful now a i : respects mem_lawful (Mem._expire_active now a i).
Proof.
  intros m. destruct (expire_active_cases now a i m) as [->|(old&Hg&_&Hf&_&H)].
  - apply mem_lawful_refl.
  - simpl in H. rewrite H. eapply store_updated_lawful; [done|].
    by apply (all_may_move_step _ACTIVE_STATUSES).
Qed.

Lemma mem_expire_lawful now a i : respects mem_lawful (Mem.expire now a i).
Proof.
  intros m. unfold Mem.expire, bind.
  pose proof (mem_transition_lawful (now 0%nat) a i "offered" "expired" m) as H1.
  destruct (Mem.transition _ _ _ _ _ m) as [[[r|]|e] m1]; simpl in *; try done.
  eapply mem_lawful_trans; [done|]. apply mem_expire_active_lawful.
Qed.

Lemma mem_relay_lawful now a i : respects mem_lawful (Mem.mark_relay_used now a i).
Proof.
  intros m. unfold Mem.mark_relay_used, bind, gets, Mem.store, modify, ret. simpl.
  destruct (dict_get i (mt_records m)) as [old|] eqn:Hg; [|apply mem_lawful_refl].
  case_match_goal; [apply mem_lawful_refl|]. simpl. intros Hok.
  eapply store_lawful; [done| |done]. by split_and!.
Qed.

Lemma mem_create_cases now u a d1 d2 v e m :
  (∃ x, Mem.create now u a d1 d2 v e m = (Raise x, m)) ∨
  d1 ≠ d2 ∧ Mem.devices_unavailable m a d1 d2 = false ∧
  let r := {| tr_id := u; tr_user_id := a; tr_sender_device_id := d1;
              tr_recipient_device_id := d2; tr_protocol_version := v; tr_status := "offered";
              tr_created_at := at_clock (now 0%nat); tr_expires_at := e; tr_accepted_at := None;
              tr_completed_at := None; tr_failure_code := None; tr_relay_used := false |} in
  Mem.create now u a d1 d2 v e m = (Ok r, mt_put r m).
Proof.
  unfold Mem.create. case_decide as Hd; [left; by eexists|].
  unfold bind, gets, modify, ret, raise.
  destruct (Mem.devices_unavailable m a d1 d2); [left; by eexists|]. by right.
Qed.

Lemma mem_create_lawful now u a d1 d2 v e m :
  u ∉ map tr_id (dict_values (mt_records m)) → mem_lawful m (Mem.create now u a d1 d2 v e m).2.
Proof.
  intros Hu. destruct (mem_create_cases now u a d1 d2 v e m) as [[x ->]|(_&_&H)];
    [apply mem_lawful_refl|]. simpl in H. rewrite H. intros Hok. split; [by apply mem_put_ok|].
  rewrite keyed_values_keys in Hu by done.
  unfold evolves. simpl. unfold dict_values. rewrite dict_set_fresh by done.
  rewrite map_app. apply rows_evolve_app.
Qed.

#[export] Instance mem_transfers_laws : TransferRepositoryLaws MemTransfers.
Proof.
  refine {| repo_ok := mem_ok; served := λ _ _, True |}; simpl.
  - intros s r1 r2 Hok H1 H2 Heq. apply dict_values_In in H1 as [k1 H1]; [|apply Hok].
    apply dict_values_In in H2 as [k2 H2]; [|apply Hok].
    pose proof (keyed_get _ _ _ _ Hok H1). pose proof (keyed_get _ _ _ _ Hok H2). congruence.
  - intros a i s r Hok. unfold Mem.get_by_id. destruct (dict_get i _) as [r'|] eqn:Hg; [|done].
    case_decide; intros; simplify_eq. split_and!; [|by eapply keyed_get|done].
    apply dict_values_In; [apply Hok|]. eauto.
  - intros a s r. unfold Mem.list_for_account. rewrite order_by_desc_elem, list_elem_of_In, filter_In.
    intros [Hin H]. to_prop. split; [by apply list_elem_of_In|done].
  - intros a m _ _. apply order_by_desc_perm.
  - intros now u a d1 d2 v e m r m' Hok Hu H. split; [|done].
    destruct (mem_create_cases now u a d1 d2 v e m) as [[x Hx]|(_&_&Hc)]; [congruence|].
    simpl in Hc. rewrite Hc in H. simplify_eq. simpl. rewrite keyed_values_keys in Hu by done.
    unfold dict_values. rewrite dict_set_fresh by done. by rewrite map_app.
  - intros. by apply mem_create_lawful.
  - intros. by apply mem_actor_lawful.
  - intros. by apply mem_actor_lawful.
  - intros. by apply mem_actor_lawful.
  - intros. apply mem_expire_lawful.
  - intros. apply mem_transition_lawful.
  - intros. apply mem_relay_lawful.
  - intros now u a d1 d2 v e m r m' Hok.
    destruct (mem_create_cases now u a d1 d2 v e m) as [[x ->]|(Hd&_&H)]; [done|].
    simpl in H. rewrite H. intros; simplify_eq. simpl. split_and!; try done.
    by apply (mem_put_elem {| tr_id := u |}).
  - intros now a i d m r m' Hok H.
    unfold Mem.accept in H.
    destruct (actor_transition_cases (now 0%nat) a i ["offered"] "accepted" d true None m)
      as [Hn|(old&Hg&Ha&Hf&Hx&Hd&He)]; [congruence|]. simpl in He. rewrite He in H. simplify_eq.
    split; [|done]. by eapply store_moved.
  - intros now a i d m r m' Hok H.
    unfold Mem.reject in H.
    destruct (actor_transition_cases (now 0%nat) a i ["offered"] "rejected" d true None m)
      as [Hn|(old&Hg&Ha&Hf&Hx&Hd&He)]; [congruence|]. simpl in He. rewrite He in H. simplify_eq.
    split; [|done]. by eapply store_moved.
  - intros now a i d m r m' Hok H.
    unfold Mem.cancel in H.
    destruct (actor_transition_cases (now 0%nat) a i _ACTIVE_STATUSES "cancelled" d false None m)
      as [Hn|(old&Hg&Ha&Hf&Hx&Hd&He)]; [congruence|]. simpl in He. rewrite He in H. simplify_eq.
    split; [|done]. by eapply store_moved.
  - intros now a i m r m' Hok H. unfold Mem.expire, bind in H.
    destruct (transition_cases (now 0%nat) a i "offered" "expired" m) as [He|(old&_&Hg&Ha&Hf&Hx&He)].
    + rewrite He in H. exists 1%nat.
      destruct (expire_active_cases (now 1%nat) a i m) as [Hn|(old&Hg&Ha&Hf&Hx&He2)]; [congruence|].
      simpl in He2. rewrite He2 in H. simplify_eq. by eapply store_moved.
    + simpl in He. rewrite He in H. exists 0%nat. unfold ret in H. simplify_eq.
      eapply store_moved; try done. rewrite Hf. set_solver.
  - intros now a i m r m' Hok H. unfold Mem.mark_negotiating in H.
    destruct (transition_cases (now 0%nat) a i "accepted" "negotiating" m)
      as [Hn|(old&_&Hg&Ha&Hf&Hx&He)]; [congruence|].
    simpl in He. rewrite He in H. simplify_eq. eapply store_moved; try done.
    rewrite Hf. set_solver.
Defined.
