(* ===== verification/TransferTheorems.v ===== *)
(** * TransferTheorems: what the transfer repositories guarantee

    The operations of both repositories as values ([TransferOp]), histories of
    them, and the properties: the life cycle of a transfer, the safety of the
    schema's constraints, who may accept, that one answer wins, and that the
    in-memory repository refines the SQL one. *)
From S2P Require Import Prelude PyDict Json Models Sql KeyedTable Schema.
From S2P Require Import TransferPort TransferRepository TransferMemory.
From stdpp Require Import list strings relations.

(** ** Histories *)
Inductive TransferOp :=
| OpCreate (id account sender recipient : UUID) (version : Z) (expires_at : timestamp)
| OpTransition (account transfer : UUID) (from_status to_status : string)
| OpAccept (account transfer device : UUID)
| OpReject (account transfer device : UUID)
| OpCancel (account transfer device : UUID)
| OpFail (account transfer : UUID) (code : string) (device : option UUID)
| OpExpire (account transfer : UUID)
| OpMarkRelayUsed (account transfer : UUID).

Definition pg_op (now : readings) (op : TransferOp) : M Db (option TransferRequestRecord) :=
  match op with
  | OpCreate i a d1 d2 v e => let! r := Pg.create now i a d1 d2 v e in ret (Some r)
  | OpTransition a i from to => Pg.transition now a i from to
  | OpAccept a i d => Pg.accept now a i d
  | OpReject a i d => Pg.reject now a i d
  | OpCancel a i d => Pg.cancel now a i d
  | OpFail a i code d => Pg.fail now a i code d
  | OpExpire a i => Pg.expire now a i
  | OpMarkRelayUsed a i => Pg.mark_relay_used now a i
  end.

Definition mem_op (now : readings) (op : TransferOp) : M MemTransfers (option TransferRequestRecord) :=
  match op with
  | OpCreate i a d1 d2 v e => let! r := Mem.create now i a d1 d2 v e in ret (Some r)
  | OpTransition a i from to => Mem.transition (now 0%nat) a i from to
  | OpAccept a i d => Mem.accept now a i d
  | OpReject a i d => Mem.reject now a i d
  | OpCancel a i d => Mem.cancel now a i d
  | OpFail a i code d => Mem.fail now a i code d
  | OpExpire a i => Mem.expire now a i
  | OpMarkRelayUsed a i => Mem.mark_relay_used now a i
  end.

(** A history, each operation with the clock readings it takes; an exception
    ends the operation, not the history. *)
Definition pg_history (ops : list (readings * TransferOp)) (db : Db) : Db :=
  foldl (λ db op, (pg_op op.1 op.2 db).2) db ops.

Definition mem_history (ops : list (readings * TransferOp)) (m : MemTransfers) : MemTransfers :=
  foldl (λ m op, (mem_op op.1 op.2 m).2) m ops.

Lemma respects_bind_ret {S A B} (R : S → S → Prop) (m : M S A) (f : A → B) :
  respects R m → respects R (let! r := m in ret (f r)).
Proof. intros H s. specialize (H s). unfold bind, ret. by destruct (m s) as [[?|?] ?]. Qed.

Lemma pg_op_lawful now op : respects (lawful (R := Db)) (pg_op now op).
Proof.
  destruct op; simpl.
  - apply respects_bind_ret. intros db Hok. by apply create_lawful_db.
  - apply transition_lawful.
  - by apply _transition_lawful.
  - by apply _transition_lawful.
  - by apply _transition_lawful.
  - by apply _transition_lawful.
  - by apply _transition_lawful.
  - intros db. exact (mark_relay_used_lawful (R := Db) now account transfer db).
Qed.

Lemma pg_history_lawful ops db : lawful db (pg_history ops db).
Proof.
  revert db. induction ops as [|op ops IH]; intros db; simpl; [reflexivity|].
  etrans; [apply pg_op_lawful|apply IH].
Qed.

Lemma status_step_offered s : ¬ status_step s "offered".
Proof.
  unfold status_step, allowed_transition, _VALID_TRANSITIONS.
  unfold bool_decide. repeat case_decide; try done; set_solver.
Qed.

(** Nothing moves back to "offered". *)
Lemma never_offered_again s s' : rtc status_step s s' → s ≠ "offered" → s' ≠ "offered".
Proof.
  induction 1 as [|s s1 s' Hstep _ IH]; [done|]. intros _. apply IH. intros ->.
  by apply status_step_offered in Hstep.
Qed.

(** C11: a transfer's life cycle.  Whatever sequence of repository operations
    runs on PostgreSQL, with whatever clock readings and arguments, every
    transfer that was stored is still stored, its identity, parties, protocol
    version, creation and deadline unchanged, its status moved only along
    [_VALID_TRANSITIONS] (so a terminal status is final), a recorded
    acceptance time kept and [relay_used] never reset.  The table is the
    code's; [docs/transfer-protocol.md] has another sequence
    ([documented_sequence]). *)
Theorem pg_lifecycle ops db r :
  transfers_ok db → r ∈ transfer_requests db →
  ∃ r', r' ∈ transfer_requests (pg_history ops db) ∧ row_evolves r r' ∧
        (terminal (tr_status r) → tr_status r' = tr_status r) ∧
        ∀ r'', r'' ∈ transfer_requests (pg_history ops db) → tr_id r'' = tr_id r → r'' = r'.
Proof.
  intros Hok Hr. destruct (pg_history_lawful ops db Hok) as [Hok' Hev].
  destruct (Hev r Hr) as (r'&Hr'&Hrow). exists r'. split_and!; [done|done| |].
  - intros Ht. destruct Hrow as (_&Hs&_). by apply terminal_final.
  - intros r'' Hr'' Hid. destruct Hrow as ((Hid'&_)&_).
    apply (ids_unique (R := Db) (pg_history ops db)); [done..|]. congruence.
Qed.

(** The document's sequence "offered -> negotiating -> connected ->
    metadata_ready -> accepted -> transferring -> completed": of its steps the
    table has the last, and one to "connected"; acceptance comes first in the
    code, "metadata_ready" is no status, and an offer does not fail. *)
Example documented_sequence :
  map (uncurry allowed_transition)
    [("offered", "negotiating"); ("negotiating", "connected"); ("connected", "metadata_ready");
     ("metadata_ready", "accepted"); ("accepted", "transferring"); ("transferring", "completed");
     ("offered", "failed"); ("offered", "accepted"); ("accepted", "negotiating"); ("connected", "transferring")] =
    [false; true; false; false; false; true; false; true; true; true].
Proof. reflexivity. Qed.

(** ** The schema's constraints *)

(** The times of a row lie in the past of [now]. *)
Definition row_past (now : timestamp) (r : TransferRequestRecord) : Prop :=
  (tr_created_at r ≤ now)%Z ∧ ∀ t, tr_accepted_at r = Some t → (t ≤ now)%Z.

(** Every stored transfer satisfies the CHECK constraints. *)
Definition rows_checked (now : timestamp) (t : list TransferRequestRecord) : Prop :=
  ∀ r, r ∈ t → transfer_check r = true ∧ row_past now r.

Definition failure_code_ok (to : string) (code : option string) : Prop :=
  to = "failed" → ∃ c, code = Some c ∧ (1 ≤ String.length c ≤ 64).

Lemma status_step_cases a b :
  status_step a b →
  (a = "offered" ∧ b ∈ ["accepted"; "rejected"; "expired"; "cancelled"]) ∨
  (a = "accepted" ∧ b ∈ ["negotiating"; "cancelled"; "failed"; "expired"]) ∨
  (a = "negotiating" ∧ b ∈ ["connected"; "cancelled"; "failed"; "expired"]) ∨
  (a = "connected" ∧ b ∈ ["transferring"; "cancelled"; "failed"; "expired"]) ∨
  (a = "transferring" ∧ b ∈ ["completed"; "cancelled"; "failed"; "expired"]).
Proof.
  unfold status_step, allowed_transition, _VALID_TRANSITIONS. intros H.
  repeat case_decide; try done; apply bool_decide_eq_true in H; tauto.
Qed.

(** A documented transition of a checked row is a checked row. *)
Lemma transition_set_check t now r to code :
  transfer_check r = true → row_past t r → (t ≤ now)%Z → status_step (tr_status r) to →
  failure_code_ok to code →
  transfer_check (Pg.transition_set now to code r) = true ∧
  row_past now (Pg.transition_set now to code r).
Proof.
  destruct r as [i a d1 d2 v st cr ex ac co fc ru]. unfold row_past. simpl.
  intros Hc [Hcr Hac] Hn Hs Hf.
  assert (∀ t0, ac = Some t0 → cr ≤ t0 ≤ now)%Z as Hac'.
  { intros t0 ->. unfold transfer_check in Hc. simpl in Hc. to_prop. specialize (Hac t0 eq_refl). lia. }
  apply status_step_cases in Hs.
  repeat match goal with H : _ ∨ _ |- _ => destruct H as [H|H] end; destruct Hs as [-> Hto];
    repeat (apply elem_of_cons in Hto as [->|Hto]); try (by apply not_elem_of_nil in Hto);
    unfold transfer_check in *; simpl in *;
    (destruct co; [simpl in *; to_prop; done|]);
    (destruct fc; [simpl in *; to_prop; done|]);
    try (destruct (Hf eq_refl) as (c&->&Hlen); simpl);
    to_prop; destruct ac as [t0|]; simpl in *; try done;
    try specialize (Hac' t0 eq_refl);
    (split; [|split; [lia|intros; simplify_eq; lia]]);
    repeat (rewrite ?andb_true_iff; split); try done;
    rewrite ?Z.leb_le, ?Z.ltb_lt; try lia; try (by apply bool_decide_eq_true).
Qed.

(** What an operation's arguments must satisfy for its statement to be
    admissible: [create] gets a fresh identifier, a deadline ahead and a
    protocol version the column holds; a failure carries a code. *)
Definition op_admissible (now : timestamp) (db : Db) (op : TransferOp) : Prop :=
  match op with
  | OpCreate i _ _ _ v e =>
      i ∉ map tr_id (transfer_requests db) ∧ (1 ≤ v ≤ 32767)%Z ∧ (now < e)%Z
  | OpTransition _ _ _ to => to ≠ "failed"
  | OpFail _ _ code _ => 1 ≤ String.length code ≤ 64
  | _ => True
  end.

Lemma rows_checked_mono t now l : rows_checked t l → (t ≤ now)%Z → rows_checked now l.
Proof.
  intros H Ht r Hr. destruct (H r Hr) as [? [? Ha]]. split; [done|split; [lia|]].
  intros x Hx. specialize (Ha x Hx). lia.
Qed.

(** An [UPDATE] whose new rows are checked does not fail. *)
Lemma update_checked now (cond : TransferRequestRecord → bool) f t :
  rows_checked now t →
  (∀ r, r ∈ t → cond r = true → transfer_check (f r) = true ∧ row_past now (f r)) →
  ∃ rows, update_returning transfer_check cond f t = (Ok rows, update_set cond f t) ∧
          rows_checked now (update_set cond f t).
Proof.
  intros Ht Hf. unfold update_returning.
  assert (forallb transfer_check (map f (List.filter cond t)) = true) as ->.
  { apply forallb_forall. intros x Hx. apply in_map_iff in Hx as (r&<-&Hr).
    apply filter_In in Hr as [Hr Hc]. apply list_elem_of_In in Hr. by apply Hf. }
  eexists. split; [done|]. intros r Hr. unfold update_set in Hr.
  apply list_elem_of_fmap in Hr as (r0&->&Hr0). destruct (cond r0) eqn:Hc; auto.
Qed.

Lemma _transition_checked t at_ a i from to u d role code db :
  rows_checked t (transfer_requests db) → (t ≤ at_clock (at_ 0%nat))%Z →
  all_may_move from to = true → failure_code_ok to code →
  ∃ r db', Pg._transition at_ a i from to u d role code db = (Ok r, db') ∧
           rows_checked (at_clock (at_ 0%nat)) (transfer_requests db').
Proof.
  intros Ht Hn Hall Hf. unfold Pg._transition, bind, gets, ret, on_transfer_requests, zoom. simpl.
  destruct (update_checked (at_clock (at_ 0%nat))
    (Pg.transition_where db (at_clock (at_ 0%nat)) a i from u d role)
    (Pg.transition_set (at_clock (at_ 0%nat)) to code) (transfer_requests db)) as (rows&->&Hok).
  - by eapply rows_checked_mono.
  - intros r Hr (_&_&Hst&_)%transition_where_true. destruct (Ht r Hr).
    eapply transition_set_check; [done..| |done]. by eapply all_may_move_step.
  - eexists _, _. split; [done|]. exact Hok.
Qed.

Lemma relay_checked r : transfer_check (tr_with_relay_used r) = transfer_check r.
Proof. done. Qed.

Lemma create_checked now i a d1 d2 v e db :
  rows_checked (at_clock (now 0%nat)) (transfer_requests db) →
  i ∉ map tr_id (transfer_requests db) → (1 ≤ v ≤ 32767)%Z → (at_clock (now 0%nat) < e)%Z →
  length (Pg.create_rows (at_clock (now 0%nat)) i a d1 d2 v e db) ≤ 1 →
  ∃ o db', Pg.create now i a d1 d2 v e db = (o, db') ∧ o ≠ Raise BackendUnavailableError ∧
           rows_checked (at_clock (now 0%nat)) (transfer_requests db').
Proof.
  intros Ht Hi Hv He Hlen. unfold Pg.create, bind, gets, lift, on_transfer_requests, zoom. simpl.
  pose proof (λ r, create_rows_elem (at_clock (now 0%nat)) i a d1 d2 v e db r) as Helem.
  assert (∀ r, r ∈ Pg.create_rows (at_clock (now 0%nat)) i a d1 d2 v e db →
            r = Build_TransferRequestRecord i a d1 d2 v "offered" (at_clock (now 0%nat)) e
                  None None None false) as Hrow.
  { intros r Hr. unfold Pg.create_rows in Hr. apply list_elem_of_bind in Hr as (acc&Hr&Hacc).
    apply list_elem_of_bind in Hr as (s&Hr&Hs). apply list_elem_of_bind in Hr as (d&Hr&Hd).
    apply list_elem_of_In, filter_In in Hacc as [_ Hacc], Hs as [_ Hs], Hd as [_ Hd].
    apply list_elem_of_singleton in Hr. to_prop. congruence. }
  revert Hlen Helem Hrow.
  destruct (Pg.create_rows _ _ _ _ _ _ _ _) as [|r [|r2 l]]; simpl; intros Hlen Helem Hrow; [..|lia].
  - eexists _, _. split_and!; [done..|]. done.
  - assert (r = _) as Hr by (apply Hrow; left). destruct (Helem r ltac:(left)) as (_&_&_&_&_&_&_&Hd).
    assert (transfer_check r = true) as Hc.
    { subst r. unfold transfer_check. simpl. rewrite !andb_true_iff, !bool_decide_eq_true.
      split_and!; try done; rewrite ?Z.ltb_lt; try lia; set_solver. }
    unfold transfer_admits. rewrite Hc. rewrite bool_decide_true by (subst r; exact Hi). simpl.
    eexists _, _. split_and!; [done..|]. simpl. intros x [Hx|Hx]%elem_of_app; [by apply Ht|].
    apply list_elem_of_singleton in Hx as ->. split; [done|]. subst r. split; simpl; [lia|done].
Qed.

(** At most one row comes out of the join of [create]. *)
Lemma bind_at_most_one {A B K} (key : A → K) (k0 : K) (l : list A) (p : A → bool) (f : A → list B) :
  NoDup (map key l) → (∀ x, p x = true → key x = k0) → (∀ x, length (f x) ≤ 1) →
  length (List.filter p l ≫= f) ≤ 1.
Proof.
  intros Hnd Hp Hf. induction l as [|x l IH]; simpl in *; [lia|].
  apply NoDup_cons in Hnd as [Hx Hnd]. destruct (p x) eqn:Hpx; [|auto]. simpl.
  assert (List.filter p l = []) as ->.
  { destruct (List.filter p l) as [|y l'] eqn:Hfl; [done|].
    assert (y ∈ List.filter p l) as Hy by (rewrite Hfl; left).
    apply list_elem_of_In, filter_In in Hy as [Hy Hpy]. exfalso. apply Hx.
    apply list_elem_of_fmap. exists y. split; [|by apply list_elem_of_In].
    rewrite (Hp x), (Hp y); done. }
  simpl. rewrite app_nil_r. apply Hf.
Qed.

Lemma create_rows_length now i a d1 d2 v e db :
  keys_unique acc_id (app_users db) → keys_unique dev_id (devices db) →
  length (Pg.create_rows now i a d1 d2 v e db) ≤ 1.
Proof.
  intros Ha Hd. unfold Pg.create_rows.
  eapply (bind_at_most_one acc_id a); [done|intros x Hx; by to_prop|]. intros acc.
  eapply (bind_at_most_one dev_id d1); [done|intros x Hx; by to_prop|]. intros s.
  eapply (bind_at_most_one dev_id d2); [done|intros x Hx; by to_prop|]. done.
Qed.

(** The constraints of the schema are never violated.  While the clock
    does not go back behind the times stored, a repository operation with
    admissible arguments never trips a CHECK constraint or the primary key
    (so the backend error [BackendUnavailableError] is never raised for that
    reason), and the rows it leaves satisfy them again. *)
Theorem pg_constraints_safe t now op db :
  keys_unique acc_id (app_users db) → keys_unique dev_id (devices db) →
  rows_checked t (transfer_requests db) → (t ≤ at_clock (now 0%nat))%Z →
  op_admissible (at_clock (now 0%nat)) db op →
  (pg_op now op db).1 ≠ Raise BackendUnavailableError ∧
  rows_checked (at_clock (now 0%nat)) (transfer_requests (pg_op now op db).2).
Proof.
  intros Ha Hd Ht Hn Hop.
  pose proof (λ a i from to u d role code H1 H2,
    _transition_checked t now a i from to u d role code db Ht Hn H1 H2) as Htr.
  assert (rows_checked (at_clock (now 0%nat)) (transfer_requests db)) as Ht' by by eapply rows_checked_mono.
  destruct op as [i a d1 d2 v e|a i from to|a i d|a i d|a i d|a i code d|a i|a i]; simpl in *.
  - destruct Hop as (Hi&Hv&He).
    destruct (create_checked now i a d1 d2 v e db) as (o&db'&Hc&Ho&Hr); try done.
    { by apply create_rows_length. }
    unfold bind. rewrite Hc. destruct o; simpl; [done|]. split; [congruence|done].
  - unfold Pg.transition. destruct (allowed_transition from to) eqn:Hal; [|done].
    destruct (Htr a i [from] to (negb (bool_decide (to = "expired"))) None None None)
      as (?&?&->&?); [simpl; by rewrite Hal|by intros ?|done].
  - destruct (Htr a i ["offered"] "accepted" true (Some d) (Some "recipient") None) as (?&?&H&?);
      [done|by intros ?|]. unfold Pg.accept. by rewrite H.
  - destruct (Htr a i ["offered"] "rejected" true (Some d) (Some "recipient") None) as (?&?&H&?);
      [done|by intros ?|]. unfold Pg.reject. by rewrite H.
  - destruct (Htr a i _ACTIVE_STATUSES "cancelled" true (Some d) (Some "participant") None)
      as (?&?&H&?); [done|by intros ?|]. unfold Pg.cancel. by rewrite H.
  - destruct (Htr a i _FAILABLE_STATUSES "failed" true d (Some "participant") (Some code))
      as (?&?&H&?); [done| |]; [intros _; eauto|]. unfold Pg.fail. by rewrite H.
  - destruct (Htr a i _ACTIVE_STATUSES "expired" false None None None)
      as (?&?&H&?); [done|by intros ?|]. unfold Pg.expire. by rewrite H.
  - unfold Pg.mark_relay_used, bind, gets, ret, on_transfer_requests, zoom. simpl.
    destruct (update_checked (at_clock (now 0%nat)) (Pg.relay_where db (at_clock (now 0%nat)) a i)
      tr_with_relay_used (transfer_requests db)) as (rows&->&Hok); [done| |done].
    intros r Hr _. rewrite relay_checked. destruct (Ht' r Hr) as [? [? ?]]. done.
Qed.

(** ** Who may answer an offer *)

Definition pg_answer (yes : bool) := if yes then Pg.accept else Pg.reject.
Definition answer_status (yes : bool) : string := if yes then "accepted" else "rejected".

(** The stored offer [old] is open, names [d] as its recipient, and [d] is an
    active device of the current epoch of the live account [a]. *)
Definition may_answer (now : timestamp) (db : Db) (a i d : UUID) (old : TransferRequestRecord) : Prop :=
  tr_id old = i ∧ tr_user_id old = a ∧ tr_status old = "offered" ∧ (now < tr_expires_at old)%Z ∧
  tr_recipient_device_id old = d ∧
  ∃ account actor, account ∈ app_users db ∧ acc_id account = a ∧ acc_deleted_at account = None ∧
    actor ∈ devices db ∧ dev_id actor = d ∧ dev_user_id actor = a ∧ dev_status actor = "active" ∧
    dev_epoch actor = acc_device_epoch account.

Lemma actor_ok_recipient db d r :
  (∃ account actor, account ∈ app_users db ∧ acc_id account = tr_user_id r ∧
    acc_deleted_at account = None ∧ actor ∈ devices db ∧ dev_id actor = d ∧
    dev_user_id actor = tr_user_id r ∧ dev_status actor = "active" ∧
    dev_epoch actor = acc_device_epoch account) →
  tr_recipient_device_id r = d →
  Pg.actor_ok db d (Some "recipient") r = true ∧ Pg.owner_live db (tr_user_id r) = true.
Proof.
  intros (account&actor&Hacc&Hid&Hl&Hact&Hd&Hu&Hs&He) Hr. split.
  - unfold Pg.actor_ok. apply existsb_exists. exists actor. split; [by apply list_elem_of_In|].
    apply existsb_exists. exists account. split; [by apply list_elem_of_In|].
    unfold account_live. rewrite Hl. rewrite !bool_decide_true by congruence. done.
  - unfold Pg.owner_live. apply existsb_exists. exists account.
    split; [by apply list_elem_of_In|]. unfold account_live.
    by rewrite Hl, bool_decide_true by congruence.
Qed.

Lemma transition_where_answer now db a i d r :
  may_answer now db a i d r ↔
  Pg.transition_where db now a i ["offered"] true (Some d) (Some "recipient") r = true.
Proof.
  split.
  - intros (Hi&Ha&Hs&Hn&Hr&H). subst a.
    destruct (actor_ok_recipient db d r) as [H1 H2]; [done..|].
    unfold Pg.transition_where. rewrite H1, H2, Hs, Hi. apply Z.ltb_lt in Hn. rewrite Hn.
    by rewrite !bool_decide_true by (set_solver || done).
  - intros (Hi&Ha&Hs&Hn&Hact)%transition_where_true.
    apply list_elem_of_singleton in Hs.
    apply actor_ok_true in Hact as (actor&account&?&?&?&?&?&?&?&?&Hrec&_).
    split_and!; try done; [symmetry; by apply Hrec|].
    exists account, actor. split_and!; congruence.
Qed.

(** Who may answer an offer, and what answering does.  When the offer is
    open and the device is its recipient, active and in the account's current
    epoch, accepting (rejecting) returns the row moved to "accepted"
    ("rejected"), the acceptance timed by the clock, and replaces exactly that row;
    in every other case nothing is returned and nothing changes. *)
Theorem pg_answer_spec yes t now a i d db :
  transfers_ok db → rows_checked t (transfer_requests db) → (t ≤ at_clock (now 0%nat))%Z →
  (∀ old, old ∈ transfer_requests db → may_answer (at_clock (now 0%nat)) db a i d old →
     let new := tr_replace old (answer_status yes)
                  (if yes then Some (coalesce (tr_accepted_at old) (at_clock (now 0%nat)))
                   else tr_accepted_at old) None None in
     pg_answer yes now a i d db =
       (Ok (Some new),
        (on_transfer_requests (modify (map (λ r, if bool_decide (tr_id r = i) then new else r))) db).2)) ∧
  ((∀ old, old ∈ transfer_requests db → ¬ may_answer (at_clock (now 0%nat)) db a i d old) →
     pg_answer yes now a i d db = (Ok None, db)).
Proof.
  intros Hok Ht Hn. set (n := at_clock (now 0%nat)) in *.
  assert (pg_answer yes now a i d = Pg._transition now a i ["offered"] (answer_status yes) true
            (Some d) (Some "recipient") None) as -> by by destruct yes.
  unfold Pg._transition, bind, gets, ret. fold n. split.
  - intros old Hin Hmay. set (new := tr_replace old _ _ _ _).
    assert (first_match (λ r, bool_decide (tr_id r = i)) (transfer_requests db) = Some old) as Hfm.
    { destruct Hmay as [Hi _].
      destruct (first_match _ _) as [r|] eqn:Hf.
      - apply first_match_Some in Hf as [Hr Hid]. to_prop. f_equal.
        apply (keys_unique_eq tr_id (transfer_requests db)); [done..|congruence].
      - rewrite first_match_None in Hf. specialize (Hf old Hin). to_prop. done. }
    pose proof Hmay as Hwhere. apply transition_where_answer in Hwhere as Hw.
    assert (Pg.transition_set n (answer_status yes) None old = new) as Hset.
    { destruct (Ht old Hin) as [Hc _]. destruct Hmay as (_&_&Hst&_). unfold transfer_check in Hc.
      rewrite Hst in Hc. to_prop. unfold Pg.transition_set, new. destruct old; simpl in *. subst.
      destruct tr_completed_at; simpl in *; [done|]. by destruct yes. }
    unfold on_transfer_requests, zoom, update_returning, modify.
    unfold Pg.transition_where in *. cbn [id].
    rewrite filter_keyed by done. rewrite Hfm. apply andb_true_iff in Hw as [_ Hw]. rewrite Hw.
    simpl. rewrite Hset.
    assert (transfer_check new = true) as ->.
    { rewrite <- Hset. destruct (Ht old Hin). eapply transition_set_check; [done..| |].
      - destruct Hmay as (_&_&->&_). destruct yes; done.
      - intros Hf. destruct yes; discriminate. }
    simpl. f_equal. f_equal.
    rewrite (update_set_keyed _ _ _ i old); [|done..]. by rewrite Hset.
  - intros Hno. unfold on_transfer_requests, zoom. simpl. rewrite update_no_match.
    + by destruct db.
    + intros r Hr. apply not_true_is_false. intros Hw. apply (Hno r Hr).
      by apply transition_where_answer.
Qed.

(** ** One answer wins *)
Section single_winner.
Context {R : Type} `{TransferRepositoryLaws R}.

(** One call of the interface, with any arguments; a created transfer takes
    a fresh identifier. *)
Inductive repo_step (s : R) : R → Prop :=
| step_create now i a d1 d2 v e : i ∉ map tr_id (transfer_rows s) →
    repo_step s (create now i a d1 d2 v e s).2
| step_accept now a i d : repo_step s (accept now a i d s).2
| step_reject now a i d : repo_step s (reject now a i d s).2
| step_cancel now a i d : repo_step s (TransferPort.cancel now a i d s).2
| step_expire now a i : repo_step s (expire now a i s).2
| step_mark_negotiating now a i : repo_step s (mark_negotiating now a i s).2
| step_mark_relay_used now a i : repo_step s (mark_relay_used now a i s).2.

Lemma repo_step_lawful s s' : repo_step s s' → lawful s s'.
Proof.
  destruct 1; [by apply create_lawful|apply accept_lawful|apply reject_lawful
    |apply cancel_lawful|apply expire_lawful|apply mark_negotiating_lawful
    |apply mark_relay_used_lawful].
Qed.

Lemma repo_steps_lawful s s' : rtc repo_step s s' → lawful s s'.
Proof.
  induction 1 as [|s s1 s' Hs _ IH]; [reflexivity|]. etrans; [by apply repo_step_lawful|done].
Qed.

Definition answer (yes : bool) (now : readings) (a i d : UUID) : M R (option TransferRequestRecord) :=
  if yes then accept now a i d else reject now a i d.

Lemma answer_result yes now a i d s r s' :
  repo_ok s → answer yes now a i d s = (Ok (Some r), s') →
  moved (transfer_rows s) (transfer_rows s') (at_clock (now 0%nat)) a i ["offered"]
    (answer_status yes) true r ∧ tr_recipient_device_id r = d.
Proof. destruct yes; simpl; [apply accept_result|apply reject_result]. Qed.

Lemma answer_lawful yes now a i d : respects lawful (answer yes now a i d).
Proof. destruct yes; [apply accept_lawful|apply reject_lawful]. Qed.
End single_winner.

(** C18: an offer is answered once.  Through any lawful repository, once an
    accept or a reject of a transfer has returned its record, no later accept
    or reject of that transfer returns one, whoever asks, at whatever time
    and whatever operations ran in between. *)
Theorem answered_once {R : Type} `{TransferRepositoryLaws R} (s s1 s2 s3 : R)
    yes now a i d r yes' now' a' d' o :
  repo_ok s → answer yes now a i d s = (Ok (Some r), s1) → rtc repo_step s1 s2 →
  answer yes' now' a' i d' s2 = (Ok o, s3) → o = None.
Proof.
  intros Hok Hans Hsteps Hans2. destruct o as [r2|]; [exfalso|done].
  apply answer_result in Hans as Hm; [|done]. destruct Hm as [(old&_&Hr&Hid&_&_&Hst&Hsame&_) _].
  pose proof (answer_lawful yes now a i d s Hok) as [Hok1 _]. rewrite Hans in Hok1. simpl in Hok1.
  destruct (repo_steps_lawful s1 s2 Hsteps Hok1) as [Hok2 Hev].
  destruct (Hev r Hr) as (r'&Hr'&(Hid'&_)&Hrtc&_).
  apply answer_result in Hans2 as [(old2&Hold2&_&Hid2&_&Hst2&_) _]; [|done].
  assert (old2 = r') as ->.
  { apply (ids_unique s2); [done..|]. destruct Hsame as [? _]. congruence. }
  apply list_elem_of_singleton in Hst2. rewrite Hst2, Hst in Hrtc.
  by apply never_offered_again in Hrtc; [|destruct yes].
Qed.

(** ** The in-memory repository refines the SQL one *)

(** The two stores hold the same transfers and devices; the accounts live
    only in SQL, where every owner is a live account and an active device is
    in its account's current epoch (the in-memory device repository revokes
    the devices of a past epoch). *)
Record coherent (t : timestamp) (db : Db) (m : MemTransfers) (ds : dict UUID DeviceRecord) : Prop := {
  coh_ok : mem_ok m;
  coh_rows : transfer_requests db = dict_values (mt_records m);
  coh_devices : mt_device_repository m = Some ds;
  coh_ds : keyed dev_id ds;
  coh_device_rows : devices db = dict_values ds;
  coh_accounts : keys_unique acc_id (app_users db);
  coh_live : ∀ acc, acc ∈ app_users db → acc_deleted_at acc = None;
  coh_owner : ∀ r, r ∈ transfer_requests db → ∃ acc, acc ∈ app_users db ∧ acc_id acc = tr_user_id r;
  coh_epoch : ∀ d, d ∈ devices db → ∃ acc, acc ∈ app_users db ∧ acc_id acc = dev_user_id d ∧
    (dev_status d = "active" → dev_epoch d = acc_device_epoch acc);
  coh_checked : rows_checked t (transfer_requests db) }.

(** Both clocks show [n] during the call. *)
Definition steady (n : timestamp) (now : readings) : Prop :=
  ∀ k, now k = {| at_clock := n; at_wall := n |}.

(** The same value is returned, or both raise. *)
Definition same_result {A} (o1 o2 : outcome A) : Prop :=
  match o1, o2 with
  | Ok x, Ok y => x = y
  | Raise _, Raise _ => True
  | _, _ => False
  end.

Definition agrees {A} (n : timestamp) ds (p : outcome A * Db) (q : outcome A * MemTransfers) : Prop :=
  same_result p.1 q.1 ∧ coherent n p.2 q.2 ds.

(** The update both sides perform: look the record up, test it, replace it. *)
Definition mem_update (i : UUID) (cond : TransferRequestRecord → bool)
    (f : TransferRequestRecord → TransferRequestRecord) : M MemTransfers (option TransferRequestRecord) :=
  λ m, match dict_get i (mt_records m) with
       | Some r => if cond r then (Ok (Some (f r)), mt_put (f r) m) else (Ok None, m)
       | None => (Ok None, m)
       end.

Definition pg_update (i : UUID) (cond : Db → TransferRequestRecord → bool)
    (f : TransferRequestRecord → TransferRequestRecord) : M Db (option TransferRequestRecord) :=
  let! db := gets id in
  let! rows := on_transfer_requests
    (update_returning transfer_check (λ r, bool_decide (tr_id r = i) && cond db r) f) in
  ret (first_row rows).

Lemma coherent_mono t n db m ds : (t ≤ n)%Z → coherent t db m ds → coherent n db m ds.
Proof. intros Hn []. split; try done. by eapply rows_checked_mono. Qed.

Lemma coherent_stored t db m ds i r :
  coherent t db m ds → dict_get i (mt_records m) = Some r → r ∈ transfer_requests db ∧ tr_id r = i.
Proof.
  intros [] Hg. split; [|by eapply keyed_get]. rewrite coh_rows0.
  apply dict_values_In; [apply coh_ok0|]. eauto.
Qed.

(** The lookup table with one entry more or replaced stays coherent. *)
Lemma coherent_put n db m ds new :
  coherent n db m ds → transfer_check new = true → row_past n new →
  (∃ acc, acc ∈ app_users db ∧ acc_id acc = tr_user_id new) →
  coherent n (on_transfer_requests (A := unit) (λ _, (Ok tt, dict_values (mt_records (mt_put new m)))) db).2
    (mt_put new m) ds.
Proof.
  intros [] Hc Hp Hacc. rewrite coh_rows0 in *.
  assert (∀ r, r ∈ dict_values (mt_records (mt_put new m)) → r = new ∨ r ∈ dict_values (mt_records m)) as Hel.
  { intros r Hr. apply list_elem_of_fmap in Hr as ([k r']&->&Hr). simpl in *.
    apply dict_set_elem in Hr as [[_ ->]|Hr]; [by left|right].
    apply list_elem_of_fmap. by exists (k, r'). }
  split; simpl; try done.
  - by apply mem_put_ok.
  - intros r [->|Hr]%Hel; [done|]. by apply coh_owner0.
  - intros r [->|Hr]%Hel; [by split|]. by apply coh_checked0.
Qed.

Lemma sim_update t n db m ds i condp condm f :
  coherent t db m ds → (t ≤ n)%Z →
  (∀ r, dict_get i (mt_records m) = Some r → condp db r = condm r) →
  (∀ r, dict_get i (mt_records m) = Some r → condm r = true →
     same_transfer r (f r) ∧ transfer_check (f r) = true ∧ row_past n (f r)) →
  agrees n ds (pg_update i condp f db) (mem_update i condm f m).
Proof.
  intros Hcoh Hn Heq Hf. pose proof (coherent_mono t n _ _ _ Hn Hcoh) as Hcoh'.
  unfold agrees, pg_update, mem_update, bind, gets, ret, on_transfer_requests, zoom. cbn [id].
  rewrite (coh_rows _ _ _ _ Hcoh), update_returning_keyed by apply Hcoh.
  destruct (dict_get i (mt_records m)) as [r|] eqn:Hg; cbn.
  2: { split; [done|]. rewrite <- (coh_rows _ _ _ _ Hcoh). by destruct db. }
  rewrite Heq by done. destruct (condm r) eqn:Hc; cbn.
  2: { split; [done|]. rewrite <- (coh_rows _ _ _ _ Hcoh). by destruct db. }
  destruct (Hf r eq_refl Hc) as (Hsame&Hck&Hp). rewrite Hck. cbn. split; [done|].
  destruct (coherent_stored _ _ _ _ _ _ Hcoh Hg) as [Hin Hid].
  pose proof Hsame as (Hid'&Hu&_).
  replace i with (tr_id (f r)) by congruence. apply (coherent_put n db m ds); try done.
  rewrite Hu. by apply Hcoh.
Qed.

(** *** The conditions agree *)
Lemma coherent_owner_live t db m ds r :
  coherent t db m ds → r ∈ transfer_requests db → Pg.owner_live db (tr_user_id r) = true.
Proof.
  intros Hcoh Hr. destruct (coh_owner _ _ _ _ Hcoh r Hr) as (acc&Hacc&Hid).
  unfold Pg.owner_live. apply existsb_exists. exists acc. split; [by apply list_elem_of_In|].
  unfold account_live. by rewrite (coh_live _ _ _ _ Hcoh acc Hacc), bool_decide_true.
Qed.

Definition role_ok (role : option string) (d : UUID) (r : TransferRequestRecord) : bool :=
  if decide (role = Some "recipient") then bool_decide (d = tr_recipient_device_id r)
  else if decide (role = Some "participant")
  then bool_decide (d = tr_sender_device_id r) || bool_decide (d = tr_recipient_device_id r)
  else true.

Definition actor_active (ds : dict UUID DeviceRecord) (a d : UUID) : bool :=
  match Mem.device_lookup ds a d with
  | Some actor => bool_decide (dev_status actor = "active")
  | None => false
  end.

Lemma device_lookup_Some ds a d dev :
  keyed dev_id ds → Mem.device_lookup ds a d = Some dev ↔
  dev ∈ dict_values ds ∧ dev_id dev = d ∧ dev_user_id dev = a.
Proof.
  intros Hk. unfold Mem.device_lookup. split.
  - destruct (dict_get d ds) as [dev'|] eqn:Hg; [|done]. case_decide; intros; simplify_eq.
    split_and!; [|by eapply keyed_get|done]. apply dict_values_In; [apply Hk|]. eauto.
  - intros (Hin&Hid&Hu). apply dict_values_In in Hin as [k Hg]; [|apply Hk].
    assert (k = d) as -> by (rewrite <- Hid; symmetry; by eapply keyed_get).
    rewrite Hg. by rewrite decide_True.
Qed.

Lemma coherent_actor_ok t db m ds d role r :
  coherent t db m ds → 
  Pg.actor_ok db d role r = actor_active ds (tr_user_id r) d && role_ok role d r.
Proof.
  intros Hcoh. apply eq_true_iff_eq. rewrite andb_true_iff. unfold actor_active.
  pose proof (coh_ds _ _ _ _ Hcoh) as Hk. split.
  - unfold Pg.actor_ok. intros (actor&Ha&H)%existsb_exists.
    apply existsb_exists in H as (acc&Hc&H). apply list_elem_of_In in Ha, Hc. to_prop.
    assert (Mem.device_lookup ds (tr_user_id r) d = Some actor) as ->.
    { apply device_lookup_Some; [done|]. by rewrite <- (coh_device_rows _ _ _ _ Hcoh). }
    subst d. split; [by apply bool_decide_eq_true|done].
  - destruct (Mem.device_lookup ds (tr_user_id r) d) as [actor|] eqn:Hl; [|by intros [? _]].
    apply device_lookup_Some in Hl as (Hin&Hid&Hu); [|done]. intros [Hs Hr]. to_prop.
    rewrite <- (coh_device_rows _ _ _ _ Hcoh) in Hin.
    destruct (coh_epoch _ _ _ _ Hcoh actor Hin) as (acc&Hacc&Hacc_id&He).
    unfold Pg.actor_ok. apply existsb_exists. exists actor. split; [by apply list_elem_of_In|].
    apply existsb_exists. exists acc. split; [by apply list_elem_of_In|].
    unfold account_live. rewrite (coh_live _ _ _ _ Hcoh acc Hacc). unfold role_ok in Hr. subst d.
    rewrite !bool_decide_true by auto. done.
Qed.

(** *** The new rows agree *)
Lemma updated_record_eq n to code r :
  transfer_check r = true → r.(tr_status) ∈ _ACTIVE_STATUSES →
  (to ≠ "failed" → code = None) →
  Pg.transition_set n to code r = Mem._updated_record n r to code.
Proof.
  intros Hc _ Hcode. unfold Pg.transition_set, Mem._updated_record, coalesce.
  destruct r as [? ? ? ? ? st ? ? ac co ? ?]. simpl. f_equal.
  - destruct ac; simpl; repeat case_decide; subst; try done; set_solver.
  - case_decide; [done|]. by rewrite Hcode.
Qed.

(** The transition both repositories make, with or without an actor. *)
Definition move_cond (n : timestamp) (a : UUID) (from : list string) (unexpired : bool)
    (actor : TransferRequestRecord → bool) (r : TransferRequestRecord) : bool :=
  bool_decide (tr_user_id r = a) && bool_decide (tr_status r ∈ from) &&
  (if unexpired then (n <? tr_expires_at r)%Z else (tr_expires_at r <=? n)%Z) && actor r.

Lemma sim_transition t n db m ds now a i from to (un : bool) d role code :
  coherent t db m ds → (t ≤ n)%Z → steady n now → all_may_move from to = true →
  (to ≠ "failed" → code = None) → failure_code_ok to code →
  agrees n ds (Pg._transition now a i from to un d role code db)
    (mem_update i
      (move_cond n a from un (λ r, match d with
                                   | None => true
                                   | Some d => actor_active ds a d && role_ok role d r
                                   end))
      (λ r, Mem._updated_record n r to code) m).
Proof.
  intros Hcoh Hn Hst Hall Hcode Hfc.
  assert (∀ r, dict_get i (mt_records m) = Some r → tr_status r ∈ from →
     transfer_check r = true ∧ row_past t r ∧ status_step (tr_status r) to ∧
     Pg.transition_set n to code r = Mem._updated_record n r to code) as Hrow.
  { intros r Hg Hin. destruct (coherent_stored _ _ _ _ _ _ Hcoh Hg) as [Hr _].
    destruct (coh_checked _ _ _ _ Hcoh r Hr). assert (status_step (tr_status r) to) by by eapply all_may_move_step.
    split_and!; try done. apply updated_record_eq; [done| |done]. by eapply allowed_transition_valid. }
  assert (∀ r, dict_get i (mt_records m) = Some r →
    move_cond n a from un (λ r, match d with None => true | Some d => actor_active ds a d && role_ok role d r end) r = true →
    tr_status r ∈ from) as Hfrom.
  { intros r _ Hc. unfold move_cond in Hc. to_prop. done. }
  assert (Pg._transition now a i from to un d role code db =
    pg_update i (λ db r, bool_decide (tr_user_id r = a) && bool_decide (tr_status r ∈ from) &&
      (if un then (n <? tr_expires_at r)%Z else (tr_expires_at r <=? n)%Z) &&
      Pg.owner_live db (tr_user_id r) &&
      match d with None => true | Some d => Pg.actor_ok db d role r end)
      (Pg.transition_set n to code) db) as ->.
  { unfold Pg._transition, Pg.transition_where. by rewrite (Hst 0%nat). }
  pose proof (sim_update t n db m ds i
    (λ db r, bool_decide (tr_user_id r = a) && bool_decide (tr_status r ∈ from) &&
      (if un then (n <? tr_expires_at r)%Z else (tr_expires_at r <=? n)%Z) &&
      Pg.owner_live db (tr_user_id r) &&
      match d with None => true | Some d => Pg.actor_ok db d role r end)
    (move_cond n a from un (λ r, match d with None => true | Some d => actor_active ds a d && role_ok role d r end))
    (Pg.transition_set n to code) Hcoh Hn) as Hsim.
  assert (mem_update i (move_cond n a from un (λ r, match d with None => true | Some d => actor_active ds a d && role_ok role d r end))
      (λ r, Mem._updated_record n r to code) m =
    mem_update i (move_cond n a from un (λ r, match d with None => true | Some d => actor_active ds a d && role_ok role d r end))
      (Pg.transition_set n to code) m) as ->.
  { unfold mem_update. destruct (dict_get i (mt_records m)) as [r|] eqn:Hg; [|done].
    destruct (move_cond _ _ _ _ _ _) eqn:Hc; [|done].
    by destruct (Hrow r eq_refl (Hfrom r eq_refl Hc)) as (_&_&_&->). }
  apply Hsim.
  - intros r Hg. destruct (coherent_stored _ _ _ _ _ _ Hcoh Hg) as [Hr _]. unfold move_cond.
    rewrite (coherent_owner_live _ _ _ _ _ Hcoh Hr), andb_true_r.
    case_bool_decide as Hu; [|done]. simpl. f_equal.
    destruct d as [d|]; [|done]. by rewrite (coherent_actor_ok _ _ _ _ d role r Hcoh), Hu.
  - intros r Hg Hc. destruct (Hrow r Hg (Hfrom r Hg Hc)) as (Hck&Hp&Hstep&_).
    split; [repeat split|]. by eapply transition_set_check.
Qed.

(** *** The dictionary operations as updates *)
Lemma mem_transition_update n a i from to m :
  allowed_transition from to = true →
  Mem.transition {| at_clock := n; at_wall := n |} a i from to m =
  mem_update i (move_cond n a [from] (negb (bool_decide (to = "expired"))) (λ _, true))
    (λ r, Mem._updated_record n r to None) m.
Proof.
  intros Ha. unfold Mem.transition, mem_update, move_cond. rewrite Ha. simpl.
  unfold bind, gets, ret, Mem.store, modify. simpl.
  destruct (dict_get i (mt_records m)) as [r|]; [|done].
  rewrite !bool_decide_not. destruct (bool_decide (tr_user_id r = a)); simpl; [|done].
  assert (bool_decide (tr_status r ∈ [from]) = bool_decide (tr_status r = from)) as ->.
  { apply bool_decide_ext. set_solver. }
  destruct (bool_decide (tr_status r = from)); simpl; [|done].
  rewrite andb_true_r. destruct (decide (to = "expired")) as [He|He];
    [rewrite (bool_decide_true (to = "expired")) by done
    |rewrite (bool_decide_false (to = "expired")) by done]; simpl;
    [destruct (Z.ltb_spec n (tr_expires_at r)), (Z.leb_spec (tr_expires_at r) n)
    |destruct (Z.leb_spec (tr_expires_at r) n), (Z.ltb_spec n (tr_expires_at r))]; done || lia.
Qed.

Lemma mem_actor_update n a i from to d (ro : bool) code m ds :
  mt_device_repository m = Some ds →
  Mem._actor_transition {| at_clock := n; at_wall := n |} a i from to d ro code m =
  mem_update i (move_cond n a from true (λ r, actor_active ds a d &&
      role_ok (Some (if ro then "recipient" else "participant")) d r))
    (λ r, Mem._updated_record n r to code) m.
Proof.
  intros Hds. unfold Mem._actor_transition, mem_update, move_cond, actor_active, bind, gets, ret,
    Mem.store, modify. cbn -[Mem.device_lookup dict_get]. rewrite Hds.
  destruct (Mem.device_lookup ds a d) as [actor|]; simpl.
  2: { destruct (dict_get i _); [|done]. by rewrite andb_false_r. }
  rewrite bool_decide_not. destruct (bool_decide (dev_status actor = "active")); simpl.
  2: { destruct (dict_get i _); [|done]. by rewrite andb_false_r. }
  destruct (dict_get i (mt_records m)) as [r|]; [|done].
  assert (∀ b b' : bool, b = negb b' → 
    (if b then (λ s : MemTransfers, (Ok None, s)) else
      (λ s : MemTransfers, (Ok (Some (Mem._updated_record n r to code)), mt_put (Mem._updated_record n r to code) s))) m =
    if b' then (Ok (Some (Mem._updated_record n r to code)), mt_put (Mem._updated_record n r to code) m) else (Ok None, m)) as H
    by by intros ? [] ->.
  apply H. clear H. apply eq_true_iff_eq. unfold role_ok.
  rewrite !negb_true_iff, ?orb_true_iff, ?andb_true_iff, ?andb_false_iff, !bool_decide_eq_true,
    !bool_decide_eq_false, Z.leb_le, Z.ltb_ge.
  destruct ro; simpl.
  - rewrite bool_decide_eq_false. intuition congruence.
  - rewrite orb_false_iff, !bool_decide_eq_false.
    assert (d ∉ [tr_sender_device_id r; tr_recipient_device_id r] ↔
      d ≠ tr_sender_device_id r ∧ d ≠ tr_recipient_device_id r) as -> by set_solver.
    intuition congruence.
Qed.

Lemma mem_expire_update n now a i m :
  steady n now →
  Mem.expire now a i m =
  mem_update i (move_cond n a _ACTIVE_STATUSES false (λ _, true))
    (λ r, Mem._updated_record n r "expired" None) m.
Proof.
  intros Hst. unfold Mem.expire, bind. rewrite !Hst, mem_transition_update by done.
  unfold mem_update. destruct (dict_get i (mt_records m)) as [r|] eqn:Hg.
  2: { unfold Mem._expire_active, bind, gets. simpl. by rewrite Hg. }
  destruct (move_cond n a ["offered"] _ _ r) eqn:Hc.
  - assert (move_cond n a _ACTIVE_STATUSES false (λ _, true) r = true) as ->; [|done].
    unfold move_cond in *. simpl in *. to_prop. rewrite andb_true_r, !andb_true_iff, !bool_decide_eq_true.
    split_and!; [done|set_solver|by apply Z.leb_le].
  - unfold Mem._expire_active, bind, gets, ret, Mem.store, modify. cbn -[dict_get]. rewrite Hg. 
    unfold move_cond. rewrite !bool_decide_not. 
    destruct (bool_decide (tr_user_id r = a)); simpl; [|done].
    destruct (bool_decide (tr_status r ∈ _ACTIVE_STATUSES)); simpl; [|done].
    destruct (Z.ltb_spec n (tr_expires_at r)), (Z.leb_spec (tr_expires_at r) n); done || lia.
Qed.

Lemma mem_update_none i cond f m :
  (∀ r, dict_get i (mt_records m) = Some r → cond r = false) → mem_update i cond f m = (Ok None, m).
Proof.
  intros H. unfold mem_update. destruct (dict_get i _) as [r|]; [|done]. by rewrite H.
Qed.

Lemma mem_fail_loop_update n now k a i code statuses m :
  steady n now → mem_ok m → all_may_move statuses "failed" = true →
  Mem.fail_loop now k a i code statuses m =
  mem_update i (move_cond n a statuses true (λ _, true))
    (λ r, Mem._updated_record n r "failed" (Some code)) m.
Proof.
  intros Hst Hok. revert k. induction statuses as [|s statuses IH]; intros k Hall; simpl.
  - rewrite mem_update_none; [done|]. intros r _. unfold move_cond.
    by rewrite (bool_decide_false (tr_status r ∈ [])), andb_false_r by set_solver.
  - simpl in Hall. apply andb_true_iff in Hall as [Hs Hall]. unfold bind at 1.
    rewrite Hst, mem_transition_update by done. unfold mem_update at 1.
    destruct (dict_get i (mt_records m)) as [r|] eqn:Hg.
    2: { rewrite IH by done. unfold mem_update. by rewrite Hg. }
    destruct (move_cond n a [s] _ _ r) eqn:Hc.
    + unfold mem_update. rewrite Hg. unfold move_cond in *. simpl in *. to_prop.
      rewrite (bool_decide_true (tr_status r ∈ s :: statuses)) by set_solver.
      rewrite bool_decide_true by done.
      match goal with H : (n < _)%Z |- _ => apply Z.ltb_lt in H; rewrite H end. simpl.
      unfold Mem.store, bind, modify, ret, mt_put. simpl. do 2 f_equal. apply dict_set_set.
    + rewrite IH by done. unfold mem_update. rewrite Hg.
      assert (move_cond n a (s :: statuses) true (λ _, true) r =
              move_cond n a statuses true (λ _, true) r) as ->; [|done].
      unfold move_cond in *. simpl in *. destruct (bool_decide (tr_user_id r = a)); [|done].
      destruct (n <? tr_expires_at r)%Z; simpl in *; [|by rewrite !andb_false_r].
      rewrite !andb_true_r in *. apply bool_decide_ext. apply bool_decide_eq_false in Hc. set_solver.
Qed.

Lemma sim_relay t n db m ds now a i :
  coherent t db m ds → (t ≤ n)%Z → steady n now →
  agrees n ds (Pg.mark_relay_used now a i db) (Mem.mark_relay_used now a i m).
Proof.
  intros Hcoh Hn Hst.
  assert (Mem.mark_relay_used now a i m =
    mem_update i (λ r, bool_decide (tr_user_id r = a) && bool_decide (tr_status r ∈ _ACTIVE_STATUSES) &&
      (n <? tr_expires_at r)%Z) tr_with_relay_used m) as ->.
  { unfold Mem.mark_relay_used, mem_update, bind, gets, ret, Mem.store, modify. rewrite Hst. simpl.
    destruct (dict_get i (mt_records m)) as [r|]; [|done]. rewrite !bool_decide_not.
    destruct (bool_decide (tr_user_id r = a)); simpl; [|done].
    destruct (bool_decide (tr_status r ∈ _ACTIVE_STATUSES)); simpl; [|done].
    destruct (Z.ltb_spec n (tr_expires_at r)), (Z.leb_spec (tr_expires_at r) n); done || lia. }
  assert (Pg.mark_relay_used now a i db =
    pg_update i (λ db r, bool_decide (tr_user_id r = a) && bool_decide (tr_status r ∈ _ACTIVE_STATUSES) &&
      (n <? tr_expires_at r)%Z && Pg.owner_live db (tr_user_id r)) tr_with_relay_used db) as ->.
  { unfold Pg.mark_relay_used, Pg.relay_where. by rewrite Hst. }
  eapply sim_update; [done..| |].
  - intros r Hg. destruct (coherent_stored _ _ _ _ _ _ Hcoh Hg) as [Hr _].
    by rewrite (coherent_owner_live _ _ _ _ _ Hcoh Hr), andb_true_r.
  - intros r Hg _. destruct (coherent_stored _ _ _ _ _ _ Hcoh Hg) as [Hr _].
    destruct (coh_checked _ _ _ _ (coherent_mono _ _ _ _ _ Hn Hcoh) r Hr). by split_and!.
Qed.

Definition new_offer (n : timestamp) (i a d1 d2 : UUID) (v : Z) (e : timestamp) : TransferRequestRecord :=
  Build_TransferRequestRecord i a d1 d2 v "offered" n e None None None false.

(** The join of [create] yields the offer exactly when the dictionary checks
    pass. *)
Lemma create_rows_coherent t n db m ds i a d1 d2 v e :
  coherent t db m ds →
  Pg.create_rows n i a d1 d2 v e db =
  if bool_decide (d1 = d2) || Mem.devices_unavailable m a d1 d2 then [] else [new_offer n i a d1 d2 v e].
Proof.
  intros Hcoh. pose proof (coh_ds _ _ _ _ Hcoh) as Hk.
  assert (∀ r, r ∈ Pg.create_rows n i a d1 d2 v e db ↔
    r = new_offer n i a d1 d2 v e ∧ bool_decide (d1 = d2) || Mem.devices_unavailable m a d1 d2 = false) as Hel.
  { intros r. unfold Pg.create_rows, Mem.devices_unavailable. rewrite (coh_devices _ _ _ _ Hcoh). split.
    - intros Hr. apply list_elem_of_bind in Hr as (acc&Hr&Hacc).
      apply list_elem_of_bind in Hr as (s&Hr&Hs). apply list_elem_of_bind in Hr as (d&Hr&Hd).
      apply list_elem_of_In, filter_In in Hacc as [_ Hacc], Hs as [Hs Hs'], Hd as [Hd Hd'].
      apply list_elem_of_In in Hs, Hd. rewrite (coh_device_rows _ _ _ _ Hcoh) in Hs, Hd.
      apply list_elem_of_singleton in Hr. to_prop.
      assert (Mem.device_lookup ds a d1 = Some s) as -> by (apply device_lookup_Some; [done|split_and!; congruence]).
      assert (Mem.device_lookup ds a d2 = Some d) as -> by (apply device_lookup_Some; [done|split_and!; congruence]).
      split; [subst r; unfold new_offer; congruence|].
      rewrite !bool_decide_false by congruence. done.
    - intros [-> H]. to_prop. 
      destruct (Mem.device_lookup ds a d1) as [s|] eqn:H1; [|done].
      destruct (Mem.device_lookup ds a d2) as [d|] eqn:H2; [|done]. to_prop.
      apply device_lookup_Some in H1 as (Hs&Hs1&Hs2), H2 as (Hd&Hd1&Hd2); [|done..].
      rewrite <- (coh_device_rows _ _ _ _ Hcoh) in Hs, Hd.
      destruct (coh_epoch _ _ _ _ Hcoh s Hs) as (acc&Hacc&Hacc_id&He).
      assert (dev_status s = "active") as Hsa by by apply dec_stable.
      assert (dev_status d = "active") as Hda by by apply dec_stable.
      assert (dev_epoch s = dev_epoch d) as Heq by by apply dec_stable.
      specialize (He Hsa).
      apply list_elem_of_bind. exists acc. split.
      2: { apply list_elem_of_In, filter_In. split; [by apply list_elem_of_In|]. unfold account_live.
           by rewrite (coh_live _ _ _ _ Hcoh acc Hacc), bool_decide_true by congruence. }
      apply list_elem_of_bind. exists s. split.
      2: { apply list_elem_of_In, filter_In. split; [by apply list_elem_of_In|].
           by rewrite !bool_decide_true by congruence. }
      apply list_elem_of_bind. exists d. split.
      2: { apply list_elem_of_In, filter_In. split; [by apply list_elem_of_In|].
           by rewrite !bool_decide_true by congruence. }
      apply list_elem_of_singleton. unfold new_offer. congruence. }
  assert (length (Pg.create_rows n i a d1 d2 v e db) ≤ 1) as Hlen.
  { apply create_rows_length; [apply Hcoh|]. rewrite (coh_device_rows _ _ _ _ Hcoh). by apply keyed_unique. }
  destruct (bool_decide (d1 = d2) || Mem.devices_unavailable m a d1 d2).
  - destruct (Pg.create_rows _ _ _ _ _ _ _ _) as [|r l]; [done|].
    by destruct (Hel r) as [[_ ?] _]; [left|].
  - destruct (Pg.create_rows _ _ _ _ _ _ _ _) as [|r [|r2 l]]; simpl in *; [..|lia].
    + destruct (Hel (new_offer n i a d1 d2 v e)) as [_ H]. by apply not_elem_of_nil in H.
    + destruct (Hel r) as [[-> _] _]; [left|done].
Qed.

Lemma new_offer_check n i a d1 d2 v e :
  d1 ≠ d2 → (1 ≤ v ≤ 32767)%Z → (n < e)%Z → transfer_check (new_offer n i a d1 d2 v e) = true.
Proof.
  intros Hd Hv He. unfold transfer_check. simpl. rewrite !andb_true_iff, !bool_decide_eq_true.
  split_and!; try done; rewrite ?Z.ltb_lt; try lia; set_solver.
Qed.

Lemma sim_create t n db m ds now i a d1 d2 v e :
  coherent t db m ds → (t ≤ n)%Z → steady n now →
  i ∉ map tr_id (transfer_requests db) → (1 ≤ v ≤ 32767)%Z → (n < e)%Z →
  agrees n ds ((let! r := Pg.create now i a d1 d2 v e in ret (Some r)) db)
    ((let! r := Mem.create now i a d1 d2 v e in ret (Some r)) m).
Proof.
  intros Hcoh Hn Hst Hi Hv He. pose proof (coherent_mono _ _ _ _ _ Hn Hcoh) as Hcoh'.
  unfold agrees, Pg.create, Mem.create, bind, gets, lift, on_transfer_requests, zoom. rewrite ?Hst. simpl.
  rewrite (create_rows_coherent t n db m ds i a d1 d2 v e) by done.
  destruct (decide (d1 = d2)) as [Hd|Hd];
    [rewrite (bool_decide_true (d1 = d2)) by done|rewrite (bool_decide_false (d1 = d2)) by done]; simpl.
  { split; [done|]. by destruct db. }
  destruct (Mem.devices_unavailable m a d1 d2) eqn:Hun; simpl.
  { split; [done|]. by destruct db. }
  fold (new_offer n i a d1 d2 v e). unfold transfer_admits.
  rewrite new_offer_check by done. rewrite bool_decide_true by exact Hi. simpl. rewrite ?Hst. split; [done|].
  assert (transfer_requests db ++ [new_offer n i a d1 d2 v e] =
    dict_values (mt_records (mt_put (new_offer n i a d1 d2 v e) m))) as ->.
  { rewrite (coh_rows _ _ _ _ Hcoh) in *. simpl. rewrite keyed_values_keys in Hi by apply Hcoh.
    rewrite dict_set_fresh by done. unfold dict_values. by rewrite map_app. }
  apply (coherent_put n db m ds); [done|by apply new_offer_check| |].
  - split; simpl; [lia|done].
  - simpl. unfold Mem.devices_unavailable in Hun. rewrite (coh_devices _ _ _ _ Hcoh) in Hun.
    destruct (Mem.device_lookup ds a d1) as [s|] eqn:H1; [|done].
    apply device_lookup_Some in H1 as (Hs&_&Hu); [|apply Hcoh].
    rewrite <- (coh_device_rows _ _ _ _ Hcoh) in Hs.
    destruct (coh_epoch _ _ _ _ Hcoh s Hs) as (acc&?&?&_). exists acc. split; congruence.
Qed.

(** C12: the in-memory repository refines the PostgreSQL one, where the schema
    admits the operation.  Let the stores be coherent: the same transfers and
    devices, of live accounts, active devices in their account's epoch, and
    rows inside the CHECK constraints.  Let both clocks stand at one instant
    during the call, no earlier than the rows.  Then every operation of
    [InMemoryTransferRequestRepository] returns the record the SQL statement
    returns, or both raise, and leaves coherent stores; save where
    [op_admissible] excludes it: an offer needs a new id, a version from 1 to
    32767 and a deadline ahead, a failure a code of 1 to 64 characters, and
    [transition] to "failed" is out, on which the two disagree
    ([transition_to_failed_raises]). *)
Theorem memory_refines_sql t n db m ds now op :
  coherent t db m ds → (t ≤ n)%Z → steady n now → op_admissible n db op →
  same_result (pg_op now op db).1 (mem_op now op m).1 ∧
  coherent n (pg_op now op db).2 (mem_op now op m).2 ds.
Proof.
  intros Hcoh Hn Hst Hop. fold (agrees n ds (pg_op now op db) (mem_op now op m)).
  pose proof (coh_devices _ _ _ _ Hcoh) as Hds.
  destruct op as [i a d1 d2 v e|a i from to|a i d|a i d|a i d|a i code d|a i|a i]; simpl in *.
  - destruct Hop as (Hi&Hv&He). by eapply sim_create.
  - unfold Pg.transition. destruct (allowed_transition from to) eqn:Ha.
    + rewrite Hst, mem_transition_update by done. eapply (sim_transition t n db m ds now a i [from] to _ None);
        try done; [simpl; by rewrite Ha|by intros ?].
    + unfold Mem.transition. rewrite Ha. split; [done|by eapply coherent_mono].
  - unfold Mem.accept. rewrite Hst, (mem_actor_update _ _ _ _ _ _ _ _ _ ds) by done.
    apply (sim_transition t n db m ds now a i ["offered"] "accepted" true (Some d) (Some "recipient")); first [done|by intros ?].
  - unfold Mem.reject. rewrite Hst, (mem_actor_update _ _ _ _ _ _ _ _ _ ds) by done.
    apply (sim_transition t n db m ds now a i ["offered"] "rejected" true (Some d) (Some "recipient")); first [done|by intros ?].
  - unfold Mem.cancel. rewrite Hst, (mem_actor_update _ _ _ _ _ _ _ _ _ ds) by done.
    apply (sim_transition t n db m ds now a i _ACTIVE_STATUSES "cancelled" true (Some d) (Some "participant")); first [done|by intros ?].
  - unfold Mem.fail, Pg.fail. destruct d as [d|].
    + rewrite Hst, (mem_actor_update _ _ _ _ _ _ _ _ _ ds) by done.
      apply (sim_transition t n db m ds now a i _FAILABLE_STATUSES "failed" true (Some d) (Some "participant"));
        try done. intros _. eauto.
    + rewrite (mem_fail_loop_update n) by (done || apply Hcoh).
      apply (sim_transition t n db m ds now a i _FAILABLE_STATUSES "failed" true None (Some "participant"));
        try done. intros _. eauto.
  - rewrite (mem_expire_update n) by done.
    apply (sim_transition t n db m ds now a i _ACTIVE_STATUSES "expired" false None None); first [done|by intros ?].
  - by eapply sim_relay.
Qed.

(** ** A failure without a code *)

(** [transition] (and its alias [update_status]) to "failed" cannot
    succeed on PostgreSQL: it writes no failure code, which the schema
    requires of a failed row, so a matching record makes the statement raise
    and nothing is stored, while the in-memory class moves the record. *)
Theorem transition_to_failed_raises n db m ds now a i from old :
  coherent n db m ds → steady n now → from ∈ _FAILABLE_STATUSES →
  dict_get i (mt_records m) = Some old → tr_user_id old = a → tr_status old = from →
  (n < tr_expires_at old)%Z →
  Pg.update_status now a i from "failed" db = (Raise BackendUnavailableError, db) ∧
  ∃ r, Mem.update_status now a i from "failed" m = (Ok (Some r), mt_put r m) ∧
       tr_status r = "failed" ∧ tr_failure_code r = None.
Proof.
  intros Hcoh Hst Hf Hg Ha Hs Hx. assert (allowed_transition from "failed" = true) as Hal.
  { unfold _FAILABLE_STATUSES in Hf. repeat (apply elem_of_cons in Hf as [->|Hf]; [done|]).
    by apply not_elem_of_nil in Hf. }
  destruct (coherent_stored _ _ _ _ _ _ Hcoh Hg) as [Hin Hid]. apply Z.ltb_lt in Hx. split.
  - unfold Pg.update_status, Pg.transition. rewrite Hal.
    unfold Pg._transition, bind, gets, ret, on_transfer_requests, zoom, Pg.transition_where. rewrite Hst. cbn [id].
    pose proof (coherent_owner_live _ _ _ _ _ Hcoh Hin) as Hlive.
    cbn -[update_returning Z.ltb]. rewrite (coh_rows _ _ _ _ Hcoh) at 1. rewrite update_returning_keyed by apply Hcoh. rewrite Hg.
    rewrite Hlive, !Hst. rewrite (bool_decide_false ("failed" = "expired")) by done. cbn -[Z.ltb].
    rewrite Hx. rewrite !bool_decide_true by set_solver. simpl.
    assert (transfer_check (Pg.transition_set n "failed" None old) = false) as ->.
    { unfold transfer_check. simpl. by rewrite !andb_false_r. }
    rewrite <- (coh_rows _ _ _ _ Hcoh). by destruct db.
  - unfold Mem.update_status. rewrite Hst, mem_transition_update by done. unfold mem_update, move_cond.
    rewrite Hg, Ha, Hs. simpl. rewrite Hx, !bool_decide_true by set_solver. simpl. eauto.
Qed.

(** ** Witnesses

    An account with two active devices and one transfer between them. *)
Definition acct1 : AccountRecord := Build_AccountRecord 1 1 (u "a@b.c") 0 0 None None.
Definition dev10 : DeviceRecord :=
  Build_DeviceRecord 10 1 0 (u "laptop") [] [] "active" 0 0 None None.
Definition dev11 : DeviceRecord :=
  Build_DeviceRecord 11 1 0 (u "phone") [] [] "active" 0 0 None None.
Definition offer100 : TransferRequestRecord := new_offer 5 100 1 10 11 2 (seconds 60).
Definition accepted100 : TransferRequestRecord := tr_replace offer100 "accepted" (Some 7%Z) None None.

Definition fixture_db (rows : list TransferRequestRecord) : Db :=
  Build_Db [acct1] [dev10; dev11] [] [] [] rows [] [] [].
Definition fixture_ds : dict UUID DeviceRecord := [(10%N, dev10); (11%N, dev11)].
Definition fixture_mem (rows : list TransferRequestRecord) : MemTransfers :=
  {| mt_records := map (λ r, (tr_id r, r)) rows; mt_device_repository := Some fixture_ds |}.
Definition at_time (n : timestamp) : readings := λ _, {| at_clock := n; at_wall := n |}.

Lemma at_time_steady n : steady n (at_time n).
Proof. done. Qed.

Lemma fixture_checked t row :
  transfer_check row = true → (tr_created_at row ≤ t)%Z →
  (∀ x, tr_accepted_at row = Some x → (x ≤ t)%Z) → rows_checked t [row].
Proof. intros ? ? ? r ->%list_elem_of_singleton. by split_and!. Qed.

Lemma fixture_accounts rows : keys_unique acc_id (app_users (fixture_db rows)).
Proof. apply NoDup_singleton. Qed.

Lemma fixture_devices rows : keys_unique dev_id (devices (fixture_db rows)).
Proof. apply (bool_decide_unpack _). by vm_compute. Qed.

Lemma fixture_coherent t row :
  tr_user_id row = 1%N → rows_checked t [row] →
  coherent t (fixture_db [row]) (fixture_mem [row]) fixture_ds.
Proof.
  intros Hu Hc. split; simpl; try done.
  - split; [apply NoDup_singleton|]. by intros k r Hk%list_elem_of_singleton; simplify_eq.
  - split; [apply (bool_decide_unpack _); by vm_compute|].
    intros k r [Hk|Hk%list_elem_of_singleton]%elem_of_cons; by simplify_eq.
  - apply NoDup_singleton.
  - by intros acc ->%list_elem_of_singleton.
  - intros r ->%list_elem_of_singleton. exists acct1. split; [left|done].
  - intros d Hd. exists acct1. split; [left|].
    apply elem_of_cons in Hd as [->| ->%list_elem_of_singleton]; done.
Qed.

Lemma offer100_checked : rows_checked 5 [offer100].
Proof. by apply fixture_checked. Qed.

Lemma accepted100_checked : rows_checked 7 [accepted100].
Proof. apply fixture_checked; [done|done|]. simpl. intros x [= <-]. done. Qed.

Definition history1 : list (readings * TransferOp) :=
  [(at_time 10, OpAccept 1 100 11); (at_time 20, OpTransition 1 100 "accepted" "negotiating");
   (at_time 30, OpCancel 1 100 10); (at_time 40, OpAccept 1 100 11)].

Lemma pg_lifecycle_witness :
  map tr_status (transfer_requests (pg_history history1 (fixture_db [offer100]))) = ["cancelled"] ∧
  ∃ r', r' ∈ transfer_requests (pg_history history1 (fixture_db [offer100])) ∧ row_evolves offer100 r'.
Proof.
  split; [by vm_compute|].
  destruct (pg_lifecycle history1 (fixture_db [offer100]) offer100) as (r'&?&?&_).
  - apply NoDup_singleton.
  - left.
  - by exists r'.
Defined.

Lemma pg_constraints_safe_witness :
  (pg_op (at_time 10) (OpAccept 1 100 11) (fixture_db [offer100])).1 ≠ Raise BackendUnavailableError.
Proof.
  apply (pg_constraints_safe 5 (at_time 10) (OpAccept 1 100 11) (fixture_db [offer100])).
  - apply fixture_accounts.
  - apply fixture_devices.
  - apply offer100_checked.
  - done.
  - done.
Defined.

Lemma pg_answer_spec_witness :
  Pg.accept (at_time 10) 1 100 11 (fixture_db [offer100]) =
    (Ok (Some (tr_replace offer100 "accepted" (Some 10%Z) None None)),
     fixture_db [tr_replace offer100 "accepted" (Some 10%Z) None None]).
Proof.
  destruct (pg_answer_spec true 5 (at_time 10) 1 100 11 (fixture_db [offer100])) as [H _].
  - apply NoDup_singleton.
  - apply offer100_checked.
  - done.
  - apply (H offer100); [left|]. split_and!; try done.
    exists acct1, dev11. split_and!; try done; [left|right; left].
Defined.

Lemma answered_once_witness :
  ∃ r s1, answer true (at_time 10) 1 100 11 (fixture_mem [offer100]) = (Ok (Some r), s1) ∧
  ∀ o s3, answer false (at_time 11) 1 100 11 s1 = (Ok o, s3) → o = None.
Proof.
  eexists _, _. split; [by vm_compute|]. intros o s3 H.
  eapply (answered_once (fixture_mem [offer100]) _ _ s3 true (at_time 10) 1 100 11 _ false (at_time 11) 1 11 o).
  - split; [apply NoDup_singleton|]. by intros k r Hk%list_elem_of_singleton; simplify_eq.
  - by vm_compute.
  - apply rtc_refl.
  - exact H.
Defined.

Lemma memory_refines_sql_witness :
  same_result (pg_op (at_time 10) (OpCancel 1 100 10) (fixture_db [accepted100])).1
              (mem_op (at_time 10) (OpCancel 1 100 10) (fixture_mem [accepted100])).1.
Proof.
  apply (memory_refines_sql 7 10 (fixture_db [accepted100]) (fixture_mem [accepted100]) fixture_ds
    (at_time 10) (OpCancel 1 100 10)).
  - apply fixture_coherent; [done|apply accepted100_checked].
  - done.
  - apply at_time_steady.
  - done.
Defined.

Lemma transition_to_failed_raises_witness :
  Pg.update_status (at_time 10) 1 100 "accepted" "failed" (fixture_db [accepted100]) =
    (Raise BackendUnavailableError, fixture_db [accepted100]).
Proof.
  apply (transition_to_failed_raises 10 (fixture_db [accepted100]) (fixture_mem [accepted100]) fixture_ds
    (at_time 10) 1 100 "accepted" accepted100).
  - apply (coherent_mono 7); [done|]. apply fixture_coherent; [done|apply accepted100_checked].
  - apply at_time_steady.
  - left.
  - done.
  - done.
  - done.
  - done.
Defined.
