(* ===== verification/Signaling.v ===== *)
(** * Signaling: the typed socket messages of [app/presence.py]

    The envelope check of a signaling message ([_parse_signaling_message]) and
    what it rests on: canonical UUID text, millisecond deadlines read through
    binary floating point, size limits in UTF-8 bytes. *)
From S2P Require Import Prelude PyDict Json Models.
From stdpp Require Import list strings.

(** ** Constants *)
Definition MAX_SIGNALING_SDP_BYTES : Z := 12 * 1024.
Definition MAX_SIGNALING_ICE_CANDIDATE_BYTES : Z := 2048.
Definition MAX_SIGNALING_HANDSHAKE_BYTES : Z := 8 * 1024.

Definition SIGNALING_OFFER_MESSAGE_TYPE : string := "sdp_offer".
Definition SIGNALING_ANSWER_MESSAGE_TYPE : string := "sdp_answer".
Definition SIGNALING_ICE_MESSAGE_TYPE : string := "ice_candidate".
Definition SIGNALING_HANDSHAKE_OFFER_MESSAGE_TYPE : string := "handshake_offer".
Definition SIGNALING_HANDSHAKE_ANSWER_MESSAGE_TYPE : string := "handshake_answer".

Definition SIGNALING_SINGLE_USE_MESSAGE_TYPES : list string :=
  [SIGNALING_OFFER_MESSAGE_TYPE; SIGNALING_ANSWER_MESSAGE_TYPE;
   SIGNALING_HANDSHAKE_OFFER_MESSAGE_TYPE; SIGNALING_HANDSHAKE_ANSWER_MESSAGE_TYPE].

Definition SIGNALING_MESSAGE_TYPES : list string :=
  [SIGNALING_OFFER_MESSAGE_TYPE; SIGNALING_ANSWER_MESSAGE_TYPE; SIGNALING_ICE_MESSAGE_TYPE;
   SIGNALING_HANDSHAKE_OFFER_MESSAGE_TYPE; SIGNALING_HANDSHAKE_ANSWER_MESSAGE_TYPE].

Definition SIGNALING_ACTIVE_STATUSES : list string :=
  ["offered"; "accepted"; "negotiating"; "connected"; "transferring"].

(** ** UUID text *)

(** [n] in [k] lower-case hexadecimal digits *)
Fixpoint hex_digits (k : nat) (n : N) : pystr :=
  match k with
  | O => []
  | S k' => hex_digits k' (n / 16)%N ++ [hex_digit (n mod 16)%N]
  end.

(** [str(uuid)]: groups of 8, 4, 4, 4 and 12 digits *)
Definition uuid_str (id : UUID) : pystr :=
  let h := hex_digits 32 id in
  take 8 h ++ u "-" ++ take 4 (drop 8 h) ++ u "-" ++ take 4 (drop 12 h) ++ u "-" ++
  take 4 (drop 16 h) ++ u "-" ++ drop 20 h.

Definition hex_value (c : N) : option N :=
  (if (48 <=? c) && (c <=? 57) then Some (c - 48)
   else if (97 <=? c) && (c <=? 102) then Some (c - 87)
   else if (65 <=? c) && (c <=? 70) then Some (c - 55)
   else None)%N.

Fixpoint hex_parse (acc : N) (s : pystr) : option N :=
  match s with
  | [] => Some acc
  | c :: s' => match hex_value c with Some d => hex_parse (16 * acc + d)%N s' | None => None end
  end.

(** [_canonical_uuid].  [UUID(value)] drops hyphens and reads 32 hexadecimal
    digits; the other spellings it takes (braces, a "urn:uuid:" prefix, the
    separators [int] allows) are not the [str] of any UUID, so the comparison
    refuses them as it refuses what [UUID] rejects. *)
Definition _canonical_uuid (value : json) : option UUID :=
  match value with
  | JStr s =>
      let digits := List.filter (λ c, negb (c =? 45)%N) s in
      if bool_decide (length digits = 32%nat) then
        match hex_parse 0 digits with
        | Some parsed => if bool_decide (uuid_str parsed = s) then Some parsed else None
        | None => None
        end
      else None
  | _ => None
  end.

(** ** Deadlines

    [datetime.fromtimestamp(value / 1000, tz=UTC)] goes through an IEEE 754
    double.  A non-negative double is [m * 2^e]. *)

(** Round a non-negative rational to an integer, ties to even. *)
Definition round_half_even (num den : Z) : Z :=
  let q := (num / den)%Z in
  let r := (num mod den)%Z in
  (if 2 * r <? den then q
   else if den <? 2 * r then q + 1
   else if Z.even q then q else q + 1)%Z.

(** The double nearest to [num / den], as (mantissa, exponent): 53 bits of
    mantissa. *)
Definition to_double (num den : Z) : Z * Z :=
  if (num =? 0)%Z then (0, 0)%Z
  else
    let e0 := (Z.log2 num - Z.log2 den - 53)%Z in
    let scale e := if (0 <=? e)%Z then (num, den * 2 ^ e)%Z else (num * 2 ^ (- e), den)%Z in
    let e := (if (fst (scale e0) / snd (scale e0) <? 2 ^ 53)%Z then e0 else e0 + 1)%Z in
    (round_half_even (fst (scale e)) (snd (scale e)), e).

(** The last second of year 9999. *)
Definition MAX_TIMESTAMP_SECONDS : Z := 253402300799.

(** The integral part of [d], and its fractional part times 10^6 rounded to a
    double and then to an integer, ties to even. *)
Definition fromtimestamp (d : Z * Z) : option timestamp :=
  let '(m, e) := d in
  let '(secs, us) :=
    if (0 <=? e)%Z then (m * 2 ^ e, 0)%Z
    else
      let '(fm, fe) := to_double (m mod 2 ^ (- e) * 1000000) (2 ^ (- e)) in
      (m / 2 ^ (- e), if (0 <=? fe)%Z then fm * 2 ^ fe else round_half_even fm (2 ^ (- fe)))%Z in
  if (MAX_TIMESTAMP_SECONDS <? secs + us / 1000000)%Z then None
  else Some (seconds secs + us)%Z.

(** [_message_expiry] *)
Definition _message_expiry (value : json) (now : timestamp) : option timestamp :=
  match value with
  | JInt ms =>
      if (ms <? 0)%Z then None
      else match fromtimestamp (to_double ms 1000) with
           | Some expires_at => if (now <? expires_at)%Z then Some expires_at else None
           | None => None
           end
  | _ => None
  end.

(** [_active_transfer] *)
Definition _active_transfer (record : TransferRequestRecord) (now : timestamp) : bool :=
  bool_decide (tr_status record ∈ SIGNALING_ACTIVE_STATUSES) && (now <? tr_expires_at record)%Z.

(** ** The envelope *)

(** [if c: return None], the condition possibly raising; [a or b]. *)
Definition reject_if {A} (c : outcome bool) (k : outcome (option A)) : outcome (option A) :=
  match c with
  | Ok true => Ok None
  | Ok false => k
  | Raise e => Raise e
  end.

Definition por (a b : outcome bool) : outcome bool :=
  match a with
  | Ok false => b
  | r => r
  end.

(** [len(s.encode("utf-8")) > limit] *)
Definition longer_than (s : pystr) (limit : Z) : outcome bool :=
  match utf8_len s with
  | Ok n => Ok (limit <? n)%Z
  | Raise e => Raise e
  end.

(** [value in names] for a set of strings: an unhashable value raises. *)
Definition member_of (value : json) (names : list string) : outcome (option string) :=
  if hashable value then Ok (first_match (λ n, eq_str value (u n)) names)
  else Raise TypeError.

Definition envelope : list string :=
  ["type"; "v"; "transfer_id"; "sender_device_id"; "recipient_device_id"; "expires_at"].

(** The branch of an SDP message. *)
Definition sdp_rejected (message : dict pystr json) : outcome bool :=
  por (Ok (negb (keys_are message (envelope ++ ["sdp"]))))
    (match get_member "sdp" message with
     | JStr sdp => por (Ok (bool_decide (sdp = []))) (longer_than sdp MAX_SIGNALING_SDP_BYTES)
     | _ => Ok true
     end).

(** The branch of a handshake message. *)
Definition handshake_rejected (message : dict pystr json) (expected_core_type : string)
    (transfer_id sender_device_id recipient_device_id : UUID) : outcome bool :=
  por (Ok (negb (keys_are message (envelope ++ ["handshake"]))))
    (match get_member "handshake" message with
     | JObj handshake =>
         por (Ok (negb (keys_are handshake ["core"; "signature"])))
           (match get_member "signature" handshake with
            | JStr signature =>
                por (Ok (bool_decide (signature = [])))
                  (por (longer_than signature 256)
                    (match get_member "core" handshake with
                     | JObj core =>
                         por (Ok (bool_decide (length core = 0%nat)))
                           (por (longer_than (dumps false (JObj handshake)) MAX_SIGNALING_HANDSHAKE_BYTES)
                             (Ok (negb (eq_str (get_member "type" core) (u expected_core_type)) ||
                                  negb (eq_int (get_member "v" core) 1) ||
                                  negb (eq_str (get_member "transfer_id" core) (uuid_str transfer_id)) ||
                                  negb (eq_str (get_member "sender_device_id" core) (uuid_str sender_device_id)) ||
                                  negb (eq_str (get_member "recipient_device_id" core) (uuid_str recipient_device_id)))))
                     | _ => Ok true
                     end))
            | _ => Ok true
            end)
     | _ => Ok true
     end).

(** [value is not None and (not isinstance(value, str) or len(..) > 128)] *)
Definition bad_text_field (value : json) : outcome bool :=
  match value with
  | JNull => Ok false
  | JStr s => longer_than s 128
  | _ => Ok true
  end.

Definition bad_line_index (value : json) : bool :=
  match value with
  | JNull => false
  | JInt z => (z <? 0)%Z || (65535 <? z)%Z
  | _ => true
  end.

(** The branch of an ICE candidate. *)
Definition candidate_rejected (message : dict pystr json) : outcome bool :=
  por (Ok (negb (keys_within message
             (envelope ++ ["candidate"; "sdp_mid"; "sdp_mline_index"; "username_fragment"])) ||
           bool_decide (u "candidate" ∉ dict_keys message)))
    (por (match get_member "candidate" message with
          | JStr candidate =>
              por (Ok (bool_decide (candidate = [])))
                (longer_than candidate MAX_SIGNALING_ICE_CANDIDATE_BYTES)
          | _ => Ok true
          end)
      (por (bad_text_field (get_member "sdp_mid" message))
        (por (bad_text_field (get_member "username_fragment" message))
          (Ok (bad_line_index (get_member "sdp_mline_index" message)))))).

(** [isinstance(message.get("v"), bool) or message.get("v") != 1] *)
Definition bad_version (v : json) : bool :=
  match v with JBool _ => true | _ => negb (eq_int v 1) end.

Definition _parse_signaling_message (message : dict pystr json) (now : timestamp) :
    outcome (option (UUID * UUID * UUID * string)) :=
  match member_of (get_member "type" message) SIGNALING_MESSAGE_TYPES with
  | Raise e => Raise e
  | Ok None => Ok None
  | Ok (Some message_type) =>
      if bad_version (get_member "v" message) then Ok None
      else
        match _canonical_uuid (get_member "transfer_id" message),
              _canonical_uuid (get_member "sender_device_id" message),
              _canonical_uuid (get_member "recipient_device_id" message) with
        | Some transfer_id, Some sender_device_id, Some recipient_device_id =>
            if bool_decide (sender_device_id = recipient_device_id) then Ok None
            else if is_null (_message_expiry (get_member "expires_at" message) now) then Ok None
            else
              reject_if
                (if decide (message_type ∈ [SIGNALING_OFFER_MESSAGE_TYPE; SIGNALING_ANSWER_MESSAGE_TYPE])
                 then sdp_rejected message
                 else if decide (message_type ∈ [SIGNALING_HANDSHAKE_OFFER_MESSAGE_TYPE;
                                                 SIGNALING_HANDSHAKE_ANSWER_MESSAGE_TYPE])
                 then handshake_rejected message
                        (if decide (message_type = SIGNALING_HANDSHAKE_OFFER_MESSAGE_TYPE)
                         then "handshake_offer" else "handshake_answer")
                        transfer_id sender_device_id recipient_device_id
                 else candidate_rejected message)
                (Ok (Some (transfer_id, sender_device_id, recipient_device_id, message_type)))
        | _, _, _ => Ok None
        end
  end.
