(* ===== verification/SignalingTheorems.v ===== *)
(** * SignalingTheorems: what the envelope check accepts

    Canonical UUID text, deadlines through binary floating point, and the
    acceptance of signaling messages. *)
From S2P Require Import Prelude PyDict Json Models Signaling.
From stdpp Require Import list strings sets.

(** ** UUID text *)
Lemma hex_digits_length k n : length (hex_digits k n) = k.
Proof.
  revert n. induction k as [|k IH]; intros n; simpl; [done|]. rewrite length_app, IH. simpl. lia.
Qed.

Lemma hex_digit_value d : (d < 16)%N → hex_value (hex_digit d) = Some d ∧ hex_digit d ≠ 45%N.
Proof.
  intros Hd. unfold hex_digit. destruct (N.ltb_spec d 10); unfold hex_value; split; try lia.
  - assert ((48 <=? 48 + d) && (48 + d <=? 57) = true)%N as -> by (apply andb_true_iff; split; apply N.leb_le; lia).
    f_equal. lia.
  - assert ((48 <=? 87 + d) && (87 + d <=? 57) = false)%N as -> by (apply andb_false_iff; right; apply N.leb_gt; lia).
    assert ((97 <=? 87 + d) && (87 + d <=? 102) = true)%N as -> by (apply andb_true_iff; split; apply N.leb_le; lia).
    f_equal. lia.
Qed.

Lemma hex_parse_app s1 s2 acc :
  hex_parse acc (s1 ++ s2) = match hex_parse acc s1 with Some a => hex_parse a s2 | None => None end.
Proof.
  revert acc. induction s1 as [|c s1 IH]; intros acc; simpl; [done|]. by destruct (hex_value c).
Qed.

Lemma hex_parse_digits k n acc :
  (n < 16 ^ N.of_nat k)%N → hex_parse acc (hex_digits k n) = Some (acc * 16 ^ N.of_nat k + n)%N.
Proof.
  revert n acc. induction k as [|k IH]; intros n acc Hn.
  - simpl in *. f_equal. lia.
  - rewrite Nat2N.inj_succ, N.pow_succ_r' in *. cbn [hex_digits]. rewrite hex_parse_app.
    rewrite IH by (apply N.Div0.div_lt_upper_bound; lia). simpl.
    assert (n mod 16 < 16)%N as Hm by by apply N.mod_lt.
    destruct (hex_digit_value _ Hm) as [-> _]. f_equal.
    pose proof (N.div_mod n 16 ltac:(done)). lia.
Qed.

Lemma hex_digits_no_hyphen k n : List.filter (λ c, negb (c =? 45)%N) (hex_digits k n) = hex_digits k n.
Proof.
  revert n. induction k as [|k IH]; intros n; simpl; [done|]. rewrite List.filter_app, IH. simpl.
  destruct (hex_digit_value (n mod 16)) as [_ Hne]; [by apply N.mod_lt|].
  apply N.eqb_neq in Hne. by rewrite Hne.
Qed.

Lemma filter_sublist_id {A} (p : A → bool) l l1 l2 l3 :
  l = l1 ++ l2 ++ l3 → List.filter p l = l → List.filter p l2 = l2.
Proof.
  intros -> Hf. rewrite !List.filter_app in Hf.
  assert (∀ l : list A, length (List.filter p l) ≤ length l) as Hle.
  { intros l'. induction l' as [|x l' IH]; simpl; [lia|]. destruct (p x); simpl; lia. }
  pose proof (f_equal length Hf) as Hl. rewrite !length_app in Hl.
  pose proof (Hle l1). pose proof (Hle l2). pose proof (Hle l3).
  apply app_inj_1 in Hf as [_ Hf]; [|lia]. by apply app_inj_1 in Hf as [? _]; [|lia].
Qed.

Lemma uuid_str_digits id :
  List.filter (λ c, negb (c =? 45)%N) (uuid_str id) = hex_digits 32 id.
Proof.
  unfold uuid_str. pose proof (hex_digits_no_hyphen 32 id) as Hno.
  pose proof (hex_digits_length 32 id) as Hlen. revert Hno Hlen.
  generalize (hex_digits 32 id). intros h Hno Hlen. rewrite !List.filter_app. simpl (List.filter _ (u "-")).
  assert (∀ n k, List.filter (λ c, negb (c =? 45)%N) (take n (drop k h)) = take n (drop k h)) as Ht.
  { intros n k. eapply (filter_sublist_id _ h (take k h) _ (drop n (drop k h))); [|done].
    by rewrite take_drop, take_drop. }
  assert (take 8 h = take 8 (drop 0 h)) as -> by by rewrite drop_0.
  assert (drop 20 h = take 12 (drop 20 h)) as ->.
  { rewrite take_ge; [done|]. rewrite length_drop. lia. }
  rewrite !Ht, !app_nil_l.
  do 32 (destruct h as [|? h]; [done|]). destruct h; [|done]. reflexivity.
Qed.

Lemma hex_parse_bound s acc n :
  hex_parse acc s = Some n → (n < (acc + 1) * 16 ^ N.of_nat (length s))%N.
Proof.
  revert acc. induction s as [|c s IH]; intros acc H.
  - simpl in *. simplify_eq. lia.
  - cbn [hex_parse length] in *. destruct (hex_value c) as [d|] eqn:Hd; [|done].
    apply IH in H. rewrite Nat2N.inj_succ, N.pow_succ_r'.
    assert (d < 16)%N.
    { unfold hex_value in Hd. repeat case_match_in Hd; simplify_eq;
        repeat match goal with H : _ && _ = true |- _ => apply andb_true_iff in H as [?%N.leb_le ?%N.leb_le] end; lia. }
    eapply N.lt_le_trans; [exact H|]. nia.
Qed.

Lemma sixteen_digits : (16 ^ N.of_nat 32 = 2 ^ 128)%N.
Proof. reflexivity. Qed.

Lemma canonical_uuid_text value id :
  _canonical_uuid value = Some id → value = JStr (uuid_str id) ∧ (id < 16 ^ N.of_nat 32)%N.
Proof.
  unfold _canonical_uuid. destruct value as [| | | |s| |]; try done.
  case_bool_decide as Hlen; [|done].
  destruct (hex_parse 0 _) as [parsed|] eqn:Hp; [|done]. case_bool_decide as Hs; [|done].
  intros [= ->]. split; [congruence|]. apply hex_parse_bound in Hp.
  by rewrite Hlen, N.add_0_l, N.mul_1_l in Hp.
Qed.

Lemma canonical_uuid_str id :
  (id < 16 ^ N.of_nat 32)%N → _canonical_uuid (JStr (uuid_str id)) = Some id.
Proof.
  intros Hid. unfold _canonical_uuid. rewrite uuid_str_digits, hex_digits_length.
  rewrite bool_decide_true by done. rewrite hex_parse_digits by done.
  rewrite N.mul_0_l, N.add_0_l. by rewrite bool_decide_true.
Qed.

(** Canonical UUID text.  [_canonical_uuid] reads exactly the texts
    [str] writes: it returns an identifier for a value iff the value is that
    identifier's canonical string, of 128 bits. *)
Theorem canonical_uuid_roundtrip value id :
  _canonical_uuid value = Some id ↔ value = JStr (uuid_str id) ∧ (id < 2 ^ 128)%N.
Proof.
  rewrite <- sixteen_digits. split; [apply canonical_uuid_text|].
  intros [-> Hid]. by apply canonical_uuid_str.
Qed.

(** ** Deadlines through floating point *)
Lemma round_half_even_error num den :
  (0 < den)%Z → (Z.abs (2 * (round_half_even num den * den - num)) ≤ den)%Z.
Proof.
  intros Hd. unfold round_half_even. pose proof (Z.div_mod num den ltac:(lia)) as H.
  pose proof (Z.mod_pos_bound num den Hd). set (q := (num / den)%Z) in *. set (r := (num mod den)%Z) in *.
  assert (q * den - num = - r)%Z as Hq by lia.
  assert ((q + 1) * den - num = den - r)%Z as Hq1 by lia.
  destruct (Z.ltb_spec (2 * r) den); [rewrite Hq; lia|].
  destruct (Z.ltb_spec den (2 * r)); [rewrite Hq1; lia|].
  destruct (Z.even q); rewrite ?Hq, ?Hq1; lia.
Qed.

(** A quotient's double: its error, and a bound on its exponent. *)
Lemma to_double_spec num den m e :
  (0 < num)%Z → (0 < den)%Z → to_double num den = (m, e) →
  (e ≤ Z.log2 num - Z.log2 den - 52)%Z ∧
  (e < 0 → Z.abs (2 * (m * den - num * 2 ^ (- e))) ≤ den)%Z.
Proof.
  intros Hn Hd. unfold to_double. destruct (Z.eqb_spec num 0); [lia|]. cbn [fst snd].
  set (e' := if (_ <? _)%Z then _ else _). intros [= <- <-]. split.
  - unfold e'. destruct (Z.ltb _ _); lia.
  - intros He. destruct (Z.leb_spec 0 e'); [lia|]. cbn [fst snd]. by apply round_half_even_error.
Qed.

(** The two roundings on a deadline of whole milliseconds, below 2^42 ms,
    leave less than a microsecond of error. *)
Lemma fromtimestamp_exact_aux A B ms q r fm us :
  (2 ^ 20 ≤ A)%Z → (2 ^ 33 ≤ B)%Z →
  (Z.abs (2 * ((q * A + r) * 1000 - ms * A)) ≤ 1000)%Z →
  (Z.abs (2 * (fm * A - r * 1000000 * B)) ≤ A)%Z →
  (Z.abs (2 * (us * B - fm)) ≤ B)%Z →
  (q * 1000000 + us = ms * 1000)%Z.
Proof.
  intros HA HB H1 H2 H3. change (2 ^ 20)%Z with 1048576%Z in HA. change (2 ^ 33)%Z with 8589934592%Z in HB.
  assert (H3' : (Z.abs (2 * (us * (A * B) - fm * A)) ≤ A * B)%Z).
  { replace (2 * (us * (A * B) - fm * A))%Z with (A * (2 * (us * B - fm)))%Z by ring.
    rewrite Z.abs_mul, (Z.abs_eq A) by lia. apply Z.mul_le_mono_nonneg_l; lia. }
  assert (H1' : (Z.abs (2 * ((q * (A * B) + r * B) * 1000000 - ms * 1000 * (A * B))) ≤ 1000000 * B)%Z).
  { replace (2 * ((q * (A * B) + r * B) * 1000000 - ms * 1000 * (A * B)))%Z
      with (1000 * B * (2 * ((q * A + r) * 1000 - ms * A)))%Z by ring.
    rewrite Z.abs_mul, (Z.abs_eq (1000 * B)) by lia.
    transitivity (1000 * B * 1000)%Z; [|lia]. apply Z.mul_le_mono_nonneg_l; lia. }
  assert (HAB : (1000000 * B + A < A * B)%Z) by nia.
  set (P := (A * B)%Z) in *. set (X := (q * 1000000 + us - ms * 1000)%Z).
  assert (HX : (Z.abs (2 * (X * P)) ≤ P + A + 1000000 * B)%Z).
  { replace (2 * (X * P))%Z with (2 * (us * P - fm * A) + 2 * (fm * A - r * 1000000 * B) +
      2 * ((q * P + r * B) * 1000000 - ms * 1000 * P))%Z by (unfold X; ring). lia. }
  assert (HP : (0 < P)%Z) by nia.
  enough (X = 0)%Z by (unfold X in *; lia).
  destruct (Z.eq_dec X 0%Z); [done|]. exfalso.
  assert (1 * P ≤ Z.abs X * P)%Z as HXP by (apply Z.mul_le_mono_nonneg_r; lia).
  rewrite !Z.abs_mul, (Z.abs_eq P) in HX by lia. lia.
Qed.

Lemma fromtimestamp_exact ms :
  (0 ≤ ms < 2 ^ 42)%Z → fromtimestamp (to_double ms 1000) = Some (ms * 1000)%Z.
Proof.
  intros Hms. destruct (decide (ms = 0)%Z) as [->|Hne]; [done|].
  destruct (to_double ms 1000) as [m e] eqn:Hd.
  apply to_double_spec in Hd as [He Herr]; [|lia..].
  assert (Z.log2 ms < 42)%Z as Hl by (apply Z.log2_lt_pow2; lia).
  change (Z.log2 1000) with 9%Z in He. specialize (Herr ltac:(lia)).
  unfold fromtimestamp. destruct (Z.leb_spec 0 e); [lia|].
  set (A := (2 ^ (- e))%Z) in *. assert (2 ^ 20 ≤ A)%Z as HA by (apply Z.pow_le_mono_r; lia).
  set (q := (m / A)%Z). set (r := (m mod A)%Z).
  assert (0 ≤ r < A)%Z as Hr by (apply Z.mod_pos_bound; lia).
  assert (m = q * A + r)%Z as Hm by (unfold q, r; pose proof (Z.div_mod m A ltac:(lia)); lia).
  assert (∃ us, (let '(fm, fe) := to_double (r * 1000000) A in
                 (q, if (0 <=? fe)%Z then fm * 2 ^ fe else round_half_even fm (2 ^ (- fe)))%Z) = (q, us) ∧
                (q * 1000000 + us = ms * 1000)%Z) as (us&->&Hus).
  { destruct (decide (r = 0)%Z) as [Hr0|Hr0].
    - exists 0%Z. rewrite Hr0. split; [done|].
      apply (fromtimestamp_exact_aux A (2 ^ 33) ms q r 0 0); lia.
    - destruct (to_double (r * 1000000) A) as [fm fe] eqn:Hf.
      apply to_double_spec in Hf as [Hfe Hferr]; [|lia..].
      assert (Z.log2 (r * 1000000) < - e + 20)%Z as Hlr.
      { apply Z.log2_lt_pow2; [lia|]. rewrite Z.pow_add_r by lia. fold A.
        change (2 ^ 20)%Z with 1048576%Z. nia. }
      assert (Z.log2 A = - e)%Z as HlA by (apply Z.log2_pow2; lia).
      specialize (Hferr ltac:(lia)). destruct (Z.leb_spec 0 fe); [lia|].
      eexists. split; [done|].
      apply (fromtimestamp_exact_aux A (2 ^ (- fe)) ms q r fm); [done|apply Z.pow_le_mono_r; lia| |done|].
      + by rewrite <- Hm.
      + apply round_half_even_error. apply Z.pow_pos_nonneg; lia. }
  assert (q + us / 1000000 = ms * 1000 / 1000000)%Z as ->.
  { rewrite <- Hus, Z.div_add_l by lia. done. }
  assert ((MAX_TIMESTAMP_SECONDS <? ms * 1000 / 1000000)%Z = false) as ->.
  { apply Z.ltb_ge. apply Z.div_le_upper_bound; [lia|]. unfold MAX_TIMESTAMP_SECONDS.
    change (2 ^ 42)%Z with 4398046511104%Z in Hms. lia. }
  unfold seconds, microseconds_per_second. f_equal. lia.
Qed.

(** A deadline keeps its milliseconds.  Although [_message_expiry] divides
    by 1000 in binary floating point and rounds twice, for every deadline
    before the year 2109 (2^42 ms) it yields exactly the instant sent, when
    that instant lies ahead, and refuses it otherwise. *)
Theorem message_expiry_exact ms now :
  (0 ≤ ms < 2 ^ 42)%Z →
  _message_expiry (JInt ms) now = if (now <? ms * 1000)%Z then Some (ms * 1000)%Z else None.
Proof.
  intros Hms. unfold _message_expiry. destruct (Z.ltb_spec ms 0); [lia|].
  by rewrite fromtimestamp_exact.
Qed.

Lemma message_expiry_exact_witness :
  _message_expiry (JInt 1756284905123) 1756284905122999 = Some 1756284905123000%Z.
Proof. rewrite (message_expiry_exact 1756284905123 1756284905122999) by lia. reflexivity. Defined.

(** ** The envelope check *)
Lemma por_false a b : por a b = Ok false ↔ a = Ok false ∧ b = Ok false.
Proof. destruct a as [[]|]; simpl; intuition congruence. Qed.

Lemma reject_if_some {A} c (k : outcome (option A)) a :
  reject_if c k = Ok (Some a) ↔ c = Ok false ∧ k = Ok (Some a).
Proof. destruct c as [[]|]; simpl; intuition congruence. Qed.

Lemma longer_than_false s limit :
  longer_than s limit = Ok false ↔ ∃ n, utf8_len s = Ok n ∧ (n ≤ limit)%Z.
Proof.
  unfold longer_than. destruct (utf8_len s) as [n|e]; [|by split; [|intros (?&?&?)]].
  split.
  - intros [= H%Z.ltb_ge]. by exists n.
  - intros (n'&[= ->]&?). f_equal. by apply Z.ltb_ge.
Qed.

Lemma member_of_some value names n :
  member_of value names = Ok (Some n) → n ∈ names ∧ value = JStr (u n).
Proof.
  unfold member_of. destruct (hashable value); [|done]. intros [= H].
  apply first_match_Some in H as [Hin H]. split; [done|].
  unfold eq_str in H. destruct value; try done. by apply bool_decide_eq_true in H as ->.
Qed.

Lemma negb_ok_false b : Ok (negb b) = Ok false ↔ b = true.
Proof. destruct b; simpl; intuition congruence. Qed.

(** A non-empty text field of at most [limit] bytes. *)
Definition text_field (key : string) (d : dict pystr json) (limit : Z) : Prop :=
  ∃ s n, get_member key d = JStr s ∧ s ≠ [] ∧ utf8_len s = Ok n ∧ (n ≤ limit)%Z.

Definition optional_text_field (key : string) (d : dict pystr json) (limit : Z) : Prop :=
  get_member key d = JNull ∨ ∃ s n, get_member key d = JStr s ∧ utf8_len s = Ok n ∧ (n ≤ limit)%Z.

(** A handshake whose signed core has the type's own name, version 1 (or
    [True], which equals it) and the envelope's identifiers. *)
Definition handshake_field (message : dict pystr json) (core_type : string) (t s r : UUID) : Prop :=
  ∃ handshake core n,
    get_member "handshake" message = JObj handshake ∧
    keys_are handshake ["core"; "signature"] = true ∧
    text_field "signature" handshake 256 ∧
    get_member "core" handshake = JObj core ∧
    utf8_len (dumps false (JObj handshake)) = Ok n ∧ (n ≤ MAX_SIGNALING_HANDSHAKE_BYTES)%Z ∧
    get_member "type" core = JStr (u core_type) ∧ eq_int (get_member "v" core) 1 = true ∧
    get_member "transfer_id" core = JStr (uuid_str t) ∧
    get_member "sender_device_id" core = JStr (uuid_str s) ∧
    get_member "recipient_device_id" core = JStr (uuid_str r).

Lemma text_field_accepted key d limit :
  (match get_member key d with
   | JStr s => por (Ok (bool_decide (s = []))) (longer_than s limit)
   | _ => Ok true
   end) = Ok false ↔ text_field key d limit.
Proof.
  unfold text_field. destruct (get_member key d) as [| | | |s| |]; try by split; [|intros (?&?&?&?)].
  rewrite por_false, longer_than_false. split.
  - intros [[= H] (n&?&?)]. apply bool_decide_eq_false in H. eauto 10.
  - intros (s'&n&[= ->]&Hne&?&?). rewrite bool_decide_false by done. eauto.
Qed.

Lemma sdp_accepted message :
  sdp_rejected message = Ok false ↔
  keys_are message (envelope ++ ["sdp"]) = true ∧ text_field "sdp" message MAX_SIGNALING_SDP_BYTES.
Proof. unfold sdp_rejected. by rewrite por_false, negb_ok_false, text_field_accepted. Qed.

Lemma eq_str_true j s : eq_str j s = true ↔ j = JStr s.
Proof.
  unfold eq_str. destruct j; try done. rewrite bool_decide_eq_true. by split; [intros ->|intros [= ->]].
Qed.

Lemma handshake_accepted message ct t s r :
  handshake_rejected message ct t s r = Ok false →
  keys_are message (envelope ++ ["handshake"]) = true ∧ handshake_field message ct t s r.
Proof.
  unfold handshake_rejected. intros [H1%negb_ok_false H]%por_false. split; [done|].
  destruct (get_member "handshake" message) as [| | | | | |handshake] eqn:Hh; try done.
  apply por_false in H as [H2%negb_ok_false H].
  pose proof (proj1 (text_field_accepted "signature" handshake 256)) as Hsig.
  destruct (get_member "signature" handshake) as [| | | |sg| |]; try done.
  apply por_false in H as [Hs1 H]. apply por_false in H as [Hs2 H].
  specialize (Hsig (proj2 (por_false _ _) (conj Hs1 Hs2))).
  destruct (get_member "core" handshake) as [| | | | | |core] eqn:Hcore; try done.
  apply por_false in H as [_ H]. apply por_false in H as [(n&Hn&Hle)%longer_than_false H].
  injection H as H. rewrite !orb_false_iff, !negb_false_iff, !eq_str_true in H. destruct H as ((((?&?)&?)&?)&?).
  exists handshake, core, n. by split_and!.
Qed.

Lemma bad_text_field_false key d :
  bad_text_field (get_member key d) = Ok false → optional_text_field key d 128.
Proof.
  unfold bad_text_field, optional_text_field. destruct (get_member key d) as [| | | |s| |]; try done; [auto|].
  intros (n&?&?)%longer_than_false. right. eauto.
Qed.

(** The ICE candidate fields within their limits. *)
Definition candidate_fields (message : dict pystr json) : Prop :=
  text_field "candidate" message MAX_SIGNALING_ICE_CANDIDATE_BYTES ∧
  optional_text_field "sdp_mid" message 128 ∧ optional_text_field "username_fragment" message 128 ∧
  (get_member "sdp_mline_index" message = JNull ∨
   ∃ z, get_member "sdp_mline_index" message = JInt z ∧ (0 ≤ z ≤ 65535)%Z).

Lemma candidate_accepted message :
  candidate_rejected message = Ok false →
  keys_within message (envelope ++ ["candidate"; "sdp_mid"; "sdp_mline_index"; "username_fragment"]) = true ∧
  candidate_fields message.
Proof.
  unfold candidate_rejected, candidate_fields.
  intros [H1 [H2%text_field_accepted [H3%bad_text_field_false [H4%bad_text_field_false H5]%por_false]%por_false]%por_false]%por_false.
  injection H1 as H1. apply orb_false_iff in H1 as [H1%negb_false_iff _]. split_and!; try done.
  injection H5 as H5. unfold bad_line_index in H5.
  destruct (get_member "sdp_mline_index" message) as [| |z| | | |]; try done; [by left|].
  to_prop. right. exists z. split; [done|lia].
Qed.

(** The name of the signed core in a handshake message of each type. *)
Definition core_type_of (ty : string) : string :=
  if decide (ty = SIGNALING_HANDSHAKE_OFFER_MESSAGE_TYPE) then "handshake_offer" else "handshake_answer".

(** What a message of each type must carry besides the envelope. *)
Definition body_ok (message : dict pystr json) (ty : string) (t s r : UUID) : Prop :=
  (ty ∈ [SIGNALING_OFFER_MESSAGE_TYPE; SIGNALING_ANSWER_MESSAGE_TYPE] ∧
     keys_are message (envelope ++ ["sdp"]) = true ∧ text_field "sdp" message MAX_SIGNALING_SDP_BYTES) ∨
  (ty ∈ [SIGNALING_HANDSHAKE_OFFER_MESSAGE_TYPE; SIGNALING_HANDSHAKE_ANSWER_MESSAGE_TYPE] ∧
     keys_are message (envelope ++ ["handshake"]) = true ∧ handshake_field message (core_type_of ty) t s r) ∨
  (ty = SIGNALING_ICE_MESSAGE_TYPE ∧
     keys_within message (envelope ++ ["candidate"; "sdp_mid"; "sdp_mline_index"; "username_fragment"]) = true ∧
     candidate_fields message).

(** C38: an accepted signaling message is well formed.  Its identifiers are the
    canonical texts in its envelope, sender and recipient differ, its version
    is the number 1 and no boolean, and its deadline lies ahead.  An SDP or
    handshake message has the envelope's members and its body and no other; an
    ICE message has no member outside the envelope and the four candidate
    fields, and has the candidate; every text is inside its byte limit.  A
    handshake has exactly a core and a signature, and its core has the name
    that belongs to the message's type, a version equal to 1, and the
    envelope's three identifiers; the core's other members, its own deadline
    among them, are the peers' to check. *)
Theorem parse_signaling_sound message now t s r ty :
  _parse_signaling_message message now = Ok (Some (t, s, r, ty)) →
  ty ∈ SIGNALING_MESSAGE_TYPES ∧ get_member "type" message = JStr (u ty) ∧
  get_member "transfer_id" message = JStr (uuid_str t) ∧
  get_member "sender_device_id" message = JStr (uuid_str s) ∧
  get_member "recipient_device_id" message = JStr (uuid_str r) ∧ s ≠ r ∧
  eq_int (get_member "v" message) 1 = true ∧ (∀ b, get_member "v" message ≠ JBool b) ∧
  (∃ expiry, _message_expiry (get_member "expires_at" message) now = Some expiry ∧ (now < expiry)%Z) ∧
  body_ok message ty t s r.
Proof.
  unfold _parse_signaling_message. destruct (member_of _ _) as [[ty'|]|e] eqn:Hm; try done.
  apply member_of_some in Hm as [Hty Htype].
  destruct (bad_version _) eqn:Hv; [done|].
  pose proof (λ id, canonical_uuid_text (get_member "transfer_id" message) id) as Hct.
  pose proof (λ id, canonical_uuid_text (get_member "sender_device_id" message) id) as Hcs.
  pose proof (λ id, canonical_uuid_text (get_member "recipient_device_id" message) id) as Hcr.
  destruct (_canonical_uuid (get_member "transfer_id" message)) as [t'|]; [|done].
  destruct (_canonical_uuid (get_member "sender_device_id" message)) as [s'|]; [|done].
  destruct (_canonical_uuid (get_member "recipient_device_id" message)) as [r'|]; [|done].
  case_bool_decide as Hsr; [done|].
  destruct (_message_expiry _ now) as [expiry|] eqn:Hexp; [|done]. cbn [is_null].
  intros [Hbody [= -> -> -> ->]]%reject_if_some.
  split_and!; try done.
  - by apply Hct.
  - by apply Hcs.
  - by apply Hcr.
  - unfold bad_version in Hv. destruct (get_member "v" message); try done; by apply negb_false_iff in Hv.
  - intros b Hb. unfold bad_version in Hv. by rewrite Hb in Hv.
  - exists expiry. split; [done|]. unfold _message_expiry in Hexp.
    destruct (get_member "expires_at" message); try done. repeat case_match_in Hexp; simplify_eq.
    by apply Z.ltb_lt.
  - unfold body_ok. case_decide as Ho; [left; split; [done|by apply sdp_accepted]|].
    case_decide as Hh.
    + right. left. split; [done|]. apply handshake_accepted.
      case_decide as Hx; [by rewrite Hx|].
      assert (ty = SIGNALING_HANDSHAKE_ANSWER_MESSAGE_TYPE) as -> by set_solver. done.
    + right. right. split; [|by apply candidate_accepted].
      unfold SIGNALING_MESSAGE_TYPES in Hty. set_solver.
Qed.

(** The message a client sends for an SDP offer or answer. *)
Definition sdp_message (ty : string) (t s r : UUID) (ms : Z) (sdp : pystr) : dict pystr json :=
  [(u "type", JStr (u ty)); (u "v", JInt 1); (u "transfer_id", JStr (uuid_str t));
   (u "sender_device_id", JStr (uuid_str s)); (u "recipient_device_id", JStr (uuid_str r));
   (u "expires_at", JInt ms); (u "sdp", JStr sdp)].

(** C39: the message of an honest client is accepted and read back.  An SDP
    offer or answer between two different devices, with its deadline ahead
    (before 2109) and a non-empty description of at most 12288 UTF-8 bytes,
    parses to the identifiers and type it was built from. *)
Theorem parse_sdp_roundtrip ty t s r ms sdp n now :
  ty ∈ [SIGNALING_OFFER_MESSAGE_TYPE; SIGNALING_ANSWER_MESSAGE_TYPE] →
  (t < 2 ^ 128)%N → (s < 2 ^ 128)%N → (r < 2 ^ 128)%N → s ≠ r →
  (0 ≤ ms < 2 ^ 42)%Z → (now < ms * 1000)%Z →
  sdp ≠ [] → utf8_len sdp = Ok n → (n ≤ MAX_SIGNALING_SDP_BYTES)%Z →
  _parse_signaling_message (sdp_message ty t s r ms sdp) now = Ok (Some (t, s, r, ty)).
Proof.
  rewrite <- sixteen_digits. intros Hty Ht Hs Hr Hsr Hms Hnow Hne Hlen Hn.
  assert (member_of (get_member "type" (sdp_message ty t s r ms sdp)) SIGNALING_MESSAGE_TYPES = Ok (Some ty)) as Hm.
  { apply elem_of_cons in Hty as [->| ->%list_elem_of_singleton]; reflexivity. }
  unfold _parse_signaling_message. rewrite Hm.
  change (get_member "v" (sdp_message ty t s r ms sdp)) with (JInt 1).
  change (get_member "transfer_id" (sdp_message ty t s r ms sdp)) with (JStr (uuid_str t)).
  change (get_member "sender_device_id" (sdp_message ty t s r ms sdp)) with (JStr (uuid_str s)).
  change (get_member "recipient_device_id" (sdp_message ty t s r ms sdp)) with (JStr (uuid_str r)).
  change (get_member "expires_at" (sdp_message ty t s r ms sdp)) with (JInt ms).
  rewrite !canonical_uuid_str by done. rewrite bool_decide_false by done.
  cbn [bad_version eq_int]. unfold _message_expiry. rewrite fromtimestamp_exact by done.
  destruct (Z.ltb_spec ms 0); [lia|]. apply Z.ltb_lt in Hnow as ->. cbn [is_null].
  apply reject_if_some. split; [|done]. rewrite decide_True by done. apply sdp_accepted.
  split; [reflexivity|]. exists sdp, n. by split_and!.
Qed.

Lemma por_raise a b e : por a b = Raise e → a = Raise e ∨ b = Raise e.
Proof. destruct a as [[]|]; simpl; auto. Qed.

Lemma utf8_raise s e : utf8 s = Raise e → e = UnicodeEncodeError.
Proof.
  destruct s as [|c s]; simpl; [done|]. destruct (utf8_char c); [|congruence].
  destruct (utf8 s); congruence.
Qed.

Lemma longer_than_raise s limit e : longer_than s limit = Raise e → e = UnicodeEncodeError.
Proof.
  unfold longer_than, utf8_len. destruct (utf8 s) eqn:Hu; intros [= <-]. by apply utf8_raise in Hu.
Qed.

(** Every way a body check can raise is the encoding of a lone surrogate. *)
Ltac encode_only :=
  repeat match goal with
  | H : por _ _ = Raise _ |- _ => apply por_raise in H as [H|H]
  | H : longer_than _ _ = Raise _ |- _ => by apply longer_than_raise in H
  | H : Ok _ = Raise _ |- _ => discriminate H
  | H : match ?x with _ => _ end = Raise _ |- _ => destruct x
  end.

Lemma sdp_raise message e : sdp_rejected message = Raise e → e = UnicodeEncodeError.
Proof. unfold sdp_rejected. intros H. encode_only. Qed.

Lemma handshake_raise message ct t s r e :
  handshake_rejected message ct t s r = Raise e → e = UnicodeEncodeError.
Proof. unfold handshake_rejected. intros H. encode_only. Qed.

Lemma candidate_raise message e : candidate_rejected message = Raise e → e = UnicodeEncodeError.
Proof. unfold candidate_rejected, bad_text_field. intros H. encode_only. Qed.

(** How the envelope check can raise.  A list or an object as the type
    raises [TypeError] (the membership test in a frozenset hashes it), always;
    any other message that raises does so with [UnicodeEncodeError], from a
    lone surrogate in a measured text. *)
Theorem parse_signaling_raises message now :
  (hashable (get_member "type" message) = false →
     _parse_signaling_message message now = Raise TypeError) ∧
  (∀ e, hashable (get_member "type" message) = true →
     _parse_signaling_message message now = Raise e → e = UnicodeEncodeError).
Proof.
  unfold _parse_signaling_message, member_of. split.
  - intros ->. done.
  - intros e ->. destruct (first_match _ _); [|done]. destruct (bad_version _); [done|].
    destruct (_canonical_uuid _); [|done]. destruct (_canonical_uuid _); [|done].
    destruct (_canonical_uuid _); [|done]. case_bool_decide; [done|].
    destruct (is_null _); [done|]. unfold reject_if.
    match goal with |- match ?c with _ => _ end = _ → _ => destruct c as [[]|e'] eqn:Hc end; try done.
    intros [= ->]. repeat case_decide;
      [by eapply sdp_raise|by eapply handshake_raise|by eapply handshake_raise|by eapply candidate_raise].
Qed.

(** *** Witnesses *)
Definition sample_offer : dict pystr json :=
  sdp_message "sdp_offer" 100 10 11 1756284905123 (u "v=0").

Lemma parse_signaling_sound_witness :
  _parse_signaling_message sample_offer 0 = Ok (Some (100%N, 10%N, 11%N, "sdp_offer")) ∧
  body_ok sample_offer "sdp_offer" 100 10 11.
Proof.
  assert (_parse_signaling_message sample_offer 0 = Ok (Some (100%N, 10%N, 11%N, "sdp_offer"))) as H
    by (vm_compute; reflexivity).
  split; [exact H|]. apply (parse_signaling_sound sample_offer 0 100 10 11 "sdp_offer" H).
Defined.

Lemma parse_sdp_roundtrip_witness :
  _parse_signaling_message (sdp_message "sdp_answer" 100 10 11 1756284905123 (u "v=0")) 0 =
  Ok (Some (100%N, 10%N, 11%N, "sdp_answer")).
Proof.
  apply (parse_sdp_roundtrip "sdp_answer" 100 10 11 1756284905123 (u "v=0") 3 0); try done; try lia.
  set_solver.
Defined.

Lemma parse_signaling_raises_witness :
  _parse_signaling_message [(u "type", JList [])] 0 = Raise TypeError.
Proof. apply (parse_signaling_raises [(u "type", JList [])] 0). reflexivity. Defined.
