(* ===== verification/Presence.v ===== *)
(** * Presence: [PresenceManager] of [app/presence.py]

    The in-process manager of admitted sockets: one connection per account and
    device, a bounded outbound queue with a writer task per socket, the
    signaling budgets, and the socket loop.  A block under [self._lock] has no
    suspension point inside, so it is one function of the state; a coroutine
    is the sequence of its blocks. *)
From S2P Require Import Prelude PyDict Json Models TransferPort Signaling.
From stdpp Require Import list strings sets.

Definition PRESENCE_HEARTBEAT_TIMEOUT : timedelta := seconds 45.
Definition MAX_WEBSOCKET_MESSAGE_BYTES : Z := 16 * 1024.
Definition MAX_SIGNALING_ICE_CANDIDATES : Z := 64.
Definition MAX_SIGNALING_MESSAGES : Z := 128.
Definition MAX_SIGNALING_MESSAGES_PER_ACCOUNT : Z := 512.
Definition MAX_SOCKET_MESSAGES : nat := 4096.
Definition MAX_WEBSOCKET_QUEUE_MESSAGES : nat := 32.
Definition MAX_WEBSOCKET_QUEUE_BYTES : Z := 256 * 1024.
Definition MAX_CONNECTIONS_PER_ACCOUNT : nat := 8.
Definition MAX_TOTAL_CONNECTIONS : nat := 512.
Definition SIGNALING_STATE_RETENTION : timedelta := minutes 11.

Definition WEBSOCKET_CLOSE_POLICY : Z := 1008.
Definition WEBSOCKET_CLOSE_UNSUPPORTED_DATA : Z := 1003.
Definition WEBSOCKET_CLOSE_MESSAGE_TOO_LARGE : Z := 1009.
Definition WEBSOCKET_CLOSE_HEARTBEAT_TIMEOUT : Z := 4008.
Definition WEBSOCKET_CLOSE_REPLACED : Z := 4001.
Definition WEBSOCKET_CLOSE_TRY_AGAIN : Z := 1013.

(** ** State *)

(** [ac_websocket] names the socket object. *)
Record ActiveConnection := {
  ac_id : UUID;
  ac_account_id : UUID;
  ac_device_id : UUID;
  ac_session_id : UUID;
  ac_websocket : N;
  ac_connected_at : timestamp;
  ac_last_heartbeat_at : timestamp }.

Definition with_heartbeat (c : ActiveConnection) (now : timestamp) : ActiveConnection :=
  {| ac_id := ac_id c; ac_account_id := ac_account_id c; ac_device_id := ac_device_id c;
     ac_session_id := ac_session_id c; ac_websocket := ac_websocket c;
     ac_connected_at := ac_connected_at c; ac_last_heartbeat_at := now |}.

(** Where the writer task of a queue stands in [_drain_outbound]: waiting in
    [queue.get()]; holding a payload before the lock; in [send_json]; over. *)
Inductive writer :=
| Waiting
| Taken (payload : json)
| Sending (payload : json)
| Stopped.

Record _OutboundQueue := {
  oq_queue : list json;
  oq_writer : writer;
  oq_failed : bool;
  oq_queued_bytes : Z;
  oq_in_flight : Z }.

Record _SignalingUsage := {
  su_account_id : UUID;
  su_updated_at : timestamp;
  su_total : Z;
  su_counts : dict (UUID * string) Z }.

(** The manager.  [pm_closed] and [pm_sent] log the effects on sockets: the
    close codes and the payloads written, oldest first.  [pm_retired] keeps
    the queues taken out of [_outbound] and stopped. *)
Record Presence := {
  pm_connections : dict UUID (dict UUID ActiveConnection);
  pm_outbound : dict UUID _OutboundQueue;
  pm_signaling : dict UUID _SignalingUsage;
  pm_signaling_account_totals : dict UUID Z;
  pm_metrics : dict string Z;
  pm_closed : list (N * Z);
  pm_sent : list (N * json);
  pm_retired : list _OutboundQueue }.

Definition initial_presence : Presence := Build_Presence [] [] [] [] [] [] [] [].

Definition set_connections f (s : Presence) : Presence :=
  Build_Presence (f (pm_connections s)) (pm_outbound s) (pm_signaling s)
    (pm_signaling_account_totals s) (pm_metrics s) (pm_closed s) (pm_sent s) (pm_retired s).
Definition set_outbound f (s : Presence) : Presence :=
  Build_Presence (pm_connections s) (f (pm_outbound s)) (pm_signaling s)
    (pm_signaling_account_totals s) (pm_metrics s) (pm_closed s) (pm_sent s) (pm_retired s).
Definition set_signaling f g (s : Presence) : Presence :=
  Build_Presence (pm_connections s) (pm_outbound s) (f (pm_signaling s))
    (g (pm_signaling_account_totals s)) (pm_metrics s) (pm_closed s) (pm_sent s) (pm_retired s).

(** [RuntimeMetrics.increment] and [value] *)
Definition increment (name : string) (amount : Z) (s : Presence) : Presence :=
  Build_Presence (pm_connections s) (pm_outbound s) (pm_signaling s)
    (pm_signaling_account_totals s)
    (dict_set name (default 0%Z (dict_get name (pm_metrics s)) + amount)%Z (pm_metrics s))
    (pm_closed s) (pm_sent s) (pm_retired s).
Definition metric (name : string) (s : Presence) : Z := default 0%Z (dict_get name (pm_metrics s)).

(** [_close]: the socket is closed; a failure to close is ignored. *)
Definition _close (websocket : N) (code : Z) : M Presence unit :=
  modify (λ s, Build_Presence (pm_connections s) (pm_outbound s) (pm_signaling s)
    (pm_signaling_account_totals s) (pm_metrics s) (pm_closed s ++ [(websocket, code)])
    (pm_sent s) (pm_retired s)).

Definition send_json (websocket : N) (payload : json) : M Presence unit :=
  modify (λ s, Build_Presence (pm_connections s) (pm_outbound s) (pm_signaling s)
    (pm_signaling_account_totals s) (pm_metrics s) (pm_closed s)
    (pm_sent s ++ [(websocket, payload)]) (pm_retired s)).

(** [_payload_bytes]: the length of the compact ASCII encoding *)
Definition _payload_bytes (payload : json) : Z := Z.of_nat (length (dumps true payload)).

(** [_stop_outbound]: fail the queue, empty it and cancel its writer. *)
Definition _stop_outbound (outbound : option _OutboundQueue) : M Presence unit :=
  match outbound with
  | None => ret tt
  | Some _ =>
      modify (λ s, Build_Presence (pm_connections s) (pm_outbound s) (pm_signaling s)
        (pm_signaling_account_totals s) (pm_metrics s) (pm_closed s) (pm_sent s)
        (pm_retired s ++ [{| oq_queue := []; oq_writer := Stopped; oq_failed := true;
                             oq_queued_bytes := 0; oq_in_flight := 0 |}]))
  end.

(** ** Connections *)

Definition account_sockets (account_id : UUID) (s : Presence) : dict UUID ActiveConnection :=
  default [] (dict_get account_id (pm_connections s)).

(** [self._connections.get(account, {}).get(device)] *)
Definition current_connection (account_id device_id : UUID) (s : Presence) : option ActiveConnection :=
  dict_get device_id (account_sockets account_id s).

Definition active_socket_count (s : Presence) : nat :=
  foldr (λ sockets n, length sockets + n)%nat 0%nat (dict_values (pm_connections s)).

Definition _has_connection_capacity (account_connections : dict UUID ActiveConnection) (s : Presence) : bool :=
  (length account_connections <? MAX_CONNECTIONS_PER_ACCOUNT)%nat &&
  (active_socket_count s <? MAX_TOTAL_CONNECTIONS)%nat.

Definition fresh_queue : _OutboundQueue :=
  {| oq_queue := []; oq_writer := Waiting; oq_failed := false; oq_queued_bytes := 0; oq_in_flight := 0 |}.

(** Drop an account's dictionary once it is empty. *)
Definition drop_if_empty (account_id : UUID) (account_connections : dict UUID ActiveConnection)
    (connections : dict UUID (dict UUID ActiveConnection)) : dict UUID (dict UUID ActiveConnection) :=
  match account_connections with
  | [] => dict_del account_id connections
  | _ => dict_set account_id account_connections connections
  end.

(** The block of [register] under the lock: the replaced connection and its
    queue. *)
Definition register_locked (connection : ActiveConnection) :
    M Presence (option ActiveConnection * option _OutboundQueue) :=
  let! account_connections := gets (account_sockets (ac_account_id connection)) in
  do! modify (set_connections (dict_set (ac_account_id connection) account_connections)) in
  let previous := dict_get (ac_device_id connection) account_connections in
  let! capacity := gets (_has_connection_capacity account_connections) in
  if is_null previous && negb capacity then
    do! modify (set_connections (drop_if_empty (ac_account_id connection) account_connections)) in
    do! modify (increment "socket_connection_rejected" 1) in
    raise ConnectionLimitError
  else
    do! modify (set_connections (dict_set (ac_account_id connection)
                  (dict_set (ac_device_id connection) connection account_connections))) in
    let! previous_outbound := gets (λ s, match previous with
                                         | Some p => dict_get (ac_id p) (pm_outbound s)
                                         | None => None
                                         end) in
    do! match previous with
        | Some p => modify (set_outbound (dict_del (ac_id p)))
        | None => ret tt
        end in
    do! modify (set_outbound (dict_set (ac_id connection) fresh_queue)) in
    ret (previous, previous_outbound).

Definition register (connection : ActiveConnection) : M Presence (option ActiveConnection) :=
  let! replaced := register_locked connection in
  do! _stop_outbound (snd replaced) in
  do! modify (increment "socket_registered" 1) in
  ret (fst replaced).

(** The block of [remove] under the lock: the queue taken out, when the
    connection is the current one of its device. *)
Definition remove_locked (connection : ActiveConnection) : M Presence (option (option _OutboundQueue)) :=
  let! current := gets (current_connection (ac_account_id connection) (ac_device_id connection)) in
  match current with
  | None => ret None
  | Some current =>
      if bool_decide (ac_id current ≠ ac_id connection) then ret None
      else
        let! account_connections := gets (account_sockets (ac_account_id connection)) in
        do! modify (set_connections (drop_if_empty (ac_account_id connection)
                      (dict_del (ac_device_id connection) account_connections))) in
        let! outbound := gets (λ s, dict_get (ac_id connection) (pm_outbound s)) in
        do! modify (set_outbound (dict_del (ac_id connection))) in
        ret (Some outbound)
  end.

Definition remove (connection : ActiveConnection) : M Presence bool :=
  let! removed := remove_locked connection in
  match removed with
  | None => ret false
  | Some outbound => do! _stop_outbound outbound in ret true
  end.

(** The block of [heartbeat] under the lock. *)
Definition refresh_locked (connection : ActiveConnection) (now : timestamp) :
    M Presence (option ActiveConnection) :=
  let! current := gets (current_connection (ac_account_id connection) (ac_device_id connection)) in
  match current with
  | None => ret None
  | Some current =>
      if bool_decide (ac_id current ≠ ac_id connection) then ret None
      else
        let updated := with_heartbeat current now in
        let! account_connections := gets (account_sockets (ac_account_id connection)) in
        do! modify (set_connections (dict_set (ac_account_id connection)
                      (dict_set (ac_device_id connection) updated account_connections))) in
        ret (Some updated)
  end.

(** ** Outbound queues *)

(** [_drop] *)
Definition _drop (connection : ActiveConnection) : M Presence unit :=
  do! remove connection in
  _close (ac_websocket connection) WEBSOCKET_CLOSE_TRY_AGAIN.

Definition oq_fail (q : _OutboundQueue) : _OutboundQueue :=
  {| oq_queue := oq_queue q; oq_writer := oq_writer q; oq_failed := true;
     oq_queued_bytes := oq_queued_bytes q; oq_in_flight := oq_in_flight q |}.

(** [put_nowait] and its accounting *)
Definition oq_put (q : _OutboundQueue) (payload : json) : _OutboundQueue :=
  {| oq_queue := oq_queue q ++ [payload]; oq_writer := oq_writer q; oq_failed := oq_failed q;
     oq_queued_bytes := oq_queued_bytes q + _payload_bytes payload; oq_in_flight := oq_in_flight q |}.

(** The outcome of the block of [_enqueue_outbound] under the lock. *)
Inductive enqueued := NotLive | Overflow | Queued.

Definition enqueue_locked (connection : ActiveConnection) (payload : json) : M Presence enqueued :=
  let size := _payload_bytes payload in
  let! current := gets (current_connection (ac_account_id connection) (ac_device_id connection)) in
  let! outbound := gets (λ s, dict_get (ac_id connection) (pm_outbound s)) in
  match current, outbound with
  | Some current, Some outbound =>
      if bool_decide (ac_id current ≠ ac_id connection) || oq_failed outbound then ret NotLive
      else if (MAX_WEBSOCKET_QUEUE_MESSAGES <=? length (oq_queue outbound))%nat ||
              (MAX_WEBSOCKET_QUEUE_BYTES <? oq_queued_bytes outbound + size)%Z then
        do! modify (set_outbound (dict_set (ac_id connection) (oq_fail outbound))) in
        do! modify (increment "socket_queue_rejected" 1) in
        ret Overflow
      else
        do! modify (set_outbound (dict_set (ac_id connection) (oq_put outbound payload))) in
        ret Queued
  | _, _ => ret NotLive
  end.

Definition _enqueue_outbound (connection : ActiveConnection) (payload : json) : M Presence bool :=
  let! result := enqueue_locked connection payload in
  match result with
  | Queued => ret true
  | NotLive => ret false
  | Overflow => do! _drop connection in ret false
  end.

(** *** The writer task, one suspension point at a time *)

(** [queue.get()] returns the oldest payload. *)
Definition writer_get (connection : ActiveConnection) : M Presence unit :=
  modify (λ s, match dict_get (ac_id connection) (pm_outbound s) with
    | Some {| oq_queue := payload :: queue; oq_writer := Waiting; oq_failed := f;
              oq_queued_bytes := b; oq_in_flight := i |} =>
        set_outbound (dict_set (ac_id connection)
          {| oq_queue := queue; oq_writer := Taken payload; oq_failed := f;
             oq_queued_bytes := b; oq_in_flight := i |}) s
    | _ => s
    end).

(** The accounting under the lock before the send. *)
Definition writer_account (connection : ActiveConnection) : M Presence unit :=
  modify (λ s, match dict_get (ac_id connection) (pm_outbound s) with
    | Some {| oq_queue := queue; oq_writer := Taken payload; oq_failed := f;
              oq_queued_bytes := b; oq_in_flight := i |} =>
        set_outbound (dict_set (ac_id connection)
          {| oq_queue := queue; oq_writer := Sending payload; oq_failed := f;
             oq_queued_bytes := Z.max 0 (b - _payload_bytes payload); oq_in_flight := i + 1 |}) s
    | _ => s
    end).

(** [send_json] returned: the payload is written. *)
Definition writer_sent (connection : ActiveConnection) : M Presence unit :=
  let! outbound := gets (λ s, dict_get (ac_id connection) (pm_outbound s)) in
  match outbound with
  | Some {| oq_queue := queue; oq_writer := Sending payload; oq_failed := f;
            oq_queued_bytes := b; oq_in_flight := i |} =>
      do! send_json (ac_websocket connection) payload in
      modify (set_outbound (dict_set (ac_id connection)
        {| oq_queue := queue; oq_writer := Waiting; oq_failed := f;
           oq_queued_bytes := b; oq_in_flight := i - 1 |}))
  | _ => ret tt
  end.

(** [send_json] timed out or raised: [_fail_outbound]'s block; [_drop] follows
    it. *)
Definition fail_locked (connection : ActiveConnection) (timed_out : bool) : M Presence unit :=
  let! outbound := gets (λ s, dict_get (ac_id connection) (pm_outbound s)) in
  match outbound with
  | Some {| oq_queue := queue; oq_writer := Sending _; oq_failed := _;
            oq_queued_bytes := b; oq_in_flight := i |} =>
      do! modify (increment (if timed_out then "socket_send_timeout" else "socket_send_failed") 1) in
      modify (set_outbound (dict_set (ac_id connection)
        {| oq_queue := queue; oq_writer := Stopped; oq_failed := true;
           oq_queued_bytes := b; oq_in_flight := i - 1 |}))
  | _ => ret tt
  end.

Definition _fail_outbound (connection : ActiveConnection) (timed_out : bool) : M Presence unit :=
  do! fail_locked connection timed_out in
  _drop connection.

(** [_outbound_pending] *)
Definition _outbound_pending (s : Presence) : bool :=
  existsb (λ q, negb (bool_decide (oq_queue q = [])) || (0 <? oq_in_flight q)%Z)
    (dict_values (pm_outbound s)).

(** ** Signaling budgets *)

(** [_release_signaling] *)
Definition _release_signaling (transfer_id : UUID) : M Presence bool :=
  let! found := gets (λ s, dict_get transfer_id (pm_signaling s)) in
  match found with
  | None => ret false
  | Some usage =>
      do! modify (λ s,
        let remaining := (default 0 (dict_get (su_account_id usage) (pm_signaling_account_totals s)) -
                          su_total usage)%Z in
        set_signaling (dict_del transfer_id)
          (if (0 <? remaining)%Z then dict_set (su_account_id usage) remaining
           else dict_del (su_account_id usage)) s) in
      ret true
  end.

(** [_clear_signaling_state], which [release_transfer] calls *)
Definition _clear_signaling_state (transfer_id : UUID) : M Presence unit :=
  let! cleared := _release_signaling transfer_id in
  if (cleared : bool) then modify (increment "signaling_state_cleaned" 1) else ret tt.

Definition release_transfer := _clear_signaling_state.

Definition stale_transfers (cutoff : timestamp) (s : Presence) : list UUID :=
  dict_keys (List.filter (λ kv, (su_updated_at kv.2 <=? cutoff)%Z) (pm_signaling s)).

Definition prune_signaling_locked (now : timestamp) : M Presence (list UUID) :=
  let! stale := gets (stale_transfers (now - SIGNALING_STATE_RETENTION)%Z) in
  do! for_each (λ transfer_id, do! _release_signaling transfer_id in ret tt) stale in
  ret stale.

Definition _prune_signaling_state (now : timestamp) : M Presence unit :=
  let! stale := prune_signaling_locked now in
  if bool_decide (stale = []) then ret tt
  else modify (increment "signaling_state_cleaned" (Z.of_nat (length stale))).

(** [_record_signaling_use]; [created_at] and [used_at] are the two clock
    readings inside the block. *)
Definition _record_signaling_use (created_at used_at : timestamp) (transfer_id : UUID)
    (connection : ActiveConnection) (message_type : string) : M Presence bool :=
  let maximum := if decide (message_type ∈ SIGNALING_SINGLE_USE_MESSAGE_TYPES)
                 then 1%Z else MAX_SIGNALING_ICE_CANDIDATES in
  let count_key := (ac_device_id connection, message_type) in
  let! found := gets (λ s, dict_get transfer_id (pm_signaling s)) in
  let usage := match found with
               | Some usage => usage
               | None => {| su_account_id := ac_account_id connection; su_updated_at := created_at;
                            su_total := 0; su_counts := [] |}
               end in
  do! match found with
      | Some _ => ret tt
      | None => modify (set_signaling (dict_set transfer_id usage) id)
      end in
  let! account_total := gets (λ s, default 0%Z (dict_get (ac_account_id connection)
                                                  (pm_signaling_account_totals s))) in
  let count := default 0%Z (dict_get count_key (su_counts usage)) in
  if (maximum <=? count)%Z || (MAX_SIGNALING_MESSAGES <=? su_total usage)%Z ||
     (MAX_SIGNALING_MESSAGES_PER_ACCOUNT <=? account_total)%Z
  then ret false
  else
    do! modify (set_signaling
          (dict_set transfer_id
            {| su_account_id := su_account_id usage; su_updated_at := used_at;
               su_total := su_total usage + 1;
               su_counts := dict_set count_key (count + 1)%Z (su_counts usage) |})
          (dict_set (ac_account_id connection) (account_total + 1)%Z)) in
    ret true.

(** ** Heartbeat expiry *)

(** The clock as the manager reads it: successive readings of one call. *)
Abbreviation clock := (nat → timestamp).
Definition later (n : nat) (c : clock) : clock := λ k, c (n + k)%nat.

Definition heartbeat_missed (heartbeat_timeout : timedelta) (now : timestamp) (c : ActiveConnection) : bool :=
  (ac_last_heartbeat_at c + heartbeat_timeout <=? now)%Z.

(** One account of the block of [prune_expired]: the connections whose
    heartbeat is late leave the account's dictionary. *)
Definition expire_account (heartbeat_timeout : timedelta) (now : timestamp) (account_id : UUID) :
    M Presence (list ActiveConnection) :=
  let! found := gets (λ s, dict_get account_id (pm_connections s)) in
  match found with
  | None => ret []
  | Some account_connections =>
      let kept := List.filter (λ kv, negb (heartbeat_missed heartbeat_timeout now kv.2)) account_connections in
      do! modify (set_connections (drop_if_empty account_id kept)) in
      ret (List.filter (heartbeat_missed heartbeat_timeout now) (dict_values account_connections))
  end.

Fixpoint expire_accounts (heartbeat_timeout : timedelta) (now : timestamp) (account_ids : list UUID) :
    M Presence (list ActiveConnection) :=
  match account_ids with
  | [] => ret []
  | account_id :: account_ids' =>
      let! expired := expire_account heartbeat_timeout now account_id in
      let! rest := expire_accounts heartbeat_timeout now account_ids' in
      ret (expired ++ rest)
  end.

(** What follows for each expired connection. *)
Definition pop_outbound (connection : ActiveConnection) : M Presence (option _OutboundQueue) :=
  let! outbound := gets (λ s, dict_get (ac_id connection) (pm_outbound s)) in
  do! modify (set_outbound (dict_del (ac_id connection))) in
  ret outbound.

Definition close_expired (connection : ActiveConnection) : M Presence unit :=
  let! outbound := pop_outbound connection in
  do! _stop_outbound outbound in
  do! modify (increment "socket_heartbeat_timeout" 1) in
  _close (ac_websocket connection) WEBSOCKET_CLOSE_HEARTBEAT_TIMEOUT.

Definition prune_expired (heartbeat_timeout : timedelta) (now : timestamp) (account_id : option UUID) :
    M Presence unit :=
  let! account_ids := gets (λ s, match account_id with
                                 | Some a => [a]
                                 | None => dict_keys (pm_connections s)
                                 end) in
  let! expired := expire_accounts heartbeat_timeout now account_ids in
  do! for_each close_expired expired in
  _prune_signaling_state now.

(** [cleanup] *)
Definition cleanup (heartbeat_timeout : timedelta) (now : timestamp) : M Presence Z :=
  let! before := gets (metric "signaling_state_cleaned") in
  do! prune_expired heartbeat_timeout now None in
  let! after := gets (metric "signaling_state_cleaned") in
  ret (after - before)%Z.

(** [resource_snapshot] *)
Definition resource_snapshot (s : Presence) : list (string * Z) :=
  [("active_sockets", Z.of_nat (active_socket_count s));
   ("active_signaling_transfers", Z.of_nat (length (pm_signaling s)));
   ("queued_messages", sum_Z (map (λ q, Z.of_nat (length (oq_queue q))) (dict_values (pm_outbound s))));
   ("queued_bytes", sum_Z (map oq_queued_bytes (dict_values (pm_outbound s))))].

(** ** Lookups and sends *)

Definition online_connections (heartbeat_timeout : timedelta) (now : timestamp) (account_id : UUID) :
    M Presence (list ActiveConnection) :=
  do! prune_expired heartbeat_timeout now (Some account_id) in
  gets (λ s, dict_values (account_sockets account_id s)).

Definition connection_for (heartbeat_timeout : timedelta) (now : timestamp) (account_id device_id : UUID) :
    M Presence (option ActiveConnection) :=
  do! prune_expired heartbeat_timeout now (Some account_id) in
  gets (current_connection account_id device_id).

Definition send_to_device (heartbeat_timeout : timedelta) (now : timestamp) (account_id device_id : UUID)
    (payload : json) : M Presence bool :=
  let! connection := connection_for heartbeat_timeout now account_id device_id in
  match connection with
  | None => ret false
  | Some connection => _enqueue_outbound connection payload
  end.

(** [disconnect_account] *)
Definition take_account (account_id : UUID) : M Presence (list ActiveConnection) :=
  let! connections := gets (λ s, dict_values (account_sockets account_id s)) in
  do! modify (set_connections (dict_del account_id)) in
  ret connections.

Definition disconnect_account (account_id : UUID) : M Presence unit :=
  let! connections := take_account account_id in
  for_each (λ c, _close (ac_websocket c) WEBSOCKET_CLOSE_POLICY) connections.

(** [close_all] *)
Definition clear_all : M Presence (list ActiveConnection * list _OutboundQueue) :=
  let! connections := gets (λ s, mjoin (map dict_values (dict_values (pm_connections s)))) in
  let! outbound := gets (λ s, dict_values (pm_outbound s)) in
  do! modify (λ s, set_connections (λ _, []) (set_outbound (λ _, [])
               (set_signaling (λ _, []) (λ _, []) s))) in
  ret (connections, outbound).

Definition close_all : M Presence unit :=
  let! taken := clear_all in
  do! for_each (λ q, _stop_outbound (Some q)) (snd taken) in
  for_each (λ c, _close (ac_websocket c) 1001) (fst taken).

(** The block of [disconnect_device] under the lock. *)
Definition take_device (account_id device_id : UUID) :
    M Presence (option (ActiveConnection * option _OutboundQueue)) :=
  let! current := gets (current_connection account_id device_id) in
  match current with
  | None => ret None
  | Some connection =>
      let! account_connections := gets (account_sockets account_id) in
      do! modify (set_connections (drop_if_empty account_id (dict_del device_id account_connections))) in
      let! outbound := pop_outbound connection in
      ret (Some (connection, outbound))
  end.
