(* ===== verification/Socket.v ===== *)
(** * Socket: signaling, presence fan-out and the socket loop

    The coroutines of [app/presence.py] that reach beyond the manager: the
    transfer, session and device repositories are the interface below, and the
    state of a handler is the manager beside the store behind it. *)
From S2P Require Import Prelude PyDict Json Models TransferPort Signaling Presence.
From stdpp Require Import list strings sets.

(** [CurrentSessionRepositoryPort] and [DeviceRepositoryPort] *)
Class PresencePorts (T : Type) := {
  find_current_by_id : readings → UUID → M T (option SessionRecord);
  device_by_id : UUID → UUID → T → outcome (option DeviceRecord) }.

(** The collaborators [PresenceManager.__init__] received. *)
Record PresenceConfig := {
  pc_heartbeat_timeout : timedelta;
  pc_session_repository : bool;
  pc_device_repository : bool;
  pc_transfer_repository : bool }.

Definition presence_manager (heartbeat_timeout : timedelta) (sessions devices transfers : bool) :
    outcome PresenceConfig :=
  if (heartbeat_timeout <=? 0)%Z then Raise ValueError
  else Ok {| pc_heartbeat_timeout := heartbeat_timeout; pc_session_repository := sessions;
             pc_device_repository := devices; pc_transfer_repository := transfers |}.

Record World (T : Type) := { w_presence : Presence; w_store : T }.
Arguments Build_World {T} _ _.
Arguments w_presence {T} _.
Arguments w_store {T} _.

Definition on_presence {T A} : M Presence A → M (World T) A :=
  zoom w_presence (λ p w, Build_World p (w_store w)).
Definition on_store {T A} : M T A → M (World T) A :=
  zoom w_store (λ t w, Build_World (w_presence w) t).

Fixpoint insert_by_device (c : ActiveConnection) (l : list ActiveConnection) : list ActiveConnection :=
  match l with
  | [] => [c]
  | c' :: l' =>
      if pystr_leb (uuid_str (ac_device_id c)) (uuid_str (ac_device_id c')) then c :: l
      else c' :: insert_by_device c l'
  end.

(** [sorted(connections, key=lambda item: str(item.device_id))] *)
Definition sort_by_device (l : list ActiveConnection) : list ActiveConnection :=
  foldr insert_by_device [] l.

Section socket.
Context {T : Type} `{TransferRepository T} `{PresencePorts T} (cfg : PresenceConfig).
Implicit Types (connection : ActiveConnection) (message : dict pystr json) (c : clock).

Definition reject_signaling : M (World T) bool :=
  do! on_presence (modify (increment "signaling_rejected" 1)) in ret false.

(** [heartbeat] *)
Definition heartbeat (sessions : readings) (now : timestamp) connection : M (World T) (option ActiveConnection) :=
  let! stale :=
    (if pc_session_repository cfg then
       let! current_session := on_store (find_current_by_id sessions (ac_session_id connection)) in
       match current_session with
       | None => ret true
       | Some s => ret (bool_decide (ses_user_id s ≠ ac_account_id connection))
       end
     else ret false) in
  if (stale : bool) then do! on_presence (Presence.remove connection) in ret None
  else on_presence (refresh_locked connection now).

(** The three statuses in which signaling still flows. *)
Definition negotiable (status : string) : bool :=
  bool_decide (status ∈ ["offered"; "accepted"; "negotiating"]).

(** The role and status checks by message type, [true] when the message is
    refused; an offer moves an accepted transfer to negotiating. *)
Definition start_negotiating (moves : readings) connection (transfer : TransferRequestRecord) : M (World T) bool :=
  if decide (tr_status transfer = "accepted") then
    let! negotiating := on_store (mark_negotiating moves (ac_account_id connection) (tr_id transfer)) in
    ret (is_null negotiating)
  else ret false.

Definition role_refused (moves : readings) connection (transfer : TransferRequestRecord)
    (sender_device_id recipient_device_id : UUID) (message_type : string) : M (World T) bool :=
  if decide (message_type = SIGNALING_OFFER_MESSAGE_TYPE) then
    if bool_decide (ac_device_id connection ≠ sender_device_id) || negb (negotiable (tr_status transfer))
    then ret true else start_negotiating moves connection transfer
  else if decide (message_type ∈ [SIGNALING_ANSWER_MESSAGE_TYPE; SIGNALING_HANDSHAKE_ANSWER_MESSAGE_TYPE]) then
    ret (bool_decide (ac_device_id connection ≠ recipient_device_id) || negb (negotiable (tr_status transfer)))
  else if decide (message_type = SIGNALING_HANDSHAKE_OFFER_MESSAGE_TYPE) then
    if bool_decide (ac_device_id connection ≠ sender_device_id) || negb (negotiable (tr_status transfer))
    then ret true else start_negotiating moves connection transfer
  else ret (negb (negotiable (tr_status transfer))).

(** [transfer.protocol_version != message["v"] or ...] *)
Definition envelope_mismatch connection message (transfer : TransferRequestRecord)
    (sender_device_id recipient_device_id : UUID) : bool :=
  negb (eq_int (get_member "v" message) (tr_protocol_version transfer)) ||
  bool_decide (tr_sender_device_id transfer ≠ sender_device_id) ||
  bool_decide (tr_recipient_device_id transfer ≠ recipient_device_id) ||
  bool_decide (ac_device_id connection ∉ [sender_device_id; recipient_device_id]).

(** The end of [forward_signaling]: charge the message and queue it for the
    other device. *)
Definition deliver_signaling c connection message (transfer : TransferRequestRecord)
    (sender_device_id recipient_device_id : UUID) (message_type : string) : M (World T) bool :=
  let! charged := on_presence (_record_signaling_use (c 0%nat) (c 1%nat) (tr_id transfer) connection message_type) in
  if negb charged then reject_signaling
  else
    let target_device_id :=
      if decide (ac_device_id connection = sender_device_id) then recipient_device_id else sender_device_id in
    let! forwarded := on_presence (send_to_device (pc_heartbeat_timeout cfg) (c 2%nat)
                         (ac_account_id connection) target_device_id (JObj message)) in
    if negb forwarded then reject_signaling
    else do! on_presence (modify (increment "signaling_forwarded" 1)) in ret true.

Definition forward_signaling c (moves : readings) connection message : M (World T) bool :=
  if negb (pc_transfer_repository cfg) then reject_signaling
  else
    do! on_presence (_prune_signaling_state (c 0%nat)) in
    let! parsed := lift (_parse_signaling_message message (c 1%nat)) in
    match parsed with
    | None => reject_signaling
    | Some (transfer_id, sender_device_id, recipient_device_id, message_type) =>
        let! transfer := on_store (gets (get_by_id (ac_account_id connection) transfer_id)) in
        match transfer with
        | None => reject_signaling
        | Some transfer =>
            if negb (_active_transfer transfer (c 2%nat)) then
              do! on_presence (_clear_signaling_state (tr_id transfer)) in reject_signaling
            else
              match _message_expiry (get_member "expires_at" message) (c 3%nat) with
              | None => reject_signaling
              | Some message_expiry =>
                  if (tr_expires_at transfer <? message_expiry)%Z then reject_signaling
                  else if envelope_mismatch connection message transfer sender_device_id recipient_device_id
                  then reject_signaling
                  else
                    let! refused := role_refused moves connection transfer sender_device_id
                                      recipient_device_id message_type in
                    if (refused : bool) then reject_signaling
                    else deliver_signaling (later 4 c) connection message transfer
                           sender_device_id recipient_device_id message_type
              end
        end
    end.

(** [mode not in CONNECTION_MODES]: an unhashable mode raises. *)
Definition record_connection_mode (relays : readings) connection message : M (World T) bool :=
  let mode := get_member "mode" message in
  let transfer_id := _canonical_uuid (get_member "transfer_id" message) in
  if negb (pc_transfer_repository cfg) ||
     negb (keys_are message ["type"; "v"; "transfer_id"; "mode"]) ||
     negb (eq_int (get_member "v" message) 1)
  then ret false
  else
    let! known := lift (member_of mode ["direct"; "relay"]) in
    match known, transfer_id with
    | Some mode, Some transfer_id =>
        let! transfer := on_store (gets (get_by_id (ac_account_id connection) transfer_id)) in
        match transfer with
        | None => ret false
        | Some transfer =>
            if bool_decide (ac_device_id connection ∉ [tr_sender_device_id transfer; tr_recipient_device_id transfer])
            then ret false
            else
              do! (if decide (mode = "relay")
                   then do! on_store (mark_relay_used relays (ac_account_id connection) transfer_id) in ret tt
                   else ret tt) in
              do! on_presence (modify (increment ("webrtc_" +:+ mode) 1)) in
              ret true
        end
    | _, _ => ret false
    end.

(** ** Presence *)

(** [_device] *)
Definition _device (account_id device_id : UUID) (t : T) : outcome (option DeviceRecord) :=
  if pc_device_repository cfg then device_by_id account_id device_id t else Ok None.

Definition device_entry (d : DeviceRecord) : json :=
  JObj [(u "device_id", JStr (uuid_str (dev_id d))); (u "label", JStr (dev_label d))].

Fixpoint device_entries (connections : list ActiveConnection) : M T (list json) :=
  match connections with
  | [] => ret []
  | connection :: connections' =>
      let! device := (λ t, (_device (ac_account_id connection) (ac_device_id connection) t, t)) in
      let! entries := device_entries connections' in
      match device with
      | Some d => if decide (dev_status d = "active") then ret (device_entry d :: entries) else ret entries
      | None => ret entries
      end
  end.

Definition online_devices (now : timestamp) (account_id : UUID) : M (World T) (list json) :=
  let! connections := on_presence (online_connections (pc_heartbeat_timeout cfg) now account_id) in
  on_store (device_entries (sort_by_device connections)).

Definition broadcast_presence c (account_id : UUID) : M (World T) unit :=
  let! devices := online_devices (c 0%nat) account_id in
  let payload := JObj [(u "type", JStr (u "presence")); (u "devices", JList devices)] in
  let! connections := on_presence (online_connections (pc_heartbeat_timeout cfg) (c 1%nat) account_id) in
  for_each (λ connection, do! on_presence (_enqueue_outbound connection payload) in ret tt) connections.

Definition disconnect_device c (account_id device_id : UUID) : M (World T) unit :=
  let! taken := on_presence (take_device account_id device_id) in
  match taken with
  | None => ret tt
  | Some (connection, outbound) =>
      do! on_presence (_stop_outbound outbound) in
      do! on_presence (_close (ac_websocket connection) WEBSOCKET_CLOSE_POLICY) in
      broadcast_presence c account_id
  end.

(** ** The socket loop *)

(** What [receive_text] yields: a text with what the JSON decoder makes of it
    ([None] for malformed text), or one of its three failures. *)
Inductive received :=
| Text (raw : pystr) (decoded : option tree)
| ReceiveTimeout
| ReceiveDisconnect
| ReceiveRuntimeError.

(** One turn of the loop: [Some connection] to go on, [None] when the loop
    returned. *)
Definition close_with (websocket : N) (code : Z) : M (World T) (option ActiveConnection) :=
  do! on_presence (_close websocket code) in ret None.

Definition dispatch c (moves sessions : readings) (websocket : N) connection message :
    M (World T) (option ActiveConnection) :=
  let message_type := get_member "type" message in
  if eq_str message_type (u "heartbeat") && keys_are message ["type"] then
    let! updated := heartbeat sessions (c 0%nat) connection in
    match updated with
    | None => close_with websocket WEBSOCKET_CLOSE_POLICY
    | Some connection =>
        do! on_presence (send_json websocket (JObj [(u "type", JStr (u "heartbeat"))])) in
        ret (Some connection)
    end
  else if eq_str message_type (u "ping") && keys_are message ["type"] then
    do! on_presence (send_json websocket (JObj [(u "type", JStr (u "pong"))])) in
    ret (Some connection)
  else
    let! signaling := lift (member_of message_type SIGNALING_MESSAGE_TYPES) in
    match signaling with
    | Some _ =>
        let! forwarded := forward_signaling c moves connection message in
        if (forwarded : bool) then ret (Some connection) else close_with websocket WEBSOCKET_CLOSE_POLICY
    | None =>
        if eq_str message_type (u "connection_mode") then
          let! recorded := record_connection_mode moves connection message in
          if (recorded : bool) then ret (Some connection) else close_with websocket WEBSOCKET_CLOSE_POLICY
        else close_with websocket WEBSOCKET_CLOSE_UNSUPPORTED_DATA
    end.

Definition serve_one c (moves sessions : readings) (websocket : N) connection (event : received) :
    M (World T) (option ActiveConnection) :=
  match event with
  | ReceiveTimeout => close_with websocket WEBSOCKET_CLOSE_HEARTBEAT_TIMEOUT
  | ReceiveDisconnect => ret None
  | ReceiveRuntimeError => close_with websocket WEBSOCKET_CLOSE_UNSUPPORTED_DATA
  | Text raw decoded =>
      let! size := lift (utf8_len raw) in
      if (MAX_WEBSOCKET_MESSAGE_BYTES <? size)%Z then close_with websocket WEBSOCKET_CLOSE_MESSAGE_TOO_LARGE
      else
        match (match decoded with Some t => loads t | None => Raise ValueError end) with
        | Raise _ => close_with websocket WEBSOCKET_CLOSE_UNSUPPORTED_DATA
        | Ok (JObj message) => dispatch c moves sessions websocket connection message
        | Ok _ => close_with websocket WEBSOCKET_CLOSE_UNSUPPORTED_DATA
        end
  end.

(** [_serve_connection]: the events of the socket with the clock readings each
    turn takes; the loop ends when a turn returns, when the budget of
    [MAX_SOCKET_MESSAGES] is spent, or when the peer leaves (the end of the
    script counts as a disconnect). *)
Fixpoint _serve_connection (websocket : N) connection (fuel : nat)
    (events : list (clock * readings * readings * received)) : M (World T) unit :=
  match fuel with
  | O =>
      do! on_presence (modify (increment "socket_message_budget_exhausted" 1)) in
      do! on_presence (_close websocket WEBSOCKET_CLOSE_POLICY) in ret tt
  | S fuel' =>
      match events with
      | [] => ret tt
      | (c, moves, sessions, event) :: events' =>
          let! next := serve_one c moves sessions websocket connection event in
          match next with
          | None => ret tt
          | Some connection' => _serve_connection websocket connection' fuel' events'
          end
      end
  end.

(** [try: body finally: cleanup] *)
Definition try_finally {S A} (body : M S A) (cleanup : M S unit) : M S A :=
  λ s, let '(o, s1) := body s in
       match cleanup s1 with
       | (Ok _, s2) => (o, s2)
       | (Raise e, s2) => (Raise e, s2)
       end.

(** [register] and its [except ConnectionLimitError] *)
Definition admission (connection : ActiveConnection) : M Presence (option (option ActiveConnection)) :=
  try_except (let! previous := register connection in ret (Some previous))
    (λ e, bool_decide (e = ConnectionLimitError))
    (λ _, do! _close (ac_websocket connection) WEBSOCKET_CLOSE_TRY_AGAIN in ret None).

(** The [try: await _serve_connection(..) finally: ..] of
    [websocket_presence]. *)
Definition serve_until_closed c (connection : ActiveConnection)
    (events : list (clock * readings * readings * received)) : M (World T) unit :=
  try_finally
    (_serve_connection (ac_websocket connection) connection MAX_SOCKET_MESSAGES events)
    (let! removed := on_presence (Presence.remove connection) in
     if (removed : bool) then broadcast_presence c (ac_account_id connection) else ret tt).

(** The part of [websocket_presence] that follows the authentication of the
    ticket: register, tell the replaced socket, announce, serve, clean up. *)
Definition serve_admitted c (connection : ActiveConnection)
    (events : list (clock * readings * readings * received)) : M (World T) unit :=
  let! admitted := on_presence (admission connection) in
  match admitted with
  | None => ret tt
  | Some previous =>
      do! match previous with
          | Some p => on_presence (_close (ac_websocket p) WEBSOCKET_CLOSE_REPLACED)
          | None => ret tt
          end in
      do! broadcast_presence c (ac_account_id connection) in
      serve_until_closed (later 2 c) connection events
  end.

End socket.
