(* ===== verification/PresenceInvariant.v ===== *)
(** * PresenceInvariant: the manager under every interleaving

    The atomic blocks of [PresenceManager] as a step relation, its resource
    invariant, and the proof that every block keeps it: so it holds however
    the event loop interleaves the coroutines. *)
From S2P Require Import Prelude PyDict Json Models Signaling Presence.
From stdpp Require Import list strings sets relations.

(** ** Steps *)

(** A charge against a transfer's budget is made for the account that owns
    the budget; the other blocks are unconditional. *)
Definition charge_owned (transfer_id account_id : UUID) (s : Presence) : Prop :=
  ∀ usage, dict_get transfer_id (pm_signaling s) = Some usage → su_account_id usage = account_id.

Inductive pblock (s : Presence) : Presence → Prop :=
| p_register c : pblock s (register_locked c s).2
| p_remove c : pblock s (remove_locked c s).2
| p_refresh c now : pblock s (refresh_locked c now s).2
| p_enqueue c payload : pblock s (enqueue_locked c payload s).2
| p_writer_get c : pblock s (writer_get c s).2
| p_writer_account c : pblock s (writer_account c s).2
| p_writer_sent c : pblock s (writer_sent c s).2
| p_fail c timed_out : pblock s (fail_locked c timed_out s).2
| p_release t : pblock s (_release_signaling t s).2
| p_expire timeout now a : pblock s (expire_account timeout now a s).2
| p_pop c : pblock s (pop_outbound c s).2
| p_take_account a : pblock s (take_account a s).2
| p_take_device a d : pblock s (take_device a d s).2
| p_clear : pblock s (clear_all s).2
| p_metric name n : pblock s (increment name n s)
| p_close websocket code : pblock s (_close websocket code s).2
| p_send websocket payload : pblock s (send_json websocket payload s).2
| p_stop outbound : pblock s (_stop_outbound outbound s).2.

Inductive pstep (s : Presence) : Presence → Prop :=
| p_block s' : pblock s s' → pstep s s'
| p_charge n0 n1 t c ty : charge_owned t (ac_account_id c) s →
    pstep s (_record_signaling_use n0 n1 t c ty s).2.

(** ** The invariant *)

(** An account's sockets: not empty, one per device, at most eight, each
    filed under its own account and device. *)
Definition sockets_ok (account_id : UUID) (sockets : dict UUID ActiveConnection) : Prop :=
  sockets ≠ [] ∧ dict_ok sockets ∧ length sockets ≤ MAX_CONNECTIONS_PER_ACCOUNT ∧
  ∀ d c, dict_get d sockets = Some c → ac_device_id c = d ∧ ac_account_id c = account_id.

Definition conns_total (conns : dict UUID (dict UUID ActiveConnection)) : Z :=
  dict_sum (λ _ sockets, Z.of_nat (length sockets)) conns.

Definition conns_ok (conns : dict UUID (dict UUID ActiveConnection)) : Prop :=
  dict_ok conns ∧ (∀ a sockets, dict_get a conns = Some sockets → sockets_ok a sockets) ∧
  (conns_total conns ≤ Z.of_nat MAX_TOTAL_CONNECTIONS)%Z.

Definition payload_sum (l : list json) : Z := sum_Z (map _payload_bytes l).

(** The accounting of a queue: its bytes are those of the payloads queued and
    of the one the writer has taken but not yet accounted for. *)
Definition queue_ok (q : _OutboundQueue) : Prop :=
  length (oq_queue q) ≤ MAX_WEBSOCKET_QUEUE_MESSAGES ∧
  oq_queued_bytes q = (payload_sum (oq_queue q) +
    match oq_writer q with Taken p => _payload_bytes p | _ => 0 end)%Z ∧
  (oq_queued_bytes q ≤ MAX_WEBSOCKET_QUEUE_BYTES)%Z ∧
  oq_in_flight q = match oq_writer q with Sending _ => 1%Z | _ => 0%Z end.

Definition outbound_ok (outbound : dict UUID _OutboundQueue) : Prop :=
  dict_ok outbound ∧ ∀ k q, dict_get k outbound = Some q → queue_ok q.

(** How often a device may send one type of message for a transfer. *)
Definition type_limit (ty : string) : Z :=
  if decide (ty ∈ SIGNALING_SINGLE_USE_MESSAGE_TYPES) then 1 else MAX_SIGNALING_ICE_CANDIDATES.

Definition usage_ok (usage : _SignalingUsage) : Prop :=
  dict_ok (su_counts usage) ∧
  (∀ k n, dict_get k (su_counts usage) = Some n → 0 ≤ n ≤ type_limit (snd k))%Z ∧
  su_total usage = dict_sum (λ _ n, n) (su_counts usage) ∧
  (0 ≤ su_total usage ≤ MAX_SIGNALING_MESSAGES)%Z.

(** What the transfers of an account have used. *)
Definition account_usage (a : UUID) (signaling : dict UUID _SignalingUsage) : Z :=
  dict_sum (λ _ usage, if decide (su_account_id usage = a) then su_total usage else 0%Z) signaling.

Definition signaling_ok (signaling : dict UUID _SignalingUsage) (totals : dict UUID Z) : Prop :=
  dict_ok signaling ∧ dict_ok totals ∧
  (∀ t usage, dict_get t signaling = Some usage → usage_ok usage) ∧
  ∀ a, default 0%Z (dict_get a totals) = account_usage a signaling ∧
       (account_usage a signaling ≤ MAX_SIGNALING_MESSAGES_PER_ACCOUNT)%Z.

Definition presence_ok (s : Presence) : Prop :=
  conns_ok (pm_connections s) ∧ outbound_ok (pm_outbound s) ∧
  signaling_ok (pm_signaling s) (pm_signaling_account_totals s).

Lemma initial_presence_ok : presence_ok initial_presence.
Proof.
  unfold presence_ok, conns_ok, outbound_ok, signaling_ok. simpl.
  split_and!; try apply dict_ok_nil; try done.
Qed.

(** ** Connections *)
Lemma dict_set_length_in {K V} `{EqDecision K} (k : K) (v : V) (d : dict K V) :
  is_Some (dict_get k d) → length (dict_set k v d) = length d.
Proof.
  induction d as [|[k' v'] d IH]; simpl; [by intros [? ?]|]. case_decide; simpl; [done|].
  intros H'. by rewrite IH.
Qed.

Lemma dict_set_length_fresh {K V} `{EqDecision K} (k : K) (v : V) (d : dict K V) :
  dict_get k d = None → length (dict_set k v d) = S (length d).
Proof.
  intros H%dict_get_None. rewrite dict_set_fresh by done. rewrite length_app. simpl. lia.
Qed.

Lemma dict_del_length {K V} `{EqDecision K} (k : K) (d : dict K V) : length (dict_del k d) ≤ length d.
Proof.
  induction d as [|[k' v'] d IH]; simpl; [lia|]. case_decide; simpl; lia.
Qed.

Lemma active_socket_count_total s :
  Z.of_nat (active_socket_count s) = conns_total (pm_connections s).
Proof.
  unfold active_socket_count, conns_total, dict_sum, dict_values.
  induction (pm_connections s) as [|[a d] l IH]; simpl; [done|]. rewrite Nat2Z.inj_add, IH. done.
Qed.

Lemma summand_length a conns :
  summand (λ (_ : UUID) (sockets : dict UUID ActiveConnection), Z.of_nat (length sockets)) a conns =
  Z.of_nat (length (default [] (dict_get a conns))).
Proof. unfold summand. by destruct (dict_get a conns). Qed.

(** Replacing an account's sockets by a non-larger or admissible dictionary. *)
Lemma conns_set_ok a sockets conns :
  conns_ok conns → sockets_ok a sockets →
  (conns_total conns + Z.of_nat (length sockets) - Z.of_nat (length (default [] (dict_get a conns)))
     ≤ Z.of_nat MAX_TOTAL_CONNECTIONS)%Z →
  conns_ok (dict_set a sockets conns).
Proof.
  intros (Hd&Hs&Ht) Hsock Hlen. split_and!.
  - by apply dict_ok_set.
  - intros a' s'. rewrite dict_get_set. case_decide; [|by apply Hs]. intros [= <-]. by subst.
  - unfold conns_total in *. rewrite dict_sum_set, summand_length. lia.
Qed.

Lemma conns_del_ok a conns : conns_ok conns → conns_ok (dict_del a conns).
Proof.
  intros (Hd&Hs&Ht). split_and!.
  - by apply dict_ok_del.
  - intros a' s'. rewrite dict_get_del by done. case_decide; [done|]. by apply Hs.
  - unfold conns_total in *. rewrite dict_sum_del, summand_length. lia.
Qed.

Lemma drop_if_empty_ok a sockets conns :
  conns_ok conns → (sockets ≠ [] → sockets_ok a sockets) →
  length sockets ≤ length (default [] (dict_get a conns)) →
  conns_ok (drop_if_empty a sockets conns).
Proof.
  intros Hc Hs Hlen. unfold drop_if_empty. destruct sockets as [|x sockets].
  - by apply conns_del_ok.
  - apply conns_set_ok; [done|by apply Hs|]. destruct Hc as (_&_&Ht). lia.
Qed.

Lemma account_sockets_ok s a d c :
  conns_ok (pm_connections s) → current_connection a d s = Some c →
  sockets_ok a (account_sockets a s) ∧ dict_get a (pm_connections s) = Some (account_sockets a s) ∧
  dict_get d (account_sockets a s) = Some c.
Proof.
  intros (_&Hs&_). unfold current_connection, account_sockets.
  destruct (dict_get a (pm_connections s)) as [sockets|] eqn:Hg; simpl; [|done].
  intros Hc. split_and!; [by apply Hs|done..].
Qed.

Lemma sockets_del_ok a d sockets :
  sockets_ok a sockets → dict_del d sockets ≠ [] → sockets_ok a (dict_del d sockets).
Proof.
  intros (_&Hd&Hl&Hs) Hne. split_and!; [done|by apply dict_ok_del| |].
  - pose proof (dict_del_length d sockets). lia.
  - intros d' c. rewrite dict_get_del by done. case_decide; [done|]. by apply Hs.
Qed.

Lemma sockets_set_ok a d c sockets :
  (sockets = [] ∨ sockets_ok a sockets) → ac_device_id c = d → ac_account_id c = a →
  (length (dict_set d c sockets) ≤ MAX_CONNECTIONS_PER_ACCOUNT)%nat →
  sockets_ok a (dict_set d c sockets).
Proof.
  intros Hs Hd Ha Hlen. split_and!; [| |done|].
  - destruct sockets as [|[d' c'] sockets]; simpl; [done|]. by case_decide.
  - apply dict_ok_set. destruct Hs as [->|(_&?&_)]; [apply dict_ok_nil|done].
  - intros d' c'. rewrite dict_get_set. case_decide; [intros [= <-]; by subst|].
    destruct Hs as [->|(_&_&_&Hs)]; [done|]. apply Hs.
Qed.

Lemma current_sockets a s :
  conns_ok (pm_connections s) → account_sockets a s = [] ∨ sockets_ok a (account_sockets a s).
Proof.
  intros (_&Hs&_). unfold account_sockets. destruct (dict_get a (pm_connections s)) eqn:Hg; simpl; [|by left].
  right. by apply Hs.
Qed.

(** Dropping one device's connection of an account. *)
Lemma drop_device_ok a d s :
  conns_ok (pm_connections s) →
  conns_ok (drop_if_empty a (dict_del d (account_sockets a s)) (pm_connections s)).
Proof.
  intros Hc. apply drop_if_empty_ok; [done| |].
  - intros Hne. destruct (current_sockets a s Hc) as [He|Hs]; [by rewrite He in Hne|].
    by apply sockets_del_ok.
  - fold (account_sockets a s). apply dict_del_length.
Qed.

Lemma dict_set_get_id {K V} `{EqDecision K} (k : K) (v : V) (d : dict K V) :
  dict_get k d = Some v → dict_set k v d = d.
Proof.
  induction d as [|[k' v'] d IH]; simpl; [done|]. case_decide; [intros [= ->]; by subst|].
  intros Hk. by rewrite IH.
Qed.

(** [setdefault] of an absent account, undone. *)
Lemma drop_if_empty_setdefault a s :
  conns_ok (pm_connections s) →
  conns_ok (drop_if_empty a (account_sockets a s)
    (dict_set a (account_sockets a s) (pm_connections s))).
Proof.
  intros Hc. destruct (current_sockets a s Hc) as [He|Hs].
  - rewrite He. simpl. destruct Hc as (Hd&Hs&Ht). split_and!.
    + by apply dict_ok_del, dict_ok_set.
    + intros a' s'. rewrite dict_get_del by (by apply dict_ok_set). case_decide; [done|].
      rewrite dict_get_set_ne by done. apply Hs.
    + unfold conns_total in *. rewrite dict_sum_del, dict_sum_set, !summand_length, dict_get_set_eq.
      simpl. lia.
  - assert (dict_get a (pm_connections s) = Some (account_sockets a s)) as Hg.
    { destruct Hs as [Hne _]. unfold account_sockets in *. by destruct (dict_get a (pm_connections s)). }
    rewrite (dict_set_get_id _ _ _ Hg). apply drop_if_empty_ok; [done..|].
    by rewrite Hg.
Qed.

Lemma dict_set_length {K V} `{EqDecision K} (k : K) (v : V) (d : dict K V) :
  length (dict_set k v d) = (length d + (if is_null (dict_get k d) then 1 else 0))%nat.
Proof.
  destruct (dict_get k d) eqn:Hg; simpl; [rewrite dict_set_length_in by eauto|rewrite dict_set_length_fresh by done]; lia.
Qed.

(** Filing a new connection when there is room, or in place of the previous. *)
Lemma register_conns_ok c s :
  conns_ok (pm_connections s) →
  is_null (dict_get (ac_device_id c) (account_sockets (ac_account_id c) s)) &&
    negb (_has_connection_capacity (account_sockets (ac_account_id c) s)
      (set_connections (dict_set (ac_account_id c) (account_sockets (ac_account_id c) s)) s)) = false →
  conns_ok (dict_set (ac_account_id c)
    (dict_set (ac_device_id c) c (account_sockets (ac_account_id c) s))
    (dict_set (ac_account_id c) (account_sockets (ac_account_id c) s) (pm_connections s))).
Proof.
  intros Hc Hroom. rewrite dict_set_set. set (a := ac_account_id c) in *. set (d := ac_device_id c) in *.
  pose proof (current_sockets a s Hc) as Hs. pose proof Hc as (_&_&Htot).
  assert (length (account_sockets a s) ≤ MAX_CONNECTIONS_PER_ACCOUNT) as Hle.
  { destruct Hs as [->|(_&_&?&_)]; simpl; [lia|done]. }
  pose proof (dict_set_length d c (account_sockets a s)) as Hlen.
  unfold _has_connection_capacity in Hroom.
  pose proof (active_socket_count_total (set_connections (dict_set a (account_sockets a s)) s)) as Hcount.
  simpl in Hcount. unfold conns_total in Hcount, Htot.
  rewrite dict_sum_set, summand_length in Hcount. fold (account_sockets a s) in Hcount.
  destruct (is_null (dict_get d (account_sockets a s))); simpl in Hroom; to_prop.
  - apply conns_set_ok; [done|apply sockets_set_ok; [done..|lia]|].
    fold (account_sockets a s). unfold conns_total. lia.
  - apply conns_set_ok; [done|apply sockets_set_ok; [done..|lia]|].
    fold (account_sockets a s). unfold conns_total. lia.
Qed.

Lemma refresh_conns_ok c c' now s :
  conns_ok (pm_connections s) →
  current_connection (ac_account_id c) (ac_device_id c) s = Some c' →
  conns_ok (dict_set (ac_account_id c)
    (dict_set (ac_device_id c) (with_heartbeat c' now) (account_sockets (ac_account_id c) s))
    (pm_connections s)).
Proof.
  intros Hc Hcur. apply account_sockets_ok in Hcur as (Hs&Hg&Hd); [|done].
  pose proof (dict_set_length_in (ac_device_id c) (with_heartbeat c' now) _ (mk_is_Some _ _ Hd)) as Hlen.
  pose proof Hs as (_&_&Hle&Hown). destruct (Hown _ _ Hd) as [Hdev Hacc].
  apply conns_set_ok; [done| |].
  - apply sockets_set_ok; [by right|done|done|lia].
  - rewrite Hg. simpl. destruct Hc as (_&_&Ht). lia.
Qed.

Lemma filter_length_le {A} (p : A → bool) l : length (List.filter p l) ≤ length l.
Proof. induction l as [|x l IH]; simpl; [lia|]. destruct (p x); simpl; lia. Qed.

Lemma expire_conns_ok a timeout now sockets conns :
  conns_ok conns → dict_get a conns = Some sockets →
  conns_ok (drop_if_empty a (List.filter (λ kv, negb (heartbeat_missed timeout now kv.2)) sockets) conns).
Proof.
  intros Hc Hg. pose proof Hc as (_&Hs&_). destruct (Hs a sockets Hg) as (_&Hd&Hl&Hown).
  apply drop_if_empty_ok; [done| |].
  - intros Hne. split_and!; [done|by apply dict_ok_filter| |].
    + etrans; [apply filter_length_le|done].
    + intros d c Hdc. apply Hown. apply dict_In_get; [done|]. apply dict_get_Some_In in Hdc.
      apply list_elem_of_In, filter_In in Hdc as [Hdc _]. by apply list_elem_of_In.
  - rewrite Hg. apply filter_length_le.
Qed.

(** ** Queues *)
Lemma payload_sum_app l1 l2 : payload_sum (l1 ++ l2) = (payload_sum l1 + payload_sum l2)%Z.
Proof. unfold payload_sum. by rewrite map_app, sum_Z_app. Qed.

Lemma payload_bytes_nonneg p : (0 ≤ _payload_bytes p)%Z.
Proof. unfold _payload_bytes. lia. Qed.

Lemma payload_sum_nonneg l : (0 ≤ payload_sum l)%Z.
Proof.
  apply sum_Z_nonneg, Forall_forall. intros x Hx. apply list_elem_of_fmap in Hx as (p&->&_).
  apply payload_bytes_nonneg.
Qed.

Lemma fresh_queue_ok : queue_ok fresh_queue.
Proof. split_and!; simpl; unfold MAX_WEBSOCKET_QUEUE_MESSAGES, MAX_WEBSOCKET_QUEUE_BYTES; done || lia. Qed.

Lemma outbound_set_ok k q outbound :
  outbound_ok outbound → queue_ok q → outbound_ok (dict_set k q outbound).
Proof.
  intros [Hd Hq] Hok. split; [by apply dict_ok_set|]. intros k' q'. rewrite dict_get_set.
  case_decide; [by intros [= <-]|]. apply Hq.
Qed.

Lemma outbound_del_ok k outbound : outbound_ok outbound → outbound_ok (dict_del k outbound).
Proof.
  intros [Hd Hq]. split; [by apply dict_ok_del|]. intros k' q'. rewrite dict_get_del by done.
  case_decide; [done|]. apply Hq.
Qed.

Lemma oq_put_ok q p :
  queue_ok q → length (oq_queue q) < MAX_WEBSOCKET_QUEUE_MESSAGES →
  (oq_queued_bytes q + _payload_bytes p ≤ MAX_WEBSOCKET_QUEUE_BYTES)%Z → queue_ok (oq_put q p).
Proof.
  intros (Hl&Hb&Hm&Hi) Hlt Hle. unfold queue_ok, oq_put. simpl.
  rewrite length_app, payload_sum_app. unfold payload_sum at 2. simpl. split_and!; [lia|lia|lia|done].
Qed.

Lemma outbound_get_ok s k q : outbound_ok (pm_outbound s) → dict_get k (pm_outbound s) = Some q → queue_ok q.
Proof. intros [_ Hq]. apply Hq. Qed.

(** ** Budgets *)
Lemma account_usage_set a t usage signaling :
  account_usage a (dict_set t usage signaling) =
  (account_usage a signaling -
   match dict_get t signaling with
   | Some old => if decide (su_account_id old = a) then su_total old else 0
   | None => 0
   end + if decide (su_account_id usage = a) then su_total usage else 0)%Z.
Proof. unfold account_usage. rewrite dict_sum_set. unfold summand. by destruct (dict_get t signaling). Qed.

Lemma account_usage_del a t signaling :
  account_usage a (dict_del t signaling) =
  (account_usage a signaling -
   match dict_get t signaling with
   | Some old => if decide (su_account_id old = a) then su_total old else 0
   | None => 0
   end)%Z.
Proof. unfold account_usage. rewrite dict_sum_del. unfold summand. by destruct (dict_get t signaling). Qed.

Lemma account_usage_lookup_le a t usage signaling :
  dict_ok signaling → (∀ t usage, dict_get t signaling = Some usage → usage_ok usage) →
  dict_get t signaling = Some usage → su_account_id usage = a →
  (su_total usage ≤ account_usage a signaling)%Z.
Proof.
  intros Hd Hu Hg Ha.
  assert (account_usage a signaling = dict_sum (λ _ u, if decide (su_account_id u = a) then Z.max 0 (su_total u) else 0%Z) signaling) as ->.
  { apply dict_sum_ext. intros t' u' Hin. apply dict_In_get in Hin; [|done].
    apply Hu in Hin as (_&_&_&?). case_decide; lia. }
  set (f := λ (_ : UUID) (u : _SignalingUsage), if decide (su_account_id u = a) then Z.max 0 (su_total u) else 0%Z).
  assert (∀ k v, 0 ≤ f k v)%Z as Hf by (intros k v; unfold f; destruct (decide _); lia).
  pose proof (dict_sum_lookup_le f t usage signaling Hf Hg) as Hle.
  unfold f at 1 in Hle. rewrite decide_True in Hle by done. lia.
Qed.

(** Releasing a transfer's budget. *)
Lemma release_ok t usage signaling totals :
  signaling_ok signaling totals → dict_get t signaling = Some usage →
  let remaining := (default 0 (dict_get (su_account_id usage) totals) - su_total usage)%Z in
  signaling_ok (dict_del t signaling)
    (if (0 <? remaining)%Z then dict_set (su_account_id usage) remaining totals
     else dict_del (su_account_id usage) totals).
Proof.
  intros (Hd&Hdt&Hu&Ha) Hg remaining. pose proof (Hu t usage Hg) as (_&_&_&Hrange).
  pose proof (account_usage_lookup_le _ t usage signaling Hd Hu Hg eq_refl) as Hle.
  destruct (Ha (su_account_id usage)) as [Htot _].
  split_and!; [by apply dict_ok_del|case_match_goal; [by apply dict_ok_set|by apply dict_ok_del]| |].
  - intros t' u'. rewrite dict_get_del by done. case_decide; [done|]. apply Hu.
  - intros a. destruct (Ha a) as [Hta Hma]. rewrite account_usage_del, Hg.
    destruct (decide (su_account_id usage = a)) as [<-|Hne].
    + split; [|lia]. destruct (Z.ltb_spec 0 remaining).
      * rewrite dict_get_set_eq. simpl. unfold remaining. lia.
      * rewrite dict_get_del_eq by done. simpl. unfold remaining in *. lia.
    + split; [|lia]. rewrite Z.sub_0_r, <- Hta.
      destruct (0 <? remaining)%Z; [by rewrite dict_get_set_ne|by rewrite dict_get_del_ne].
Qed.

(** A budget opened at zero. *)
Lemma open_usage_ok t a now signaling totals :
  signaling_ok signaling totals → dict_get t signaling = None →
  signaling_ok (dict_set t {| su_account_id := a; su_updated_at := now; su_total := 0; su_counts := [] |} signaling) totals.
Proof.
  intros (Hd&Hdt&Hu&Ha) Hg. split_and!; [by apply dict_ok_set|done| |].
  - intros t' u'. rewrite dict_get_set. case_decide; [intros [= <-]|apply Hu].
    split_and!; simpl; [apply dict_ok_nil|done|done|lia|done].
  - intros a'. rewrite account_usage_set, Hg. simpl. destruct (Ha a') as [-> ?].
    case_decide; split; lia.
Qed.

(** One message charged. *)
Lemma charge_ok t usage key now signaling totals :
  signaling_ok signaling totals → dict_get t signaling = Some usage →
  let count := default 0%Z (dict_get key (su_counts usage)) in
  let account_total := default 0%Z (dict_get (su_account_id usage) totals) in
  (count < type_limit (snd key))%Z → (su_total usage < MAX_SIGNALING_MESSAGES)%Z →
  (account_total < MAX_SIGNALING_MESSAGES_PER_ACCOUNT)%Z →
  signaling_ok
    (dict_set t {| su_account_id := su_account_id usage; su_updated_at := now;
                   su_total := su_total usage + 1;
                   su_counts := dict_set key (count + 1)%Z (su_counts usage) |} signaling)
    (dict_set (su_account_id usage) (account_total + 1)%Z totals).
Proof.
  intros (Hd&Hdt&Hu&Ha) Hg count account_total H1 H2 H3.
  destruct (Hu t usage Hg) as (Hcd&Hcn&Hct&Hcr).
  assert (0 ≤ count)%Z as Hc0.
  { unfold count. destruct (dict_get key (su_counts usage)) as [n|] eqn:Hn; simpl; [|lia]. by apply Hcn in Hn as [? _]. }
  split_and!; [by apply dict_ok_set|by apply dict_ok_set| |].
  - intros t' u'. rewrite dict_get_set. case_decide; [intros [= <-]|apply Hu].
    split_and!; simpl; [by apply dict_ok_set| | |lia|lia].
    + intros k n. rewrite dict_get_set. case_decide; [intros [= <-]; subst; lia|apply Hcn].
    + rewrite dict_sum_set. unfold summand.
      destruct (dict_get key (su_counts usage)) eqn:Hn; unfold count; simpl; lia.
  - intros a. rewrite account_usage_set, Hg. simpl. destruct (Ha a) as [Hta Hma].
    destruct (decide (su_account_id usage = a)) as [<-|Hne].
    + rewrite dict_get_set_eq. simpl. unfold account_total in *. lia.
    + rewrite dict_get_set_ne by done. lia.
Qed.

(** ** Every block keeps the invariant *)
Lemma with_conns s f :
  presence_ok s → conns_ok (f (pm_connections s)) → presence_ok (set_connections f s).
Proof. intros (_&?&?) ?. by split_and!. Qed.

Lemma with_outbound s f :
  presence_ok s → outbound_ok (f (pm_outbound s)) → presence_ok (set_outbound f s).
Proof. intros (?&_&?) ?. by split_and!. Qed.

Lemma with_signaling s f g :
  presence_ok s → signaling_ok (f (pm_signaling s)) (g (pm_signaling_account_totals s)) →
  presence_ok (set_signaling f g s).
Proof. intros (?&?&_) ?. by split_and!. Qed.

Lemma with_metric s name n : presence_ok s → presence_ok (increment name n s).
Proof. intros (?&?&?). by split_and!. Qed.

Lemma with_outbound_set s k q :
  presence_ok s → queue_ok q → presence_ok (set_outbound (dict_set k q) s).
Proof. intros Hs Hq. apply with_outbound; [done|]. apply outbound_set_ok; [apply Hs|done]. Qed.

Lemma with_outbound_del s k : presence_ok s → presence_ok (set_outbound (dict_del k) s).
Proof. intros Hs. apply with_outbound; [done|]. apply outbound_del_ok, Hs. Qed.

Create HintDb presence.
#[export] Hint Resolve with_metric with_outbound_set with_outbound_del fresh_queue_ok : presence.

Lemma register_locked_ok c s : presence_ok s → presence_ok (register_locked c s).2.
Proof.
  intros Hs. unfold register_locked, bind, gets, modify, ret, raise.
  destruct (is_null _ && negb _) eqn:Hroom; simpl.
  - apply with_metric. split_and!; [|apply Hs..]. simpl. by apply drop_if_empty_setdefault, Hs.
  - apply register_conns_ok in Hroom; [|apply Hs].
    destruct (dict_get (ac_device_id c) (account_sockets (ac_account_id c) s)) as [p|]; simpl;
      split_and!; simpl; try apply Hs; try exact Hroom;
      apply outbound_set_ok; auto with presence; [apply outbound_del_ok|]; apply Hs.
Qed.

Lemma remove_locked_ok c s : presence_ok s → presence_ok (remove_locked c s).2.
Proof.
  intros Hs. unfold remove_locked, bind, gets, modify, ret.
  destruct (current_connection _ _ s) as [c'|] eqn:Hc; [|done]. case_bool_decide; [done|]. simpl.
  apply with_outbound_del, with_conns; [done|]. apply drop_device_ok, Hs.
Qed.

Lemma refresh_locked_ok c now s : presence_ok s → presence_ok (refresh_locked c now s).2.
Proof.
  intros Hs. unfold refresh_locked, bind, gets, modify, ret.
  destruct (current_connection _ _ s) as [c'|] eqn:Hc; [|done]. case_bool_decide; [done|]. simpl.
  apply with_conns; [done|]. apply refresh_conns_ok; [apply Hs|done].
Qed.

Lemma enqueue_locked_ok c payload s : presence_ok s → presence_ok (enqueue_locked c payload s).2.
Proof.
  intros Hs. unfold enqueue_locked, bind, gets, modify, ret.
  destruct (current_connection _ _ s) as [c'|]; [|done].
  destruct (dict_get (ac_id c) (pm_outbound s)) as [q|] eqn:Hq; [|done].
  destruct (_ || oq_failed q); [done|].
  assert (queue_ok q) as Hok by (eapply outbound_get_ok; [apply Hs|done]).
  destruct ((_ <=? _)%nat || _) eqn:Hfull; simpl.
  - apply with_metric, with_outbound_set; [done|]. exact Hok.
  - to_prop. apply with_outbound_set; [done|]. apply oq_put_ok; [done|lia|done].
Qed.

(** The writer's steps, on a queue that satisfies its invariant. *)
Ltac writer_step Hs :=
  match goal with
  | |- context [dict_get ?k (pm_outbound ?s)] =>
      let q := fresh "q" in
      destruct (dict_get k (pm_outbound s)) as [q|] eqn:Hq; simpl; [|exact Hs];
      let H := fresh "Hqok" in
      assert (queue_ok q) as H by (eapply outbound_get_ok; [apply Hs|exact Hq]);
      destruct q as [[|? ?] [| | |] ? ? ?]; simpl; try exact Hs
  end.

Lemma writer_get_ok c s : presence_ok s → presence_ok (writer_get c s).2.
Proof.
  intros Hs. unfold writer_get, modify. simpl. writer_step Hs.
  apply with_outbound_set; [done|]. destruct Hqok as (Hl&Hb&Hm&Hi). unfold queue_ok in *. simpl in *.
  unfold payload_sum in *. simpl in *. split_and!; lia.
Qed.

Lemma writer_account_ok c s : presence_ok s → presence_ok (writer_account c s).2.
Proof.
  intros Hs. unfold writer_account, modify. simpl.
  writer_step Hs; (apply with_outbound_set; [done|]); destruct Hqok as (Hl&Hb&Hm&Hi);
    unfold queue_ok in *; simpl in *;
    match goal with H : _ = (payload_sum ?l + _payload_bytes ?p)%Z |- _ =>
      pose proof (payload_sum_nonneg l); pose proof (payload_bytes_nonneg p) end;
    split_and!; lia.
Qed.

Lemma writer_sent_ok c s : presence_ok s → presence_ok (writer_sent c s).2.
Proof.
  intros Hs. unfold writer_sent, bind, gets, modify, send_json, ret. simpl.
  writer_step Hs; (split_and!; simpl; [apply Hs| |apply Hs]); (apply outbound_set_ok; [apply Hs|]);
    destruct Hqok as (Hl&Hb&Hm&Hi); unfold queue_ok in *; simpl in *; split_and!; lia.
Qed.

Lemma fail_locked_ok c b s : presence_ok s → presence_ok (fail_locked c b s).2.
Proof.
  intros Hs. unfold fail_locked, bind, gets, modify, ret. simpl.
  writer_step Hs; (split_and!; simpl; [apply Hs| |apply Hs]); (apply outbound_set_ok; [apply Hs|]);
    destruct Hqok as (Hl&Hb&Hm&Hi); unfold queue_ok in *; simpl in *; split_and!; lia.
Qed.

Lemma release_signaling_ok t s : presence_ok s → presence_ok (_release_signaling t s).2.
Proof.
  intros Hs. unfold _release_signaling, bind, gets, modify, ret. simpl.
  destruct (dict_get t (pm_signaling s)) as [usage|] eqn:Hg; [|done]. simpl.
  split_and!; [apply Hs..|]. simpl.
  pose proof (release_ok t usage _ _ (proj2 (proj2 Hs)) Hg) as Hr. simpl in Hr.
  by destruct (0 <? _)%Z.
Qed.

Lemma record_use_ok n0 n1 t c ty s :
  presence_ok s → charge_owned t (ac_account_id c) s →
  presence_ok (_record_signaling_use n0 n1 t c ty s).2.
Proof.
  intros Hs Hown. pose proof Hs as (_&_&Hsig). unfold _record_signaling_use, bind, gets, modify, ret. simpl.
  destruct (dict_get t (pm_signaling s)) as [usage|] eqn:Hg; simpl.
  - match goal with |- context [if ?b then _ else _] => destruct b eqn:Hb end; [done|].
    simpl. to_prop. specialize (Hown usage Hg). split_and!; [apply Hs..|]. simpl. rewrite <- Hown in *.
    apply (charge_ok t usage (ac_device_id c, ty) n1); done.
  - set (usage := {| su_account_id := ac_account_id c; su_updated_at := n0; su_total := 0; su_counts := [] |}).
    pose proof (open_usage_ok t (ac_account_id c) n0 _ _ Hsig Hg) as Hopen. fold usage in Hopen.
    match goal with |- context [if ?b then _ else _] => destruct b eqn:Hb end; simpl.
    + split_and!; [apply Hs..|]. exact Hopen.
    + to_prop. split_and!; [apply Hs..|]. simpl.
      pose proof (charge_ok t usage (ac_device_id c, ty) n1 _ _ Hopen (dict_get_set_eq _ _ _)) as Hch.
      simpl in Hch. unfold id. rewrite dict_set_set in *. apply Hch; done.
Qed.

Lemma expire_account_ok timeout now a s : presence_ok s → presence_ok (expire_account timeout now a s).2.
Proof.
  intros Hs. unfold expire_account, bind, gets, modify, ret. simpl.
  destruct (dict_get a (pm_connections s)) as [sockets|] eqn:Hg; [|done]. simpl.
  apply with_conns; [done|]. apply expire_conns_ok; [apply Hs|done].
Qed.

Lemma take_device_ok a d s : presence_ok s → presence_ok (take_device a d s).2.
Proof.
  intros Hs. unfold take_device, pop_outbound, bind, gets, modify, ret. simpl.
  destruct (current_connection a d s); [|done]. simpl.
  apply with_outbound_del, with_conns; [done|]. apply drop_device_ok, Hs.
Qed.

(** The invariant is kept by every block. *)
Lemma pblock_ok s s' : pblock s s' → presence_ok s → presence_ok s'.
Proof.
  intros Hstep Hs. destruct Hstep.
  - by apply register_locked_ok.
  - by apply remove_locked_ok.
  - by apply refresh_locked_ok.
  - by apply enqueue_locked_ok.
  - by apply writer_get_ok.
  - by apply writer_account_ok.
  - by apply writer_sent_ok.
  - by apply fail_locked_ok.
  - by apply release_signaling_ok.
  - by apply expire_account_ok.
  - by apply with_outbound_del.
  - apply with_conns; [done|]. apply conns_del_ok, Hs.
  - by apply take_device_ok.
  - apply initial_presence_ok.
  - by apply with_metric.
  - exact Hs.
  - exact Hs.
  - destruct outbound; exact Hs.
Qed.

Lemma pstep_ok s s' : pstep s s' → presence_ok s → presence_ok s'.
Proof. destruct 1; [by apply pblock_ok|]. intros. by apply record_use_ok. Qed.

(** Only a charge opens or rewrites a budget. *)
Lemma pblock_signaling s s' t usage :
  pblock s s' → presence_ok s → dict_get t (pm_signaling s') = Some usage →
  dict_get t (pm_signaling s) = Some usage.
Proof.
  intros Hstep (_&_&Hd&_).
  assert (pm_signaling s' = pm_signaling s →
    dict_get t (pm_signaling s') = Some usage → dict_get t (pm_signaling s) = Some usage) as Hsame
    by by intros ->.
  destruct Hstep; try (apply Hsame;
    unfold register_locked, remove_locked, refresh_locked, enqueue_locked, writer_get, writer_account,
      writer_sent, fail_locked, expire_account, take_device, pop_outbound, take_account, send_json,
      _stop_outbound, _close, increment, bind, gets, modify, ret, raise;
      repeat case_match_goal; reflexivity).
  - clear Hsame. unfold _release_signaling, bind, gets, modify, ret. simpl.
    destruct (dict_get t0 (pm_signaling s)); [|done]. simpl.
    rewrite dict_get_del by done. by case_decide.
  - done.
Qed.
