(* ===== verification/SocketInvariant.v ===== *)
(** * SocketInvariant: the manager beside the transfer store

    A world step is one block of the manager, one charge for a stored transfer
    of the connection's account, or any lawful change of the store (another
    coroutine's, an HTTP handler's, the cleanup's).  Every coroutine of
    [app/presence.py] is a sequence of such steps, so what holds of all
    interleavings of steps holds of all interleavings of coroutines. *)
From S2P Require Import Prelude PyDict Json Models TransferPort Signaling Presence Socket.
From S2P Require Import PresenceInvariant.
From stdpp Require Import list strings sets relations.

(** What the session lookup owes: it only evolves the transfers. *)
Class PresencePortsLaws (T : Type) `{TransferRepositoryLaws T, !PresencePorts T} := {
  find_current_by_id_lawful r i : respects lawful (find_current_by_id (T := T) r i) }.

(** One preorder step after another, chosen by the shape of the body. *)
Ltac walk :=
  repeat (intros; cbv zeta; first
    [ solve [eauto 4 with respects]
    | match goal with |- respects _ (match ?x with _ => _ end) => destruct x end
    | apply respects_bind
    | apply respects_for_each
    | apply respects_try ]).

(** ** Coroutines of the manager alone *)

Create HintDb blocks.
Lemma block_once {A} (m : M Presence A) :
  (∀ s, pblock s (m s).2) → respects (rtc pblock) m.
Proof. intros H s. by apply rtc_once. Qed.

Ltac block := apply block_once; intros ?; constructor.

Lemma b_register c : respects (rtc pblock) (register_locked c). Proof. block. Qed.
Lemma b_remove c : respects (rtc pblock) (remove_locked c). Proof. block. Qed.
Lemma b_refresh c now : respects (rtc pblock) (refresh_locked c now). Proof. block. Qed.
Lemma b_enqueue c p : respects (rtc pblock) (enqueue_locked c p). Proof. block. Qed.
Lemma b_release t : respects (rtc pblock) (_release_signaling t). Proof. block. Qed.
Lemma b_expire timeout now a : respects (rtc pblock) (expire_account timeout now a). Proof. block. Qed.
Lemma b_pop c : respects (rtc pblock) (pop_outbound c). Proof. block. Qed.
Lemma b_take_account a : respects (rtc pblock) (take_account a). Proof. block. Qed.
Lemma b_take_device a d : respects (rtc pblock) (take_device a d). Proof. block. Qed.
Lemma b_clear : respects (rtc pblock) clear_all. Proof. block. Qed.
Lemma b_metric name n : respects (rtc pblock) (modify (increment name n)).
Proof. apply block_once. intros s. simpl. constructor. Qed.
Lemma b_close ws code : respects (rtc pblock) (_close ws code). Proof. block. Qed.
Lemma b_send ws p : respects (rtc pblock) (send_json ws p). Proof. block. Qed.
Lemma b_stop o : respects (rtc pblock) (_stop_outbound o). Proof. block. Qed.
Lemma b_fail c b : respects (rtc pblock) (fail_locked c b). Proof. block. Qed.

#[export] Hint Resolve b_register b_remove b_refresh b_enqueue b_release b_expire b_pop
  b_take_account b_take_device b_clear b_metric b_close b_send b_stop b_fail : respects.

Lemma b_registering c : respects (rtc pblock) (register c).
Proof. unfold register. walk. Qed.
Lemma b_removing c : respects (rtc pblock) (Presence.remove c).
Proof. unfold Presence.remove. walk. Qed.
#[export] Hint Resolve b_registering b_removing : respects.

Lemma b_drop c : respects (rtc pblock) (_drop c).
Proof. unfold _drop. walk. Qed.
#[export] Hint Resolve b_drop : respects.

Lemma b_enqueuing c p : respects (rtc pblock) (_enqueue_outbound c p).
Proof. unfold _enqueue_outbound. walk. Qed.
Lemma b_fail_outbound c b : respects (rtc pblock) (_fail_outbound c b).
Proof. unfold _fail_outbound. walk. Qed.
Lemma b_clear_signaling t : respects (rtc pblock) (_clear_signaling_state t).
Proof. unfold _clear_signaling_state. walk. Qed.
Lemma b_prune_signaling now : respects (rtc pblock) (_prune_signaling_state now).
Proof. unfold _prune_signaling_state, prune_signaling_locked. walk. Qed.
Lemma b_expire_accounts timeout now l : respects (rtc pblock) (expire_accounts timeout now l).
Proof. induction l as [|a l IH]; simpl; walk. Qed.
Lemma b_close_expired c : respects (rtc pblock) (close_expired c).
Proof. unfold close_expired. walk. Qed.
#[export] Hint Resolve b_enqueuing b_fail_outbound b_clear_signaling b_prune_signaling
  b_expire_accounts b_close_expired : respects.

Lemma b_prune_expired timeout now a : respects (rtc pblock) (prune_expired timeout now a).
Proof. unfold prune_expired. walk. Qed.
#[export] Hint Resolve b_prune_expired : respects.

Lemma b_cleanup timeout now : respects (rtc pblock) (cleanup timeout now).
Proof. unfold cleanup. walk. Qed.
Lemma b_online timeout now a : respects (rtc pblock) (online_connections timeout now a).
Proof. unfold online_connections. walk. Qed.
Lemma b_connection_for timeout now a d : respects (rtc pblock) (connection_for timeout now a d).
Proof. unfold connection_for. walk. Qed.
#[export] Hint Resolve b_cleanup b_online b_connection_for : respects.

Lemma b_send_to_device timeout now a d p : respects (rtc pblock) (send_to_device timeout now a d p).
Proof. unfold send_to_device. walk. Qed.
Lemma b_disconnect_account a : respects (rtc pblock) (disconnect_account a).
Proof. unfold disconnect_account. walk. Qed.
Lemma b_close_all : respects (rtc pblock) close_all.
Proof. unfold close_all. walk. Qed.
Lemma b_admission c : respects (rtc pblock) (admission c).
Proof. unfold admission. walk. Qed.
#[export] Hint Resolve b_send_to_device b_disconnect_account b_close_all b_admission : respects.

(** ** The world *)
Section world.
Context {T : Type} `{TransferRepositoryLaws T}.
Implicit Types (w : World T).

(** The account [a] owns a stored transfer [t]. *)
Definition owned (a t : UUID) w : Prop :=
  ∃ r, r ∈ transfer_rows (w_store w) ∧ tr_id r = t ∧ tr_user_id r = a.

(** Every signaling budget belongs to the owner of its transfer. *)
Definition budgets_owned w : Prop :=
  ∀ t usage, dict_get t (pm_signaling (w_presence w)) = Some usage → owned (su_account_id usage) t w.

Definition world_ok w : Prop :=
  presence_ok (w_presence w) ∧ repo_ok (w_store w) ∧ budgets_owned w.

Inductive wstep w : World T → Prop :=
| w_block p : pblock (w_presence w) p → wstep w (Build_World p (w_store w))
| w_charge n0 n1 t c ty : owned (ac_account_id c) t w →
    wstep w (Build_World (_record_signaling_use n0 n1 t c ty (w_presence w)).2 (w_store w))
| w_repository t : lawful (w_store w) t → wstep w (Build_World (w_presence w) t).

Lemma owned_unique a a' t w : repo_ok (w_store w) → owned a t w → owned a' t w → a = a'.
Proof.
  intros Hok (r&Hr&Hid&<-) (r'&Hr'&Hid'&<-). f_equal. apply (ids_unique (w_store w)); congruence.
Qed.

Lemma owned_evolves a t p store store' :
  evolves store store' → owned a t (Build_World p store) → owned a t (Build_World p store').
Proof.
  intros Hev (r&Hr&Hid&Hu). destruct (Hev r Hr) as (r'&Hr'&(Hid'&Hu'&_)&_).
  exists r'. split_and!; simpl; congruence.
Qed.

Lemma record_use_signaling n0 n1 t c ty s t' usage :
  dict_get t' (pm_signaling (_record_signaling_use n0 n1 t c ty s).2) = Some usage →
  (∃ old, dict_get t' (pm_signaling s) = Some old ∧ su_account_id usage = su_account_id old) ∨
  (t' = t ∧ dict_get t (pm_signaling s) = None ∧ su_account_id usage = ac_account_id c).
Proof.
  unfold _record_signaling_use, bind, gets, modify, ret. simpl.
  destruct (dict_get t (pm_signaling s)) as [old|] eqn:Hg; simpl;
    match goal with |- context [if ?b then _ else _] => destruct b end; simpl;
    rewrite ?dict_set_set; repeat (rewrite dict_get_set; case_decide); subst;
    intros Hu; simplify_eq; eauto.
Qed.

Lemma wstep_ok w w' : wstep w w' → world_ok w → world_ok w'.
Proof.
  intros Hstep (Hp&Hr&Hb). destruct Hstep as [p Hblock|n0 n1 t c ty Hown|store Hlaw].
  - split_and!; [by eapply pblock_ok|done|]. intros t usage Hg.
    apply (Hb t usage). by eapply pblock_signaling.
  - assert (charge_owned t (ac_account_id c) (w_presence w)) as Hch.
    { intros usage Hg. apply (owned_unique _ _ t w Hr); [by apply Hb|done]. }
    split_and!; [by apply record_use_ok|done|]. intros t' usage Hg.
    apply record_use_signaling in Hg as [(old&Hold&->)|(->&_&->)]; [by apply (Hb t' old)|done].
  - destruct (Hlaw Hr) as [Hr' Hev]. split_and!; [done..|]. intros t usage Hg.
    destruct w as [p s]. eapply owned_evolves; [done|]. by apply Hb.
Qed.

Lemma wsteps_ok w w' : rtc wstep w w' → world_ok w → world_ok w'.
Proof. induction 1 as [|w w1 w' Hs _ IH]; [done|]. intros Hok. apply IH. by eapply wstep_ok. Qed.

Lemma wstep_owned a t w w' : wstep w w' → world_ok w → owned a t w → owned a t w'.
Proof.
  intros Hstep (_&Hr&_) Ho. destruct Hstep as [p Hblock|n0 n1 t' c ty Hown|store Hlaw]; [done..|].
  destruct (Hlaw Hr) as [_ Hev]. destruct w. by eapply owned_evolves.
Qed.

Lemma wsteps_owned a t w w' : rtc wstep w w' → world_ok w → owned a t w → owned a t w'.
Proof.
  induction 1 as [|w w1 w' Hs _ IH]; [done|]. intros Hok Ho. apply IH.
  - by eapply wstep_ok.
  - by eapply wstep_owned.
Qed.

(** A coroutine that runs as a sequence of steps from a good world. *)
Definition runs w w' : Prop := world_ok w → rtc wstep w w'.

#[export] Instance runs_preorder : PreOrder runs.
Proof.
  split; [intros w _; apply rtc_refl|]. intros w1 w2 w3 H1 H2 Hok.
  etrans; [by apply H1|]. apply H2. eapply wsteps_ok; [by apply H1|done].
Qed.

Lemma rtc_pblock_world p p' store :
  rtc pblock p p' → rtc wstep (Build_World p store) (Build_World p' store).
Proof.
  induction 1 as [|p p1 p' Hs _ IH]; [apply rtc_refl|].
  eapply rtc_l; [|exact IH]. exact (w_block (Build_World p store) p1 Hs).
Qed.

Lemma runs_on_presence {A} (m : M Presence A) : respects (rtc pblock) m → respects runs (on_presence m).
Proof.
  intros Hm w Hok. unfold on_presence. rewrite zoom_snd. destruct w as [p store]. simpl.
  apply rtc_pblock_world, Hm.
Qed.

Lemma runs_on_store {A} (m : M T A) : respects lawful m → respects runs (on_store m).
Proof.
  intros Hm w Hok. unfold on_store. rewrite zoom_snd. apply rtc_once. apply w_repository, Hm.
Qed.

Lemma lawful_gets {A} (f : T → A) : respects lawful (gets f).
Proof. apply respects_gets, _. Qed.

(** A computation that runs from the worlds satisfying [P]. *)
Lemma runs_bind_get {A B} (f : T → A) (k : A → M (World T) B) :
  (∀ w, runs w (k (f (w_store w)) w).2) → respects runs (bind (on_store (gets f)) k).
Proof.
  intros Hk [p store] Hok. unfold bind, on_store, zoom, gets. simpl. by apply Hk.
Qed.
End world.

#[export] Hint Resolve runs_on_presence runs_on_store lawful_gets accept_lawful reject_lawful
  cancel_lawful expire_lawful mark_negotiating_lawful mark_relay_used_lawful
  find_current_by_id_lawful : respects.

(** ** Coroutines of the socket *)
Section coroutines.
Context {T : Type} `{PresencePortsLaws T} (cfg : PresenceConfig).

Lemma r_reject : respects runs (reject_signaling (T := T)).
Proof. unfold reject_signaling. walk. Qed.
#[local] Hint Resolve r_reject : respects.

Lemma r_heartbeat sessions now c : respects runs (heartbeat cfg sessions now c).
Proof. unfold heartbeat. walk. Qed.

Lemma r_role moves c transfer s r ty : respects runs (role_refused moves c transfer s r ty).
Proof. unfold role_refused, start_negotiating. walk. Qed.

(** The charge needs the transfer to be owned, which no step in between
    undoes. *)
Lemma r_deliver c connection message transfer s r ty w :
  owned (ac_account_id connection) (tr_id transfer) w →
  runs w (deliver_signaling cfg c connection message transfer s r ty w).2.
Proof.
  intros Ho Hok. unfold deliver_signaling. unfold bind at 1. unfold on_presence at 1, zoom at 1.
  destruct (_record_signaling_use _ _ _ _ _ (w_presence w)) as [o p] eqn:Hu.
  assert (wstep w (Build_World p (w_store w))) as Hstep.
  { pose proof (w_charge w (c 0%nat) (c 1%nat) (tr_id transfer) connection ty Ho) as Hc. by rewrite Hu in Hc. }
  assert (world_ok (Build_World p (w_store w))) as Hok' by by eapply wstep_ok.
  destruct o as [charged|e]; simpl; [|by apply rtc_once].
  eapply rtc_l; [exact Hstep|].
  match goal with |- rtc wstep ?w' (?m ?w').2 => assert (respects runs m) as Hm end.
  { destruct charged; simpl; walk. }
  by apply Hm.
Qed.

Lemma r_forward c moves connection message :
  respects runs (forward_signaling cfg c moves connection message).
Proof.
  unfold forward_signaling. destruct (negb (pc_transfer_repository cfg)); [walk|].
  apply respects_bind; [apply _|walk|]. intros _.
  apply respects_bind; [apply _|walk|]. intros [[[[t s] r] ty]|]; [|walk].
  apply runs_bind_get. intros w. destruct (get_by_id _ t (w_store w)) as [transfer|] eqn:Hg; [|by apply r_reject].
  intros Hok. assert (owned (ac_account_id connection) (tr_id transfer) w) as Ho.
  { destruct Hok as (_&Hr&_). apply get_by_id_owned in Hg as (?&?&?); [|done]. by exists transfer. }
  destruct (negb (_active_transfer transfer _)).
  { revert Hok. apply respects_bind with (R := runs); [apply _|walk|]. walk. }
  destruct (_message_expiry _ _); [|by apply r_reject].
  destruct (_ <? _)%Z; [by apply r_reject|]. destruct (envelope_mismatch _ _ _ _ _); [by apply r_reject|].
  unfold bind. pose proof (r_role moves connection transfer s r ty w Hok) as Hrole.
  destruct (role_refused _ _ _ _ _ _ w) as [[refused|e] w'] eqn:Href; [|exact Hrole].
  simpl in Hrole. etrans; [exact Hrole|].
  assert (world_ok w') as Hok' by by eapply wsteps_ok.
  destruct refused; [by apply r_reject|].
  apply r_deliver; [by eapply wsteps_owned|done].
Qed.

Lemma r_mode relays connection message : respects runs (record_connection_mode cfg relays connection message).
Proof. unfold record_connection_mode. walk. Qed.

Lemma lawful_entries l : respects lawful (device_entries (T := T) cfg l).
Proof.
  induction l as [|c l IH]; simpl; [walk|]. apply respects_bind; [apply _|intros t; reflexivity|]. walk.
Qed.
#[local] Hint Resolve lawful_entries : respects.

Lemma r_online now a : respects runs (online_devices (T := T) cfg now a).
Proof. unfold online_devices. walk. Qed.
#[local] Hint Resolve r_heartbeat r_role r_forward r_mode r_online : respects.

Lemma r_broadcast c a : respects runs (broadcast_presence (T := T) cfg c a).
Proof. unfold broadcast_presence. walk. Qed.
#[local] Hint Resolve r_broadcast : respects.

Lemma r_disconnect_device c a d : respects runs (disconnect_device (T := T) cfg c a d).
Proof. unfold disconnect_device. walk. Qed.

Lemma r_close_with ws code : respects runs (close_with (T := T) ws code).
Proof. unfold close_with. walk. Qed.
#[local] Hint Resolve r_close_with : respects.

Lemma r_dispatch c moves sessions ws connection message :
  respects runs (dispatch cfg c moves sessions ws connection message).
Proof. unfold dispatch. walk. Qed.
#[local] Hint Resolve r_dispatch : respects.

Lemma r_serve_one c moves sessions ws connection event :
  respects runs (serve_one cfg c moves sessions ws connection event).
Proof. unfold serve_one. walk. Qed.
#[local] Hint Resolve r_serve_one : respects.

Lemma r_serve ws connection fuel events : respects runs (_serve_connection cfg ws connection fuel events).
Proof.
  revert connection events. induction fuel as [|fuel IH]; intros connection events; simpl; [walk|].
  destruct events as [|[[[c moves] sessions] event] events]; walk.
Qed.
#[local] Hint Resolve r_serve : respects.

Lemma respects_try_finally {S A} (R : S → S → Prop) `{!PreOrder R} (body : M S A) (cleanup : M S unit) :
  respects R body → respects R cleanup → respects R (try_finally body cleanup).
Proof.
  intros Hb Hc s. unfold try_finally. specialize (Hb s). destruct (body s) as [o s1]. simpl in Hb.
  specialize (Hc s1). destruct (cleanup s1) as [[?|?] s2]; simpl in *; by etrans.
Qed.

Lemma r_serve_admitted c connection events : respects runs (serve_admitted cfg c connection events).
Proof.
  unfold serve_admitted, serve_until_closed. apply respects_bind; [apply _|walk|].
  intros [previous|]; [|walk].
  apply respects_bind; [apply _|walk|]. intros _.
  apply respects_bind; [apply _|walk|]. intros _.
  apply respects_try_finally; [apply _|walk|walk].
Qed.
End coroutines.
