(* ===== verification/PresenceTheorems.v ===== *)
(** * PresenceTheorems: what the presence manager guarantees

    Resource limits under every interleaving, routing of signaling messages,
    registration, expiry, ordered delivery, and two defects the model shows. *)
From S2P Require Import Prelude PyDict Json Models Sql KeyedTable TransferPort TransferMemory.
From S2P Require Import TransferTheorems Signaling SignalingTheorems Presence Socket.
From S2P Require Import PresenceInvariant SocketInvariant.
From stdpp Require Import list strings sets relations.

(** ** Limits *)

(** Everything the manager bounds. *)
Record within_limits (s : Presence) : Prop := {
  wl_total : active_socket_count s ≤ MAX_TOTAL_CONNECTIONS;
  wl_account a : length (account_sockets a s) ≤ MAX_CONNECTIONS_PER_ACCOUNT;
  wl_owner a d c : current_connection a d s = Some c → ac_account_id c = a ∧ ac_device_id c = d;
  wl_queue k q : dict_get k (pm_outbound s) = Some q →
    length (oq_queue q) ≤ MAX_WEBSOCKET_QUEUE_MESSAGES ∧
    (payload_sum (oq_queue q) ≤ oq_queued_bytes q ≤ MAX_WEBSOCKET_QUEUE_BYTES)%Z ∧
    (0 ≤ oq_in_flight q ≤ 1)%Z;
  wl_transfer t usage : dict_get t (pm_signaling s) = Some usage →
    (0 ≤ su_total usage ≤ MAX_SIGNALING_MESSAGES)%Z ∧
    ∀ d ty n, dict_get (d, ty) (su_counts usage) = Some n →
      (n ≤ if decide (ty ∈ SIGNALING_SINGLE_USE_MESSAGE_TYPES) then 1 else MAX_SIGNALING_ICE_CANDIDATES)%Z;
  wl_budget a : default 0%Z (dict_get a (pm_signaling_account_totals s)) = account_usage a (pm_signaling s) ∧
    (account_usage a (pm_signaling s) ≤ MAX_SIGNALING_MESSAGES_PER_ACCOUNT)%Z }.

Lemma presence_ok_limits s : presence_ok s → within_limits s.
Proof.
  intros (Hc&Ho&Hsig). split.
  - destruct Hc as (_&_&Ht). rewrite <- active_socket_count_total in Ht. lia.
  - intros a. destruct (current_sockets a s Hc) as [->|(_&_&?&_)]; simpl; [lia|done].
  - intros a d c Hcur. apply account_sockets_ok in Hcur as ((_&_&_&Hs)&_&Hd); [|done].
    by apply Hs in Hd as [? ?].
  - intros k q Hq. apply Ho in Hq as (Hl&Hb&Hm&Hi). split_and!; [done| |done| |].
    + rewrite Hb. destruct (oq_writer q); try lia. pose proof (payload_bytes_nonneg payload). lia.
    + rewrite Hi. by destruct (oq_writer q).
    + rewrite Hi. by destruct (oq_writer q).
  - destruct Hsig as (_&_&Hu&_). intros t usage Hg. destruct (Hu t usage Hg) as (_&Hn&_&?).
    split; [done|]. intros d ty n Hdn. by apply Hn in Hdn as [_ ?].
  - apply Hsig.
Qed.

(** C19: the limits of the presence manager hold under every interleaving.
    Whatever blocks of whatever coroutines the event loop runs, in whatever
    order, beside whatever lawful changes of the transfer store: at most 512
    sockets, 8 per account, one per device and filed under its owner; at most
    32 payloads and 256 KiB per queue, one send in flight; at most 128 messages
    per transfer, one per single-use type and device, 64 candidates; and the
    account totals are the sums of the live budgets, at most 512. *)
Theorem presence_limits {T} `{TransferRepositoryLaws T} (store : T) (w : World T) :
  repo_ok store → rtc wstep (Build_World initial_presence store) w → within_limits (w_presence w).
Proof.
  intros Hr Hsteps. apply presence_ok_limits. eapply wsteps_ok; [exact Hsteps|].
  split_and!; [apply initial_presence_ok|done|done].
Qed.

(** The coroutines are sequences of those blocks.  The whole life of an
    admitted socket (registration, announcements, every message of its loop,
    the clean-up of its [finally]) and the other entry points of the manager
    run as world steps from any good world, so no code path escapes the
    limits. *)
Theorem coroutines_are_steps {T} `{PresencePortsLaws T} cfg (w : World T) :
  world_ok w →
  (∀ c connection events, rtc wstep w (serve_admitted cfg c connection events w).2) ∧
  (∀ c moves connection message, rtc wstep w (forward_signaling cfg c moves connection message w).2) ∧
  (∀ c a d, rtc wstep w (disconnect_device cfg c a d w).2) ∧
  (∀ c a, rtc wstep w (broadcast_presence cfg c a w).2) ∧
  (∀ timeout now, rtc wstep w (on_presence (cleanup timeout now) w).2) ∧
  rtc wstep w (on_presence close_all w).2.
Proof.
  intros Hok. split_and!; intros.
  - by apply r_serve_admitted.
  - by apply r_forward.
  - by apply r_disconnect_device.
  - by apply r_broadcast.
  - by apply (runs_on_presence (cleanup timeout now)); [apply b_cleanup|].
  - by apply (runs_on_presence close_all); [apply b_close_all|].
Qed.

(** ** Registration *)

(** [setdefault] does not change the number of sockets. *)
Lemma count_setdefault a s :
  active_socket_count (set_connections (dict_set a (account_sockets a s)) s) = active_socket_count s.
Proof.
  apply Nat2Z.inj. rewrite !active_socket_count_total. simpl. unfold conns_total.
  rewrite dict_sum_set, summand_length. fold (account_sockets a s). lia.
Qed.

Lemma dict_del_set_fresh {K V} `{EqDecision K} (k : K) (v : V) (d : dict K V) :
  dict_get k d = None → dict_del k (dict_set k v d) = d.
Proof.
  induction d as [|[k' v'] d IH]; simpl; [by rewrite decide_True|].
  destruct (decide (k = k')) as [->|Hne]; [done|]. intros Hk. simpl. rewrite decide_False by done.
  by rewrite IH.
Qed.

Lemma setdefault_undone a s :
  (∀ sockets, dict_get a (pm_connections s) = Some sockets → sockets ≠ []) →
  drop_if_empty a (account_sockets a s) (dict_set a (account_sockets a s) (pm_connections s)) =
  pm_connections s.
Proof.
  intros Hne. unfold account_sockets. destruct (dict_get a (pm_connections s)) as [sockets|] eqn:Hg; simpl.
  - specialize (Hne sockets eq_refl). destruct sockets as [|x l]; [done|]. simpl.
    by rewrite dict_set_set, dict_set_get_id.
  - by apply dict_del_set_fresh.
Qed.

Lemma current_after_register a d c conns sockets s :
  pm_connections s = dict_set a (dict_set d c sockets) conns → current_connection a d s = Some c.
Proof.
  intros Hs. unfold current_connection, account_sockets. rewrite Hs, dict_get_set_eq. simpl.
  apply dict_get_set_eq.
Qed.

(** What [register] does.  A socket of a device that already has one
    replaces it, whatever the limits; a first socket of a device is refused
    with [ConnectionLimitError] exactly when its account has 8 sockets or the
    process 512, and then the connections and queues stay as they were; an
    accepted socket is the current one of its device, with an empty queue. *)
Theorem register_spec c s :
  presence_ok s →
  let a := ac_account_id c in
  let full := (MAX_CONNECTIONS_PER_ACCOUNT <=? length (account_sockets a s))%nat ||
              (MAX_TOTAL_CONNECTIONS <=? active_socket_count s)%nat in
  let '(o, s') := register c s in
  match current_connection a (ac_device_id c) s with
  | None =>
      if full
      then o = Raise ConnectionLimitError ∧ pm_connections s' = pm_connections s ∧
           pm_outbound s' = pm_outbound s
      else o = Ok None ∧ current_connection a (ac_device_id c) s' = Some c ∧
           dict_get (ac_id c) (pm_outbound s') = Some fresh_queue
  | Some p =>
      o = Ok (Some p) ∧ current_connection a (ac_device_id c) s' = Some c ∧
      dict_get (ac_id c) (pm_outbound s') = Some fresh_queue
  end.
Proof.
  intros Hs a full. unfold register, register_locked, bind, gets, modify, ret, raise.
  fold a. set (s1 := set_connections (dict_set a (account_sockets a s)) s).
  assert (_has_connection_capacity (account_sockets a s) s1 = negb full) as Hcap.
  { unfold _has_connection_capacity, full, s1. rewrite count_setdefault.
    rewrite negb_orb, <- !Nat.ltb_antisym. done. }
  fold (current_connection a (ac_device_id c) s).
  destruct (current_connection a (ac_device_id c) s) as [p|]; simpl.
  - destruct (dict_get (ac_id p) _); simpl; split_and!; try done;
      try (apply dict_get_set_eq); by eapply current_after_register.
  - rewrite Hcap. destruct full; simpl.
    + split_and!; [done| |done]. apply setdefault_undone. intros sockets Hg.
      destruct Hs as ((_&Hso&_)&_). by apply Hso in Hg as [? _].
    + split_and!; [done|by eapply current_after_register|apply dict_get_set_eq].
Qed.

(** ** Expiry *)

(** What leaves the connections as they are. *)
Definition same_connections (s s' : Presence) : Prop := pm_connections s' = pm_connections s.

#[export] Instance same_connections_preorder : PreOrder same_connections.
Proof. split; [done|]. unfold same_connections. congruence. Qed.

Lemma close_expired_connections c : respects same_connections (close_expired c).
Proof. intros s. unfold close_expired, pop_outbound, bind. simpl. by destruct (dict_get _ _). Qed.

Lemma release_connections t : respects same_connections (_release_signaling t).
Proof. intros s. unfold _release_signaling, bind, gets. simpl. by destruct (dict_get _ _). Qed.

Lemma metric_connections name n : respects same_connections (modify (increment name n)).
Proof. done. Qed.
#[local] Hint Resolve close_expired_connections release_connections metric_connections : respects.

Lemma prune_signaling_connections now : respects same_connections (_prune_signaling_state now).
Proof. unfold _prune_signaling_state, prune_signaling_locked. walk. Qed.

Lemma close_expired_log l s :
  pm_closed (for_each close_expired l s).2 =
  pm_closed s ++ map (λ c, (ac_websocket c, WEBSOCKET_CLOSE_HEARTBEAT_TIMEOUT)) l ∧
  ∃ s', for_each close_expired l s = (Ok tt, s').
Proof.
  revert s. induction l as [|c l IH]; intros s; simpl; [split; [by rewrite app_nil_r|by eexists]|].
  unfold bind at 1 2. assert (∃ s1, close_expired c s = (Ok tt, s1) ∧
    pm_closed s1 = pm_closed s ++ [(ac_websocket c, WEBSOCKET_CLOSE_HEARTBEAT_TIMEOUT)]) as (s1&->&Hs1).
  { unfold close_expired, pop_outbound, bind. simpl. destruct (dict_get _ _); simpl; by eexists. }
  destruct (IH s1) as [-> [s2 Hs2]]. split; [by rewrite Hs1, <- app_assoc|eauto].
Qed.

Definition same_closed (s s' : Presence) : Prop := pm_closed s' = pm_closed s.

#[export] Instance same_closed_preorder : PreOrder same_closed.
Proof. split; [done|]. unfold same_closed. congruence. Qed.

Lemma release_closed t : respects same_closed (_release_signaling t).
Proof. intros s. unfold _release_signaling, bind, gets. simpl. by destruct (dict_get _ _). Qed.

Lemma metric_closed name n : respects same_closed (modify (increment name n)).
Proof. done. Qed.

Lemma prune_signaling_closed now : respects same_closed (_prune_signaling_state now).
Proof.
  pose proof release_closed. pose proof metric_closed.
  unfold _prune_signaling_state, prune_signaling_locked. walk.
Qed.

(** Heartbeat expiry is exact.  Pruning an account keeps precisely its
    connections whose last heartbeat plus the timeout lies after the clock
    reading, closes the others with code 4008, each once, in order, and leaves
    the other accounts alone. *)
Theorem prune_expired_spec timeout now a s :
  presence_ok s →
  let s' := (prune_expired timeout now (Some a) s).2 in
  (∀ d c, current_connection a d s' = Some c ↔
     current_connection a d s = Some c ∧ (now < ac_last_heartbeat_at c + timeout)%Z) ∧
  (∀ a' d, a' ≠ a → current_connection a' d s' = current_connection a' d s) ∧
  pm_closed s' = pm_closed s ++
    map (λ c, (ac_websocket c, WEBSOCKET_CLOSE_HEARTBEAT_TIMEOUT))
      (List.filter (heartbeat_missed timeout now) (dict_values (account_sockets a s))).
Proof.
  intros Hs.
  assert (∃ l s1, expire_account timeout now a s = (Ok l, s1) ∧
    l = List.filter (heartbeat_missed timeout now) (dict_values (account_sockets a s)) ∧
    pm_closed s1 = pm_closed s ∧
    (∀ d c, current_connection a d s1 = Some c ↔
       current_connection a d s = Some c ∧ (now < ac_last_heartbeat_at c + timeout)%Z) ∧
    (∀ a' d, a' ≠ a → current_connection a' d s1 = current_connection a' d s)) as (l&s1&He&Hl&Hcl&Hcur&Hoth).
  { unfold expire_account, bind, gets, modify, ret. simpl. unfold current_connection, account_sockets.
    destruct (dict_get a (pm_connections s)) as [sockets|] eqn:Hg; simpl.
    2: { eexists _, _. split_and!; try done. intros d c. rewrite Hg. simpl. split; [done|by intros [? _]]. }
    destruct Hs as ((Hd&Hso&_)&_&_). destruct (Hso a sockets Hg) as (_&Hds&_&_).
    eexists _, _. split_and!; try done.
    - intros d c. simpl. unfold drop_if_empty.
      assert (dict_get d (List.filter (λ kv, negb (heartbeat_missed timeout now kv.2)) sockets) = Some c ↔
        dict_get d sockets = Some c ∧ (now < ac_last_heartbeat_at c + timeout)%Z) as Hf.
      { rewrite dict_get_filter by done. destruct (dict_get d sockets) as [c0|]; simpl; [|by split; [|intros [? _]]].
        unfold heartbeat_missed. destruct (Z.leb_spec (ac_last_heartbeat_at c0 + timeout) now); simpl;
          split; intros Hx; simplify_eq; [destruct Hx; simplify_eq; lia|done|by destruct Hx]. }
      rewrite <- Hf. destruct (List.filter _ sockets) as [|x kept].
      + by rewrite dict_get_del_eq.
      + by rewrite dict_get_set_eq.
    - intros a' d Hne. simpl. unfold drop_if_empty. destruct (List.filter _ sockets) as [|x kept].
      + by rewrite dict_get_del_ne.
      + by rewrite dict_get_set_ne. }
  unfold prune_expired, bind, gets. cbn [expire_accounts]. unfold bind. rewrite He. cbn [ret]. rewrite app_nil_r.
  destruct (close_expired_log l s1) as [Hlog [s2 Hfe]]. rewrite Hfe in *. simpl in Hlog. simpl.
  assert (pm_connections s2 = pm_connections s1) as Hc2.
  { pose proof (respects_for_each same_connections close_expired l close_expired_connections s1) as Hr.
    by rewrite Hfe in Hr. }
  pose proof (prune_signaling_connections now s2) as Hc3. pose proof (prune_signaling_closed now s2) as Hcl3.
  unfold same_connections, same_closed in *. unfold current_connection, account_sockets in *.
  rewrite Hc3, Hc2, Hcl3, Hlog, Hcl, Hl. done.
Qed.

(** ** Routing *)
Lemma enqueued_result c p s s' :
  _enqueue_outbound c p s = (Ok true, s') →
  ∃ c' q, current_connection (ac_account_id c) (ac_device_id c) s' = Some c' ∧ ac_id c' = ac_id c ∧
    dict_get (ac_id c) (pm_outbound s') = Some q ∧ last (oq_queue q) = Some p ∧ oq_failed q = false ∧
    pm_signaling s' = pm_signaling s.
Proof.
  unfold _enqueue_outbound, enqueue_locked, bind, gets, modify, ret. simpl.
  destruct (current_connection _ _ s) as [c'|] eqn:Hc; [|done].
  destruct (dict_get _ (pm_outbound s)) as [q|] eqn:Hq; [|done].
  case_bool_decide as Hid; [done|]. destruct (oq_failed q) eqn:Hf; [done|]. simpl.
  destruct (_ || _)%bool.
  - unfold _drop, bind. destruct (Presence.remove _ _) as [[?|?] ?]; simpl; congruence.
  - intros [= <-]. exists c', (oq_put q p). split_and!; [done|done|apply dict_get_set_eq| |done..].
    simpl. by rewrite last_snoc.
Qed.

Lemma pblocks_ok s s' : rtc pblock s s' → presence_ok s → presence_ok s'.
Proof. induction 1 as [|x y z Hxy _ IH]; [done|]. intros Hs. apply IH. by eapply pblock_ok. Qed.

Lemma sent_result timeout now a d p s s' :
  presence_ok s → send_to_device timeout now a d p s = (Ok true, s') →
  ∃ c q, current_connection a d s' = Some c ∧ ac_account_id c = a ∧ ac_device_id c = d ∧
    dict_get (ac_id c) (pm_outbound s') = Some q ∧ last (oq_queue q) = Some p.
Proof.
  intros Hs Hsend. unfold send_to_device in Hsend. apply bind_ok_inv in Hsend as (c&s1&Hc&Hsend).
  unfold connection_for in Hc. apply bind_ok_inv in Hc as ([]&s2&Hprune&Hc). unfold gets in Hc. simplify_eq.
  assert (presence_ok s1) as Hs1.
  { pose proof (b_prune_expired timeout now (Some a) s) as Hb. rewrite Hprune in Hb. by eapply pblocks_ok. }
  assert (presence_ok s') as Hs'.
  { destruct (current_connection a d s1) as [c|] eqn:Hcur; [|done].
    pose proof (b_enqueuing c p s1) as Hb. rewrite Hsend in Hb. by eapply pblocks_ok. }
  destruct (current_connection a d s1) as [c|] eqn:Hcur; [|done].
  pose proof (account_sockets_ok s1 a d c (proj1 Hs1) Hcur) as ((_&_&_&Hown)&_&Hd).
  destruct (Hown _ _ Hd) as [Hdev Hacc].
  apply enqueued_result in Hsend as (c'&q&Hc'&Hid&Hq&Hlast&_). rewrite Hacc, Hdev in Hc'.
  exists c', q. assert (ac_account_id c' = a ∧ ac_device_id c' = d) as [? ?].
  { pose proof (account_sockets_ok s' a d c' (proj1 Hs') Hc') as ((_&_&_&Hown')&_&Hd').
    destruct (Hown' _ _ Hd'). done. }
  split_and!; [done..|by rewrite Hid|done].
Qed.

Lemma parse_ids_differ message now t s r ty :
  _parse_signaling_message message now = Ok (Some (t, s, r, ty)) → s ≠ r.
Proof.
  unfold _parse_signaling_message. destruct (member_of _ _) as [[?|]|]; try done.
  destruct (bad_version _); [done|]. do 3 (destruct (_canonical_uuid _); [|done]).
  case_bool_decide; [done|]. destruct (is_null _); [done|]. unfold reject_if.
  match goal with |- match ?c with _ => _ end = _ → _ => destruct c as [[]|] end; try done. by intros [= -> -> -> ->].
Qed.

(** What a successful charge says of the budget before it. *)
Lemma charged_result n0 n1 t c ty s s' :
  _record_signaling_use n0 n1 t c ty s = (Ok true, s') →
  ∀ usage, dict_get t (pm_signaling s) = Some usage →
    (default 0 (dict_get (ac_device_id c, ty) (su_counts usage)) < type_limit ty)%Z ∧
    (su_total usage < MAX_SIGNALING_MESSAGES)%Z ∧
    (default 0 (dict_get (ac_account_id c) (pm_signaling_account_totals s)) < MAX_SIGNALING_MESSAGES_PER_ACCOUNT)%Z.
Proof.
  unfold _record_signaling_use, bind, gets, modify, ret. simpl. intros Hu usage Hg. rewrite Hg in Hu.
  simpl in Hu. match type of Hu with context [if ?b then _ else _] => destruct b eqn:Hb end; [done|].
  to_prop. done.
Qed.

Lemma bool_decide_ne_false {A} `{EqDecision A} (x y : A) : bool_decide (x ≠ y) = false → x = y.
Proof. rewrite bool_decide_not, negb_false_iff. apply bool_decide_eq_true. Qed.

Lemma on_presence_inv {T A} (m : M Presence A) (w : World T) o w' :
  on_presence m w = (o, w') → m (w_presence w) = (o, w_presence w') ∧ w_store w' = w_store w.
Proof. unfold on_presence, zoom. destruct (m (w_presence w)) as [o' p]. intros [= <- <-]. done. Qed.

Lemma on_store_inv {T A} (m : M T A) (w : World T) o w' :
  on_store m w = (o, w') → m (w_store w) = (o, w_store w') ∧ w_presence w' = w_presence w.
Proof. unfold on_store, zoom. destruct (m (w_store w)) as [o' t]. intros [= <- <-]. done. Qed.

Lemma role_presence {T} `{PresencePortsLaws T} moves c transfer s r ty :
  respects (λ w w' : World T, w_presence w' = w_presence w) (role_refused moves c transfer s r ty).
Proof.
  assert (PreOrder (λ w w' : World T, w_presence w' = w_presence w)) as Hp by (split; [done|intros ???; congruence]).
  assert (∀ A (m : M T A), respects (λ w w' : World T, w_presence w' = w_presence w) (on_store m)) as Hst.
  { intros A m w0. destruct (on_store m w0) as [o w1] eqn:Hm. by apply on_store_inv in Hm as [_ ?]. }
  unfold role_refused, start_negotiating. walk.
Qed.

(** The run of [forward_signaling] that returns [True]. *)
Lemma forwarded_result {T} `{PresencePortsLaws T} cfg c moves connection message (w w' : World T) :
  forward_signaling cfg c moves connection message w = (Ok true, w') →
  ∃ t s r ty transfer charge s2,
    _parse_signaling_message message (c 1%nat) = Ok (Some (t, s, r, ty)) ∧
    get_by_id (ac_account_id connection) t (w_store w) = Some transfer ∧
    _active_transfer transfer (c 2%nat) = true ∧
    envelope_mismatch connection message transfer s r = false ∧
    _record_signaling_use (c 4%nat) (c 5%nat) (tr_id transfer) connection ty
      (_prune_signaling_state (c 0%nat) (w_presence w)).2 = (Ok true, charge) ∧
    send_to_device (pc_heartbeat_timeout cfg) (c 6%nat) (ac_account_id connection)
      (if decide (ac_device_id connection = s) then r else s) (JObj message) charge = (Ok true, s2) ∧
    w_presence w' = increment "signaling_forwarded" 1 s2.
Proof.
  assert (∀ w w' : World T, reject_signaling w ≠ (Ok true, w')) as Hrej by (intros; unfold reject_signaling, bind; done).
  unfold forward_signaling. destruct (negb (pc_transfer_repository cfg)); [intros Hr; by apply Hrej in Hr|].
  intros Hf. apply bind_ok_inv in Hf as ([]&w1&[Hp Hs1]%on_presence_inv&Hf).
  apply bind_ok_inv in Hf as (parsed&w2&Hparse&Hf). unfold lift in Hparse. injection Hparse as Hparse <-.
  destruct parsed as [[[[t s] r] ty]|]; [|by apply Hrej in Hf].
  apply bind_ok_inv in Hf as (transfer&w3&[Hg Hp3]%on_store_inv&Hf). unfold gets in Hg.
  injection Hg as Hg Hs3. rewrite Hs1 in Hg. subst transfer.
  destruct (get_by_id _ t (w_store w)) as [transfer|] eqn:Hg; [|by apply Hrej in Hf].
  destruct (_active_transfer transfer (c 2%nat)) eqn:Ha; simpl in Hf.
  2: { apply bind_ok_inv in Hf as (?&?&?&Hf). by apply Hrej in Hf. }
  destruct (_message_expiry _ _) as [expiry|]; [|by apply Hrej in Hf].
  destruct (_ <? _)%Z; [by apply Hrej in Hf|].
  destruct (envelope_mismatch _ _ _ _ _) eqn:Henv; [by apply Hrej in Hf|].
  apply bind_ok_inv in Hf as (refused&w4&Hrole&Hf).
  pose proof (role_presence moves connection transfer s r ty w3) as Hrp. rewrite Hrole in Hrp. simpl in Hrp.
  destruct refused; [by apply Hrej in Hf|]. unfold deliver_signaling in Hf.
  apply bind_ok_inv in Hf as (charged&w5&[Hc _]%on_presence_inv&Hf).
  destruct charged; [|by apply Hrej in Hf]. simpl in Hf.
  apply bind_ok_inv in Hf as (forwarded&w6&[Hsend _]%on_presence_inv&Hf).
  destruct forwarded; [|by apply Hrej in Hf]. simpl in Hf.
  apply bind_ok_inv in Hf as ([]&w7&[Hm _]%on_presence_inv&[= <-]).
  injection Hm as Hm. exists t, s, r, ty, transfer, (w_presence w5), (w_presence w6).
  split_and!; try done. by rewrite Hp, <- Hp3, <- Hrp.
Qed.

(** C14: signaling reaches only the peer.  When [forward_signaling] returns
    [True], the message parsed, it names a live stored transfer of the
    connection's own account by its exact sender and recipient, the
    connection is one of the two, and the message is the last payload in the
    queue of the socket the other device has in that same account. *)
Theorem forward_only_to_peer {T} `{PresencePortsLaws T} cfg c moves connection message (w w' : World T) :
  world_ok w → forward_signaling cfg c moves connection message w = (Ok true, w') →
  ∃ transfer peer q,
    transfer ∈ transfer_rows (w_store w) ∧ tr_user_id transfer = ac_account_id connection ∧
    tr_status transfer ∈ SIGNALING_ACTIVE_STATUSES ∧ (c 2%nat < tr_expires_at transfer)%Z ∧
    tr_sender_device_id transfer ≠ tr_recipient_device_id transfer ∧
    (ac_device_id connection = tr_sender_device_id transfer ∧ ac_device_id peer = tr_recipient_device_id transfer ∨
     ac_device_id connection = tr_recipient_device_id transfer ∧ ac_device_id peer = tr_sender_device_id transfer) ∧
    ac_account_id peer = ac_account_id connection ∧
    current_connection (ac_account_id peer) (ac_device_id peer) (w_presence w') = Some peer ∧
    dict_get (ac_id peer) (pm_outbound (w_presence w')) = Some q ∧ last (oq_queue q) = Some (JObj message).
Proof.
  intros Hok Hf. apply forwarded_result in Hf as (t&s&r&ty&transfer&charge&s2&Hparse&Hg&Ha&Henv&Hch&Hsend&Hw').
  apply parse_ids_differ in Hparse. apply get_by_id_owned in Hg as (Hin&Hid&Hu); [|apply Hok].
  assert (presence_ok charge) as Hcharge.
  { pose proof (record_use_ok (c 4%nat) (c 5%nat) (tr_id transfer) connection ty
      (_prune_signaling_state (c 0%nat) (w_presence w)).2) as Hr. rewrite Hch in Hr. simpl in Hr.
    pose proof (runs_on_presence _ (b_prune_signaling (c 0%nat)) w Hok) as Hrun.
    unfold on_presence in Hrun. rewrite zoom_snd in Hrun. pose proof (wsteps_ok _ _ Hrun Hok) as (Hp&Hr'&Hb).
    apply Hr; [exact Hp|]. intros usage Hus. apply Hb in Hus.
    eapply (owned_unique _ _ (tr_id transfer)); [exact Hr'|exact Hus|]. by exists transfer. }
  apply sent_result in Hsend as (peer&q&Hcur&Hpa&Hpd&Hq&Hlast); [|done].
  unfold envelope_mismatch in Henv. apply orb_false_iff in Henv as [Henv Hpart].
  apply orb_false_iff in Henv as [Henv Hr%bool_decide_ne_false].
  apply orb_false_iff in Henv as [_ Hs%bool_decide_ne_false].
  unfold _active_transfer in Ha. to_prop.
  exists transfer, peer, q. rewrite Hw'. subst s r. split_and!; try done.
  - destruct (decide (ac_device_id connection = tr_sender_device_id transfer)); [by left|].
    right. split; [|done]. apply dec_stable. set_solver.
  - by rewrite Hpa, Hpd.
Qed.

(** ** Budgets *)

(** Pruning keeps a budget used within the retention. *)
Lemma release_keeps t t' usage s :
  t ≠ t' → dict_get t' (pm_signaling s) = Some usage →
  dict_get t' (pm_signaling (_release_signaling t s).2) = Some usage.
Proof.
  intros Hne Hg. unfold _release_signaling, bind, gets, modify, ret. simpl.
  destruct (dict_get t (pm_signaling s)); [|done]. simpl. by rewrite dict_get_del_ne.
Qed.

Lemma release_all_keeps l t' usage s :
  t' ∉ l → dict_get t' (pm_signaling s) = Some usage →
  let m := for_each (λ t, do! _release_signaling t in ret tt) l in
  dict_get t' (pm_signaling (m s).2) = Some usage.
Proof.
  revert s. induction l as [|t l IH]; intros s Hl Hg; simpl; [done|].
  apply not_elem_of_cons in Hl as [Hne Hl]. unfold bind at 1 2.
  pose proof (release_keeps t t' usage s ltac:(done) Hg) as Hr.
  destruct (_release_signaling t s) as [[b|e] s1]; simpl in *; [|done]. by apply IH.
Qed.

Lemma prune_keeps now t usage s :
  presence_ok s → dict_get t (pm_signaling s) = Some usage →
  (now < su_updated_at usage + SIGNALING_STATE_RETENTION)%Z →
  dict_get t (pm_signaling (_prune_signaling_state now s).2) = Some usage.
Proof.
  intros (_&_&Hd&_) Hg Hrec. unfold _prune_signaling_state, prune_signaling_locked.
  assert (t ∉ stale_transfers (now - SIGNALING_STATE_RETENTION)%Z s) as Hl.
  { unfold stale_transfers. intros Hin. apply list_elem_of_fmap in Hin as ([t' u']&->&Hin).
    apply list_elem_of_In, filter_In in Hin as [Hin Hst]. apply list_elem_of_In in Hin.
    apply dict_In_get in Hin; [|done]. simpl in *. simplify_eq. to_prop. lia. }
  pose proof (release_all_keeps _ t usage s Hl Hg) as Hk. simpl in Hk.
  unfold bind, gets, ret. destruct (for_each _ _ s) as [[[]|e] s1]; simpl in *; [|done].
  by case_bool_decide.
Qed.

(** A spent budget refuses replays.  While a transfer's budget is kept
    (used within the last 11 minutes), a message is not forwarded once the
    device has used its allowance of that type (one offer, answer or handshake
    message, 64 candidates), nor once the transfer has carried 128 messages. *)
Theorem spent_budget_refuses {T} `{PresencePortsLaws T} cfg c moves connection message (w : World T)
    t s r ty usage :
  world_ok w →
  _parse_signaling_message message (c 1%nat) = Ok (Some (t, s, r, ty)) →
  dict_get t (pm_signaling (w_presence w)) = Some usage →
  (c 0%nat < su_updated_at usage + SIGNALING_STATE_RETENTION)%Z →
  (type_limit ty ≤ default 0 (dict_get (ac_device_id connection, ty) (su_counts usage)))%Z ∨
    (MAX_SIGNALING_MESSAGES ≤ su_total usage)%Z →
  ∀ w', forward_signaling cfg c moves connection message w ≠ (Ok true, w').
Proof.
  intros Hok Hparse Hg Hrec Hspent w' Hf.
  apply forwarded_result in Hf as (t'&s'&r'&ty'&transfer&charge&s2&Hparse'&Hget&_&_&Hch&_&_).
  rewrite Hparse in Hparse'. simplify_eq. apply get_by_id_owned in Hget as (_&Hid&_); [|apply Hok].
  destruct Hok as (Hp&_&_). pose proof (prune_keeps _ _ _ _ Hp Hg Hrec) as Hk.
  rewrite Hid in Hch. destruct (charged_result _ _ _ _ _ _ _ Hch usage Hk) as (Hc1&Hc2&_). lia.
Qed.

(** ** Ordered delivery *)

(** The operations on one socket's queue: senders queue payloads, the writer
    takes, accounts for and writes them. *)
Inductive queue_op :=
| QEnqueue (payload : json)
| QGet
| QAccount
| QSent.

Definition queue_run1 (c : ActiveConnection) (op : queue_op) : M Presence (list json) :=
  match op with
  | QEnqueue payload =>
      let! accepted := _enqueue_outbound c payload in
      ret (if (accepted : bool) then [payload] else [])
  | QGet => do! writer_get c in ret []
  | QAccount => do! writer_account c in ret []
  | QSent => do! writer_sent c in ret []
  end.

(** The payloads accepted by a run of operations. *)
Fixpoint queue_run (c : ActiveConnection) (ops : list queue_op) : M Presence (list json) :=
  match ops with
  | [] => ret []
  | op :: ops' =>
      let! accepted := queue_run1 c op in
      let! rest := queue_run c ops' in
      ret (accepted ++ rest)
  end.

Definition sent_to (websocket : N) (s : Presence) : list json :=
  map snd (List.filter (λ wp, (fst wp =? websocket)%N) (pm_sent s)).

(** What the socket has been sent, then what its queue holds. *)
Definition pending (q : _OutboundQueue) : list json :=
  match oq_writer q with Taken p | Sending p => [p] | _ => [] end ++ oq_queue q.

Definition stream (c : ActiveConnection) (s : Presence) (q : _OutboundQueue) : list json :=
  sent_to (ac_websocket c) s ++ pending q.

Lemma remove_pops c s q :
  dict_ok (pm_outbound s) →
  current_connection (ac_account_id c) (ac_device_id c) s = Some c →
  dict_get (ac_id c) (pm_outbound (Presence.remove c s).2) = Some q → False.
Proof.
  intros Hd Hc. unfold Presence.remove, remove_locked, bind, gets, modify, ret. simpl. rewrite Hc.
  rewrite bool_decide_false by (intros Hx; by apply Hx). simpl.
  destruct (dict_get (ac_id c) (pm_outbound s)); simpl; by rewrite dict_get_del_eq.
Qed.

(** An enqueue that leaves the queue in place appended its payload, or did
    nothing. *)
Lemma enqueue_stream c p s q acc s' q' :
  dict_ok (pm_outbound s) → current_connection (ac_account_id c) (ac_device_id c) s = Some c →
  dict_get (ac_id c) (pm_outbound s) = Some q →
  _enqueue_outbound c p s = (Ok acc, s') → dict_get (ac_id c) (pm_outbound s') = Some q' →
  pm_sent s' = pm_sent s ∧ pm_connections s' = pm_connections s ∧
  q' = if acc then oq_put q p else q.
Proof.
  intros Hd Hc Hq. unfold _enqueue_outbound, enqueue_locked. unfold bind at 2 3, gets at 1 2. unfold bind at 1.
  rewrite Hc, Hq. rewrite bool_decide_false by (intros Hx; by apply Hx). simpl.
  destruct (oq_failed q); [intros [= <- <-]; intros; by simplify_eq|].
  destruct (_ || _)%bool; simpl.
  - intros Hdrop Hq'. exfalso. unfold bind, _drop in Hdrop. unfold bind in Hdrop.
    match type of Hdrop with context [Presence.remove c ?s0] =>
      pose proof (remove_pops c s0 q') as Hrm; destruct (Presence.remove c s0) as [[b|e] s1] end; [|done].
    unfold ret in Hdrop. injection Hdrop as <- <-. simpl in *. apply Hrm; [by apply dict_ok_set|exact Hc|exact Hq'].
  - intros [= <- <-]. simpl. rewrite dict_get_set_eq. intros [= <-]. done.
Qed.

(** Every writer step, in one look at the queue. *)
Lemma writer_stream c m s q acc s' q' :
  (m = writer_get c ∨ m = writer_account c ∨ m = writer_sent c) →
  dict_get (ac_id c) (pm_outbound s) = Some q →
  m s = (Ok acc, s') → dict_get (ac_id c) (pm_outbound s') = Some q' →
  stream c s' q' = stream c s q ∧ pm_connections s' = pm_connections s.
Proof.
  intros Hm Hq. unfold stream, pending, sent_to.
  destruct Hm as [->|[->| ->]]; unfold writer_get, writer_account, writer_sent, send_json, bind, gets, modify, ret;
    rewrite Hq; destruct q as [[|p l] [|p'|p'|] f b i]; intros [= <- <-] Hq'; simpl in *;
    rewrite ?dict_get_set_eq in Hq'; simplify_eq; simpl; try done;
    rewrite List.filter_app, map_app; simpl; rewrite N.eqb_refl; simpl; by rewrite <- app_assoc.
Qed.

Lemma queue_run1_ok c op s acc s' :
  presence_ok s → queue_run1 c op s = (Ok acc, s') → presence_ok s'.
Proof.
  intros Hs Hrun. assert (respects (rtc pblock) (queue_run1 c op)) as Hb.
  { destruct op; simpl; apply respects_bind; try apply _; intros; try (apply respects_ret, _);
      [apply b_enqueuing|apply block_once; constructor..]. }
  specialize (Hb s). rewrite Hrun in Hb. by eapply pblocks_ok.
Qed.

Lemma queue_run1_stream c op s q acc s' q' :
  presence_ok s → current_connection (ac_account_id c) (ac_device_id c) s = Some c →
  dict_get (ac_id c) (pm_outbound s) = Some q →
  queue_run1 c op s = (Ok acc, s') → dict_get (ac_id c) (pm_outbound s') = Some q' →
  stream c s' q' = stream c s q ++ acc ∧
  current_connection (ac_account_id c) (ac_device_id c) s' = Some c ∧ presence_ok s'.
Proof.
  intros Hs Hc Hq Hrun Hq'.
  enough (stream c s' q' = stream c s q ++ acc ∧
    current_connection (ac_account_id c) (ac_device_id c) s' = Some c) as [? ?].
  { split_and!; [done..|by eapply queue_run1_ok]. }
  assert (∀ s0, pm_connections s0 = pm_connections s →
    current_connection (ac_account_id c) (ac_device_id c) s0 = Some c) as Hkeep.
  { intros s0 H0. unfold current_connection, account_sockets in *. by rewrite H0. }
  destruct op as [p| | |]; simpl in Hrun; apply bind_ok_inv in Hrun as (a&s1&Hstep&[= <- <-]).
  - apply (enqueue_stream c p s q a s1 q') in Hstep as (Hsent&Hconn&->); [|apply Hs|done..].
    split; [|by apply Hkeep]. unfold stream, pending, sent_to. rewrite Hsent.
    destruct a; simpl; [|by rewrite app_nil_r]. by rewrite !app_assoc.
  - apply (writer_stream c _ s q a s1 q') in Hstep as [-> ?]; [|by left|done..]. rewrite app_nil_r. auto.
  - apply (writer_stream c _ s q a s1 q') in Hstep as [-> ?]; [|by right; left|done..]. rewrite app_nil_r. auto.
  - apply (writer_stream c _ s q a s1 q') in Hstep as [-> ?]; [|by right; right|done..]. rewrite app_nil_r. auto.
Qed.

(** A queue that is gone does not come back by these operations. *)
Lemma queue_gone c op s acc s' :
  dict_ok (pm_outbound s) → dict_get (ac_id c) (pm_outbound s) = None →
  queue_run1 c op s = (Ok acc, s') → dict_get (ac_id c) (pm_outbound s') = None.
Proof.
  intros Hd Hq. destruct op as [p| | |]; simpl; unfold bind.
  - unfold _enqueue_outbound, enqueue_locked, bind, gets, ret. rewrite Hq.
    destruct (current_connection _ _ s); intros; by simplify_eq/=.
  - unfold writer_get, modify, ret. rewrite Hq. intros; by simplify_eq/=.
  - unfold writer_account, modify, ret. rewrite Hq. intros; by simplify_eq/=.
  - unfold writer_sent, bind, gets, ret. rewrite Hq. intros; by simplify_eq/=.
Qed.

Lemma queue_gone_run c ops s acc s' :
  presence_ok s → dict_get (ac_id c) (pm_outbound s) = None →
  queue_run c ops s = (Ok acc, s') → dict_get (ac_id c) (pm_outbound s') = None.
Proof.
  revert s acc. induction ops as [|op ops IH]; intros s acc Hs Hq Hrun; simpl in Hrun; [unfold ret in Hrun; by simplify_eq|].
  apply bind_ok_inv in Hrun as (a1&s1&H1&Hrun). apply bind_ok_inv in Hrun as (a2&s2&H2&[= <- <-]).
  eapply IH; [by eapply queue_run1_ok| |exact H2]. eapply queue_gone; [apply Hs|exact Hq|exact H1].
Qed.

(** C34: a socket receives its payloads in order, once each.  Over any
    interleaving of senders and of the writer task on a registered socket,
    while its queue is not dropped: the payloads written to the socket,
    followed by the one in the writer's hands and those queued, are those
    that were there before followed by the accepted ones, in order. *)
Theorem outbound_fifo c ops s q acc s' q' :
  presence_ok s → current_connection (ac_account_id c) (ac_device_id c) s = Some c →
  dict_get (ac_id c) (pm_outbound s) = Some q →
  queue_run c ops s = (Ok acc, s') → dict_get (ac_id c) (pm_outbound s') = Some q' →
  stream c s' q' = stream c s q ++ acc.
Proof.
  revert s q acc. induction ops as [|op ops IH]; intros s q acc Hs Hc Hq Hrun Hq'; simpl in Hrun.
  - unfold ret in Hrun. simplify_eq. by rewrite app_nil_r.
  - apply bind_ok_inv in Hrun as (a1&s1&H1&Hrun). apply bind_ok_inv in Hrun as (a2&s2&H2&[= <- <-]).
    destruct (dict_get (ac_id c) (pm_outbound s1)) as [q1|] eqn:Hq1.
    + destruct (queue_run1_stream c op s q a1 s1 q1) as (Heq&Hc1&Hs1); [done..|].
      rewrite (IH s1 q1 a2), Heq by done. by rewrite app_assoc.
    + exfalso. apply queue_gone_run in H2; [congruence|by eapply queue_run1_ok|done].
Qed.

(** ** The end of a socket *)

(** [c] is not the current connection of its device. *)
Definition gone (c : ActiveConnection) (s : Presence) : Prop :=
  ∀ c', current_connection (ac_account_id c) (ac_device_id c) s = Some c' → ac_id c' ≠ ac_id c.

(** Connections only leave. *)
Definition only_leave (s s' : Presence) : Prop :=
  presence_ok s → presence_ok s' ∧
  ∀ a d c, current_connection a d s' = Some c → current_connection a d s = Some c.

#[export] Instance only_leave_preorder : PreOrder only_leave.
Proof.
  split; [intros s Hs; by split|]. intros s1 s2 s3 H1 H2 Hs.
  destruct (H1 Hs) as [Hs2 Hc1]. destruct (H2 Hs2) as [Hs3 Hc2]. split; [done|]. eauto.
Qed.

Lemma only_leave_same {A} (m : M Presence A) :
  respects (rtc pblock) m → respects same_connections m → respects only_leave m.
Proof.
  intros Hb Hs s Hok. split; [by eapply pblocks_ok; [apply Hb|]|].
  intros a d c. unfold current_connection, account_sockets. by rewrite (Hs s).
Qed.

Lemma drop_if_empty_get a a' sockets conns :
  dict_ok conns →
  default [] (dict_get a' (drop_if_empty a sockets conns)) =
  if decide (a' = a) then sockets else default [] (dict_get a' conns).
Proof.
  intros Hd. unfold drop_if_empty. destruct sockets as [|x sockets].
  - rewrite dict_get_del by done. by case_decide.
  - rewrite dict_get_set. by case_decide.
Qed.

Lemma l_expire timeout now a : respects only_leave (expire_account timeout now a).
Proof.
  intros s Hs. split; [by apply expire_account_ok|]. intros a' d c.
  unfold expire_account, bind, gets, modify, ret. simpl.
  destruct (dict_get a (pm_connections s)) as [sockets|] eqn:Hg; [|done]. simpl.
  unfold current_connection, account_sockets. simpl.
  rewrite drop_if_empty_get by apply Hs. case_decide; [subst a'|done]. rewrite Hg. simpl.
  destruct Hs as ((_&Hso&_)&_). destruct (Hso a sockets Hg) as (_&Hds&_&_).
  rewrite dict_get_filter by done. destruct (dict_get d sockets); [|done]. by destruct (negb _).
Qed.

Lemma l_remove_locked c : respects only_leave (remove_locked c).
Proof.
  intros s Hs. split; [by apply remove_locked_ok|]. intros a' d c'.
  unfold remove_locked, bind, gets, modify, ret. simpl.
  destruct (current_connection _ _ s) as [c0|] eqn:Hc; [|done]. case_bool_decide; [done|]. simpl.
  unfold current_connection, account_sockets. simpl. rewrite drop_if_empty_get by apply Hs.
  case_decide; [subst a'|done]. apply account_sockets_ok in Hc as ((_&Hds&_&_)&_&_); [|apply Hs].
  fold (account_sockets (ac_account_id c) s). rewrite dict_get_del by done. by case_decide.
Qed.

Lemma l_enqueue_locked c p : respects only_leave (enqueue_locked c p).
Proof.
  apply only_leave_same; [apply b_enqueue|]. intros s. unfold enqueue_locked, bind, gets, modify, ret, same_connections.
  repeat case_match_goal; done.
Qed.

Lemma l_release t : respects only_leave (_release_signaling t).
Proof. apply only_leave_same; [apply b_release|apply release_connections]. Qed.
Lemma l_pop c : respects only_leave (pop_outbound c).
Proof. by apply only_leave_same; [apply b_pop|]. Qed.
Lemma l_metric name n : respects only_leave (modify (increment name n)).
Proof. by apply only_leave_same; [apply b_metric|]. Qed.
Lemma l_close ws code : respects only_leave (_close ws code).
Proof. by apply only_leave_same; [apply b_close|]. Qed.
Lemma l_stop o : respects only_leave (_stop_outbound o).
Proof. apply only_leave_same; [apply b_stop|]. intros s. by destruct o. Qed.
#[local] Hint Resolve l_expire l_remove_locked l_enqueue_locked l_release l_pop l_metric l_close l_stop : respects.

Lemma l_remove c : respects only_leave (Presence.remove c).
Proof. unfold Presence.remove. walk. Qed.
#[local] Hint Resolve l_remove : respects.

Lemma l_enqueuing c p : respects only_leave (_enqueue_outbound c p).
Proof. unfold _enqueue_outbound, _drop. walk. Qed.

Lemma l_expire_accounts timeout now l : respects only_leave (expire_accounts timeout now l).
Proof. induction l as [|a l IH]; simpl; walk. Qed.
#[local] Hint Resolve l_enqueuing l_expire_accounts : respects.

Lemma l_online timeout now a : respects only_leave (online_connections timeout now a).
Proof.
  unfold online_connections, prune_expired, close_expired, _prune_signaling_state, prune_signaling_locked. walk.
Qed.
#[local] Hint Resolve l_online : respects.

Lemma l_broadcast {T} `{PresencePorts T} cfg c a :
  respects (λ w w' : World T, only_leave (w_presence w) (w_presence w')) (broadcast_presence cfg c a).
Proof.
  set (R := λ w w' : World T, only_leave (w_presence w) (w_presence w')).
  assert (PreOrder R) by (unfold R; split; [intros w; reflexivity|intros w1 w2 w3 ??; by etrans]).
  assert (∀ A (m : M Presence A), respects only_leave m → respects R (on_presence m)) as Hp.
  { intros A m Hm w. unfold R, on_presence. rewrite zoom_snd. apply Hm. }
  assert (∀ A (m : M T A), respects R (on_store m)) as Hst.
  { intros A m w. unfold R, on_store. rewrite zoom_snd. reflexivity. }
  unfold broadcast_presence, online_devices. walk.
Qed.

Lemma removed_gone c s : presence_ok s → gone c (Presence.remove c s).2.
Proof.
  intros Hs c'. unfold Presence.remove, remove_locked, bind, gets, modify, ret. simpl.
  destruct (current_connection _ _ s) as [c0|] eqn:Hc; simpl; [|congruence].
  case_bool_decide as Hid; simpl; [congruence|].
  apply account_sockets_ok in Hc as Hso; [|apply Hs]. destruct Hso as ((_&Hds&_&_)&_&_).
  set (s1 := set_outbound _ _).
  assert (current_connection (ac_account_id c) (ac_device_id c) s1 = None) as Hnone.
  { unfold current_connection, account_sockets, s1. simpl. rewrite drop_if_empty_get by apply Hs.
    rewrite decide_True by done. fold (account_sockets (ac_account_id c) s). by rewrite dict_get_del_eq. }
  destruct (dict_get (ac_id c) (pm_outbound s)); simpl; intros Hx; exfalso;
    unfold current_connection, account_sockets in *; simpl in *; congruence.
Qed.

(** A socket's life always ends unregistered.  However
    [_serve_connection] ends, by a return, by spending its budget of messages
    or by an exception (a message whose type is a list raises out of it), the
    connection is no longer the current one of its device. *)
Theorem served_connection_removed {T} `{PresencePortsLaws T} cfg c connection events (w : World T) :
  world_ok w → gone connection (w_presence (serve_until_closed cfg c connection events w).2).
Proof.
  intros Hok. unfold serve_until_closed, try_finally.
  pose proof (r_serve cfg (ac_websocket connection) connection MAX_SOCKET_MESSAGES events w Hok) as Hrun.
  destruct (_serve_connection _ _ _ _ _ w) as [o w1]. simpl in Hrun.
  assert (world_ok w1) as Hok1 by by eapply wsteps_ok.
  unfold bind. destruct (on_presence (Presence.remove connection) w1) as [o2 w2] eqn:Hrm.
  apply on_presence_inv in Hrm as [Hrm _].
  pose proof (removed_gone connection _ (proj1 Hok1)) as Hg. rewrite Hrm in Hg. simpl in Hg.
  assert (presence_ok (w_presence w2)) as Hok2.
  { pose proof (b_removing connection (w_presence w1)) as Hb. rewrite Hrm in Hb.
    eapply pblocks_ok; [exact Hb|apply Hok1]. }
  destruct o2 as [[|]|e]; simpl; try exact Hg.
  pose proof (l_broadcast cfg c (ac_account_id connection) w2 Hok2) as [_ Hl].
  destruct (broadcast_presence cfg c (ac_account_id connection) w2) as [[[]|e] w3]; simpl in *;
    intros c' Hc'; apply Hg; by apply Hl.
Qed.

(** ** Two defects *)

(** An unhashable message type escapes the socket loop.  A well-formed
    JSON object whose "type" is a list or an object is not answered with a
    close code: the membership test raises [TypeError] out of
    [_serve_connection], before anything is sent or closed. *)
Theorem unhashable_type_raises {T} `{PresencePortsLaws T} cfg c moves sessions ws connection
    raw decoded message size (w : World T) :
  utf8_len raw = Ok size → (size ≤ MAX_WEBSOCKET_MESSAGE_BYTES)%Z →
  loads decoded = Ok (JObj message) → hashable (get_member "type" message) = false →
  serve_one cfg c moves sessions ws connection (Text raw (Some decoded)) w = (Raise TypeError, w).
Proof.
  intros Hsize Hle Hload Hh. unfold serve_one, bind, lift. rewrite Hsize. apply Z.ltb_ge in Hle as ->.
  rewrite Hload. unfold dispatch. 
  assert (∀ s, eq_str (get_member "type" message) s = false) as Hne.
  { intros s. unfold eq_str. by destruct (get_member "type" message). }
  rewrite !Hne. simpl. unfold bind, lift, member_of. by rewrite Hh.
Qed.

(** [disconnect_account] leaks queues.  It takes the account's
    connections out but not their outbound queues: the queue and its waiting
    writer stay in [_outbound], and the [remove] that the closing socket then
    runs does nothing, for the connection is not current any more. *)
Theorem disconnect_account_leaks a d c q s :
  presence_ok s → current_connection a d s = Some c → dict_get (ac_id c) (pm_outbound s) = Some q →
  let s' := (disconnect_account a s).2 in
  current_connection a d s' = None ∧ dict_get (ac_id c) (pm_outbound s') = Some q ∧
  Presence.remove c s' = (Ok false, s').
Proof.
  intros Hs Hc Hq s'. destruct (account_sockets_ok _ _ _ _ (proj1 Hs) Hc) as ((_&_&_&Hown)&_&Hd).
  destruct (Hown _ _ Hd) as [Hdev Hacc].
  assert (pm_connections s' = dict_del a (pm_connections s) ∧ pm_outbound s' = pm_outbound s) as [Hconns Hout].
  { unfold s', disconnect_account, take_account, bind, gets, modify, ret. simpl.
    set (s0 := set_connections (dict_del a) s). set (l := dict_values (account_sockets a s)).
    change (dict_del a (pm_connections s)) with (pm_connections s0).
    change (pm_outbound s) with (pm_outbound s0). clearbody s0.
    revert s0. induction l as [|x l IH]; intros s0; simpl; [done|]. unfold bind. simpl.
    by rewrite (proj1 (IH _)), (proj2 (IH _)). }
  assert (current_connection a d s' = None) as Hnone.
  { unfold current_connection, account_sockets. rewrite Hconns, dict_get_del_eq by apply Hs. done. }
  split_and!; [done|by rewrite Hout|].
  unfold Presence.remove, remove_locked, bind, gets. rewrite Hacc, Hdev, Hnone. done.
Qed.

(** ** Witnesses

    Two devices of one account with a socket each, an open transfer between
    them, and a store without sessions. *)
#[export] Instance mem_ports : PresencePorts MemTransfers := {|
  find_current_by_id := λ _ _, ret None;
  device_by_id := λ a d m,
    Ok (match mt_device_repository m with Some ds => Mem.device_lookup ds a d | None => None end) |}.

#[export] Instance mem_ports_laws : PresencePortsLaws MemTransfers.
Proof. constructor. intros r i s. apply (reflexivity (R := lawful)). Qed.

Definition config1 : PresenceConfig :=
  {| pc_heartbeat_timeout := PRESENCE_HEARTBEAT_TIMEOUT; pc_session_repository := true;
     pc_device_repository := true; pc_transfer_repository := true |}.
Definition socket10 : ActiveConnection := Build_ActiveConnection 1000 1 10 5 1 0 0.
Definition socket11 : ActiveConnection := Build_ActiveConnection 1001 1 11 6 2 0 0.
Definition presence1 : Presence := (register socket10 initial_presence).2.
Definition presence2 : Presence := (register socket11 presence1).2.
Definition offer_v1 : TransferRequestRecord := new_offer 0 100 1 10 11 1 (seconds 60).
Definition world2 : World MemTransfers := Build_World presence2 (fixture_mem [offer_v1]).
Definition still (n : timestamp) : clock := λ _, n.
Definition offer_message : dict pystr json := sdp_message "sdp_offer" 100 10 11 50000 (u "v=0").

Lemma presence1_ok : presence_ok presence1.
Proof. eapply pblocks_ok; [apply b_registering|apply initial_presence_ok]. Qed.

Lemma presence2_ok : presence_ok presence2.
Proof. eapply pblocks_ok; [apply b_registering|apply presence1_ok]. Qed.

Lemma fixture_repo_ok r : repo_ok (fixture_mem [r]).
Proof.
  split; [apply NoDup_singleton|]. intros k x Hk%list_elem_of_singleton. by simplify_eq.
Qed.

Lemma world2_ok : world_ok world2.
Proof. split_and!; [apply presence2_ok|apply fixture_repo_ok|done]. Qed.

Lemma presence_limits_witness : within_limits presence1.
Proof.
  apply (presence_limits (fixture_mem [offer_v1]) (Build_World presence1 (fixture_mem [offer_v1]))).
  - apply fixture_repo_ok.
  - apply rtc_pblock_world. exact (b_registering socket10 initial_presence).
Defined.

Lemma coroutines_are_steps_witness :
  rtc wstep world2 (forward_signaling config1 (still 10) (at_time 10) socket10 offer_message world2).2.
Proof.
  destruct (coroutines_are_steps config1 world2 world2_ok) as (_&H&_).
  exact (H (still 10) (at_time 10) socket10 offer_message).
Defined.

Lemma register_spec_witness : current_connection 1 10 presence1 = Some socket10.
Proof.
  pose proof (register_spec socket10 initial_presence initial_presence_ok) as H. unfold presence1.
  destruct (register socket10 initial_presence) as [o s'].
  destruct H as (_&Hc&_). exact Hc.
Defined.

Lemma prune_expired_spec_witness :
  current_connection 1 10 (prune_expired (seconds 45) (seconds 45) (Some 1%N) presence2).2 = None.
Proof.
  destruct (prune_expired_spec (seconds 45) (seconds 45) 1 presence2 presence2_ok) as (H&_&_).
  destruct (current_connection 1 10 _) as [c|] eqn:Hc; [|reflexivity].
  apply H in Hc as [Hc Hlt]. vm_compute in Hc. injection Hc as <-. vm_compute in Hlt. discriminate.
Defined.

Lemma forward_only_to_peer_witness :
  ∃ peer q, ac_device_id peer = 11%N ∧
    dict_get (ac_id peer)
      (pm_outbound (w_presence (forward_signaling config1 (still 10) (at_time 10) socket10 offer_message world2).2))
      = Some q ∧ last (oq_queue q) = Some (JObj offer_message).
Proof.
  destruct (forward_signaling config1 (still 10) (at_time 10) socket10 offer_message world2) as [o w'] eqn:Hf.
  assert (o = Ok true) as -> by (vm_compute in Hf; by simplify_eq).
  destruct (forward_only_to_peer config1 (still 10) (at_time 10) socket10 offer_message world2 w' world2_ok Hf)
    as (transfer&peer&q&Hin&_&_&_&_&Hdev&_&_&Hq&Hlast).
  exists peer, q. split; [|by split]. vm_compute in Hin. apply list_elem_of_singleton in Hin. subst transfer.
  destruct Hdev as [[_ Hd]|[Hd _]]; [exact Hd|discriminate Hd].
Defined.

Definition world3 : World MemTransfers :=
  (forward_signaling config1 (still 10) (at_time 10) socket10 offer_message world2).2.

Lemma spent_budget_refuses_witness :
  (forward_signaling config1 (still 20) (at_time 20) socket10 offer_message world3).1 ≠ Ok true.
Proof.
  destruct (forward_signaling config1 (still 20) (at_time 20) socket10 offer_message world3) as [o w'] eqn:Hf.
  simpl. intros ->. revert Hf.
  apply (spent_budget_refuses config1 (still 20) (at_time 20) socket10 offer_message world3
    100 10 11 "sdp_offer" (Build__SignalingUsage 1 10 1 [((10%N, "sdp_offer"), 1%Z)])).
  - eapply wsteps_ok; [apply (r_forward config1), world2_ok|apply world2_ok].
  - vm_compute. reflexivity.
  - vm_compute. reflexivity.
  - vm_compute. reflexivity.
  - left. vm_compute. discriminate.
Defined.

Lemma outbound_fifo_witness :
  ∃ acc s' q', queue_run socket10 [QEnqueue (JInt 1); QEnqueue (JInt 2); QGet; QAccount; QSent] presence1 = (Ok acc, s') ∧
    dict_get 1000%N (pm_outbound s') = Some q' ∧ stream socket10 s' q' = [JInt 1; JInt 2].
Proof.
  eexists _, _, _. split_and!.
  - vm_compute. reflexivity.
  - vm_compute. reflexivity.
  - eapply (outbound_fifo socket10 [QEnqueue (JInt 1); QEnqueue (JInt 2); QGet; QAccount; QSent] presence1 fresh_queue [JInt 1; JInt 2]).
    + apply presence1_ok.
    + vm_compute. reflexivity.
    + vm_compute. reflexivity.
    + vm_compute. reflexivity.
    + vm_compute. reflexivity.
Defined.

Lemma served_connection_removed_witness :
  gone socket10 (w_presence (serve_until_closed config1 (still 10) socket10
    [(still 10, at_time 10, at_time 10, Text (u "{}") (Some (TPairs [(u "type", TList [])])))] world2).2).
Proof.
  apply (served_connection_removed config1 (still 10) socket10 _ world2). apply world2_ok.
Defined.

Lemma unhashable_type_raises_witness :
  serve_one config1 (still 10) (at_time 10) (at_time 10) 1 socket10
    (Text (u "[]") (Some (TPairs [(u "type", TList [])]))) world2 = (Raise TypeError, world2).
Proof.
  eapply (unhashable_type_raises config1 (still 10) (at_time 10) (at_time 10) 1 socket10 _ _
    [(u "type", JList [])] 2 world2).
  - vm_compute. reflexivity.
  - vm_compute. discriminate.
  - vm_compute. reflexivity.
  - vm_compute. reflexivity.
Defined.

Lemma disconnect_account_leaks_witness :
  Presence.remove socket10 (disconnect_account 1 presence2).2 = (Ok false, (disconnect_account 1 presence2).2).
Proof.
  apply (disconnect_account_leaks 1 10 socket10 fresh_queue presence2).
  - apply presence2_ok.
  - vm_compute. reflexivity.
  - vm_compute. reflexivity.
Defined.
