(* ===== verification/Hashing.v ===== *)
(** * Hashing: [hashlib.sha256] and [hmac.new(..., hashlib.sha256)]

    The digests the program stores instead of secrets, as functions on bytes
    that evaluate, and what clients use of them: the digest's length. *)
From Stdlib.Strings Require Import Byte.
From S2P Require Import Prelude Models Json.
From stdpp Require Import list strings.

Local Open Scope N_scope.

(** ** Words *)
Definition byte_of (n : N) : byte := match Byte.of_N (n mod 256) with Some b => b | None => x00 end.

Definition add32 (a b : N) : N := (a + b) mod 2 ^ 32.
Definition rotr (n x : N) : N := N.lor (N.shiftr x n) (N.shiftl x (32 - n) mod 2 ^ 32).

(** The standard's constants: the first 32 bits of the fractional parts of
    the cube roots (of the square roots) of the first primes. *)
Definition divides_none (n : nat) : bool := forallb (λ d, negb (n mod d =? 0)%nat) (seq 2 (n - 2)).
Definition primes (count : nat) : list N := firstn count (map N.of_nat (List.filter divides_none (seq 2 320))).

(** The integer cube root, bit by bit from bit [k]. *)
Fixpoint cube_root (k : nat) (acc n : N) : N :=
  let acc' := acc + 2 ^ N.of_nat k in
  let next := if acc' * acc' * acc' <=? n then acc' else acc in
  match k with O => next | S k' => cube_root k' next n end.

Definition round_constants : list N := Eval vm_compute in
  map (λ p, cube_root 40 0 (p * 2 ^ 96) mod 2 ^ 32) (primes 64).

Definition hash_words : list N := Eval vm_compute in
  map (λ p, N.sqrt (p * 2 ^ 64) mod 2 ^ 32) (primes 8).

Record hash_state := Hash { ha : N; hb : N; hc : N; hd : N; he : N; hf : N; hg : N; hh : N }.

Definition initial_hash : hash_state :=
  let w := λ i, nth i hash_words 0 in Hash (w 0%nat) (w 1%nat) (w 2%nat) (w 3%nat) (w 4%nat) (w 5%nat) (w 6%nat) (w 7%nat).

(** ** Message schedule and compression *)

(** The schedule newest word first, extended [n] times. *)
Fixpoint extend (n : nat) (w : list N) : list N :=
  match n with
  | O => w
  | S n' =>
      let w2 := nth 1 w 0 in
      let w15 := nth 14 w 0 in
      let s0 := N.lxor (N.lxor (rotr 7 w15) (rotr 18 w15)) (N.shiftr w15 3) in
      let s1 := N.lxor (N.lxor (rotr 17 w2) (rotr 19 w2)) (N.shiftr w2 10) in
      extend n' (add32 (add32 (nth 15 w 0) s0) (add32 (nth 6 w 0) s1) :: w)
  end.

Definition round (h : hash_state) (kw : N * N) : hash_state :=
  let s1 := N.lxor (N.lxor (rotr 6 (he h)) (rotr 11 (he h))) (rotr 25 (he h)) in
  let ch := N.lxor (N.land (he h) (hf h)) (N.land (N.lxor (he h) (2 ^ 32 - 1)) (hg h)) in
  let t1 := add32 (add32 (add32 (hh h) s1) (add32 ch kw.1)) kw.2 in
  let s0 := N.lxor (N.lxor (rotr 2 (ha h)) (rotr 13 (ha h))) (rotr 22 (ha h)) in
  let maj := N.lxor (N.lxor (N.land (ha h) (hb h)) (N.land (ha h) (hc h))) (N.land (hb h) (hc h)) in
  Hash (add32 t1 (add32 s0 maj)) (ha h) (hb h) (hc h) (add32 (hd h) t1) (he h) (hf h) (hg h).

Definition compress (h : hash_state) (block : list N) : hash_state :=
  let w := rev (extend 48 (rev block)) in
  let r := fold_left round (combine round_constants w) h in
  Hash (add32 (ha h) (ha r)) (add32 (hb h) (hb r)) (add32 (hc h) (hc r)) (add32 (hd h) (hd r))
       (add32 (he h) (he r)) (add32 (hf h) (hf r)) (add32 (hg h) (hg r)) (add32 (hh h) (hh r)).

(** ** Padding and blocks *)
Fixpoint big_endian (k : nat) (n : N) : bytes :=
  match k with O => [] | S k' => big_endian k' (n / 256) ++ [byte_of n] end.

Definition padded (m : bytes) : bytes :=
  let zeros := ((119 - N.of_nat (length m) mod 64) mod 64) in
  m ++ x80 :: repeat x00 (N.to_nat zeros) ++ big_endian 8 (8 * N.of_nat (length m)).

Fixpoint words (m : bytes) : list N :=
  match m with
  | a :: b :: c :: d :: m' =>
      (((Byte.to_N a * 256 + Byte.to_N b) * 256 + Byte.to_N c) * 256 + Byte.to_N d) :: words m'
  | _ => []
  end.

Fixpoint blocks (fuel : nat) (h : hash_state) (w : list N) : hash_state :=
  match fuel, w with
  | S fuel', _ :: _ => blocks fuel' (compress h (firstn 16 w)) (skipn 16 w)
  | _, _ => h
  end.

Definition sha256 (m : bytes) : bytes :=
  let w := words (padded m) in
  let h := blocks (length w) initial_hash w in
  concat (map (big_endian 4) [ha h; hb h; hc h; hd h; he h; hf h; hg h; hh h]).

(** ** HMAC, block size 64 *)
Definition xor_pad (pad : N) (key : bytes) : bytes := map (λ b, byte_of (N.lxor (Byte.to_N b) pad)) key.

Definition hmac_sha256 (key message : bytes) : bytes :=
  let key := if (64 <? length key)%nat then sha256 key else key in
  let key := key ++ repeat x00 (64 - length key) in
  sha256 (xor_pad 0x5c key ++ sha256 (xor_pad 0x36 key ++ message)).

(** ** Text to bytes *)
Definition to_bytes (l : list N) : bytes := map byte_of l.

(** [value.encode("utf-8")] and [value.encode("ascii")] *)
Definition encode_utf8 (s : pystr) : outcome bytes :=
  match utf8 s with Ok l => Ok (to_bytes l) | Raise e => Raise e end.

Definition encode_ascii (s : pystr) : outcome bytes :=
  if forallb (λ c, c <? 128) s then Ok (to_bytes s) else Raise UnicodeEncodeError.

(** ** Test vectors (FIPS 180-4, RFC 4231) and lengths *)
Definition hex_digit_of (n : N) : N := if n <? 10 then 48 + n else 87 + n.
Definition hex_of (m : bytes) : pystr :=
  concat (map (λ b, [hex_digit_of (Byte.to_N b / 16); hex_digit_of (Byte.to_N b mod 16)]) m).

Example sha256_abc :
  hex_of (sha256 (to_bytes (u "abc"))) = u "ba7816bf8f01cfea414140de5dae2223b00361a396177a9cb410ff61f20015ad".
Proof. vm_compute. reflexivity. Qed.

Example sha256_two_blocks :
  hex_of (sha256 (to_bytes (u "abcdbcdecdefdefgefghfghighijhijkijkljklmklmnlmnomnopnopq"))) =
  u "248d6a61d20638b8e5c026930c3e6039a33ce45964ff2167f6ecedd419db06c1".
Proof. vm_compute. reflexivity. Qed.

Example sha256_empty :
  hex_of (sha256 []) = u "e3b0c44298fc1c149afbf4c8996fb92427ae41e4649b934ca495991b7852b855".
Proof. vm_compute. reflexivity. Qed.

Example hmac_rfc4231_2 :
  hex_of (hmac_sha256 (to_bytes (u "Jefe")) (to_bytes (u "what do ya want for nothing?"))) =
  u "5bdcc146bf60754e6a042426089575c75a003f089d2739839dec58b964ec3843".
Proof. vm_compute. reflexivity. Qed.

Lemma big_endian_length k n : length (big_endian k n) = k.
Proof. revert n. induction k as [|k IH]; intros n; simpl; [done|]. rewrite length_app, IH. simpl. lia. Qed.

Lemma sha256_length m : length (sha256 m) = 32%nat.
Proof. unfold sha256. cbn [map concat]. rewrite !length_app, !big_endian_length. reflexivity. Qed.

Lemma hmac_sha256_length key m : length (hmac_sha256 key m) = 32%nat.
Proof. apply sha256_length. Qed.

#[global] Opaque sha256 hmac_sha256.

(** ** [base64.urlsafe_b64encode(raw).decode("ascii").rstrip("=")] *)
Definition base64url_char (n : N) : N :=
  if n <? 26 then 65 + n else if n <? 52 then 71 + n else if n <? 62 then n - 4
  else if n =? 62 then 45 else 95.

Fixpoint encode_base64url (m : bytes) : pystr :=
  match m with
  | [] => []
  | [a] => let n := Byte.to_N a * 16 in [base64url_char (n / 64); base64url_char (n mod 64)]
  | [a; b] =>
      let n := (Byte.to_N a * 256 + Byte.to_N b) * 4 in
      [base64url_char (n / 4096); base64url_char (n / 64 mod 64); base64url_char (n mod 64)]
  | a :: b :: c :: m' =>
      let n := (Byte.to_N a * 256 + Byte.to_N b) * 256 + Byte.to_N c in
      base64url_char (n / 262144) :: base64url_char (n / 4096 mod 64) ::
      base64url_char (n / 64 mod 64) :: base64url_char (n mod 64) :: encode_base64url m'
  end.

Example base64url_1 : encode_base64url (to_bytes (u "any carnal pleas")) = u "YW55IGNhcm5hbCBwbGVhcw".
Proof. reflexivity. Qed.
Example base64url_2 : encode_base64url [xfb; xff; xfe] = u "-__-".
Proof. reflexivity. Qed.

Lemma base64url_char_ascii n : n < 64 → base64url_char n < 128.
Proof. intros Hn. unfold base64url_char.
  destruct (N.ltb_spec n 26), (N.ltb_spec n 52), (N.ltb_spec n 62), (N.eqb_spec n 62); lia.
Qed.

Lemma encode_base64url_ascii m : forallb (λ c, c <? 128) (encode_base64url m) = true.
Proof.
  assert (∀ b, Byte.to_N b < 256) as Hb by (intros b; pose proof (Byte.to_N_bounded b); lia).
  revert m. fix IH 1. intros [|a [|b [|c m]]]; cbn [encode_base64url]; cbv zeta; cbn [forallb]; [done|..].
  all: rewrite ?IH, !andb_true_iff, !N.ltb_lt; repeat split; try done; apply base64url_char_ascii.
  all: try (apply N.mod_lt; done).
  all: pose proof (Hb a); try pose proof (Hb b); try pose proof (Hb c).
  all: apply N.Div0.div_lt_upper_bound; lia.
Qed.
