(* ===== verification/RateLimits.v ===== *)
(** * RateLimits: [app/repositories/rate_limits.py], [app/auth.py] (RateLimiter)

    The persistent and the process-local rate limiter: fixed windows per
    HMAC-keyed bucket, and the repository statements behind the former. *)
From Stdlib.Strings Require Import Byte.
From S2P Require Import Prelude PyDict Json Models Sql Schema Hashing.
From stdpp Require Import list strings.

Abbreviation bucket := (string * bytes)%type.
Abbreviation request := (string * pystr * Z * timedelta)%type.
Abbreviation keyed_request := (string * bytes * Z * timedelta)%type.

(** A bucket's enforcement window and count. *)
Abbreviation window := (timestamp * Z)%type.

(** [fingerprint], of either limiter; the persistent one refuses an empty
    scope. *)
Definition fingerprint (secret : bytes) (scope : string) (value : pystr) : outcome bytes :=
  match encode_utf8 (u scope ++ u ":" ++ value) with
  | Ok message => Ok (hmac_sha256 secret message)
  | Raise e => Raise e
  end.

(** [not scope or limit <= 0 or window <= timedelta(0)] *)
Definition bad_request (scope : string) (limit : Z) (window : timedelta) : bool :=
  bool_decide (scope = "") || (limit <=? 0)%Z || (window <=? 0)%Z.

(** The loop of [allow_many] that validates and fingerprints. *)
Fixpoint encode_requests (secret : bytes) (requests : list request) : outcome (list keyed_request) :=
  match requests with
  | [] => Ok []
  | (scope, value, limit, window) :: requests' =>
      if bad_request scope limit window then Raise ValueError
      else match fingerprint secret scope value with
           | Raise e => Raise e
           | Ok key =>
               match encode_requests secret requests' with
               | Raise e => Raise e
               | Ok encoded => Ok ((scope, key, limit, window) :: encoded)
               end
           end
  end.

(** The prologue both [allow_many] share. *)
Definition encoded_requests (secret : bytes) (requests : list request) : outcome (list keyed_request) :=
  if bool_decide (requests = []) then Raise ValueError else encode_requests secret requests.

(** ** [RateLimiter]: buckets in a dict of the process *)
Module Mem.
Record RateLimiter := { rl_secret : bytes; rl_buckets : dict bucket window }.

Definition new (secret : bytes) : outcome RateLimiter :=
  if bool_decide (secret = []) then Raise ValueError
  else Ok {| rl_secret := secret; rl_buckets := [] |}.

Definition put (key : bucket) (w : window) (s : RateLimiter) : RateLimiter :=
  {| rl_secret := rl_secret s; rl_buckets := dict_set key w (rl_buckets s) |}.

(** The bucket as a request at [current] finds it, a lapsed window restarted. *)
Definition current_window (current : timestamp) (length_ : timedelta) (key : bucket) (s : RateLimiter) : window :=
  let '(expires_at, request_count) := default (current, 0%Z) (dict_get key (rl_buckets s)) in
  if (expires_at <=? current)%Z then ((current + length_)%Z, 0%Z) else (expires_at, request_count).

Definition consume (current : timestamp) (key : bucket) (limit : Z) (length_ : timedelta) : M RateLimiter bool :=
  λ s, let '(expires_at, request_count) := current_window current length_ key s in
       if (limit <=? request_count)%Z then (Ok false, put key (expires_at, request_count) s)
       else (Ok true, put key (expires_at, (request_count + 1)%Z) s).

Definition allow (now : timestamp) (scope : string) (value : pystr) (limit : Z) (length_ : timedelta) :
    M RateLimiter bool :=
  if bad_request scope limit length_ then raise ValueError
  else
    let! secret := gets rl_secret in
    let! key := lift (fingerprint secret scope value) in
    consume now (scope, key) limit length_.

Definition allow_fingerprint (now : timestamp) (scope : string) (key : bytes) (limit : Z) (length_ : timedelta) :
    M RateLimiter bool :=
  if bool_decide (length key ≠ 32%nat) then raise ValueError
  else if bad_request scope limit length_ then raise ValueError
  else consume now (scope, key) limit length_.

(** The first loop under the lock: the windows found, or [None] where the
    method returns [False]. *)
Fixpoint states (current : timestamp) (requests : list keyed_request) (s : RateLimiter) :
    option (list (bucket * window)) :=
  match requests with
  | [] => Some []
  | (scope, key, limit, length_) :: requests' =>
      let '(expires_at, request_count) := current_window current length_ (scope, key) s in
      if (limit <=? request_count)%Z then None
      else match states current requests' s with
           | None => None
           | Some rest => Some (((scope, key), (expires_at, request_count)) :: rest)
           end
  end.

Definition allow_many (now : timestamp) (requests : list request) : M RateLimiter bool :=
  let! secret := gets rl_secret in
  let! encoded := lift (encoded_requests secret requests) in
  let! found := gets (states now encoded) in
  match found with
  | None => ret false
  | Some found =>
      do! for_each (λ st, modify (put st.1 (st.2.1, (st.2.2 + 1)%Z))) found in
      ret true
  end.
End Mem.

(** ** [RateLimitBucketRepository]: one row per bucket *)
Module Pg.
Definition is_bucket (scope : string) (key : bytes) (r : RateLimitBucketRecord) : bool :=
  bool_decide (rlb_scope r = scope) && bool_decide (rlb_bucket_key r = key).

(** CHECK constraints, and the range of the [integer] column. *)
Definition storable (r : RateLimitBucketRecord) : bool :=
  rate_limit_check r && (rlb_request_count r <? 2 ^ 31)%Z.

Definition get (scope : string) (key : bytes) : M (list RateLimitBucketRecord) (option RateLimitBucketRecord) :=
  gets (λ t, first_row (select (is_bucket scope key) t)).

Definition get_active (now : timestamp) (scope : string) (key : bytes) :
    M (list RateLimitBucketRecord) (option RateLimitBucketRecord) :=
  gets (λ t, first_row (select (λ r, is_bucket scope key r && (now <? rlb_window_expires_at r)%Z) t)).

(** [INSERT ... VALUES ... ON CONFLICT (scope, bucket_key) DO UPDATE SET ...
    RETURNING ...]; the CHECK constraints of the proposed row come first. *)
Definition upsert_row (new : RateLimitBucketRecord) (set : RateLimitBucketRecord → RateLimitBucketRecord) :
    M (list RateLimitBucketRecord) (list RateLimitBucketRecord) :=
  λ t, if negb (storable new) then (Raise BackendUnavailableError, t)
       else match select (is_bucket (rlb_scope new) (rlb_bucket_key new)) t with
            | [] => insert_returning (λ _ _, true) [new] t
            | _ => update_returning storable (is_bucket (rlb_scope new) (rlb_bucket_key new)) set t
            end.

Definition increment (now : timestamp) (scope : string) (key : bytes) (window_expires_at : timestamp) :
    M (list RateLimitBucketRecord) RateLimitBucketRecord :=
  let! rows := upsert_row
    {| rlb_scope := scope; rlb_bucket_key := key; rlb_window_started_at := now;
       rlb_window_expires_at := window_expires_at; rlb_request_count := 1 |}
    (λ r, let lapsed := (rlb_window_expires_at r <=? now)%Z in
          {| rlb_scope := rlb_scope r; rlb_bucket_key := rlb_bucket_key r;
             rlb_window_started_at := if lapsed then now else rlb_window_started_at r;
             rlb_window_expires_at := if lapsed then window_expires_at else rlb_window_expires_at r;
             rlb_request_count := if lapsed then 1 else (rlb_request_count r + 1)%Z |}) in
  lift (required_row rows).

Definition record_request := increment.
Definition upsert := increment.

(** The validation of [consume_many]. *)
Definition bad_keyed_request (r : keyed_request) : bool :=
  let '(scope, key, limit, length_) := r in
  negb (bool_decide (1 ≤ String.length scope ≤ 64)) || bool_decide (length key ≠ 32%nat) ||
  (limit <=? 0)%Z || (length_ <=? 0)%Z.

(** The loop of [SELECT ... FOR UPDATE]: each bucket's window, if it has a
    row; [None] where the method returns [False]. *)
Fixpoint locked (current : timestamp) (requests : list keyed_request) (t : list RateLimitBucketRecord) :
    option (list (keyed_request * option window)) :=
  match requests with
  | [] => Some []
  | (scope, key, limit, length_) :: requests' =>
      let row := first_row (select (is_bucket scope key) t) in
      if match row with
         | None => false
         | Some r => (current <? rlb_window_expires_at r)%Z && (limit <=? rlb_request_count r)%Z
         end
      then None
      else match locked current requests' t with
           | None => None
           | Some rest =>
               Some (((scope, key, limit, length_),
                      option_map (λ r, (rlb_window_expires_at r, rlb_request_count r)) row) :: rest)
           end
  end.

(** One write of the second loop. *)
Definition write (current : timestamp) (st : keyed_request * option window) :
    M (list RateLimitBucketRecord) unit :=
  let '((scope, key, _, length_), found) := st in
  let restart :=
    do! upsert_row
      {| rlb_scope := scope; rlb_bucket_key := key; rlb_window_started_at := current;
         rlb_window_expires_at := current + length_; rlb_request_count := 1 |}
      (λ r, {| rlb_scope := rlb_scope r; rlb_bucket_key := rlb_bucket_key r; rlb_window_started_at := current;
               rlb_window_expires_at := current + length_; rlb_request_count := 1 |}) in
    ret tt in
  match found with
  | None => restart
  | Some (window_expires_at, request_count) =>
      if (window_expires_at <=? current)%Z then restart
      else
        do! update_returning storable (is_bucket scope key)
          (λ r, {| rlb_scope := rlb_scope r; rlb_bucket_key := rlb_bucket_key r;
                   rlb_window_started_at := rlb_window_started_at r;
                   rlb_window_expires_at := rlb_window_expires_at r;
                   rlb_request_count := request_count + 1 |}) in
        ret tt
  end.

Definition consume_many (current : timestamp) (requests : list keyed_request) : M Db bool :=
  if bool_decide (requests = []) then raise ValueError
  else if existsb bad_keyed_request requests then raise ValueError
  else transaction (on_rate_limit_buckets (
    let! found := gets (locked current requests) in
    match found with
    | None => ret false
    | Some found => do! for_each (write current) found in ret true
    end)).

Definition delete (scope : string) (key : bytes) : M (list RateLimitBucketRecord) bool :=
  let! rows := delete_returning (is_bucket scope key) in ret (negb (bool_decide (rows = []))).

(** [delete_expired]: the first [limit] candidates in the order
    [ORDER BY window_expires_at] gives, by physical row. *)
Fixpoint insert_asc (r : nat * RateLimitBucketRecord) (l : list (nat * RateLimitBucketRecord)) :=
  match l with
  | [] => [r]
  | r' :: l' => if (rlb_window_expires_at r.2 <=? rlb_window_expires_at r'.2)%Z then r :: l else r' :: insert_asc r l'
  end.

Definition candidates (now : timestamp) (t : list RateLimitBucketRecord) : list (nat * RateLimitBucketRecord) :=
  foldr insert_asc [] (List.filter (λ r, (rlb_window_expires_at r.2 <=? now)%Z) (imap pair t)).

Definition delete_expired (now : timestamp) (limit : Z) : M (list RateLimitBucketRecord) Z :=
  if (limit <=? 0)%Z then raise ValueError
  else λ t,
    let victims := map fst (firstn (Z.to_nat limit) (candidates now t)) in
    (Ok (Z.of_nat (length victims)),
     map snd (List.filter (λ r, negb (bool_decide (r.1 ∈ victims))) (imap pair t))).

(** ** [PersistentRateLimiter] *)
Definition limiter (secret : bytes) : outcome unit :=
  if bool_decide (secret = []) then Raise ValueError else Ok tt.

Definition allow_many (secret : bytes) (now : timestamp) (requests : list request) : M Db bool :=
  let! encoded := lift (encoded_requests secret requests) in
  consume_many now encoded.
End Pg.
