(* ===== verification/RateLimitTheorems.v ===== *)
(** * RateLimitTheorems: what both limiters promise

    The interface the OTP and TURN services use, discharged by the
    process-local and by the persistent limiter; the bound on grants it
    gives; and the one place where concurrent transactions lose a count. *)
From Stdlib.Strings Require Import Byte.
From S2P Require Import Prelude PyDict Json Models Sql Schema Hashing RateLimits.
From stdpp Require Import list strings sorting sets.

(** ** The contract *)

Definition request_key (r : keyed_request) : bucket := (r.1.1.1, r.1.1.2).
Definition request_limit (r : keyed_request) : Z := r.1.2.
Definition request_window (r : keyed_request) : timedelta := r.2.

Class RateLimiterPort (R : Type) := {
  port_allow_many : timestamp → list request → M R bool;
  port_secret : R → bytes;
  port_bucket : bucket → R → option window }.

(** A bucket with room at [now], and what consuming one request makes of
    it. *)
Definition has_room (now : timestamp) (w : option window) (limit : Z) : bool :=
  match w with
  | Some (expires_at, count) => (expires_at <=? now)%Z || (count <? limit)%Z
  | None => true
  end.

Definition bump (now : timestamp) (length_ : timedelta) (w : option window) : window :=
  match w with
  | Some (expires_at, count) =>
      if (expires_at <=? now)%Z then ((now + length_)%Z, 1%Z) else (expires_at, (count + 1)%Z)
  | None => ((now + length_)%Z, 1%Z)
  end.

Definition all_room (now : timestamp) (buckets : bucket → option window) (requests : list keyed_request) : bool :=
  forallb (λ r, has_room now (buckets (request_key r)) (request_limit r)) requests.

Definition bumped (now : timestamp) (buckets : bucket → option window) (requests : list keyed_request)
    (k : bucket) : option window :=
  match first_match (λ r, bool_decide (request_key r = k)) requests with
  | Some r => Some (bump now (request_window r) (buckets k))
  | None => buckets k
  end.

(** Requests both limiters take: distinct buckets, scopes the table holds and
    limits its counter reaches. *)
Definition admissible (requests : list keyed_request) : Prop :=
  NoDup (map request_key requests) ∧
  Forall (λ r, String.length r.1.1.1 ≤ 64 ∧ (request_limit r < 2 ^ 31)%Z) requests.

Class RateLimiterLaws (R : Type) `{RateLimiterPort R} := {
  limiter_ok : R → Prop;
  allow_many_invalid now requests e s :
    encoded_requests (port_secret s) requests = Raise e → port_allow_many now requests s = (Raise e, s);
  allow_many_spec now requests encoded s :
    limiter_ok s → encoded_requests (port_secret s) requests = Ok encoded → admissible encoded →
    ∃ s', port_allow_many now requests s = (Ok (all_room now (λ k, port_bucket k s) encoded), s') ∧
      limiter_ok s' ∧ port_secret s' = port_secret s ∧
      ∀ k, port_bucket k s' =
        if all_room now (λ k, port_bucket k s) encoded
        then bumped now (λ k, port_bucket k s) encoded k else port_bucket k s }.

(** What a successful encoding guarantees. *)
Definition well_formed (r : keyed_request) : Prop :=
  r.1.1.1 ≠ "" ∧ length r.1.1.2 = 32 ∧ (0 < request_limit r)%Z ∧ (0 < request_window r)%Z.

Lemma encoded_well_formed secret requests encoded :
  encode_requests secret requests = Ok encoded → Forall well_formed encoded.
Proof.
  revert encoded. induction requests as [|[[[scope value] limit] len] requests IH]; simpl; intros encoded He.
  { injection He as <-. constructor. }
  destruct (bad_request scope limit len) eqn:Hbad; [done|]. unfold bad_request in Hbad. to_prop.
  unfold fingerprint in He. destruct (encode_utf8 _) as [m|]; [|done].
  destruct (encode_requests secret requests) as [rest|]; [|done]. injection He as <-.
  constructor; [|by apply IH]. split_and!; simpl; [done|apply hmac_sha256_length|done..].
Qed.

Lemma encoded_requests_ok secret requests encoded :
  encoded_requests secret requests = Ok encoded → Forall well_formed encoded ∧ encoded ≠ [].
Proof.
  unfold encoded_requests. case_bool_decide as Hn; [done|]. intros He. split; [by eapply encoded_well_formed|].
  intros ->. destruct requests as [|[[[scope value] limit] len] requests]; [done|]. simpl in He.
  destruct (bad_request _ _ _); [done|]. destruct (fingerprint _ _ _); [|done].
  by destruct (encode_requests _ _).
Qed.

Lemma bumped_cons now buckets r rs k :
  bumped now buckets (r :: rs) k =
  if decide (request_key r = k) then Some (bump now (request_window r) (buckets k)) else bumped now buckets rs k.
Proof. unfold bumped. simpl. case_bool_decide; by case_decide. Qed.

Lemma bumped_notin now buckets rs k : k ∉ map request_key rs → bumped now buckets rs k = buckets k.
Proof.
  intros Hk. unfold bumped. destruct (first_match _ rs) as [r|] eqn:Hf; [|done].
  apply first_match_Some in Hf as [Hin Heq]. to_prop. exfalso. apply Hk.
  apply list_elem_of_fmap. eauto.
Qed.

(** Bumping bucket by bucket, [buckets] changing at the request's key only. *)
Lemma bumped_step now b b' r rs :
  NoDup (map request_key (r :: rs)) →
  (∀ k, b' k = if decide (k = request_key r) then Some (bump now (request_window r) (b k)) else b k) →
  ∀ k, bumped now b' rs k = bumped now b (r :: rs) k.
Proof.
  simpl. intros [Hnin Hnd]%NoDup_cons Hb k. rewrite bumped_cons. case_decide as Hk.
  - subst k. rewrite bumped_notin by done. rewrite Hb. by rewrite decide_True.
  - unfold bumped. rewrite Hb. by rewrite decide_False.
Qed.

(** ** The process-local limiter *)

Definition mem_bucket (k : bucket) (s : Mem.RateLimiter) : option window := dict_get k (Mem.rl_buckets s).

#[export] Instance mem_limiter : RateLimiterPort Mem.RateLimiter :=
  {| port_allow_many := Mem.allow_many; port_secret := Mem.rl_secret; port_bucket := mem_bucket |}.

Lemma current_window_room now len k limit s :
  (0 < limit)%Z →
  (limit <=? (Mem.current_window now len k s).2)%Z = negb (has_room now (mem_bucket k s) limit).
Proof.
  intros Hl. unfold Mem.current_window, mem_bucket, has_room.
  destruct (dict_get k (Mem.rl_buckets s)) as [[e n]|]; simpl.
  - destruct (Z.leb_spec e now); simpl; [by apply Z.leb_gt|]. by rewrite <- Z.leb_antisym.
  - rewrite Z.leb_refl. simpl. by apply Z.leb_gt.
Qed.

Lemma current_window_bump now len k s :
  ((Mem.current_window now len k s).1, ((Mem.current_window now len k s).2 + 1)%Z) = bump now len (mem_bucket k s).
Proof.
  unfold Mem.current_window, mem_bucket, bump.
  destruct (dict_get k (Mem.rl_buckets s)) as [[e n]|]; simpl.
  - by destruct (e <=? now)%Z.
  - by rewrite Z.leb_refl.
Qed.

Definition found_window now s (r : keyed_request) : bucket * window :=
  (request_key r, Mem.current_window now (request_window r) (request_key r) s).

Lemma mem_states now encoded s :
  Forall well_formed encoded →
  Mem.states now encoded s =
  if all_room now (λ k, mem_bucket k s) encoded then Some (map (found_window now s) encoded) else None.
Proof.
  induction 1 as [|[[[scope key] limit] len] rs (_&_&Hl&_) _ IH]; simpl; [done|].
  unfold request_limit in Hl. simpl in Hl.
  pose proof (current_window_room now len (scope, key) limit s Hl) as Hr.
  unfold request_key, request_limit. simpl.
  destruct (Mem.current_window now len (scope, key) s) as [e n] eqn:Hw. simpl in Hr. rewrite Hr.
  destruct (has_room now (mem_bucket (scope, key) s) limit); simpl; [|done].
  rewrite IH. destruct (all_room _ _ rs); [|done]. unfold found_window at 2, request_key, request_window. simpl.
  by rewrite Hw.
Qed.

Definition mem_write (st : bucket * window) : M Mem.RateLimiter unit :=
  modify (Mem.put st.1 (st.2.1, (st.2.2 + 1)%Z)).

Lemma mem_writes now s0 rs s :
  NoDup (map request_key rs) →
  (∀ r, r ∈ rs → mem_bucket (request_key r) s = mem_bucket (request_key r) s0) →
  ∃ s', for_each mem_write (map (found_window now s0) rs) s = (Ok tt, s') ∧ Mem.rl_secret s' = Mem.rl_secret s ∧
    ∀ k, mem_bucket k s' = bumped now (λ k, mem_bucket k s) rs k.
Proof.
  revert s. induction rs as [|r rs IH]; intros s Hnd Hs; simpl; [by exists s|].
  unfold bind, mem_write, modify at 1. simpl.
  set (s1 := Mem.put (request_key r) _ s).
  assert (∀ k, mem_bucket k s1 =
    if decide (k = request_key r) then Some (bump now (request_window r) (mem_bucket k s)) else mem_bucket k s) as Hs1.
  { intros k. unfold s1, mem_bucket, Mem.put. simpl. rewrite dict_get_set. case_decide as Hk; [|done].
    subst k. f_equal. rewrite (current_window_bump now (request_window r) (request_key r) s0).
    unfold mem_bucket in Hs. rewrite Hs by left. done. }
  pose proof Hnd as Hnd'. simpl in Hnd'. apply NoDup_cons in Hnd' as [Hnin Hnd'].
  destruct (IH s1 Hnd') as (s'&Hrun&Hsec&Hb).
  { intros r' Hr'. rewrite Hs1, decide_False; [apply Hs; by right|].
    intros Heq. apply Hnin. apply list_elem_of_fmap. eauto. }
  exists s'. split_and!; [exact Hrun|by rewrite Hsec|]. intros k. rewrite Hb.
  by apply (bumped_step now _ _ r rs).
Qed.

#[export] Instance mem_limiter_laws : RateLimiterLaws Mem.RateLimiter.
Proof.
  refine {| limiter_ok := λ _, True |}.
  - intros now requests e s He. simpl in *. unfold Mem.allow_many, bind, gets, lift. by rewrite He.
  - intros now requests encoded s _ He [Hnd _]. simpl in *.
    destruct (encoded_requests_ok _ _ _ He) as [Hwf _].
    unfold Mem.allow_many, bind, gets, lift. rewrite He, mem_states by done.
    destruct (all_room now (λ k, mem_bucket k s) encoded).
    + destruct (mem_writes now s encoded s Hnd) as (s'&Hrun&Hsec&Hb); [done|].
      exists s'. unfold mem_write in Hrun. rewrite Hrun. done.
    + by exists s.
Defined.

(** ** The persistent limiter *)

Record PersistentRateLimiter := { prl_secret : bytes; prl_db : Db }.

Definition row_key (r : RateLimitBucketRecord) : bucket := (rlb_scope r, rlb_bucket_key r).
Definition row_window (r : RateLimitBucketRecord) : window := (rlb_window_expires_at r, rlb_request_count r).
Definition row_of (k : bucket) (t : list RateLimitBucketRecord) : option RateLimitBucketRecord :=
  first_match (λ r, bool_decide (row_key r = k)) t.
Definition pg_bucket (k : bucket) (t : list RateLimitBucketRecord) : option window :=
  option_map row_window (row_of k t).

Definition table_ok (t : list RateLimitBucketRecord) : Prop :=
  NoDup (map row_key t) ∧ Forall (λ r, Pg.storable r = true) t.

Lemma is_bucket_key scope key r : Pg.is_bucket scope key r = bool_decide (row_key r = (scope, key)).
Proof. unfold Pg.is_bucket, row_key. repeat case_bool_decide; simpl; congruence. Qed.

Lemma row_of_select scope key t : first_row (select (Pg.is_bucket scope key) t) = row_of (scope, key) t.
Proof.
  unfold first_row, select, row_of. rewrite <- first_match_filter.
  induction t as [|r t IH]; simpl; [done|]. rewrite is_bucket_key. by case_bool_decide.
Qed.

Lemma row_of_update set scope key t k :
  (∀ r, r ∈ t → row_key r = (scope, key) → row_key (set r) = (scope, key)) →
  row_of k (update_set (Pg.is_bucket scope key) set t) =
  if decide (k = (scope, key)) then option_map set (row_of k t) else row_of k t.
Proof.
  unfold row_of, update_set. induction t as [|r t IH]; simpl; intros Hset; [by case_decide|].
  rewrite is_bucket_key. destruct (decide (row_key r = (scope, key))) as [Hr|Hr].
  - rewrite (bool_decide_true _ Hr), (Hset r) by (done || left). rewrite Hr. case_bool_decide as Hk.
    + by rewrite decide_True.
    + apply IH. intros. apply Hset; [by right|done].
  - rewrite (bool_decide_false _ Hr). case_bool_decide as Hk.
    + rewrite decide_False; [done|congruence].
    + apply IH. intros. apply Hset; [by right|done].
Qed.

Lemma row_update set scope key t :
  table_ok t →
  (∀ r, r ∈ t → row_key r = (scope, key) → Pg.storable (set r) = true ∧ row_key (set r) = (scope, key)) →
  ∃ rows, update_returning Pg.storable (Pg.is_bucket scope key) set t =
      (Ok rows, update_set (Pg.is_bucket scope key) set t) ∧
    table_ok (update_set (Pg.is_bucket scope key) set t).
Proof.
  intros [Hnd Hst] Hset. exists (map set (List.filter (Pg.is_bucket scope key) t)). split.
  - unfold update_returning. rewrite (proj2 (forallb_forall _ _)); [done|].
    intros r Hr. apply in_map_iff in Hr as (r0&<-&[Hin Hb]%filter_In). apply Hset; [by apply list_elem_of_In|].
    rewrite is_bucket_key in Hb. by apply bool_decide_eq_true in Hb.
  - unfold update_set. split.
    + rewrite map_map. erewrite map_ext_in; [exact Hnd|]. intros r Hr. simpl. rewrite is_bucket_key.
      case_bool_decide as Hk; [|done]. rewrite Hk. apply Hset; [by apply list_elem_of_In|done].
    + apply Forall_forall. intros r' Hr'. apply list_elem_of_fmap in Hr' as (r&->&Hin).
      rewrite is_bucket_key. case_bool_decide; [by apply Hset|].
      by apply (proj1 (Forall_forall _ _) Hst).
Qed.

Lemma row_upsert new set t :
  table_ok t → Pg.storable new = true →
  (∀ r, r ∈ t → row_key r = row_key new →
    Pg.storable (set r) = true ∧ row_key (set r) = row_key new ∧ row_window (set r) = row_window new) →
  ∃ rows t', Pg.upsert_row new set t = (Ok rows, t') ∧ table_ok t' ∧
    ∀ k, pg_bucket k t' = if decide (k = row_key new) then Some (row_window new) else pg_bucket k t.
Proof.
  intros Hok Hnew Hset. unfold Pg.upsert_row. rewrite Hnew. cbn [negb].
  assert (Hrow := row_of_select (rlb_scope new) (rlb_bucket_key new) t). fold (row_key new) in Hrow.
  destruct (select _ t) as [|r0 rs]; simpl in Hrow; symmetry in Hrow.
  - exists [new], (t ++ [new]). unfold insert_returning. split_and!; [done|split| ].
    + destruct Hok as [Hnd _]. rewrite map_app. apply NoDup_app. split_and!; [done| |apply NoDup_singleton].
      intros k Hk ->%list_elem_of_singleton. apply list_elem_of_fmap in Hk as (r&Hr&Hin).
      unfold row_of in Hrow. pose proof (proj1 (first_match_None _ _) Hrow r Hin) as Hf.
      apply bool_decide_eq_false in Hf. congruence.
    + apply Forall_app. split; [apply Hok|by constructor].
    + intros k. unfold pg_bucket, row_of. rewrite first_match_app. simpl. case_decide as Hk.
      * subst k. unfold row_of in Hrow. rewrite Hrow. by rewrite bool_decide_true.
      * rewrite bool_decide_false by congruence. by destruct (first_match _ t).
  - destruct (row_update set (rlb_scope new) (rlb_bucket_key new) t Hok) as (rows&Hup&Hok').
    { intros r Hin Hr. by destruct (Hset r Hin Hr) as (?&?&?). }
    exists rows, (update_set (Pg.is_bucket (rlb_scope new) (rlb_bucket_key new)) set t).
    split_and!; [exact Hup|exact Hok'|]. intros k. unfold pg_bucket. rewrite row_of_update.
    2: { intros r Hin Hr. by apply Hset. }
    fold (row_key new). case_decide as Hk; [|done]. subst k. rewrite Hrow. simpl. f_equal.
    unfold row_of in Hrow. apply first_match_Some in Hrow as [Hin Hk]. to_prop. by apply Hset.
Qed.

Definition read_row (t : list RateLimitBucketRecord) (r : keyed_request) : keyed_request * option window :=
  (r, pg_bucket (request_key r) t).

Lemma pg_locked now rs t :
  Pg.locked now rs t =
  if all_room now (λ k, pg_bucket k t) rs then Some (map (read_row t) rs) else None.
Proof.
  induction rs as [|[[[scope key] limit] len] rs IH]; simpl; [done|].
  rewrite row_of_select. unfold request_key, request_limit, pg_bucket at 1, has_room. simpl.
  destruct (row_of (scope, key) t) as [r|] eqn:Hr; simpl.
  - rewrite (Z.ltb_antisym (rlb_window_expires_at r) now), (Z.leb_antisym (rlb_request_count r) limit).
    destruct (rlb_window_expires_at r <=? now)%Z, (rlb_request_count r <? limit)%Z; cbn [negb andb orb]; [| | |done].
    all: rewrite IH; destruct (all_room _ _ rs); [|done]; unfold read_row at 2, pg_bucket, request_key; simpl; by rewrite Hr.
  - rewrite IH. destruct (all_room _ _ rs); [|done]. unfold read_row at 2, pg_bucket, request_key. simpl. by rewrite Hr.
Qed.

(** A row the limiter writes fits its table. *)
Lemma storable_row scope key started expires count :
  scope ≠ "" → String.length scope ≤ 64 → length key = 32 → (started < expires)%Z → (0 ≤ count < 2 ^ 31)%Z →
  Pg.storable (Build_RateLimitBucketRecord scope key started expires count) = true.
Proof.
  intros Hs Hl Hk Ht Hc. unfold Pg.storable, rate_limit_check. simpl.
  rewrite !andb_true_iff, !bool_decide_eq_true. repeat split; try lia.
  destruct scope; [done|simpl; lia].
Qed.

Lemma storable_with_count r count :
  Pg.storable r = true → (0 ≤ count < 2 ^ 31)%Z →
  Pg.storable (Build_RateLimitBucketRecord (rlb_scope r) (rlb_bucket_key r) (rlb_window_started_at r)
    (rlb_window_expires_at r) count) = true.
Proof.
  unfold Pg.storable, rate_limit_check. simpl. rewrite !andb_true_iff, !bool_decide_eq_true. intros; intuition lia.
Qed.

(** A write that starts a window afresh. *)
Lemma pg_restart now r t :
  table_ok t → well_formed r → String.length r.1.1.1 ≤ 64 →
  ∃ t', Pg.write now (r, None) t = (Ok tt, t') ∧ table_ok t' ∧
    ∀ k, pg_bucket k t' =
      if decide (k = request_key r) then Some ((now + request_window r)%Z, 1%Z) else pg_bucket k t.
Proof.
  destruct r as [[[scope key] limit] len]. intros Hok (Hs&Hk&_&Hw) Hlen.
  unfold request_key, request_window in *. simpl in *.
  set (new := Build_RateLimitBucketRecord scope key now (now + len) 1).
  set (set_ := λ r, Build_RateLimitBucketRecord (rlb_scope r) (rlb_bucket_key r) now (now + len) 1).
  assert (Pg.storable new = true) as Hnew by (apply storable_row; done || lia).
  destruct (row_upsert new set_ t Hok Hnew) as (rows&t'&Hup&Hok'&Hb).
  { intros r Hin Hr. unfold row_key in Hr. simpl in Hr. injection Hr as Hr1 Hr2. subst set_. simpl.
    rewrite Hr1, Hr2. split_and!; [exact Hnew|unfold row_key; simpl; congruence|done]. }
  exists t'. unfold bind. rewrite Hup. done.
Qed.

Lemma pg_write now r t :
  table_ok t → well_formed r → String.length r.1.1.1 ≤ 64 → (request_limit r < 2 ^ 31)%Z →
  has_room now (pg_bucket (request_key r) t) (request_limit r) = true →
  ∃ t', Pg.write now (read_row t r) t = (Ok tt, t') ∧ table_ok t' ∧
    ∀ k, pg_bucket k t' =
      if decide (k = request_key r) then Some (bump now (request_window r) (pg_bucket k t)) else pg_bucket k t.
Proof.
  destruct r as [[[scope key] limit] len]. intros Hok (Hs&Hk&Hl&Hw) Hlen Hmax Hroom.
  unfold request_key, request_limit, request_window in *. simpl in *. unfold read_row, Pg.write, request_key. simpl.
  destruct (pg_restart now (scope, key, limit, len) t Hok) as (t'&Hrun&Hok'&Hb); [by split_and!|done|].
  unfold Pg.write, request_key, request_window in Hrun, Hb. simpl in Hrun, Hb.
  destruct (pg_bucket (scope, key) t) as [[e n]|] eqn:Hg.
  - destruct (e <=? now)%Z eqn:He.
    + exists t'. split_and!; [exact Hrun|done|]. intros k. rewrite Hb. case_decide; [|done]. subst k.
      rewrite Hg. unfold bump. by rewrite He.
    + simpl in Hroom. rewrite He in Hroom. simpl in Hroom. to_prop.
      unfold pg_bucket in Hg. destruct (row_of (scope, key) t) as [r|] eqn:Hrow; [|done].
      injection Hg as He' Hn. assert (table_ok t) as [Hnd Hst] by done.
      assert (r ∈ t ∧ row_key r = (scope, key)) as [Hin Hrk].
      { unfold row_of in Hrow. apply first_match_Some in Hrow as [? ?]. to_prop. done. }
      assert (0 ≤ n)%Z.
      { pose proof (proj1 (Forall_forall _ _) Hst r Hin) as Hr. unfold Pg.storable, rate_limit_check in Hr.
        simpl in Hr. to_prop. lia. }
      destruct (row_update (λ r, Build_RateLimitBucketRecord (rlb_scope r) (rlb_bucket_key r)
        (rlb_window_started_at r) (rlb_window_expires_at r) (n + 1)) scope key t Hok) as (rows&Hup&Hok2).
      { intros r' Hr' Hk'. split; [|exact Hk']. apply storable_with_count; [|lia].
        by apply (proj1 (Forall_forall _ _) Hst). }
      eexists. unfold bind. rewrite Hup. split_and!; [done|exact Hok2|]. intros k. unfold pg_bucket.
      rewrite row_of_update by done. case_decide as Hk'; [|done]. subst k. rewrite Hrow. simpl.
      unfold row_window, bump. rewrite He', Hn. destruct (Z.leb_spec e now); [lia|done].
  - exists t'. split_and!; [exact Hrun|done|]. intros k. rewrite Hb. case_decide; [|done]. subst k. by rewrite Hg.
Qed.

Lemma pg_writes now t0 rs t :
  table_ok t → Forall well_formed rs → admissible rs →
  (∀ r, r ∈ rs → pg_bucket (request_key r) t = pg_bucket (request_key r) t0 ∧
    has_room now (pg_bucket (request_key r) t0) (request_limit r) = true) →
  ∃ t', for_each (Pg.write now) (map (read_row t0) rs) t = (Ok tt, t') ∧ table_ok t' ∧
    ∀ k, pg_bucket k t' = bumped now (λ k, pg_bucket k t) rs k.
Proof.
  revert t. induction rs as [|r rs IH]; intros t Hok Hwf [Hnd Hfit] Hs; cbn [map for_each]; [by exists t|].
  apply Forall_cons in Hwf as [Hr Hwf]. apply Forall_cons in Hfit as [[Hlen Hmax] Hfit].
  destruct (Hs r ltac:(left)) as [Hsame Hroom]. rewrite <- Hsame in Hroom.
  destruct (pg_write now r t Hok Hr Hlen Hmax Hroom) as (t1&Hrun&Hok1&Hb1).
  pose proof Hnd as Hnd'. simpl in Hnd'. apply NoDup_cons in Hnd' as [Hnin Hnd'].
  destruct (IH t1 Hok1 Hwf) as (t'&Hrun'&Hok'&Hb').
  { by split. }
  { intros r' Hr'. destruct (Hs r' ltac:(by right)) as [<- Hroom']. split; [|done].
    rewrite Hb1, decide_False; [done|]. intros Heq. apply Hnin. apply list_elem_of_fmap. eauto. }
  exists t'. replace (read_row t0 r) with (read_row t r) by (unfold read_row; by rewrite Hsame).
  unfold bind. rewrite Hrun.
  split_and!; [exact Hrun'|done|]. intros k. rewrite Hb'. by apply (bumped_step now _ _ r rs).
Qed.

Definition on_prl_db {A} : M Db A → M PersistentRateLimiter A :=
  zoom prl_db (λ db s, {| prl_secret := prl_secret s; prl_db := db |}).

#[export] Instance pg_limiter : RateLimiterPort PersistentRateLimiter :=
  {| port_allow_many := λ now requests s, on_prl_db (Pg.allow_many (prl_secret s) now requests) s;
     port_secret := prl_secret;
     port_bucket := λ k s, pg_bucket k (rate_limit_buckets (prl_db s)) |}.

Lemma keyed_valid rs : Forall well_formed rs → admissible rs → existsb Pg.bad_keyed_request rs = false.
Proof.
  intros Hwf [_ Hfit]. induction Hwf as [|[[[scope key] limit] len] rs (Hs&Hk&Hl&Hw) _ IH]; [done|].
  apply Forall_cons in Hfit as [[Hlen _] Hfit]. simpl in *. rewrite IH by done.
  unfold request_limit, request_window in *. simpl in *.
  rewrite bool_decide_true by (destruct scope; [done|simpl in *; lia]).
  rewrite bool_decide_false by (intros H; by apply H).
  destruct (Z.leb_spec limit 0), (Z.leb_spec len 0); done || lia.
Qed.

#[export] Instance pg_limiter_laws : RateLimiterLaws PersistentRateLimiter.
Proof.
  refine {| limiter_ok := λ s, table_ok (rate_limit_buckets (prl_db s)) |}.
  - intros now requests e s He. simpl in *. unfold on_prl_db, zoom, Pg.allow_many, bind, lift. rewrite He.
    by destruct s.
  - intros now requests encoded [secret db] Hok He Hadm. simpl in *.
    destruct (encoded_requests_ok _ _ _ He) as [Hwf Hne].
    unfold on_prl_db, zoom, Pg.allow_many, bind at 1, lift. rewrite He. unfold Pg.consume_many.
    rewrite bool_decide_false by done. rewrite keyed_valid by done. unfold transaction, on_rate_limit_buckets, zoom.
    simpl. unfold bind at 1, gets. rewrite pg_locked.
    destruct (all_room now (λ k, pg_bucket k (rate_limit_buckets db)) encoded) eqn:Hroom.
    + destruct (pg_writes now (rate_limit_buckets db) encoded (rate_limit_buckets db) Hok Hwf Hadm)
        as (t'&Hrun&Hok'&Hb).
      { intros r Hr. split; [done|]. unfold all_room in Hroom. rewrite forallb_forall in Hroom.
        apply Hroom. by apply list_elem_of_In. }
      unfold bind. rewrite Hrun. eexists. split_and!; [done|exact Hok'|done|exact Hb].
    + eexists. split_and!; [done|exact Hok|done|done].
Defined.

(** ** One contract, two limiters *)

Definition same_buckets {R R'} `{RateLimiterPort R, RateLimiterPort R'} (s : R) (s' : R') : Prop :=
  port_secret s = port_secret s' ∧ ∀ k, port_bucket k s = port_bucket k s'.

Lemma all_room_ext now b b' rs : (∀ k, b k = b' k) → all_room now b rs = all_room now b' rs.
Proof. intros Hb. unfold all_room. induction rs as [|r rs IH]; simpl; [done|]. by rewrite IH, Hb. Qed.

Lemma bumped_ext now b b' rs k : (∀ k, b k = b' k) → bumped now b rs k = bumped now b' rs k.
Proof. intros Hb. unfold bumped. destruct (first_match _ rs); by rewrite Hb. Qed.

(** C31: the limiters agree on what the table can hold.  Let the process-local
    and the persistent limiter hold the same buckets under the same secret, and
    let the requests, where they encode at all, be [admissible]: no bucket
    twice, scopes of at most 64 characters, limits below 2^31.  Then both give
    the same answer, or raise the same error at requests that do not encode,
    and hold the same buckets afterwards.  (Outside, the columns refuse what
    the process would count.) *)
Theorem limiters_agree now requests (m : Mem.RateLimiter) (p : PersistentRateLimiter) :
  same_buckets m p → table_ok (rate_limit_buckets (prl_db p)) →
  (∀ encoded, encoded_requests (Mem.rl_secret m) requests = Ok encoded → admissible encoded) →
  (Mem.allow_many now requests m).1 = (Pg.allow_many (prl_secret p) now requests (prl_db p)).1 ∧
  same_buckets (Mem.allow_many now requests m).2 (port_allow_many now requests p).2.
Proof.
  intros [Hsec Hb] Hok Hadm. simpl in Hsec.
  assert ((Pg.allow_many (prl_secret p) now requests (prl_db p)).1 = (port_allow_many now requests p).1) as ->.
  { simpl. unfold on_prl_db. by rewrite zoom_fst. }
  assert (limiter_ok m) as Hm0 by exact I. assert (limiter_ok p) as Hp0 by exact Hok.
  destruct (encoded_requests (Mem.rl_secret m) requests) as [encoded|e] eqn:He.
  - specialize (Hadm encoded eq_refl).
    destruct (allow_many_spec now requests encoded m Hm0 He Hadm) as (m'&Hm&_&Hs1&Hb1).
    assert (encoded_requests (port_secret p) requests = Ok encoded) as He' by (simpl; by rewrite <- Hsec).
    destruct (allow_many_spec now requests encoded p Hp0 He' Hadm) as (p'&Hp&_&Hs2&Hb2).
    rewrite (all_room_ext now _ (λ k, port_bucket k p)) in Hm by exact Hb.
    change (Mem.allow_many now requests m) with (port_allow_many now requests m). rewrite Hm, Hp.
    split; [done|]. split; [simpl in *; congruence|]. intros k. cbn [snd]. rewrite Hb1, Hb2.
    rewrite (all_room_ext now _ (λ k, port_bucket k p)) by exact Hb.
    case_match; [|apply Hb]. apply bumped_ext, Hb.
  - assert (encoded_requests (port_secret p) requests = Raise e) as He' by (simpl; by rewrite <- Hsec).
    pose proof (allow_many_invalid now requests e m He) as Hm. simpl in Hm. rewrite Hm.
    rewrite (allow_many_invalid now requests e p He'). done.
Qed.

(** ** How many requests a bucket can grant *)
Section rate.
Context {R : Type} `{RateLimiterLaws R} (k : bucket) (limit : Z) (length_ : timedelta).

Definition names (secret : bytes) (requests : list request) : bool :=
  match encoded_requests secret requests with
  | Ok encoded => bool_decide (k ∈ map request_key encoded)
  | Raise _ => false
  end.

(** The granted calls on the bucket with [from <= now < until], in a run. *)
Fixpoint granted (from until : timestamp) (calls : list (timestamp * list request)) (s : R) : Z :=
  match calls with
  | [] => 0
  | (now, requests) :: calls' =>
      let '(o, s') := port_allow_many now requests s in
      ((match o with
        | Ok true => if names (port_secret s) requests && (from <=? now)%Z && (now <? until)%Z then 1 else 0
        | _ => 0
        end) + granted from until calls' s')%Z
  end.

(** Every call uses the bucket with the one limit and window. *)
Definition uniform (secret : bytes) (requests : list request) : Prop :=
  ∀ encoded, encoded_requests secret requests = Ok encoded →
    admissible encoded ∧
    ∀ r, r ∈ encoded → request_key r = k → request_limit r = limit ∧ request_window r = length_.

Definition counted (s : R) : Prop := ∀ w, port_bucket k s = Some w → (0 ≤ w.2)%Z.

(** What a call does to the bucket. *)
Lemma call_effect now requests s :
  limiter_ok s → uniform (port_secret s) requests →
  ∃ o s', port_allow_many now requests s = (o, s') ∧ limiter_ok s' ∧ port_secret s' = port_secret s ∧
    (if match o with Ok true => names (port_secret s) requests | _ => false end
     then has_room now (port_bucket k s) limit = true ∧ (0 < limit)%Z ∧
          port_bucket k s' = Some (bump now length_ (port_bucket k s))
     else port_bucket k s' = port_bucket k s).
Proof.
  intros Hok Hu. unfold names, uniform in *. destruct (encoded_requests (port_secret s) requests) as [encoded|e] eqn:He.
  - destruct (Hu encoded eq_refl) as [Hadm Hk].
    destruct (allow_many_spec now requests encoded s Hok He Hadm) as (s'&Hrun&Hok'&Hsec&Hb).
    eexists _, s'. split_and!; [exact Hrun|done|done|]. specialize (Hb k).
    destruct (all_room _ _ encoded) eqn:Hroom; [|done]. case_bool_decide as Hin.
    + apply list_elem_of_fmap in Hin as (r&Hr&Hin). destruct (Hk r Hin (eq_sym Hr)) as [Hlim Hwin].
      unfold all_room in Hroom. rewrite forallb_forall in Hroom.
      pose proof (Hroom r (proj1 (list_elem_of_In _ _) Hin)) as Hrr. rewrite Hlim, <- Hr in Hrr.
      split; [done|]. split.
      { destruct (encoded_requests_ok _ _ _ He) as [Hwf _].
        rewrite <- Hlim. by apply (proj1 (Forall_forall _ _) Hwf r Hin). }
      rewrite Hb. unfold bumped. destruct (first_match _ encoded) as [r'|] eqn:Hf.
      * apply first_match_Some in Hf as [Hin' Heq]. to_prop. by destruct (Hk r' Hin' Heq) as [_ ->].
      * pose proof (proj1 (first_match_None _ _) Hf r Hin) as Hn. apply bool_decide_eq_false in Hn. done.
    + rewrite Hb. by apply bumped_notin.
  - eexists _, s. split_and!; [by apply allow_many_invalid|done..].
Qed.

(** What the bucket can still grant before [until], calls from [until -
    length_] on. *)
Definition potential (until : timestamp) (w : option window) : Z :=
  match w with
  | None => limit
  | Some (expires_at, count) =>
      (Z.max 0 (limit - count) + (if (expires_at <? until)%Z then limit else 0))%Z
  end.

Lemma potential_bump from now w :
  (from ≤ now < from + length_)%Z → (0 < limit)%Z → has_room now w limit = true →
  (potential (from + length_) (Some (bump now length_ w)) + 1 ≤ potential (from + length_) w)%Z.
Proof.
  intros Hn Hl Hr. unfold potential, bump. destruct w as [[e n]|]; simpl in Hr.
  - destruct (Z.leb_spec e now); simpl in Hr.
    + destruct (Z.ltb_spec (now + length_) (from + length_)), (Z.ltb_spec e (from + length_)); lia.
    + to_prop. destruct (Z.ltb_spec e (from + length_)); lia.
  - destruct (Z.ltb_spec (now + length_) (from + length_)); lia.
Qed.

Lemma granted_late from until calls s :
  limiter_ok s → Forall (λ call, uniform (port_secret s) call.2 ∧ until ≤ call.1)%Z calls →
  granted from until calls s = 0%Z.
Proof.
  intros Hok Hcalls. revert s Hok Hcalls. induction calls as [|[now requests] calls IH]; intros s Hok Hcalls; [done|].
  apply Forall_cons in Hcalls as [[Hu Hnow] Hcalls]. simpl in *.
  destruct (call_effect now requests s Hok Hu) as (o&s'&Hrun&Hok'&Hsec&_). rewrite Hrun.
  rewrite IH by (done || by rewrite Hsec).
  assert ((now <? until)%Z = false) as -> by by apply Z.ltb_ge. rewrite andb_false_r. by destruct o as [[]|].
Qed.

Lemma sorted_from (calls : list (timestamp * list request)) (P : list request → Prop) now from :
  Forall (Z.le now) (map fst calls) → Forall (λ call, P call.2) calls → (from ≤ now)%Z →
  Forall (λ call, P call.2 ∧ from ≤ call.1)%Z calls.
Proof.
  intros Hlater HP Hn. apply Forall_forall. intros call Hcall.
  split; [by apply (proj1 (Forall_forall _ _) HP)|].
  pose proof (proj1 (Forall_forall _ _) Hlater (fst call) (list_elem_of_fmap_2 _ _ _ Hcall)). lia.
Qed.

Lemma granted_within from calls s :
  (0 < limit)%Z → limiter_ok s → StronglySorted Z.le (map fst calls) →
  Forall (λ call, uniform (port_secret s) call.2 ∧ from ≤ call.1)%Z calls →
  (granted from (from + length_) calls s ≤ potential (from + length_) (port_bucket k s))%Z.
Proof.
  intros Hl. revert s. induction calls as [|[now requests] calls IH]; intros s Hok Hsorted Hcalls.
  { simpl. unfold potential. destruct (port_bucket k s) as [[e n]|]; [case_match|]; lia. }
  pose proof Hcalls as Hall. apply Forall_cons in Hcalls as [[Hu Hnow] Hcalls]. cbn [fst snd] in Hu, Hnow.
  cbn [map fst] in Hsorted. apply StronglySorted_inv in Hsorted as [Hsorted Hlater].
  destruct (Z.lt_ge_cases now (from + length_)) as [Hlt|Hge].
  - destruct (call_effect now requests s Hok Hu) as (o&s'&Hrun&Hok'&Hsec&Hb). cbn [granted]. rewrite Hrun.
    specialize (IH s' Hok' Hsorted ltac:(by rewrite Hsec)).
    rewrite (proj2 (Z.leb_le _ _) Hnow), (proj2 (Z.ltb_lt _ _) Hlt), !andb_true_r.
    destruct o as [[|]|e]; [destruct (names (port_secret s) requests)| |].
    2-4: by rewrite Hb in IH.
    destruct Hb as (Hroom&_&Hb'). rewrite Hb' in IH.
    pose proof (potential_bump from now (port_bucket k s) (conj Hnow Hlt) Hl Hroom). lia.
  - rewrite granted_late; [|done|].
    + unfold potential. destruct (port_bucket k s) as [[e n]|]; [case_match|]; lia.
    + apply Forall_cons. split; [done|]. eapply sorted_from; [exact Hlater| |done].
      eapply Forall_impl; [exact Hcalls|]. intros call Hc. apply Hc.
Qed.

Lemma bump_counted now w : (∀ w', w = Some w' → 0 ≤ w'.2)%Z → (0 ≤ (bump now length_ w).2)%Z.
Proof.
  intros Hw. unfold bump. destruct w as [[e n]|]; simpl; [|lia]. specialize (Hw _ eq_refl). simpl in Hw.
  case_match; simpl; lia.
Qed.

(** C20: the rate limit.  However the calls are spread, no time span of one
    window's length sees more than twice the limit granted on a bucket (the
    fixed windows it meets are at most two), the clock not going back and the
    bucket being used with one limit and window. *)
Theorem rate_bounded from calls s :
  (0 < limit)%Z → limiter_ok s → counted s → StronglySorted Z.le (map fst calls) →
  Forall (λ call, uniform (port_secret s) call.2) calls →
  (granted from (from + length_) calls s ≤ 2 * limit)%Z.
Proof.
  intros Hl. revert s. induction calls as [|[now requests] calls IH]; intros s Hok Hcnt Hsorted Hcalls; [simpl; lia|].
  destruct (Z.lt_ge_cases now from) as [Hlt|Hge].
  - apply Forall_cons in Hcalls as [Hu Hcalls]. cbn [map fst] in Hsorted. apply StronglySorted_inv in Hsorted as [Hsorted _].
    destruct (call_effect now requests s Hok Hu) as (o&s'&Hrun&Hok'&Hsec&Hb). cbn [granted]. rewrite Hrun.
    rewrite (proj2 (Z.leb_gt _ _) Hlt), andb_false_r. cbn [andb].
    assert (granted from (from + length_) calls s' ≤ 2 * limit)%Z as Hle; [|by destruct o as [[|]|]; lia].
    apply IH; [done| |done|by rewrite Hsec]. intros w Hw.
    destruct (match o with Ok true => names (port_secret s) requests | _ => false end).
    + destruct Hb as (_&_&Hb). rewrite Hb in Hw. injection Hw as <-. by apply bump_counted.
    + rewrite Hb in Hw. by apply Hcnt.
  - etrans; [apply granted_within; try done|].
    + apply Forall_cons in Hcalls as [Hu Hcalls]. apply Forall_cons. split; [done|].
      cbn [map fst] in Hsorted. apply StronglySorted_inv in Hsorted as [_ Hlater]. by eapply sorted_from.
    + unfold potential. destruct (port_bucket k s) as [[e n]|] eqn:Hw; [|lia].
      specialize (Hcnt _ Hw). simpl in Hcnt. case_match; lia.
Qed.
End rate.

(** The first requests of a bucket race.  [SELECT ... FOR UPDATE] locks
    no row when there is none, so two transactions that both read before
    either writes are both granted, and the bucket counts one request. *)
Theorem first_requests_race now1 now2 r t :
  table_ok t → well_formed r → String.length r.1.1.1 ≤ 64 → pg_bucket (request_key r) t = None →
  ∃ found1 found2 t1 t2,
    Pg.locked now1 [r] t = Some found1 ∧ Pg.locked now2 [r] t = Some found2 ∧
    for_each (Pg.write now1) found1 t = (Ok tt, t1) ∧ for_each (Pg.write now2) found2 t1 = (Ok tt, t2) ∧
    pg_bucket (request_key r) t2 = Some ((now2 + request_window r)%Z, 1%Z).
Proof.
  intros Hok Hwf Hlen Hnone.
  destruct (pg_restart now1 r t Hok Hwf Hlen) as (t1&Hrun1&Hok1&_).
  destruct (pg_restart now2 r t1 Hok1 Hwf Hlen) as (t2&Hrun2&_&Hb2).
  exists [(r, None)], [(r, None)], t1, t2. rewrite !pg_locked. unfold all_room, read_row. cbn [forallb map].
  rewrite Hnone. cbn [has_room andb for_each]. unfold bind. rewrite Hrun1, Hrun2.
  split_and!; [done..|]. rewrite Hb2. by rewrite decide_True.
Qed.

(** ** Witnesses *)

Definition limiter0 : Mem.RateLimiter := {| Mem.rl_secret := [x01]; Mem.rl_buckets := [] |}.
Definition empty_db : Db := Build_Db [] [] [] [] [] [] [] [] [].
Definition persistent0 : PersistentRateLimiter := {| prl_secret := [x01]; prl_db := empty_db |}.
Definition otp_requests : list request :=
  [("otp:start:email", u "a@b.c", 3, minutes 10); ("otp:start:network", u "10.0.0.1", 10, minutes 10)]%Z.
Definition otp_bucket : bucket := Eval vm_compute in
  ("otp:start:email", match fingerprint [x01] "otp:start:email" (u "a@b.c") with Ok h => h | Raise _ => [] end).

Definition otp_keyed : list keyed_request := Eval vm_compute in
  match encoded_requests [x01] otp_requests with Ok l => l | Raise _ => [] end.

Lemma otp_encoded : encoded_requests [x01] otp_requests = Ok otp_keyed.
Proof. vm_compute. reflexivity. Qed.

Lemma otp_admissible : admissible otp_keyed.
Proof.
  split.
  - cbv [otp_keyed map request_key fst snd]. repeat constructor; set_solver.
  - unfold otp_keyed, request_limit. repeat (apply Forall_cons; split; [split; simpl; lia|]). apply Forall_nil_2.
Qed.

Lemma limiters_agree_witness :
  (Mem.allow_many 0 otp_requests limiter0).1 = (Pg.allow_many [x01] 0 otp_requests empty_db).1.
Proof.
  apply (limiters_agree 0 otp_requests limiter0 persistent0).
  - by split.
  - split; [apply NoDup_nil_2|constructor].
  - intros encoded He. pose proof otp_encoded. assert (encoded = otp_keyed) as -> by (simpl in He; congruence).
    exact otp_admissible.
Defined.

Lemma otp_uniform : uniform otp_bucket 3 (minutes 10) [x01] otp_requests.
Proof.
  intros encoded He. rewrite otp_encoded in He. injection He as <-.
  split; [exact otp_admissible|]. intros r Hr Hk.
  apply elem_of_cons in Hr as [->|Hr]; [by vm_compute|].
  apply list_elem_of_singleton in Hr. subst r. exfalso. unfold otp_bucket, request_key in Hk. simpl in Hk.
  injection Hk as Hk _. discriminate Hk.
Qed.

Lemma rate_bounded_witness :
  granted otp_bucket 0 (0 + minutes 10) (repeat (1%Z, otp_requests) 5) limiter0 = 3%Z ∧
  (granted otp_bucket 0 (0 + minutes 10) (repeat (1%Z, otp_requests) 5) limiter0 ≤ 6)%Z.
Proof.
  split; [vm_compute; reflexivity|].
  apply (rate_bounded otp_bucket 3 (minutes 10) 0 (repeat (1%Z, otp_requests) 5) limiter0).
  - reflexivity.
  - exact I.
  - intros w Hw. vm_compute in Hw. discriminate Hw.
  - simpl. repeat constructor; lia.
  - repeat (apply Forall_cons; split; [exact otp_uniform|]). apply Forall_nil_2.
Defined.

Lemma first_requests_race_witness :
  ∃ t2, pg_bucket otp_bucket t2 = Some ((7 + minutes 10)%Z, 1%Z).
Proof.
  destruct (first_requests_race 5 7 (otp_bucket, 3%Z, minutes 10) []) as (_&_&_&t2&_&_&_&_&H).
  - split; [apply NoDup_nil_2|constructor].
  - split_and!; vm_compute; done.
  - vm_compute. lia.
  - reflexivity.
  - exists t2. exact H.
Defined.
