(* ===== verification/Security.v ===== *)
(** * Security: [app/security.py]

    The request-body limit, the exact-origin checks and the credentialed CORS
    middleware, as functions of the request's headers and body messages. *)
From Stdlib.Strings Require Import Byte.
From S2P Require Import Prelude Json Models.
From stdpp Require Import list strings sets.

Definition MAX_HTTP_REQUEST_BYTES : Z := 64 * 1024.

(** Header names in lower case, in order; [headers.get] is the first match.
    Values are decoded bytes, so code points below 256. *)
Abbreviation headers := (list (string * pystr)).

Fixpoint header (name : string) (hs : headers) : option pystr :=
  match hs with
  | [] => None
  | (k, v) :: hs' => if decide (k = name) then Some v else header name hs'
  end.

(** ** Python's [int] on a header *)
Definition is_space (c : N) : bool :=
  ((9 <=? c) && (c <=? 13) || (28 <=? c) && (c <=? 32) || (c =? 133) || (c =? 160))%N.

Fixpoint drop_spaces (s : pystr) : pystr :=
  match s with
  | c :: s' => if is_space c then drop_spaces s' else s
  | [] => []
  end.

Definition strip (s : pystr) : pystr := rev (drop_spaces (rev (drop_spaces s))).

Definition digit_value (c : N) : option Z :=
  if ((48 <=? c) && (c <=? 57))%N then Some (Z.of_N c - 48)%Z else None.

(** Digits, single underscores allowed between two of them. *)
Fixpoint int_digits (acc : Z) (after_digit : bool) (s : pystr) : option Z :=
  match s with
  | [] => if after_digit then Some acc else None
  | c :: s' =>
      match digit_value c with
      | Some d => int_digits (10 * acc + d) true s'
      | None => if (c =? 95)%N && after_digit then int_digits acc false s' else None
      end
  end.

(** The interpreter refuses to read more than 4300 digits. *)
Definition python_int (s : pystr) : option Z :=
  let s := strip s in
  let body := match s with 43 :: b => b | 45 :: b => b | _ => s end%N in
  if (4300 <? length (List.filter (λ c, negb (is_null (digit_value c))) body))%nat then None
  else match int_digits 0 false body with
       | Some n => Some (match s with 45%N :: _ => - n | _ => n end)%Z
       | None => None
       end.

(** ** The body limit *)
Definition maxsize : Z := 2 ^ 63 - 1.

Definition _declared_body_length (hs : headers) : option Z :=
  match header "content-length" hs with
  | None => None
  | Some content_length =>
      match python_int content_length with
      | None => Some maxsize
      | Some declared => Some (if (0 <=? declared)%Z then declared else maxsize)
      end
  end.

(** ASGI messages: a body chunk with its [more_body] flag, or another type. *)
Inductive message :=
| HttpRequest (body : bytes) (more_body : bool)
| HttpDisconnect.

(** [_buffer_body]: [None] when the chunks overflow the limit; the receive
    channel always has a next message, here until the script ends. *)
Fixpoint _buffer_body (max_body_bytes : Z) (consumed : Z) (chunks : bytes) (ms : list message) :
    option bytes :=
  match ms with
  | [] => Some chunks
  | HttpDisconnect :: _ => Some chunks
  | HttpRequest chunk more_body :: ms' =>
      let consumed := (consumed + Z.of_nat (length chunk))%Z in
      if negb (bool_decide (chunk = [])) && (max_body_bytes <? consumed)%Z then None
      else
        let chunks := chunks ++ chunk in
        if more_body then _buffer_body max_body_bytes consumed chunks ms' else Some chunks
  end.

(** [_replay]: the channel of a buffered body, [sent] its variable. *)
Definition _replay (body : bytes) : M bool message :=
  λ sent, (Ok (if sent then HttpDisconnect else HttpRequest body false), true).

(** What [n] receives from a channel yield. *)
Fixpoint received {S} (n : nat) (channel : M S message) (s : S) : list message :=
  match n with
  | O => []
  | S n => match channel s with
           | (Ok m, s') => m :: received n channel s'
           | (Raise _, _) => []
           end
  end.

(** What the middleware does with a request: pass it on as it is, pass on a
    buffered body, or answer 413. *)
Inductive limited :=
| PassThrough
| Replay (body : bytes)
| TooLarge.

Definition limit_body (scope_type : string) (max_body_bytes : Z) (hs : headers) (ms : list message) : limited :=
  if bool_decide (scope_type ≠ "http") then PassThrough
  else
    match _declared_body_length hs with
    | Some declared_length => if (max_body_bytes <? declared_length)%Z then TooLarge else PassThrough
    | None =>
        match header "transfer-encoding" hs with
        | None => PassThrough
        | Some _ =>
            match _buffer_body max_body_bytes 0 [] ms with
            | None => TooLarge
            | Some body => Replay body
            end
        end
    end.

(** [RequestBodyLimitMiddleware.__init__] *)
Definition body_limit_middleware (max_body_bytes : Z) : outcome Z :=
  if (max_body_bytes <=? 0)%Z then Raise ValueError else Ok max_body_bytes.

(** ** Origins *)
Definition request_origin_is_allowed (app_origin : pystr) (hs : headers) (require : bool) : outcome bool :=
  let allowed := bool_decide (header "origin" hs = Some app_origin) in
  if require && negb allowed then Raise (HTTPException 403) else Ok allowed.

Definition require_exact_origin (app_origin : pystr) (hs : headers) : outcome unit :=
  match request_origin_is_allowed app_origin hs true with
  | Ok _ => Ok tt
  | Raise e => Raise e
  end.

Definition check_optional_origin (app_origin : pystr) (hs : headers) : outcome unit :=
  match header "origin" hs with
  | Some _ => require_exact_origin app_origin hs
  | None => Ok tt
  end.

(** ** CORS *)
Definition upper (c : N) : N := if ((97 <=? c) && (c <=? 122))%N then (c - 32)%N else c.

Record response := { status_code : Z; response_headers : list (string * pystr) }.

Definition _add_cors_headers (app_origin : pystr) (r : response) : response :=
  {| status_code := status_code r;
     response_headers := response_headers r ++
       [("access-control-allow-origin", app_origin);
        ("access-control-allow-credentials", u "true");
        ("access-control-allow-methods", u "GET, POST, OPTIONS");
        ("access-control-allow-headers", u "Content-Type, X-CSRF-Token");
        ("vary", u "Origin")] |}.

(** [ConfiguredCORSMiddleware.dispatch]; [next] is the answer of the
    application, asked only when the request goes on. *)
Definition dispatch (app_origin : option pystr) (method : pystr) (hs : headers) (next : response) : response :=
  match app_origin with
  | None => next
  | Some app_origin =>
      let allowed := bool_decide (header "origin" hs = Some app_origin) in
      match (if decide (method = u "OPTIONS") then header "access-control-request-method" hs else None) with
      | Some requested_method =>
          if negb allowed || bool_decide (map upper requested_method ∉ [u "GET"; u "POST"])
          then {| status_code := 400; response_headers := [] |}
          else _add_cors_headers app_origin {| status_code := 204; response_headers := [] |}
      | None => if allowed then _add_cors_headers app_origin next else next
      end
  end.

(** [csrf_header]: an empty value counts as absent. *)
Definition csrf_header (hs : headers) : option pystr :=
  match header "x-csrf-token" hs with
  | Some [] => None
  | v => v
  end.

(** ** Properties *)

Fixpoint body_of (ms : list message) : bytes :=
  match ms with
  | HttpRequest chunk more :: ms' => chunk ++ (if more then body_of ms' else [])
  | _ => []
  end.

Lemma buffer_body_spec max consumed chunks ms :
  consumed = Z.of_nat (length chunks) → (consumed ≤ max)%Z →
  _buffer_body max consumed chunks ms =
  if (Z.of_nat (length (chunks ++ body_of ms)) <=? max)%Z then Some (chunks ++ body_of ms) else None.
Proof.
  revert consumed chunks. induction ms as [|[chunk more|] ms IH]; intros consumed chunks Hc Hm; simpl.
  - rewrite app_nil_r. by destruct (Z.leb_spec (Z.of_nat (length chunks)) max); [|lia].
  - assert (Hnil : bool_decide (chunk = []) = true → length chunk = 0%nat).
    { intros ->%bool_decide_eq_true. done. }
    destruct (negb _ && _) eqn:Hover.
    + to_prop. destruct (Z.leb_spec (Z.of_nat (length (chunks ++ chunk ++ if more then body_of ms else []))) max)
        as [Hle|]; [|done]. rewrite !length_app in Hle. lia.
    + assert (consumed + Z.of_nat (length chunk) ≤ max)%Z as Hle.
      { apply andb_false_iff in Hover as [Hx%negb_false_iff|Hx%Z.ltb_ge]; [specialize (Hnil Hx); lia|done]. }
      destruct more.
      * rewrite IH; [|rewrite length_app; lia|lia]. by rewrite <- !app_assoc.
      * rewrite app_nil_r. destruct (Z.leb_spec (Z.of_nat (length (chunks ++ chunk))) max) as [|Hgt]; [done|].
        rewrite length_app in Hgt. lia.
  - rewrite app_nil_r. by destruct (Z.leb_spec (Z.of_nat (length chunks)) max); [|lia].
Qed.

(** The application reads the buffered body once, and then a disconnection. *)
Lemma replay_delivers body n : received (S (S n)) (_replay body) false = HttpRequest body false :: repeat HttpDisconnect (S n).
Proof.
  simpl. f_equal. f_equal. induction n as [|n IH]; [done|]. simpl. by f_equal.
Qed.

(** The body limit seen from the application: reading the replayed channel as
    the middleware read the original yields the same body. *)
Lemma replay_body body n max : (Z.of_nat (length body) <= max)%Z →
  _buffer_body max 0 [] (received (S n) (_replay body) false) = Some body.
Proof. intros Hm. simpl. rewrite Z.add_0_l. destruct (Z.ltb_spec max (Z.of_nat (length body))); [lia|]. by destruct (bool_decide _). Qed.

(** The preflight of a method other than GET and POST is refused, whoever asks
    and with whatever headers: so a browser on another origin sends no PATCH
    and no DELETE. *)
Lemma preflight_refused app_origin hs next requested :
  header "access-control-request-method" hs = Some requested → map upper requested ∉ [u "GET"; u "POST"] →
  dispatch (Some app_origin) (u "OPTIONS") hs next = {| status_code := 400; response_headers := [] |}.
Proof.
  intros Hm Hr. unfold dispatch. rewrite decide_True, Hm by done. rewrite (bool_decide_eq_true_2 (_ ∉ _)) by done.
  by rewrite orb_true_r.
Qed.

(** The answer to another origin is the application's, without CORS headers. *)
Lemma other_origin_uncredentialed app_origin method hs next :
  header "origin" hs ≠ Some app_origin →
  dispatch (Some app_origin) method hs next = next ∨
  dispatch (Some app_origin) method hs next = {| status_code := 400; response_headers := [] |}.
Proof.
  intros Ho. unfold dispatch. rewrite bool_decide_eq_false_2 by done. destruct (decide _); [|by left].
  destruct (header "access-control-request-method" hs); [right; reflexivity|by left].
Qed.

(** C37: the body limit.  A chunked HTTP request reaches the application with
    its whole body when that has at most the limit's bytes, and is answered
    413 otherwise; a declared length is judged as [int] reads it, unusable
    ones counting as too large; everything else passes untouched. *)
Theorem body_limit_spec max hs ms :
  (0 < max < maxsize)%Z →
  limit_body "http" max hs ms =
  match header "content-length" hs, header "transfer-encoding" hs with
  | Some text, _ =>
      match python_int text with
      | Some n => if ((0 <=? n) && (n <=? max))%Z then PassThrough else TooLarge
      | None => TooLarge
      end
  | None, Some _ =>
      if (Z.of_nat (length (body_of ms)) <=? max)%Z then Replay (body_of ms) else TooLarge
  | None, None => PassThrough
  end.
Proof.
  intros Hmax. unfold limit_body, _declared_body_length. rewrite bool_decide_false by (intros H; by apply H).
  destruct (header "content-length" hs) as [text|].
  - destruct (python_int text) as [n|].
    + destruct (Z.leb_spec 0 n), (Z.leb_spec n max), (Z.ltb_spec max n); simpl; try lia; try done.
      all: by destruct (Z.ltb_spec max maxsize); [|lia].
    + by destruct (Z.ltb_spec max maxsize); [|lia].
  - destruct (header "transfer-encoding" hs); [|done].
    rewrite buffer_body_spec by (simpl; lia). rewrite app_nil_l. by destruct (_ <=? max)%Z.
Qed.

Lemma body_limit_spec_witness :
  limit_body "http" 4 [("transfer-encoding", u "chunked")]
    [HttpRequest [x61; x62] true; HttpRequest [x63] false] = Replay [x61; x62; x63].
Proof.
  rewrite (body_limit_spec 4 [("transfer-encoding", u "chunked")]
    [HttpRequest [x61; x62] true; HttpRequest [x63] false]) by (split; reflexivity).
  reflexivity.
Defined.
