(* ===== verification/Sessions.v ===== *)
(** * Sessions: [app/sessions.py], [app/session_api.py], [repositories/sessions.py]

    Opaque application sessions: their secrets, the repository on PostgreSQL
    and in memory, the service that creates, rotates and revokes them, and the
    checks a request passes. *)
From Stdlib.Strings Require Import Byte.
From S2P Require Import Prelude PyDict Json Models Sql Schema Hashing Security.
From stdpp Require Import list strings.

Definition SESSION_TOKEN_BYTES : nat := 32.
Definition CSRF_SECRET_BYTES : nat := 32.
Definition SESSION_IDLE_LIFETIME : timedelta := days 30.
Definition SESSION_ABSOLUTE_LIFETIME : timedelta := days 90.

(** ** Secrets

    The bytes [secrets.token_bytes] draws are arguments. *)
Definition new_opaque_token (byte_length : nat) (raw : bytes) : outcome pystr :=
  if (byte_length <? SESSION_TOKEN_BYTES)%nat then Raise ValueError else Ok (encode_base64url raw).

(** [hash_secret] of a [str]; [hash_session_token] and [hash_csrf_secret] are
    this function. *)
Definition hash_secret (value : pystr) : outcome bytes :=
  match encode_ascii value with
  | Ok raw => Ok (sha256 raw)
  | Raise e => Raise e
  end.

Record SessionSecrets := {
  ss_token : pystr;
  ss_csrf_secret : pystr;
  ss_token_hash : bytes;
  ss_csrf_hash : bytes }.

Record CreatedSession := { cs_record : SessionRecord; cs_secrets : SessionSecrets }.

(** The two draws of [_session_secrets]. *)
Record entropy := { en_token : bytes; en_csrf : bytes }.

Definition _session_secrets (e : entropy) : outcome SessionSecrets :=
  match new_opaque_token SESSION_TOKEN_BYTES (en_token e), new_opaque_token CSRF_SECRET_BYTES (en_csrf e) with
  | Ok token, Ok csrf_secret =>
      match hash_secret token, hash_secret csrf_secret with
      | Ok token_hash, Ok csrf_hash =>
          Ok {| ss_token := token; ss_csrf_secret := csrf_secret;
                ss_token_hash := token_hash; ss_csrf_hash := csrf_hash |}
      | Raise e, _ | _, Raise e => Raise e
      end
  | Raise e, _ | _, Raise e => Raise e
  end.

Definition session_expiry (created_at : timestamp) : timestamp * timestamp :=
  ((created_at + SESSION_IDLE_LIFETIME)%Z, (created_at + SESSION_ABSOLUTE_LIFETIME)%Z).

(** [SessionService.prepare] *)
Definition prepare (e : entropy) (issued_at : timestamp) (absolute_expires_at : option timestamp) :
    outcome (SessionSecrets * timestamp * timestamp) :=
  let '(idle_expires_at, default_absolute) := session_expiry issued_at in
  let absolute_expiry := default default_absolute absolute_expires_at in
  if (absolute_expiry <=? issued_at)%Z then Raise ValueError
  else
    let idle_expires_at := Z.min idle_expires_at absolute_expiry in
    if (idle_expires_at <=? issued_at)%Z then Raise ValueError
    else match _session_secrets e with
         | Ok secrets => Ok (secrets, idle_expires_at, absolute_expiry)
         | Raise e => Raise e
         end.

(** ** The persistence interface *)
Class SessionRepositoryPort (R : Type) := {
  create_row : timestamp → UUID → UUID → UUID → bytes → bytes → Z → timestamp → timestamp → M R SessionRecord;
  find_row : timestamp → bytes → R → option SessionRecord;
  touch_row : timestamp → UUID → UUID → M R (option SessionRecord);
  replace_csrf_row : timestamp → UUID → UUID → bytes → M R (option SessionRecord);
  revoke_row : timestamp → UUID → UUID → string → M R (option SessionRecord) }.

(** ** [SessionRepository] on PostgreSQL *)
Module Pg.
(** The two [EXISTS] clauses: a live account and an active device, both of
    the session's epoch. *)
Definition account_current (db : Db) (r : SessionRecord) : bool :=
  existsb (λ account, bool_decide (acc_id account = ses_user_id r) && account_live account &&
                      bool_decide (acc_device_epoch account = ses_epoch r)) (app_users db).

Definition device_current (db : Db) (r : SessionRecord) : bool :=
  existsb (λ device, bool_decide (dev_user_id device = ses_user_id r) &&
                     bool_decide (dev_id device = ses_device_id r) &&
                     bool_decide (dev_status device = "active") &&
                     bool_decide (dev_epoch device = ses_epoch r)) (devices db).

Definition unexpired (now : timestamp) (r : SessionRecord) : bool :=
  is_null (ses_revoked_at r) && (now <? ses_idle_expires_at r)%Z && (now <? ses_absolute_expires_at r)%Z.

Definition usable (db : Db) (now : timestamp) (r : SessionRecord) : bool :=
  unexpired now r && account_current db r && device_current db r.

Definition get_by_id (account_id session_id : UUID) (db : Db) : option SessionRecord :=
  first_row (select (λ r, bool_decide (ses_user_id r = account_id) && bool_decide (ses_id r = session_id))
               (app_sessions db)).

Definition get_by_token_hash (now : timestamp) (account_id : UUID) (token_hash : bytes) (db : Db) :
    option SessionRecord :=
  first_row (select (λ r, bool_decide (ses_user_id r = account_id) && bool_decide (ses_token_hash r = token_hash) &&
                          usable db now r) (app_sessions db)).

(** [SELECT session.* FROM app_sessions JOIN app_users JOIN devices WHERE
    <key> AND ...] *)
Definition joined (key : SessionRecord → bool) (now : timestamp) (db : Db) : list SessionRecord :=
  session ← List.filter (λ r, key r && unexpired now r) (app_sessions db);
  account ← List.filter (λ a, bool_decide (acc_id a = ses_user_id session) && account_live a &&
                              bool_decide (acc_device_epoch a = ses_epoch session)) (app_users db);
  device ← List.filter (λ d, bool_decide (dev_user_id d = ses_user_id session) &&
                             bool_decide (dev_id d = ses_device_id session) &&
                             bool_decide (dev_status d = "active") &&
                             bool_decide (dev_epoch d = ses_epoch session)) (devices db);
  [session].

Definition find_by_token_hash (now : timestamp) (token_hash : bytes) (db : Db) : option SessionRecord :=
  first_row (joined (λ r, bool_decide (ses_token_hash r = token_hash)) now db).

Definition find_current_by_id (now : timestamp) (session_id : UUID) (db : Db) : option SessionRecord :=
  first_row (joined (λ r, bool_decide (ses_id r = session_id)) now db).

Definition list_for_account (account_id : UUID) (db : Db) : list SessionRecord :=
  order_by_desc ses_created_at (select (λ r, bool_decide (ses_user_id r = account_id)) (app_sessions db)).
Definition list_by_account := list_for_account.

(** The rows of the [INSERT ... SELECT]; [id] is the [gen_random_uuid()]
    default. *)
Definition create_rows (now : timestamp) (id account_id device_id : UUID) (token_hash csrf_hash : bytes)
    (epoch : Z) (idle_expires_at absolute_expires_at : timestamp) (db : Db) : list SessionRecord :=
  account ← List.filter (λ a, bool_decide (acc_id a = account_id) && account_live a &&
                              bool_decide (epoch = acc_device_epoch a)) (app_users db);
  device ← List.filter (λ d, bool_decide (dev_user_id d = acc_id account) && bool_decide (dev_id d = device_id) &&
                             bool_decide (dev_status d = "active") &&
                             bool_decide (dev_epoch d = acc_device_epoch account)) (devices db);
  [{| ses_id := id; ses_user_id := acc_id account; ses_device_id := dev_id device;
      ses_token_hash := token_hash; ses_csrf_hash := csrf_hash; ses_epoch := epoch;
      ses_created_at := now; ses_last_seen_at := now;
      ses_idle_expires_at := idle_expires_at; ses_absolute_expires_at := absolute_expires_at;
      ses_revoked_at := None; ses_revocation_reason := None |}].

Definition create (now : timestamp) (id account_id device_id : UUID) (token_hash csrf_hash : bytes)
    (epoch : Z) (idle_expires_at absolute_expires_at : timestamp) : M Db SessionRecord :=
  let! new := gets (create_rows now id account_id device_id token_hash csrf_hash epoch
                      idle_expires_at absolute_expires_at) in
  let! rows := on_app_sessions (insert_returning session_admits new) in
  lift (required_row rows).

Definition update (cond : SessionRecord → bool) (set : SessionRecord → SessionRecord) :
    M Db (list SessionRecord) :=
  on_app_sessions (update_returning session_check cond set).

Definition owned (account_id session_id : UUID) (r : SessionRecord) : bool :=
  bool_decide (ses_user_id r = account_id) && bool_decide (ses_id r = session_id).

Definition touch_last_seen (now : timestamp) (account_id session_id : UUID) : M Db (option SessionRecord) :=
  let! db := gets id in
  let! rows := update (λ r, owned account_id session_id r && usable db now r)
                 (λ r, ses_touched r now (Z.min (now + days 30) (ses_absolute_expires_at r))) in
  ret (first_row rows).

Definition replace_csrf_hash (now : timestamp) (account_id session_id : UUID) (csrf_hash : bytes) :
    M Db (option SessionRecord) :=
  let! db := gets id in
  let! rows := update (λ r, owned account_id session_id r && usable db now r)
                 (λ r, ses_with_csrf r csrf_hash) in
  ret (first_row rows).

(** [SET revoked_at = COALESCE(revoked_at, CURRENT_TIMESTAMP),
    revocation_reason = $n ... AND revoked_at IS NULL] *)
Definition revoke_where (now : timestamp) (reason : string) (cond : SessionRecord → bool) :
    M Db (list SessionRecord) :=
  update (λ r, cond r && is_null (ses_revoked_at r))
    (λ r, ses_with_revocation r (coalesce (ses_revoked_at r) now) reason).

Definition revoke (now : timestamp) (account_id session_id : UUID) (reason : string) :
    M Db (option SessionRecord) :=
  let! rows := revoke_where now reason (owned account_id session_id) in ret (first_row rows).

Definition revoke_by_token_hash (now : timestamp) (account_id : UUID) (token_hash : bytes) (reason : string) :
    M Db (option SessionRecord) :=
  let! rows := revoke_where now reason
                 (λ r, bool_decide (ses_user_id r = account_id) && bool_decide (ses_token_hash r = token_hash)) in
  ret (first_row rows).

Definition revoke_for_device (now : timestamp) (account_id device_id : UUID) (reason : string) : M Db nat :=
  let! rows := revoke_where now reason
                 (λ r, bool_decide (ses_user_id r = account_id) && bool_decide (ses_device_id r = device_id)) in
  ret (length rows).

Definition revoke_for_account (now : timestamp) (account_id : UUID) (reason : string) : M Db nat :=
  let! rows := revoke_where now reason (λ r, bool_decide (ses_user_id r = account_id)) in
  ret (length rows).

(** The reason the method's signature defaults to. *)
Definition revoke_for_account_default_reason : string := "account_cleanup".
End Pg.

#[export] Instance pg_sessions : SessionRepositoryPort Db := {
  create_row := Pg.create;
  find_row := Pg.find_by_token_hash;
  touch_row := Pg.touch_last_seen;
  replace_csrf_row := Pg.replace_csrf_hash;
  revoke_row := Pg.revoke }.

(** ** [InMemorySessionRepository] *)
Record MemSessions := {
  ms_records : dict UUID SessionRecord;
  ms_by_token_hash : dict bytes UUID }.

Module Mem.
Definition _is_usable (r : SessionRecord) (current : timestamp) : bool := Pg.unexpired current r.

Definition store (r : SessionRecord) (s : MemSessions) : MemSessions :=
  {| ms_records := dict_set (ses_id r) r (ms_records s); ms_by_token_hash := ms_by_token_hash s |}.

Definition create (now : timestamp) (id account_id device_id : UUID) (token_hash csrf_hash : bytes)
    (epoch : Z) (idle_expires_at absolute_expires_at : timestamp) : M MemSessions SessionRecord :=
  let record :=
    {| ses_id := id; ses_user_id := account_id; ses_device_id := device_id;
       ses_token_hash := token_hash; ses_csrf_hash := csrf_hash; ses_epoch := epoch;
       ses_created_at := now; ses_last_seen_at := now;
       ses_idle_expires_at := idle_expires_at; ses_absolute_expires_at := absolute_expires_at;
       ses_revoked_at := None; ses_revocation_reason := None |} in
  do! modify (λ s, {| ms_records := dict_set id record (ms_records s);
                      ms_by_token_hash := dict_set token_hash id (ms_by_token_hash s) |}) in
  ret record.

Definition remove (account_id session_id : UUID) : M MemSessions bool :=
  let! record := gets (λ s, dict_get session_id (ms_records s)) in
  match record with
  | Some r =>
      if bool_decide (ses_user_id r ≠ account_id) then ret false
      else
        do! modify (λ s, {| ms_records := dict_del session_id (ms_records s);
                            ms_by_token_hash := dict_del (ses_token_hash r) (ms_by_token_hash s) |}) in
        ret true
  | None => ret false
  end.

Definition find_current_by_id (now : timestamp) (session_id : UUID) (s : MemSessions) : option SessionRecord :=
  match dict_get session_id (ms_records s) with
  | Some r => if _is_usable r now then Some r else None
  | None => None
  end.

Definition find_by_token_hash (now : timestamp) (token_hash : bytes) (s : MemSessions) : option SessionRecord :=
  match dict_get token_hash (ms_by_token_hash s) with
  | Some record_id => find_current_by_id now record_id s
  | None => None
  end.

Definition get_by_token_hash (now : timestamp) (account_id : UUID) (token_hash : bytes) (s : MemSessions) :
    option SessionRecord :=
  match find_by_token_hash now token_hash s with
  | Some r => if bool_decide (ses_user_id r = account_id) then Some r else None
  | None => None
  end.

Definition list_for_account (account_id : UUID) (s : MemSessions) : list SessionRecord :=
  order_by_desc ses_created_at
    (List.filter (λ r, bool_decide (ses_user_id r = account_id)) (dict_values (ms_records s))).

(** Change the record of the account when [ok] holds of it. *)
Definition change (account_id session_id : UUID) (ok : SessionRecord → bool)
    (f : SessionRecord → SessionRecord) : M MemSessions (option SessionRecord) :=
  let! record := gets (λ s, dict_get session_id (ms_records s)) in
  match record with
  | Some r =>
      if bool_decide (ses_user_id r = account_id) && ok r
      then do! modify (λ s, {| ms_records := dict_set session_id (f r) (ms_records s);
                               ms_by_token_hash := ms_by_token_hash s |}) in
           ret (Some (f r))
      else ret None
  | None => ret None
  end.

Definition touch_last_seen (now : timestamp) (account_id session_id : UUID) :=
  change account_id session_id (λ r, _is_usable r now)
    (λ r, ses_touched r now (Z.min (now + SESSION_IDLE_LIFETIME) (ses_absolute_expires_at r))).

Definition replace_csrf_hash (now : timestamp) (account_id session_id : UUID) (csrf_hash : bytes) :=
  change account_id session_id (λ r, _is_usable r now) (λ r, ses_with_csrf r csrf_hash).

Definition revoke (now : timestamp) (account_id session_id : UUID) (reason : string) :=
  change account_id session_id (λ r, is_null (ses_revoked_at r)) (λ r, ses_with_revocation r now reason).

(** The lookup and the revocation read the clock once each. *)
Definition revoke_by_token_hash (found_at now : timestamp) (account_id : UUID) (token_hash : bytes)
    (reason : string) : M MemSessions (option SessionRecord) :=
  let! record := gets (get_by_token_hash found_at account_id token_hash) in
  match record with
  | None => ret None
  | Some r => revoke now account_id (ses_id r) reason
  end.

Definition revoke_all (now : timestamp) (reason : string) (cond : SessionRecord → bool) : M MemSessions nat :=
  let! targets := gets (λ s, List.filter (λ r, cond r && is_null (ses_revoked_at r)) (dict_values (ms_records s))) in
  do! for_each (λ r, modify (store (ses_with_revocation r now reason))) targets in
  ret (length targets).

Definition revoke_for_device (now : timestamp) (account_id device_id : UUID) (reason : string) :=
  revoke_all now reason (λ r, bool_decide (ses_user_id r = account_id) && bool_decide (ses_device_id r = device_id)).
Definition revoke_for_account (now : timestamp) (account_id : UUID) (reason : string) :=
  revoke_all now reason (λ r, bool_decide (ses_user_id r = account_id)).
End Mem.

#[export] Instance mem_sessions : SessionRepositoryPort MemSessions := {
  create_row := Mem.create;
  find_row := Mem.find_by_token_hash;
  touch_row := Mem.touch_last_seen;
  replace_csrf_row := Mem.replace_csrf_hash;
  revoke_row := Mem.revoke }.

(** ** [SessionService] and the request checks

    [now n] is the store's clock at its [n]th use in the call. *)
Section service.
Context {R : Type} `{SessionRepositoryPort R}.

Definition create_session (now : nat → timestamp) (new_id : UUID) (e : entropy) (account_id device_id : UUID)
    (epoch : Z) (issued_at : timestamp) (absolute_expires_at : option timestamp) : M R CreatedSession :=
  let! prepared := lift (prepare e issued_at absolute_expires_at) in
  let '(secrets, idle_expires_at, absolute_expiry) := prepared in
  let! record := create_row (now 0%nat) new_id account_id device_id (ss_token_hash secrets) (ss_csrf_hash secrets)
                   epoch idle_expires_at absolute_expiry in
  ret {| cs_record := record; cs_secrets := secrets |}.

Definition rotate_session (now : nat → timestamp) (new_id : UUID) (e : entropy) (account_id : UUID)
    (previous : SessionRecord) (issued_at : timestamp) : M R CreatedSession :=
  if (ses_absolute_expires_at previous <=? issued_at)%Z then raise ValueError
  else
    let! revoked := revoke_row (now 0%nat) account_id (ses_id previous) "rotation" in
    match revoked with
    | None => raise ValueError
    | Some _ =>
        create_session (λ n, now (S n)) new_id e account_id (ses_device_id previous) (ses_epoch previous)
          issued_at (Some (ses_absolute_expires_at previous))
    end.

Definition revoke_session (now : timestamp) (account_id session_id : UUID) (reason : string) :=
  revoke_row now account_id session_id reason.

Definition reissue_csrf (now : timestamp) (raw : bytes) (account_id session_id : UUID) :
    M R (pystr * SessionRecord) :=
  let! csrf_secret := lift (new_opaque_token CSRF_SECRET_BYTES raw) in
  let! csrf_hash := lift (hash_secret csrf_secret) in
  let! updated := replace_csrf_row now account_id session_id csrf_hash in
  match updated with
  | None => raise ValueError
  | Some updated => ret (csrf_secret, updated)
  end.

(** [_token_hash]: an unusable cookie value hashes to nothing. *)
Definition _token_hash (token : option pystr) : option bytes :=
  match token with
  | None => None
  | Some token =>
      if negb (bool_decide (1 ≤ length token ≤ 512)%nat) then None
      else match hash_secret token with Ok h => Some h | Raise _ => None end
  end.

Definition _is_current (r : SessionRecord) (now : timestamp) : bool := Pg.unexpired now r.

(** [SessionAuthenticator.authenticate]; [current] is the process's clock. *)
Definition authenticate (now : nat → timestamp) (current : timestamp) (token : option pystr) :
    M R (option SessionRecord) :=
  match _token_hash token with
  | None => ret None
  | Some token_hash =>
      let! record := gets (find_row (now 0%nat) token_hash) in
      match record with
      | None => ret None
      | Some record =>
          if negb (_is_current record current) then ret None
          else
            let! touched := touch_row (now 1%nat) (ses_user_id record) (ses_id record) in
            ret (Some (default record touched))
      end
  end.

(** [get_authenticated_session], on the first use in a request. *)
Definition get_authenticated_session (now : nat → timestamp) (current : timestamp) (cookie : option pystr) :
    M R SessionRecord :=
  let! record := authenticate now current cookie in
  match record with
  | None => raise (HTTPException 401)
  | Some r => ret r
  end.

Definition _valid_csrf_value (value : pystr) (expected_hash : bytes) : bool :=
  if negb (bool_decide (1 ≤ length value ≤ 512)%nat) then false
  else match hash_secret value with
       | Ok actual_hash => bool_decide (actual_hash = expected_hash)
       | Raise _ => false
       end.

(** [require_session_csrf]: FastAPI resolves the session first, then the
    Origin, then runs the body. *)
Definition require_session_csrf (app_origin : pystr) (hs : headers) (now : nat → timestamp)
    (current : timestamp) (cookie : option pystr) : M R SessionRecord :=
  let! session := get_authenticated_session now current cookie in
  do! lift (require_exact_origin app_origin hs) in
  match csrf_header hs with
  | Some supplied =>
      if _valid_csrf_value supplied (ses_csrf_hash session) then ret session
      else raise (HTTPException 403)
  | None => raise (HTTPException 403)
  end.

(** [GET /auth/session] *)
Definition current_session (app_origin : pystr) (hs : headers) (now : nat → timestamp) (current : timestamp)
    (cookie : option pystr) (raw : bytes) : M R (pystr * SessionRecord) :=
  let! session := get_authenticated_session now current cookie in
  do! lift (check_optional_origin app_origin hs) in
  reissue_csrf (now 2%nat) raw (ses_user_id session) (ses_id session).
End service.
