(* ===== verification/SessionTheorems.v ===== *)
(** * SessionTheorems: who a request authenticates as

    What a session lookup certifies, what a state-changing request has shown
    when its handler runs, the life of a stored session, and rotation. *)
From Stdlib.Strings Require Import Byte.
From S2P Require Import Prelude PyDict Json Models Sql KeyedTable Schema Hashing Security Sessions.
From stdpp Require Import list strings relations sets.

(** ** Lookups *)

(** A session that may act at [now]: unrevoked, unexpired, of a live account
    and an active device, all of one epoch. *)
Definition live_session (db : Db) (now : timestamp) (r : SessionRecord) : Prop :=
  r ∈ app_sessions db ∧ ses_revoked_at r = None ∧
  (now < ses_idle_expires_at r)%Z ∧ (now < ses_absolute_expires_at r)%Z ∧
  (∃ a, a ∈ app_users db ∧ acc_id a = ses_user_id r ∧ acc_deleted_at a = None ∧
    acc_device_epoch a = ses_epoch r) ∧
  (∃ d, d ∈ devices db ∧ dev_user_id d = ses_user_id r ∧ dev_id d = ses_device_id r ∧
    dev_status d = "active" ∧ dev_epoch d = ses_epoch r).

Lemma is_null_true {A} (o : option A) : is_null o = true ↔ o = None.
Proof. by destruct o. Qed.

Lemma usable_live db now r : r ∈ app_sessions db → Pg.usable db now r = true ↔ live_session db now r.
Proof.
  intros Hin. unfold Pg.usable, Pg.unexpired, Pg.account_current, Pg.device_current, live_session.
  rewrite !andb_true_iff, !existsb_exists, is_null_true, !Z.ltb_lt. setoid_rewrite <- list_elem_of_In.
  setoid_rewrite andb_true_iff. setoid_rewrite andb_true_iff. setoid_rewrite andb_true_iff.
  setoid_rewrite bool_decide_eq_true. setoid_rewrite is_null_true.
  split.
  - intros [[[[Hr Hi] Ha] (a&Hina&(Hu&Hd)&He)] (d&Hind&((Hdu&Hdd)&Hds)&Hde)].
    split_and!; try done; [exists a|exists d]; done.
  - intros (_&Hr&Hi&Ha&(a&Hina&Hu&Hd&He)&(d&Hind&Hdu&Hdd&Hds&Hde)).
    split; [|exists d; done]. split; [|exists a; done]. done.
Qed.

(** The rows of the join, up to repetition. *)
Lemma joined_elem key now db r :
  r ∈ Pg.joined key now db ↔ r ∈ app_sessions db ∧ key r = true ∧ Pg.usable db now r = true.
Proof.
  unfold Pg.joined, Pg.usable, Pg.account_current, Pg.device_current. split.
  - intros Hr. apply list_elem_of_bind in Hr as (s&Hr&Hs). apply list_elem_of_In, filter_In in Hs as [Hs Hk].
    apply list_elem_of_bind in Hr as (a&Hr&Ha). apply list_elem_of_In, filter_In in Ha as [Ha Hac].
    apply list_elem_of_bind in Hr as (d&Hr&Hd). apply list_elem_of_In, filter_In in Hd as [Hd Hdc].
    apply list_elem_of_singleton in Hr as ->. apply andb_true_iff in Hk as [Hk Hu].
    split_and!; [by apply list_elem_of_In|done|]. rewrite Hu. simpl. apply andb_true_iff.
    split; apply existsb_exists; eauto.
  - intros (Hin&Hk&Hu). apply andb_true_iff in Hu as [[Hu Ha]%andb_true_iff Hd].
    apply existsb_exists in Ha as (a&Ha&Hac). apply existsb_exists in Hd as (d&Hd&Hdc).
    apply list_elem_of_bind. exists r. split.
    2: { apply list_elem_of_In, filter_In. split; [by apply list_elem_of_In|by rewrite Hk]. }
    apply list_elem_of_bind. exists a. split; [|by apply list_elem_of_In, filter_In].
    apply list_elem_of_bind. exists d. split; [by left|by apply list_elem_of_In, filter_In].
Qed.

Definition sessions_unique (db : Db) : Prop :=
  NoDup (map ses_id (app_sessions db)) ∧ NoDup (map ses_token_hash (app_sessions db)).

Lemma NoDup_map_eq {A B} (f : A → B) (l : list A) x y :
  NoDup (map f l) → x ∈ l → y ∈ l → f x = f y → x = y.
Proof.
  induction l as [|z l IH]; simpl; [by intros _ ?%not_elem_of_nil|]. intros [Hz Hnd]%NoDup_cons Hx Hy Hf.
  apply elem_of_cons in Hx as [->|Hx], Hy as [->|Hy]; [done| | |by apply IH]; exfalso; apply Hz.
  - rewrite Hf. by apply list_elem_of_fmap_2.
  - rewrite <- Hf. by apply list_elem_of_fmap_2.
Qed.

Lemma first_row_unique {Row} (l : list Row) (P : Row → Prop) r :
  (∀ x, x ∈ l ↔ P x) → (∀ x y, P x → P y → x = y) → first_row l = Some r ↔ P r.
Proof.
  intros Hl HP. unfold first_row. destruct l as [|x l]; simpl.
  - split; [done|]. intros Hr. apply Hl in Hr. by apply not_elem_of_nil in Hr.
  - assert (P x) by (apply Hl; left). split; [by intros [= <-]|]. intros Hr. f_equal. by apply HP.
Qed.

(** What a session lookup certifies.  Looking a token digest up finds a
    session iff it is the stored one with that digest, unrevoked, ahead of
    both its deadlines, of an undeleted account and an active device that
    both carry the session's epoch; the lookup by identifier likewise. *)
Theorem session_lookup_exact db now :
  sessions_unique db →
  (∀ token_hash r, Pg.find_by_token_hash now token_hash db = Some r ↔
     live_session db now r ∧ ses_token_hash r = token_hash) ∧
  (∀ session_id r, Pg.find_current_by_id now session_id db = Some r ↔
     live_session db now r ∧ ses_id r = session_id).
Proof.
  intros [Hid Htok]. split; intros k r.
  - apply (first_row_unique _ (λ r, live_session db now r ∧ ses_token_hash r = k)).
    + intros x. rewrite joined_elem, bool_decide_eq_true. split.
      * intros (Hin&Hk&Hu). split; [by apply usable_live|done].
      * intros [Hl Hk]. pose proof Hl as [Hin _]. split_and!; [done..|]. by apply usable_live.
    + intros x y [[Hx _] Hkx] [[Hy _] Hky]. eapply (NoDup_map_eq ses_token_hash); [exact Htok|done..|congruence].
  - apply (first_row_unique _ (λ r, live_session db now r ∧ ses_id r = k)).
    + intros x. rewrite joined_elem, bool_decide_eq_true. split.
      * intros (Hin&Hk&Hu). split; [by apply usable_live|done].
      * intros [Hl Hk]. pose proof Hl as [Hin _]. split_and!; [done..|]. by apply usable_live.
    + intros x y [[Hx _] Hkx] [[Hy _] Hky]. eapply (NoDup_map_eq ses_id); [exact Hid|done..|congruence].
Qed.

(** ** Requests *)

Lemma update_step cond set db o db' :
  Pg.update cond set db = (o, db') →
  app_users db' = app_users db ∧ devices db' = devices db ∧
  update_returning session_check cond set (app_sessions db) = (o, app_sessions db').
Proof.
  unfold Pg.update, on_app_sessions, zoom.
  destruct (update_returning session_check cond set (app_sessions db)) as [o' t]. by intros [= <- <-].
Qed.

Lemma touch_result now a i db o db' :
  Pg.touch_last_seen now a i db = (Ok o, db') →
  ∀ r, o = Some r → ∃ old, old ∈ app_sessions db ∧ ses_id old = i ∧ r ∈ app_sessions db' ∧
    r = ses_touched old now (Z.min (now + days 30) (ses_absolute_expires_at old)).
Proof.
  intros Ht r ->. apply bind_ok_inv in Ht as (d&db1&[= <- <-]&Ht).
  apply bind_ok_inv in Ht as (rows&db2&(_&_&Hup)%update_step&Ht). injection Ht as Hfirst <-.
  destruct (update_first_row _ _ _ _ _ _ _ Hup Hfirst) as (old&Hin&Hc&->&Hin').
  apply andb_true_iff in Hc as [Ho _]. unfold Pg.owned in Ho. to_prop. eauto.
Qed.

Lemma authenticate_result now current cookie db o db' :
  sessions_unique db → authenticate now current cookie db = (Ok o, db') →
  ∀ session, o = Some session →
  ∃ token stored, cookie = Some token ∧ hash_secret token = Ok (ses_token_hash stored) ∧
    live_session db (now 0%nat) stored ∧ Pg.unexpired current stored = true ∧
    (session = stored ∨ session = ses_touched stored (now 1%nat)
                          (Z.min (now 1%nat + days 30) (ses_absolute_expires_at stored)) ∧
                        session ∈ app_sessions db').
Proof.
  intros Hun Ha session ->. unfold authenticate, _token_hash in Ha.
  destruct cookie as [token|]; [|done]. destruct (negb _); [done|].
  destruct (hash_secret token) as [h|] eqn:Hh; [|done].
  apply bind_ok_inv in Ha as (found&db1&[= Hf <-]&Ha). simpl in Hf. destruct found as [stored|]; [|done].
  destruct (_is_current stored current) eqn:Hcur; [|done]. cbn [negb] in Ha.
  assert (live_session db (now 0%nat) stored ∧ ses_token_hash stored = h) as [Hl Hth].
  { destruct Hun as [Hid Htok]. unfold Pg.find_by_token_hash in Hf. apply first_row_elem in Hf.
    apply joined_elem in Hf as (Hin&Hk&Hu). to_prop. split; [by apply usable_live|done]. }
  apply bind_ok_inv in Ha as (touched&db2&Ht&[= <- <-]).
  exists token, stored. split_and!; [done|by rewrite Hh, Hth|done|done|].
  destruct touched as [r|]; [right|by left]. simpl.
  destruct (touch_result _ _ _ _ _ _ Ht r eq_refl) as (old&Hin&Hid&Hin'&Hr).
  assert (old = stored) as ->; [|by split].
  eapply (NoDup_map_eq ses_id); [apply Hun|done|apply Hl|done].
Qed.

(** What a state-changing request has shown.  When
    [require_session_csrf] lets a request through, its cookie hashes to the
    digest of a stored session that is unrevoked, unexpired on the database's
    and the process's clock, of a live account and an active device of its
    epoch; its Origin is the configured one, and its CSRF header hashes to
    that session's CSRF digest; and the session returned is that one, at most
    its activity refreshed. *)
Theorem csrf_request_authorised app_origin hs now current cookie db session db' :
  sessions_unique db →
  require_session_csrf app_origin hs now current cookie db = (Ok session, db') →
  ∃ token supplied stored,
    cookie = Some token ∧ hash_secret token = Ok (ses_token_hash stored) ∧
    live_session db (now 0%nat) stored ∧
    (current < ses_idle_expires_at stored)%Z ∧ (current < ses_absolute_expires_at stored)%Z ∧
    header "origin" hs = Some app_origin ∧
    header "x-csrf-token" hs = Some supplied ∧ hash_secret supplied = Ok (ses_csrf_hash stored) ∧
    (session = stored ∨
     session = ses_touched stored (now 1%nat) (Z.min (now 1%nat + days 30) (ses_absolute_expires_at stored))).
Proof.
  intros Hun Hr. unfold require_session_csrf in Hr.
  apply bind_ok_inv in Hr as (session'&db1&Hg&Hr). unfold get_authenticated_session in Hg.
  apply bind_ok_inv in Hg as ([r|]&db2&Ha&Hg); [|done]. injection Hg as <- <-.
  destruct (authenticate_result _ _ _ _ _ _ Hun Ha r eq_refl) as (token&stored&Hc&Hh&Hl&Hu&Hs).
  apply bind_ok_inv in Hr as ([]&db3&Horig&Hr). unfold lift in Horig. injection Horig as Horig <-.
  destruct (csrf_header hs) as [supplied|] eqn:Hcsrf; [|done].
  destruct (_valid_csrf_value supplied (ses_csrf_hash r)) eqn:Hv; [|done]. injection Hr as <- <-.
  unfold _valid_csrf_value in Hv. destruct (negb _); [done|].
  destruct (hash_secret supplied) as [h|] eqn:Hsh; [|done]. to_prop.
  unfold Pg.unexpired in Hu. to_prop.
  exists token, supplied, stored. split_and!; try done.
  - unfold require_exact_origin, request_origin_is_allowed in Horig. by case_bool_decide.
  - unfold csrf_header in Hcsrf. by destruct (header "x-csrf-token" hs) as [[|]|].
  - rewrite Hsh. f_equal. destruct Hs as [->|[-> _]]; done.
  - destruct Hs as [->|[-> _]]; auto.
Qed.

(** ** The life of a session *)

(** What the repository's operations can make of a stored session: it keeps
    its identity, owner, device, digest, epoch, creation and absolute
    deadline, and a revocation, once written, stays as it was. *)
Definition session_evolves (r r' : SessionRecord) : Prop :=
  ses_id r' = ses_id r ∧ ses_user_id r' = ses_user_id r ∧ ses_device_id r' = ses_device_id r ∧
  ses_token_hash r' = ses_token_hash r ∧ ses_epoch r' = ses_epoch r ∧
  ses_created_at r' = ses_created_at r ∧ ses_absolute_expires_at r' = ses_absolute_expires_at r ∧
  (∀ t, ses_revoked_at r = Some t →
    ses_revoked_at r' = Some t ∧ ses_revocation_reason r' = ses_revocation_reason r).

#[export] Instance session_evolves_preorder : PreOrder session_evolves.
Proof.
  split; unfold session_evolves.
  - intros r. split_and!; auto.
  - intros x y z (?&?&?&?&?&?&?&Hxy) (?&?&?&?&?&?&?&Hyz). split_and!; try congruence.
    intros t Ht. destruct (Hxy t Ht) as [Hy Hr]. destruct (Hyz t Hy) as [? ?]. split; congruence.
Qed.

Definition sessions_kept (db db' : Db) : Prop :=
  sessions_unique db → sessions_unique db' ∧
  ∀ r, r ∈ app_sessions db → ∃ r', r' ∈ app_sessions db' ∧ session_evolves r r'.

#[export] Instance sessions_kept_preorder : PreOrder sessions_kept.
Proof.
  split; unfold sessions_kept.
  - intros db Hu. split; [done|]. intros r Hr. exists r. split; [done|reflexivity].
  - intros x y z Hxy Hyz Hx. destruct (Hxy Hx) as [Hy Hrows]. destruct (Hyz Hy) as [Hz Hrows'].
    split; [done|]. intros r Hr. destruct (Hrows r Hr) as (r1&Hr1&He1). destruct (Hrows' r1 Hr1) as (r2&Hr2&He2).
    exists r2. split; [done|by etrans].
Qed.

Lemma update_kept cond set :
  (∀ r, cond r = true → session_evolves r (set r)) → respects sessions_kept (Pg.update cond set).
Proof.
  intros Hset db Hun. destruct (Pg.update cond set db) as [o db'] eqn:Hup. simpl.
  apply update_step in Hup as (_&_&Hup).
  assert (app_sessions db' = app_sessions db ∨ app_sessions db' = update_set cond set (app_sessions db)) as [Ht|Ht].
  { pose proof (update_table session_check cond set (app_sessions db)) as Ht. by rewrite Hup in Ht. }
  { unfold sessions_unique in *. rewrite Ht. split; [done|]. intros r Hr. exists r. split; [done|reflexivity]. }
  assert (∀ A (f : SessionRecord → A), (∀ r r', session_evolves r r' → f r' = f r) →
    map f (app_sessions db') = map f (app_sessions db)) as Hmap.
  { intros A f Hf. rewrite Ht. unfold update_set. rewrite map_map. apply map_ext_in. intros r _.
    destruct (cond r) eqn:Hc; [|done]. by apply Hf, Hset. }
  split.
  - unfold sessions_unique. rewrite !Hmap; [done|by intros ? ? (?&?&?&?&_)|by intros ? ? (?&_)].
  - intros r Hr. exists (if cond r then set r else r). split.
    + rewrite Ht. apply list_elem_of_fmap. by exists r.
    + destruct (cond r) eqn:Hc; [by apply Hset|reflexivity].
Qed.

Lemma insert_kept new : respects sessions_kept (on_app_sessions (insert_returning session_admits new)).
Proof.
  intros db Hun. unfold on_app_sessions. rewrite zoom_snd. unfold sessions_unique in *. cbn [app_sessions].
  revert Hun. generalize (app_sessions db) as t. induction new as [|r new IH]; intros t Hun; cbn [insert_returning].
  { split; [done|]. intros r Hr. exists r. split; [done|reflexivity]. }
  destruct (session_admits t r) eqn:Had.
  2: { split; [done|]. intros r0 Hr. exists r0. split; [done|reflexivity]. }
  unfold session_admits in Had. to_prop.
  assert (NoDup (map ses_id (t ++ [r])) ∧ NoDup (map ses_token_hash (t ++ [r]))) as Hun'.
  { destruct Hun as [Hu1 Hu2]. rewrite !map_app.
    split; apply NoDup_app; split_and!; try done; try apply NoDup_singleton;
      intros x Hx ->%list_elem_of_singleton; done. }
  specialize (IH (t ++ [r]) Hun').
  destruct (insert_returning session_admits new (t ++ [r])) as [[rows|e] t']; simpl in *.
  - destruct IH as [Hu Hrows]. split; [done|]. intros r0 Hr. apply Hrows, elem_of_app. by left.
  - split; [done|]. intros r0 Hr. exists r0. split; [done|reflexivity].
Qed.

(** The statements of [SessionRepository] that write. *)
Inductive SessionOp :=
| OpCreate (id account_id device_id : UUID) (token_hash csrf_hash : bytes) (epoch : Z) (idle absolute : timestamp)
| OpTouch (account_id session_id : UUID)
| OpReplaceCsrf (account_id session_id : UUID) (csrf_hash : bytes)
| OpRevoke (account_id session_id : UUID) (reason : string)
| OpRevokeByTokenHash (account_id : UUID) (token_hash : bytes) (reason : string)
| OpRevokeForDevice (account_id device_id : UUID) (reason : string)
| OpRevokeForAccount (account_id : UUID) (reason : string).

Definition run_op (now : timestamp) (op : SessionOp) (db : Db) : Db :=
  match op with
  | OpCreate id a d th ch e idle absolute => (Pg.create now id a d th ch e idle absolute db).2
  | OpTouch a i => (Pg.touch_last_seen now a i db).2
  | OpReplaceCsrf a i ch => (Pg.replace_csrf_hash now a i ch db).2
  | OpRevoke a i reason => (Pg.revoke now a i reason db).2
  | OpRevokeByTokenHash a th reason => (Pg.revoke_by_token_hash now a th reason db).2
  | OpRevokeForDevice a d reason => (Pg.revoke_for_device now a d reason db).2
  | OpRevokeForAccount a reason => (Pg.revoke_for_account now a reason db).2
  end.

Lemma usable_evolves db now r csrf seen idle :
  Pg.usable db now r = true → session_evolves r (ses_replace r csrf seen idle (ses_revoked_at r) (ses_revocation_reason r)).
Proof. intros _. unfold session_evolves. split_and!; auto. Qed.

Lemma revoke_kept now reason cond : respects sessions_kept (Pg.revoke_where now reason cond).
Proof.
  apply update_kept. intros r Hc. apply andb_true_iff in Hc as [_ Hr%is_null_true].
  unfold session_evolves. split_and!; try done. intros t Ht. congruence.
Qed.

Lemma op_kept now op db : sessions_kept db (run_op now op db).
Proof.
  assert (∀ cond set, (∀ r, cond r = true → session_evolves r (set r)) → respects sessions_kept (Pg.update cond set))
    as Hup by exact update_kept.
  pose proof insert_kept as Hins. pose proof revoke_kept as Hrev.
  destruct op; simpl.
  - unfold Pg.create. apply respects_bind; [apply _|auto with respects|]. intros new.
    apply respects_bind; [apply _|apply Hins|]. auto with respects.
  - unfold Pg.touch_last_seen. apply respects_bind; [apply _|auto with respects|]. intros db'.
    apply respects_bind; [apply _|apply Hup|auto with respects]. intros r [_ Hu]%andb_true_iff. by eapply usable_evolves.
  - unfold Pg.replace_csrf_hash. apply respects_bind; [apply _|auto with respects|]. intros db'.
    apply respects_bind; [apply _|apply Hup|auto with respects]. intros r [_ Hu]%andb_true_iff. by eapply usable_evolves.
  - unfold Pg.revoke. apply respects_bind; [apply _|apply Hrev|auto with respects].
  - unfold Pg.revoke_by_token_hash. apply respects_bind; [apply _|apply Hrev|auto with respects].
  - unfold Pg.revoke_for_device. apply respects_bind; [apply _|apply Hrev|auto with respects].
  - unfold Pg.revoke_for_account. apply respects_bind; [apply _|apply Hrev|auto with respects].
Qed.

Definition run_ops (ops : list (timestamp * SessionOp)) (db : Db) : Db :=
  fold_left (λ db op, run_op op.1 op.2 db) ops db.

(** What the statements that need a usable session make of one that is not. *)
Lemma unusable_changes key now a i h db :
  (∀ x, x ∈ app_sessions db → ses_id x = i → Pg.usable db now x = false) →
  (∀ x, x ∈ app_sessions db → key x = true → Pg.usable db now x = false) →
  first_row (Pg.joined key now db) = None ∧
  (Pg.touch_last_seen now a i db).1 = Ok None ∧ (Pg.replace_csrf_hash now a i h db).1 = Ok None.
Proof.
  intros Hi Hk. split.
  { destruct (first_row _) as [x|] eqn:Hx; [|done]. apply first_row_elem, joined_elem in Hx as (Hin&Hkx&Hu).
    by rewrite (Hk x Hin Hkx) in Hu. }
  assert (∀ set, update_returning session_check (λ r, Pg.owned a i r && Pg.usable db now r) set (app_sessions db) =
    (Ok [], app_sessions db)) as Hnone.
  { intros set. apply update_no_match. intros x Hx. unfold Pg.owned. destruct (bool_decide (ses_id x = i)) eqn:He;
      [|by rewrite andb_false_r]. to_prop. by rewrite (Hi x Hx), andb_false_r. }
  unfold Pg.touch_last_seen, Pg.replace_csrf_hash, bind, gets, Pg.update, on_app_sessions, zoom, ret. simpl.
  by rewrite !Hnone.
Qed.

(** C21: the life of a session.  Any sequence of repository operations keeps
    every stored session with its owner, device, digest, epoch and absolute
    deadline.  A session that is revoked keeps its first revocation, time and
    reason; at any later time neither of the lookups that authenticate
    ([find_by_token_hash], [find_current_by_id], and [get_by_token_hash] of its
    account) finds it, and its last use, deadline and CSRF digest cannot be
    renewed.  The lookups that only show sessions ([get_by_id],
    [list_for_account]) may return it, with that revocation. *)
Theorem session_lifecycle ops db :
  sessions_unique db →
  ∀ r, r ∈ app_sessions db →
  let after := run_ops ops db in
  (∃ r', r' ∈ app_sessions after ∧ session_evolves r r') ∧
  (ses_revoked_at r ≠ None → ∀ now a,
    Pg.find_by_token_hash now (ses_token_hash r) after = None ∧
    Pg.find_current_by_id now (ses_id r) after = None ∧
    Pg.get_by_token_hash now a (ses_token_hash r) after = None ∧
    (Pg.touch_last_seen now a (ses_id r) after).1 = Ok None ∧
    (∀ h, (Pg.replace_csrf_hash now a (ses_id r) h after).1 = Ok None) ∧
    ∀ x, Pg.get_by_id a (ses_id r) after = Some x ∨ x ∈ Pg.list_for_account a after ∧ ses_id x = ses_id r →
      ses_revoked_at x = ses_revoked_at r ∧ ses_revocation_reason x = ses_revocation_reason r).
Proof.
  intros Hun r Hr after.
  assert (sessions_kept db after) as Hkept.
  { unfold after, run_ops. clear. revert db. induction ops as [|op ops IH]; intros db; simpl; [reflexivity|].
    etrans; [apply op_kept|apply IH]. }
  destruct (Hkept Hun) as [[Hid Htok] Hrows]. destruct (Hrows r Hr) as (r'&Hr'&He). split; [eauto|].
  intros Hrev now a. pose proof He as (Hi&_&_&Ht&_&_&_&Hstay).
  destruct (ses_revoked_at r) as [t|]; [|done]. destruct (Hstay t eq_refl) as [Hr'rev Hreason].
  assert (∀ x, x ∈ app_sessions after → ses_id x = ses_id r → x = r') as Hsame
    by (intros x Hx Hk; eapply (NoDup_map_eq ses_id); [exact Hid|done..|congruence]).
  assert (Pg.usable after now r' = false) as Hu by (unfold Pg.usable, Pg.unexpired; by rewrite Hr'rev).
  assert (∀ x, x ∈ app_sessions after → ses_id x = ses_id r → Pg.usable after now x = false) as Hi'
    by (intros x Hx Hk; by rewrite (Hsame x Hx Hk)).
  assert (∀ x, x ∈ app_sessions after → ses_token_hash x = ses_token_hash r → Pg.usable after now x = false) as Ht'.
  { intros x Hx Hk. assert (x = r') as ->; [|done]. eapply (NoDup_map_eq ses_token_hash); [exact Htok|done..|congruence]. }
  split_and!.
  - apply (unusable_changes _ _ a (ses_id r) []); [exact Hi'|]. intros x Hx Hk. to_prop. auto.
  - apply (unusable_changes _ _ a (ses_id r) []); [exact Hi'|]. intros x Hx Hk. to_prop. auto.
  - unfold Pg.get_by_token_hash. destruct (first_row _) as [x|] eqn:Hx; [|done].
    apply first_row_elem, select_elem in Hx as [Hin Hk]. rewrite !andb_true_iff, !bool_decide_eq_true in Hk.
    destruct Hk as [[_ Hk] Hux]. by rewrite (Ht' x Hin Hk) in Hux.
  - by apply (unusable_changes (λ _, false) _ a (ses_id r) []).
  - intros h. by apply (unusable_changes (λ _, false) _ a (ses_id r) h).
  - intros x Hx. assert (x ∈ app_sessions after ∧ ses_id x = ses_id r) as [Hin Hk].
    { destruct Hx as [Hx|[Hx ?]].
      - apply first_row_elem, select_elem in Hx as [? Hk]. by to_prop.
      - by apply order_by_desc_elem, select_elem in Hx as [? _]. }
    by rewrite (Hsame x Hin Hk), Hr'rev.
Qed.

(** The default reason of [revoke_for_account].  "account_cleanup" is
    not one of the reasons [app_sessions_revocation_check] admits: with its
    default argument the method raises and revokes nothing as soon as the
    account has an unrevoked session. *)
Theorem default_reason_refused now a db r :
  r ∈ app_sessions db → ses_user_id r = a → ses_revoked_at r = None →
  Pg.revoke_for_account now a Pg.revoke_for_account_default_reason db = (Raise BackendUnavailableError, db).
Proof.
  intros Hr Ha Hn. unfold Pg.revoke_for_account, bind, Pg.revoke_where, Pg.update, on_app_sessions, zoom, update_returning.
  destruct (forallb session_check _) eqn:Hf; [|by destruct db].
  exfalso. rewrite forallb_forall in Hf.
  assert (session_check (ses_with_revocation r (coalesce (ses_revoked_at r) now) Pg.revoke_for_account_default_reason) = true) as Hc.
  { apply Hf, in_map_iff. exists r. split; [done|]. apply filter_In. split; [by apply list_elem_of_In|].
    by rewrite Hn, bool_decide_true. }
  unfold session_check in Hc. rewrite andb_true_iff in Hc. destruct Hc as [_ Hc]. vm_compute in Hc. discriminate Hc.
Qed.

(** ** Rotation *)

Lemma create_result now id a d th ch e idle absolute db r db' :
  Pg.create now id a d th ch e idle absolute db = (Ok r, db') →
  r = Build_SessionRecord id a d th ch e now now idle absolute None None ∧
  r ∈ app_sessions db' ∧ (∀ x, x ∈ app_sessions db → x ∈ app_sessions db') ∧
  session_check r = true ∧ Pg.account_current db' r = true ∧ Pg.device_current db' r = true.
Proof.
  intros Hc. apply bind_ok_inv in Hc as (new&db1&[= <- <-]&Hc). apply bind_ok_inv in Hc as (rows&db2&Hi&Hc).
  unfold lift in Hc. injection Hc as Hreq <-. unfold on_app_sessions, zoom in Hi.
  destruct (insert_returning session_admits _ (app_sessions db)) as [o t] eqn:Hins. injection Hi as -> <-.
  assert (forallb session_check rows = true) as Hchk.
  { revert Hins. generalize (app_sessions db). clear. generalize (Pg.create_rows now id a d th ch e idle absolute db) as new.
    intros new t0. revert rows t t0. induction new as [|x new IH]; intros rows t t0; simpl; [by intros [= <- _]|].
    destruct (session_admits t0 x) eqn:Ha; [|done].
    destruct (insert_returning session_admits new (t0 ++ [x])) as [[rows'|] t'] eqn:Hi; [|done].
    intros [= <- _]. simpl. rewrite (IH _ _ _ Hi). unfold session_admits in Ha. to_prop. by rewrite andb_true_r. }
  apply insert_returning_app in Hins as [-> ->]. cbn [app_sessions].
  unfold required_row in Hreq. destruct (first_row _) as [r'|] eqn:Hf; [|done]. injection Hreq as ->.
  apply first_row_elem in Hf. pose proof Hf as Hnew.
  unfold Pg.create_rows in Hf. apply list_elem_of_bind in Hf as (acc&Hf&Hacc). apply list_elem_of_bind in Hf as (dev&Hf&Hdev).
  apply list_elem_of_singleton in Hf. apply list_elem_of_In, filter_In in Hacc as [Hacc Hac].
  apply list_elem_of_In, filter_In in Hdev as [Hdev Hdc]. to_prop. subst r. split_and!.
  - congruence.
  - apply elem_of_app. by right.
  - intros x Hx. apply elem_of_app. by left.
  - rewrite forallb_forall in Hchk. by apply Hchk, list_elem_of_In.
  - unfold Pg.account_current. apply existsb_exists. exists acc. split; [done|]. simpl.
    rewrite !bool_decide_true by congruence. by rewrite andb_true_r.
  - unfold Pg.device_current. apply existsb_exists. exists dev. split; [done|]. simpl.
    by rewrite !bool_decide_true by congruence.
Qed.

Lemma revoke_result now a i reason db r db' :
  Pg.revoke now a i reason db = (Ok (Some r), db') →
  r ∈ app_sessions db' ∧ ses_id r = i ∧ ses_user_id r = a ∧
  ses_revoked_at r = Some now ∧ ses_revocation_reason r = Some reason.
Proof.
  intros Hr. apply bind_ok_inv in Hr as (rows&db1&(_&_&Hup)%update_step&Hr). injection Hr as Hf <-.
  destruct (update_first_row _ _ _ _ _ _ _ Hup Hf) as (old&Hin&Hc&->&Hin').
  apply andb_true_iff in Hc as [Ho Hn%is_null_true]. unfold Pg.owned in Ho. to_prop.
  split_and!; try done. simpl. by rewrite Hn.
Qed.

(** Rotation.  Rotating a session revokes it with the reason "rotation"
    and stores a replacement for the same account, device and epoch that the
    new cookie authenticates while it lasts, and whose absolute deadline is
    the one of the session it replaces: rotation never extends it. *)
Theorem rotation_keeps_deadline now new_id e a previous issued_at db created db' :
  rotate_session now new_id e a previous issued_at db = (Ok created, db') →
  let r := cs_record created in
  (∃ old, old ∈ app_sessions db' ∧ ses_id old = ses_id previous ∧
    ses_revoked_at old = Some (now 0%nat) ∧ ses_revocation_reason old = Some "rotation") ∧
  r ∈ app_sessions db' ∧ ses_id r = new_id ∧ ses_user_id r = a ∧
  ses_device_id r = ses_device_id previous ∧ ses_epoch r = ses_epoch previous ∧
  ses_absolute_expires_at r = ses_absolute_expires_at previous ∧
  (issued_at < ses_idle_expires_at r ≤ ses_absolute_expires_at r)%Z ∧
  hash_secret (ss_token (cs_secrets created)) = Ok (ses_token_hash r) ∧
  hash_secret (ss_csrf_secret (cs_secrets created)) = Ok (ses_csrf_hash r) ∧
  ∀ t, (t < ses_idle_expires_at r)%Z → live_session db' t r.
Proof.
  intros Hr. unfold rotate_session in Hr. destruct (_ <=? issued_at)%Z; [done|].
  apply bind_ok_inv in Hr as ([old|]&db1&Hrev&Hr); [|done]. apply revoke_result in Hrev as (Hold&Hoid&_&Hrat&Hreason).
  apply bind_ok_inv in Hr as ([[secrets idle] absolute]&db2&Hprep&Hr). unfold lift in Hprep. injection Hprep as Hprep <-.
  apply bind_ok_inv in Hr as (r&db3&Hc&Hr). injection Hr as <- <-.
  apply create_result in Hc as (Hrec&Hin&Hkeep&Hchk&Hacc&Hdev).
  unfold prepare, session_expiry in Hprep. cbn -[Z.leb Z.min Z.add SESSION_IDLE_LIFETIME SESSION_ABSOLUTE_LIFETIME _session_secrets] in Hprep.
  destruct (Z.leb_spec (ses_absolute_expires_at previous) issued_at) as [|Habs]; [done|].
  destruct (Z.leb_spec (Z.min (issued_at + SESSION_IDLE_LIFETIME) (ses_absolute_expires_at previous)) issued_at)
    as [|Hidle]; [done|].
  destruct (_session_secrets e) as [secrets'|] eqn:Hsec; [|done]. injection Hprep as -> <- <-.
  assert (hash_secret (ss_token secrets) = Ok (ss_token_hash secrets) ∧
    hash_secret (ss_csrf_secret secrets) = Ok (ss_csrf_hash secrets)) as [Ht Hcs].
  { unfold _session_secrets in Hsec. destruct (new_opaque_token _ _) as [tok|]; [|done].
    destruct (new_opaque_token _ _) as [csrf|]; [|done]. destruct (hash_secret tok) eqn:Ht; [|done].
    destruct (hash_secret csrf) eqn:Hcs; [|done]. by injection Hsec as <-. }
  cbn [cs_record cs_secrets]. split; [exists old; split_and!; auto|].
  subst r. cbn -[Z.min Z.add Z.lt Z.le]. split_and!; try done; [lia|].
  intros t Ht'. apply usable_live; [done|]. unfold Pg.usable. rewrite Hacc, Hdev, !andb_true_r.
  unfold Pg.unexpired. cbn -[Z.ltb]. apply andb_true_iff. rewrite !Z.ltb_lt. lia.
Qed.

(** ** Witnesses *)

Definition owner1 : AccountRecord := Build_AccountRecord 1 1 (u "a@b.c") 0 0 None None.
Definition laptop10 : DeviceRecord := Build_DeviceRecord 10 1 0 (u "laptop") [] [] "active" 0 0 None None.
Definition db0 : Db := Build_Db [owner1] [laptop10] [] [] [] [] [] [] [].
Definition draw (b c : byte) : entropy := {| en_token := repeat b 32; en_csrf := repeat c 32 |}.
Definition created5 : outcome CreatedSession * Db :=
  create_session (λ _, 0%Z) 5 (draw x00 x01) 1 10 0 0 None db0.
Definition session5 : SessionRecord := Eval vm_compute in
  match created5 with (Ok c, _) => cs_record c | _ => Build_SessionRecord 0 0 0 [] [] 0 0 0 0 0 None None end.
Definition db5 : Db := Build_Db [owner1] [laptop10] [session5] [] [] [] [] [] [].
Definition cookie5 : pystr := Eval vm_compute in encode_base64url (repeat x00 32).
Definition csrf5 : pystr := Eval vm_compute in encode_base64url (repeat x01 32).

Example created5_db : created5.2 = db5.
Proof. vm_compute. reflexivity. Qed.

Lemma db5_unique : sessions_unique db5.
Proof. split; apply NoDup_singleton. Qed.

Lemma session_lookup_exact_witness :
  Pg.find_by_token_hash 7 (ses_token_hash session5) db5 = Some session5 ∧ live_session db5 7 session5.
Proof.
  destruct (session_lookup_exact db5 7 db5_unique) as [H _].
  destruct (H (ses_token_hash session5) session5) as [H1 _].
  split; [reflexivity|]. apply H1. reflexivity.
Defined.

Lemma csrf_request_authorised_witness :
  ∃ stored, live_session db5 7 stored ∧ hash_secret csrf5 = Ok (ses_csrf_hash stored).
Proof.
  destruct (require_session_csrf (u "https://app") [("origin", u "https://app"); ("x-csrf-token", csrf5)]
    (λ _, 7%Z) 7 (Some cookie5) db5) as [[session|e] db'] eqn:Hr; [|vm_compute in Hr; discriminate Hr].
  destruct (csrf_request_authorised _ _ _ _ _ _ _ _ db5_unique Hr) as (token&supplied&stored&_&_&Hl&_&_&_&Hs&Hh&_).
  exists stored. split; [exact Hl|]. vm_compute in Hs. injection Hs as <-. exact Hh.
Defined.

Lemma session_lifecycle_witness :
  let after := run_ops [(8%Z, OpTouch 1 5)] (Pg.revoke 7 1 5 "logout" db5).2 in
  Pg.find_by_token_hash 9 (ses_token_hash session5) after = None ∧
  (Pg.touch_last_seen 9 1 5 after).1 = Ok None ∧
  ∀ x, x ∈ Pg.list_for_account 1 after → ses_id x = 5%N → ses_revoked_at x = Some 7%Z.
Proof.
  destruct (session_lifecycle [(8%Z, OpTouch 1 5)] (Pg.revoke 7 1 5 "logout" db5).2
    ltac:(split; apply NoDup_singleton) (ses_with_revocation session5 7 "logout")) as [_ Hrev].
  { apply list_elem_of_In. vm_compute. by left. }
  destruct (Hrev ltac:(discriminate) 9%Z 1%N) as (Hfind&_&_&Htouch&_&Hshown). split_and!.
  - exact Hfind.
  - exact Htouch.
  - intros x Hx Hi. exact (proj1 (Hshown x (or_intror (conj Hx Hi)))).
Defined.

Lemma default_reason_refused_witness :
  Pg.revoke_for_account 7 1 Pg.revoke_for_account_default_reason db5 = (Raise BackendUnavailableError, db5).
Proof. apply (default_reason_refused 7 1 db5 session5); [left|reflexivity|reflexivity]. Defined.

Lemma rotation_keeps_deadline_witness :
  ∃ created, (rotate_session (λ _, 7%Z) 6 (draw x02 x03) 1 session5 7 db5).1 = Ok created ∧
    ses_absolute_expires_at (cs_record created) = days 90.
Proof.
  destruct (rotate_session (λ _, 7%Z) 6 (draw x02 x03) 1 session5 7 db5) as [[created|e] db'] eqn:Hr;
    [|vm_compute in Hr; discriminate Hr].
  destruct (rotation_keeps_deadline _ _ _ _ _ _ _ _ _ Hr) as (_&_&_&_&_&_&Habs&_).
  exists created. split; [reflexivity|exact Habs].
Defined.
