(* ===== verification/TransferService.v ===== *)
(** * TransferService: [app/transfers.py]

    The service that drives transfers through the repository interface, keeps
    the active ones within capacity, releases signaling budgets and notifies
    sockets; and the HTTP routes over it. *)
From S2P Require Import Prelude PyDict Json Calendar Models TransferPort Signaling Presence Socket Security.
From stdpp Require Import list strings sets pretty.

Definition TRANSFER_PROTOCOL_VERSION : Z := 1.
Definition TRANSFER_REQUEST_LIFETIME : timedelta := minutes 10.
Definition TRANSFER_ACTIVE_STATUSES : list string :=
  ["offered"; "accepted"; "negotiating"; "connected"; "transferring"].
Definition TRANSFER_PEER_KEY_STATUSES : list string := ["offered"; "accepted"; "negotiating"].
Definition MAX_ACTIVE_TRANSFERS_PER_ACCOUNT : nat := 8.
Definition MAX_ACTIVE_TRANSFERS_PER_DEVICE : nat := 4.

(** [transfer_notification] *)
Definition transfer_notification (record : TransferRequestRecord) (message_type : string) : json :=
  JObj [(u "type", JStr (u message_type)); (u "v", JInt (tr_protocol_version record));
        (u "transfer_id", JStr (uuid_str (tr_id record)));
        (u "sender_device_id", JStr (uuid_str (tr_sender_device_id record)));
        (u "recipient_device_id", JStr (uuid_str (tr_recipient_device_id record)));
        (u "created_at", JStr (isoformat (tr_created_at record)));
        (u "expires_at", JStr (isoformat (tr_expires_at record)))].

(** The collaborators [TransferService.__init__] received. *)
Record TransferServiceConfig := {
  tc_presence_manager : bool;
  tc_device_repository : bool;
  tc_lifetime : timedelta;
  tc_heartbeat_timeout : timedelta }.

Definition transfer_service (presence devices : bool) (lifetime heartbeat_timeout : timedelta) :
    outcome TransferServiceConfig :=
  if (lifetime <=? 0)%Z then Raise ValueError
  else Ok {| tc_presence_manager := presence; tc_device_repository := devices;
             tc_lifetime := lifetime; tc_heartbeat_timeout := heartbeat_timeout |}.

Definition later_r (n : nat) (r : readings) : readings := λ k, r (n + k)%nat.

Definition status_in (record : TransferRequestRecord) (statuses : list string) : bool :=
  bool_decide (tr_status record ∈ statuses).

Section service.
Context {T : Type} `{TransferRepository T} `{PresencePorts T} (cfg : TransferServiceConfig).
Implicit Types (c : clock) (account_id transfer_id : UUID).

Definition _notify (now : timestamp) account_id (device_id : UUID) (payload : json) : M (World T) unit :=
  if tc_presence_manager cfg then
    do! on_presence (send_to_device (tc_heartbeat_timeout cfg) now account_id device_id payload) in ret tt
  else ret tt.

Definition _notify_participants c account_id (record : TransferRequestRecord) (payload : json) :
    M (World T) unit :=
  do! _notify (c 0%nat) account_id (tr_sender_device_id record) payload in
  if bool_decide (tr_recipient_device_id record ≠ tr_sender_device_id record)
  then _notify (c 1%nat) account_id (tr_recipient_device_id record) payload
  else ret tt.

Definition _release transfer_id : M (World T) unit :=
  if tc_presence_manager cfg then
    do! on_presence (release_transfer transfer_id) in
    on_presence (modify (increment "transfer_state_released" 1))
  else ret tt.

Definition device_of account_id (device_id : UUID) : M (World T) (option DeviceRecord) :=
  on_store (λ t, (device_by_id account_id device_id t, t)).

Definition _validate_devices account_id (sender_device_id recipient_device_id : UUID) : M (World T) unit :=
  if tc_device_repository cfg then
    let! sender := device_of account_id sender_device_id in
    let! recipient := device_of account_id recipient_device_id in
    match sender, recipient with
    | Some sender, Some recipient =>
        if bool_decide (dev_status sender ≠ "active") || bool_decide (dev_status recipient ≠ "active") ||
           bool_decide (dev_epoch sender ≠ dev_epoch recipient)
        then raise TransferError else ret tt
    | _, _ => raise TransferError
    end
  else ret tt.

(** The active transfers of a listing, and those a device takes part in. *)
Definition active_records (now : timestamp) (records : list TransferRequestRecord) : list TransferRequestRecord :=
  List.filter (λ r, status_in r TRANSFER_ACTIVE_STATUSES && (now <? tr_expires_at r)%Z) records.

Definition device_count (device_id : UUID) (records : list TransferRequestRecord) : nat :=
  length (List.filter (λ r, bool_decide (device_id ∈ [tr_sender_device_id r; tr_recipient_device_id r])) records).

Definition _ensure_capacity account_id (sender_device_id recipient_device_id : UUID) (now : timestamp) :
    M (World T) unit :=
  let! records := on_store (gets (list_for_account account_id)) in
  let active := active_records now records in
  if (MAX_ACTIVE_TRANSFERS_PER_ACCOUNT <=? length active)%nat ||
     (MAX_ACTIVE_TRANSFERS_PER_DEVICE <=? device_count sender_device_id active)%nat ||
     (MAX_ACTIVE_TRANSFERS_PER_DEVICE <=? device_count recipient_device_id active)%nat
  then do! on_presence (modify (increment "transfer_capacity_rejected" 1)) in raise TransferCapacityError
  else ret tt.

(** The block of [create_offer] under the capacity lock; [new_id] is the
    identifier the store draws. *)
Definition create_checked at_ (new_id : UUID) account_id (sender_device_id recipient_device_id : UUID)
    (protocol_version : Z) (now : timestamp) : M (World T) TransferRequestRecord :=
  do! _ensure_capacity account_id sender_device_id recipient_device_id now in
  on_store (create at_ new_id account_id sender_device_id recipient_device_id protocol_version
              (now + tc_lifetime cfg)%Z).

Definition create_offer c at_ (new_id : UUID) account_id (sender_device_id recipient_device_id : UUID)
    (protocol_version : Z) : M (World T) TransferRequestRecord :=
  if bool_decide (protocol_version ≠ TRANSFER_PROTOCOL_VERSION) then raise TransferError
  else if bool_decide (sender_device_id = recipient_device_id) then raise TransferError
  else
    do! _validate_devices account_id sender_device_id recipient_device_id in
    let! record := create_checked at_ new_id account_id sender_device_id recipient_device_id
                     protocol_version (c 0%nat) in
    do! _notify (c 1%nat) account_id recipient_device_id (transfer_notification record "transfer_offer") in
    ret record.

Definition expire_stale c at_ account_id transfer_id : M (World T) TransferRequestRecord :=
  let! expired := on_store (expire at_ account_id transfer_id) in
  match expired with
  | None => raise TransferError
  | Some expired =>
      do! _release transfer_id in
      do! _notify_participants c account_id expired (transfer_notification expired "transfer_expired") in
      ret expired
  end.

Definition _current_or_expire c at_ account_id transfer_id : M (World T) (option TransferRequestRecord) :=
  let! record := on_store (gets (get_by_id account_id transfer_id)) in
  match record with
  | None => ret None
  | Some record =>
      if negb (status_in record TRANSFER_ACTIVE_STATUSES) then ret (Some record)
      else if (c 0%nat <? tr_expires_at record)%Z then ret (Some record)
      else try_except (let! r := expire_stale (later 1 c) at_ account_id transfer_id in ret (Some r))
             is_transfer_error
             (λ _, on_store (gets (get_by_id account_id transfer_id)))
  end.

Definition offered (current : option TransferRequestRecord) : bool :=
  match current with Some r => status_in r ["offered"] | None => false end.

Definition accept_offer c at_ account_id transfer_id (recipient_device_id : UUID) :
    M (World T) TransferRequestRecord :=
  let! current := _current_or_expire c at_ account_id transfer_id in
  if negb (offered current) then raise TransferError
  else
    let! accepted := on_store (accept (later_r 2 at_) account_id transfer_id recipient_device_id) in
    match accepted with
    | None => raise TransferError
    | Some accepted =>
        do! _notify (c 3%nat) account_id (tr_sender_device_id accepted)
              (transfer_notification accepted "transfer_accepted") in
        ret accepted
    end.

Definition reject_offer c at_ account_id transfer_id (recipient_device_id : UUID) :
    M (World T) TransferRequestRecord :=
  let! current := _current_or_expire c at_ account_id transfer_id in
  if negb (offered current) then raise TransferError
  else
    let! rejected := on_store (reject (later_r 2 at_) account_id transfer_id recipient_device_id) in
    match rejected with
    | None => raise TransferError
    | Some rejected =>
        do! _release transfer_id in
        do! _notify (c 3%nat) account_id (tr_sender_device_id rejected)
              (transfer_notification rejected "transfer_rejected") in
        ret rejected
    end.

Definition cancel_transfer c at_ account_id transfer_id (actor_device_id : UUID) :
    M (World T) TransferRequestRecord :=
  let! current := _current_or_expire c at_ account_id transfer_id in
  if negb (match current with Some r => status_in r TRANSFER_ACTIVE_STATUSES | None => false end)
  then raise TransferError
  else
    let! cancelled := on_store (TransferPort.cancel (later_r 2 at_) account_id transfer_id actor_device_id) in
    match cancelled with
    | None => raise TransferError
    | Some cancelled =>
        do! _release transfer_id in
        do! _notify_participants (later 3 c) account_id cancelled
              (transfer_notification cancelled "transfer_cancelled") in
        ret cancelled
    end.

Definition get c at_ account_id transfer_id : M (World T) TransferRequestRecord :=
  let! record := _current_or_expire c at_ account_id transfer_id in
  match record with
  | None => raise TransferError
  | Some record => ret record
  end.

(** The check of [get_peer_device_key] on the two devices. *)
Definition peer_devices_ok account_id (epoch : option Z) (actor peer : DeviceRecord) : bool :=
  bool_decide (dev_user_id actor = account_id) && bool_decide (dev_user_id peer = account_id) &&
  bool_decide (dev_status actor = "active") && bool_decide (dev_status peer = "active") &&
  bool_decide (dev_epoch actor = dev_epoch peer) &&
  match epoch with
  | None => true
  | Some e => bool_decide (dev_epoch actor = e) && bool_decide (dev_epoch peer = e)
  end.

Definition get_peer_device_key c at_ account_id transfer_id (actor_device_id : UUID) (epoch : option Z) :
    M (World T) DeviceRecord :=
  let! current := _current_or_expire c at_ account_id transfer_id in
  match current with
  | None => raise TransferError
  | Some current =>
      if negb (status_in current TRANSFER_PEER_KEY_STATUSES) then raise TransferError
      else if bool_decide (actor_device_id ∉ [tr_sender_device_id current; tr_recipient_device_id current])
      then raise TransferError
      else if negb (tc_device_repository cfg) then raise TransferError
      else
        let! actor := device_of account_id actor_device_id in
        let peer_device_id := if decide (actor_device_id = tr_sender_device_id current)
                              then tr_recipient_device_id current else tr_sender_device_id current in
        let! peer := device_of account_id peer_device_id in
        match actor, peer with
        | Some actor, Some peer =>
            if peer_devices_ok account_id epoch actor peer then ret peer else raise TransferError
        | _, _ => raise TransferError
        end
  end.

(** The loop of [list]; each record takes its own clock readings. *)
Fixpoint list_loop (cs : nat → clock * readings) account_id (records : list TransferRequestRecord) :
    M (World T) (list TransferRequestRecord) :=
  match records with
  | [] => ret []
  | record :: records' =>
      let '(c, at_) := cs 0%nat in
      let! record :=
        (if status_in record TRANSFER_ACTIVE_STATUSES && (tr_expires_at record <=? c 0%nat)%Z then
           try_except (expire_stale (later 1 c) at_ account_id (tr_id record)) is_transfer_error
             (λ _, let! refreshed := on_store (gets (get_by_id account_id (tr_id record))) in
                   ret (default record refreshed))
         else ret record) in
      let! rest := list_loop (λ k, cs (S k)) account_id records' in
      ret (record :: rest)
  end.

Definition list_transfers_for (cs : nat → clock * readings) account_id : M (World T) (list TransferRequestRecord) :=
  let! records := on_store (gets (list_for_account account_id)) in
  list_loop cs account_id records.
End service.
