(* ===== verification/TransferServiceTheorems.v ===== *)
(** * TransferServiceTheorems: capacity, authorisation and release

    What the transfer service adds to the repository: the bound on active
    transfers, who gets a peer's key, that a terminal transfer keeps no
    signaling budget, and that its handlers are world steps. *)
From S2P Require Import Prelude PyDict Json Models Sql KeyedTable TransferPort TransferMemory TransferTheorems.
From S2P Require Import Signaling Presence Socket PresenceInvariant SocketInvariant PresenceTheorems.
From S2P Require Import Security TransferService.
From stdpp Require Import list strings sets relations.

(** ** Capacity *)

Definition account_rows (a : UUID) (rows : list TransferRequestRecord) : list TransferRequestRecord :=
  List.filter (λ r, bool_decide (tr_user_id r = a)) rows.

(** At [now] the account has at most 8 active transfers, and no device of it
    takes part in more than 4. *)
Definition within_capacity (now : timestamp) (a : UUID) (rows : list TransferRequestRecord) : Prop :=
  let active := active_records now (account_rows a rows) in
  length active ≤ MAX_ACTIVE_TRANSFERS_PER_ACCOUNT ∧
  ∀ d, device_count d active ≤ MAX_ACTIVE_TRANSFERS_PER_DEVICE.

Lemma list_filter_perm {A} (p : A → bool) (l1 l2 : list A) :
  l1 ≡ₚ l2 → List.filter p l1 ≡ₚ List.filter p l2.
Proof.
  induction 1 as [|x l1 l2 _ IH|x y l|l1 l2 l3 _ IH1 _ IH2]; simpl; [done| | |by etrans].
  - destruct (p x); [by rewrite IH|done].
  - destruct (p x), (p y); try done. apply Permutation_swap.
Qed.

Lemma active_records_perm now l1 l2 : l1 ≡ₚ l2 → active_records now l1 ≡ₚ active_records now l2.
Proof. apply list_filter_perm. Qed.

Lemma device_count_perm d l1 l2 : l1 ≡ₚ l2 → device_count d l1 = device_count d l2.
Proof. intros Hl. unfold device_count. by rewrite (list_filter_perm _ _ _ Hl). Qed.

Section theorems.
Context {T : Type} `{PresencePortsLaws T} (cfg : TransferServiceConfig).

Lemma on_store_ok_inv {A} (m : M T A) (w : World T) a w' :
  on_store m w = (Ok a, w') → m (w_store w) = (Ok a, w_store w') ∧ w_presence w' = w_presence w.
Proof. apply on_store_inv. Qed.

Lemma capacity_checked a d1 d2 now (w w' : World T) :
  _ensure_capacity a d1 d2 now w = (Ok tt, w') →
  w' = w ∧ let active := active_records now (list_for_account a (w_store w)) in
  length active < MAX_ACTIVE_TRANSFERS_PER_ACCOUNT ∧
  device_count d1 active < MAX_ACTIVE_TRANSFERS_PER_DEVICE ∧
  device_count d2 active < MAX_ACTIVE_TRANSFERS_PER_DEVICE.
Proof.
  intros Hc. unfold _ensure_capacity in Hc. apply bind_ok_inv in Hc as (records&w1&Hl&Hc).
  unfold on_store, zoom, gets in Hl. injection Hl as <- <-.
  destruct (_ || _ || _) eqn:Hfull; [done|]. unfold ret in Hc. injection Hc as <-.
  split; [by destruct w|]. to_prop. simpl in *. done.
Qed.

(** The presence side of a computation on the store alone. *)
Lemma validate_world a d1 d2 (w w' : World T) u :
  _validate_devices cfg a d1 d2 w = (Ok u, w') → w' = w.
Proof.
  unfold _validate_devices. destruct (tc_device_repository cfg); [|intros [= _ <-]; done].
  intros Hv. apply bind_ok_inv in Hv as (s&w1&Hs&Hv). apply bind_ok_inv in Hv as (r&w2&Hr&Hv).
  unfold device_of, on_store, zoom in Hs, Hr. injection Hs as _ <-. injection Hr as _ <-.
  destruct s, r; try done. destruct (_ || _ || _); [done|]. injection Hv as _ <-. by destruct w.
Qed.

Lemma notify_store now a d p (w : World T) : w_store (_notify cfg now a d p w).2 = w_store w.
Proof.
  unfold _notify. destruct (tc_presence_manager cfg); [|done].
  unfold bind, on_presence, zoom. destruct (send_to_device _ _ _ _ _ _) as [[?|?] ?]; done.
Qed.

(** C26: offers stay within capacity.  Creating an offer under the capacity
    lock never takes the account past 8 active transfers nor any device past
    4, and the offer made is the new last row of the store. *)
Theorem create_offer_within_capacity c at_ new_id a d1 d2 v r (w w' : World T) :
  world_ok w → new_id ∉ map tr_id (transfer_rows (w_store w)) →
  within_capacity (c 0%nat) a (transfer_rows (w_store w)) →
  create_offer cfg c at_ new_id a d1 d2 v w = (Ok r, w') →
  within_capacity (c 0%nat) a (transfer_rows (w_store w')) ∧
  transfer_rows (w_store w') = transfer_rows (w_store w) ++ [r] ∧
  tr_user_id r = a ∧ tr_sender_device_id r = d1 ∧ tr_recipient_device_id r = d2 ∧
  tr_status r = "offered" ∧ tr_protocol_version r = TRANSFER_PROTOCOL_VERSION.
Proof.
  intros Hok Hid [Hcap Hdev] Hcr. unfold create_offer in Hcr.
  case_bool_decide as Hv; [done|]. case_bool_decide; [done|].
  apply bind_ok_inv in Hcr as ([]&w1&Hval%validate_world&Hcr). subst w1.
  apply bind_ok_inv in Hcr as (r'&w2&Hcreate&Hcr). apply bind_ok_inv in Hcr as ([]&w3&Hn&[= <- <-]).
  pose proof (notify_store (c 1%nat) a d2 (transfer_notification r' "transfer_offer") w2) as Hst.
  rewrite Hn in Hst. simpl in Hst. rewrite Hst. unfold create_checked in Hcreate.
  apply bind_ok_inv in Hcreate as ([]&w4&[-> (Hc1&Hc2&Hc3)]%capacity_checked&Hcreate).
  apply on_store_ok_inv in Hcreate as [Hcreate _].
  destruct Hok as (_&Hr&_).
  destruct (create_result _ _ _ _ _ _ _ _ _ _ Hr Hcreate) as (_&_&Hu&Hs&Hrec&Hver&Hstat&_&_).
  apply create_appends in Hcreate as [Hrows Hserved]; [|done..]. rewrite Hrows.
  split; [|split_and!; congruence].
  pose proof (active_records_perm (c 0%nat) _ _ (list_for_account_all a (w_store w) Hr Hserved)) as Hperm.
  rewrite (Permutation_length Hperm) in Hc1. rewrite (device_count_perm d1 _ _ Hperm) in Hc2.
  rewrite (device_count_perm d2 _ _ Hperm) in Hc3. fold (account_rows a (transfer_rows (w_store w))) in Hc1, Hc2, Hc3.
  unfold within_capacity, account_rows in *. unfold active_records, device_count in *.
  rewrite !List.filter_app. cbn [List.filter]. rewrite Hu, bool_decide_true by done. cbn [List.filter].
  match goal with |- context [if ?b then [r'] else []] => destruct b end.
  2: { rewrite app_nil_r. done. }
  rewrite length_app. simpl. split; [lia|]. intros d. rewrite List.filter_app, length_app. simpl.
  specialize (Hdev d). case_bool_decide as Hd; simpl; [|lia]. rewrite Hs, Hrec in Hd.
  apply elem_of_cons in Hd as [->| ->%list_elem_of_singleton]; lia.
Qed.

(** ** Handlers are world steps *)

Lemma r_notify now a d p : respects runs (_notify (T := T) cfg now a d p).
Proof. unfold _notify. walk. Qed.
#[local] Hint Resolve r_notify : respects.

Lemma r_notify_participants c a r p : respects runs (_notify_participants (T := T) cfg c a r p).
Proof. unfold _notify_participants. walk. Qed.

Lemma r_release i : respects runs (_release (T := T) cfg i).
Proof. unfold _release. walk. Qed.
#[local] Hint Resolve r_notify_participants r_release : respects.

Lemma r_expire c at_ a i : respects runs (expire_stale (T := T) cfg c at_ a i).
Proof. unfold expire_stale. walk. Qed.
#[local] Hint Resolve r_expire : respects.

Lemma r_current c at_ a i : respects runs (_current_or_expire (T := T) cfg c at_ a i).
Proof. unfold _current_or_expire. walk. Qed.
#[local] Hint Resolve r_current : respects.

Lemma r_accept c at_ a i d : respects runs (accept_offer (T := T) cfg c at_ a i d).
Proof. unfold accept_offer. walk. Qed.
Lemma r_reject_offer c at_ a i d : respects runs (reject_offer (T := T) cfg c at_ a i d).
Proof. unfold reject_offer. walk. Qed.
Lemma r_cancel c at_ a i d : respects runs (cancel_transfer (T := T) cfg c at_ a i d).
Proof. unfold cancel_transfer. walk. Qed.

Lemma lawful_device a d : respects lawful (λ t : T, (device_by_id a d t, t)).
Proof. intros t. simpl. reflexivity. Qed.
#[local] Hint Resolve lawful_device : respects.

Lemma r_peer_key c at_ a i d e : respects runs (get_peer_device_key (T := T) cfg c at_ a i d e).
Proof. unfold get_peer_device_key, device_of. walk. Qed.

Lemma r_list_loop a rs cs : respects runs (list_loop (T := T) cfg cs a rs).
Proof.
  revert cs. induction rs as [|r rs IH]; intros cs; simpl; [walk|]. destruct (cs 0%nat). walk.
Qed.

(** ** Authorisation and release *)

Definition released (i : UUID) (w : World T) : Prop :=
  dict_get i (pm_signaling (w_presence w)) = None.

Lemma presence_released i {A} (m : M Presence A) (w : World T) :
  respects (rtc pblock) m → world_ok w → released i w → released i (on_presence m w).2.
Proof.
  intros Hm Hok Hrel. unfold on_presence. rewrite zoom_snd. unfold released in *. simpl.
  specialize (Hm (w_presence w)). destruct Hok as [Hp _].
  induction Hm as [s|s s1 s' Hstep _ IH]; [done|].
  apply IH; [by eapply pblock_ok|]. destruct (dict_get i (pm_signaling s1)) eqn:Hg; [|done].
  apply (pblock_signaling s s1 i _ Hstep Hp) in Hg. congruence.
Qed.

Lemma notify_released i now a d p (w : World T) :
  world_ok w → released i w → released i (_notify cfg now a d p w).2.
Proof.
  intros Hok Hrel. unfold _notify. destruct (tc_presence_manager cfg); [|done].
  pose proof (presence_released i (send_to_device (tc_heartbeat_timeout cfg) now a d p) w
    ltac:(auto with respects) Hok Hrel) as Hs.
  unfold bind. by destruct (on_presence _ w) as [[?|?] ?].
Qed.

Lemma release_released i (w w' : World T) u :
  world_ok w → tc_presence_manager cfg = true → _release cfg i w = (Ok u, w') → released i w' ∧ w_store w' = w_store w.
Proof.
  intros [(_&_&Hd&_) _] Hpm. unfold _release. rewrite Hpm. intros Hr.
  apply bind_ok_inv in Hr as ([]&w1&[Hrel Hs1]%on_presence_inv&[Hm Hs]%on_presence_inv).
  split; [|congruence]. unfold released.
  assert (pm_signaling (w_presence w') = pm_signaling (w_presence w1)) as ->.
  { unfold modify in Hm. injection Hm as _ <-. done. }
  unfold release_transfer, _clear_signaling_state in Hrel.
  apply bind_ok_inv in Hrel as (b&s1&Hrel&Hcount).
  assert (pm_signaling (w_presence w1) = pm_signaling s1) as ->.
  { unfold modify, ret in Hcount. destruct b; injection Hcount as <-; try done. }
  unfold _release_signaling, bind, gets in Hrel. simpl in Hrel.
  destruct (dict_get i (pm_signaling (w_presence w))) as [usage|] eqn:Hg.
  - injection Hrel as _ <-. simpl. by apply dict_get_del_eq.
  - injection Hrel as _ <-. done.
Qed.

Lemma notify_participants_quiet i c a r p (w : World T) :
  world_ok w → released i w →
  w_store (_notify_participants cfg c a r p w).2 = w_store w ∧
  released i (_notify_participants cfg c a r p w).2.
Proof.
  intros Hok Hrel. unfold _notify_participants, bind.
  pose proof (notify_store (c 0%nat) a (tr_sender_device_id r) p w) as Hs.
  pose proof (notify_released i (c 0%nat) a (tr_sender_device_id r) p w Hok Hrel) as Hr.
  pose proof (r_notify (c 0%nat) a (tr_sender_device_id r) p w Hok) as Hsteps.
  destruct (_notify cfg _ _ _ _ w) as [[u|e] w1]; simpl in *; [|done].
  case_bool_decide; simpl; [|done]. rewrite notify_store. split; [done|].
  apply notify_released; [|done]. by eapply wsteps_ok.
Qed.

(** The tail of the operations that end a transfer. *)
Lemma ending_inv i (notice : M (World T) unit) (r r' : TransferRequestRecord) (w w' : World T) :
  world_ok w → tc_presence_manager cfg = true →
  (∀ w1, world_ok w1 → released i w1 → w_store (notice w1).2 = w_store w1 ∧ released i (notice w1).2) →
  (do! _release cfg i in do! notice in ret r) w = (Ok r', w') →
  r' = r ∧ w_store w' = w_store w ∧ released i w'.
Proof.
  intros Hok Hpm Hn Hend.
  apply bind_ok_inv in Hend as ([]&w1&Hrel&Hend). apply bind_ok_inv in Hend as ([]&w2&Hnote&[= <- <-]).
  pose proof (r_release i w Hok) as Hsteps. rewrite Hrel in Hsteps.
  assert (world_ok w1) as Hok1 by by eapply wsteps_ok.
  apply release_released in Hrel as [Hrel Hs1]; [|done..].
  destruct (Hn w1 Hok1 Hrel) as [Hs2 Hr2]. rewrite Hnote in Hs2, Hr2. simpl in *. split_and!; congruence.
Qed.

Lemma run_ok {A} (m : M (World T) A) (w w' : World T) o :
  respects runs m → m w = (o, w') → world_ok w → world_ok w'.
Proof. intros Hm Hr Hok. specialize (Hm w Hok). rewrite Hr in Hm. by eapply wsteps_ok. Qed.

(** What the store holds of transfer [i] after it ended. *)
Definition ended (a i : UUID) (r : TransferRequestRecord) (w : World T) : Prop :=
  r ∈ transfer_rows (w_store w) ∧ tr_id r = i ∧ tr_user_id r = a ∧ terminal (tr_status r).

Lemma moved_ended t t' now a i from to unexpired r p :
  moved t t' now a i from to unexpired r → t' = transfer_rows (p : T) → terminal to →
  ∀ pr, ended a i r (Build_World pr p).
Proof.
  intros (old&_&Hr&Hid&Hu&_&Hst&(Hsame&Hsu&_)&_) -> Ht pr. unfold ended. simpl.
  split_and!; congruence.
Qed.

Lemma expire_ends c at_ a i (w w' : World T) r :
  world_ok w → tc_presence_manager cfg = true → expire_stale cfg c at_ a i w = (Ok r, w') →
  ended a i r w' ∧ tr_status r = "expired" ∧ released i w'.
Proof.
  intros Hok Hpm He. apply bind_ok_inv in He as ([r1|]&w1&He&Hend); [|done].
  assert (world_ok w1) as Hok1 by (eapply run_ok; [|exact He|exact Hok]; auto with respects).
  apply on_store_inv in He as [He _].
  apply ending_inv in Hend as (->&Hs&Hrel); [|done..|intros; by apply notify_participants_quiet].
  destruct Hok as (_&Hr&_). apply expire_result in He as (k&Hm); [|done].
  destruct w' as [p' s']. simpl in Hs. subst s'. split_and!; [|by destruct Hm as (?&?&?&?&?&?&?&?)|done].
  eapply moved_ended; [exact Hm|done|reflexivity].
Qed.

Lemma rejects_ends c at_ a i d (w w' : World T) r :
  world_ok w → tc_presence_manager cfg = true → reject_offer cfg c at_ a i d w = (Ok r, w') →
  ended a i r w' ∧ tr_status r = "rejected" ∧ tr_recipient_device_id r = d ∧ released i w'.
Proof.
  intros Hok Hpm He. apply bind_ok_inv in He as (current&w0&Hc&He).
  destruct (negb (offered current)); [done|].
  assert (world_ok w0) as Hok0 by (eapply run_ok; [|exact Hc|exact Hok]; auto with respects).
  apply bind_ok_inv in He as ([r1|]&w1&He&Hend); [|done].
  assert (world_ok w1) as Hok1 by (eapply run_ok; [|exact He|exact Hok0]; auto with respects).
  apply on_store_inv in He as [He _].
  apply ending_inv in Hend as (->&Hs&Hrel); [|done..|].
  2: { intros w2 Hok2 Hrel2. rewrite notify_store. split; [done|by apply notify_released]. }
  destruct Hok0 as (_&Hr&_). apply reject_result in He as [Hm Hd]; [|done].
  destruct w' as [p' s']. simpl in Hs. subst s'. split_and!; [|by destruct Hm as (?&?&?&?&?&?&?&?)|done..].
  eapply moved_ended; [exact Hm|done|reflexivity].
Qed.

Lemma cancels_ends c at_ a i d (w w' : World T) r :
  world_ok w → tc_presence_manager cfg = true → cancel_transfer cfg c at_ a i d w = (Ok r, w') →
  ended a i r w' ∧ tr_status r = "cancelled" ∧
  (tr_sender_device_id r = d ∨ tr_recipient_device_id r = d) ∧ released i w'.
Proof.
  intros Hok Hpm He. apply bind_ok_inv in He as (current&w0&Hc&He).
  match type of He with (if ?b then _ else _) _ = _ => destruct b end; [done|].
  assert (world_ok w0) as Hok0 by (eapply run_ok; [|exact Hc|exact Hok]; auto with respects).
  apply bind_ok_inv in He as ([r1|]&w1&He&Hend); [|done].
  assert (world_ok w1) as Hok1 by (eapply run_ok; [|exact He|exact Hok0]; auto with respects).
  apply on_store_inv in He as [He _].
  apply ending_inv in Hend as (->&Hs&Hrel); [|done..|intros; by apply notify_participants_quiet].
  destruct Hok0 as (_&Hr&_). apply cancel_result in He as [Hm Hd]; [|done].
  destruct w' as [p' s']. simpl in Hs. subst s'. split_and!; [|by destruct Hm as (?&?&?&?&?&?&?&?)|done..].
  eapply moved_ended; [exact Hm|done|reflexivity].
Qed.

(** Ending a transfer.  When the service rejects, cancels or expires a
    transfer, the record is the account's stored transfer in a terminal
    status, rejected only by its recipient and cancelled only by one of its
    two devices; and its signaling budget is gone when the call returns. *)
Theorem ended_transfer_released c at_ a i d (w w' : World T) r :
  world_ok w → tc_presence_manager cfg = true →
  (reject_offer cfg c at_ a i d w = (Ok r, w') →
     ended a i r w' ∧ tr_status r = "rejected" ∧ tr_recipient_device_id r = d ∧ released i w') ∧
  (cancel_transfer cfg c at_ a i d w = (Ok r, w') →
     ended a i r w' ∧ tr_status r = "cancelled" ∧
     (tr_sender_device_id r = d ∨ tr_recipient_device_id r = d) ∧ released i w') ∧
  (expire_stale cfg c at_ a i w = (Ok r, w') →
     ended a i r w' ∧ tr_status r = "expired" ∧ released i w').
Proof.
  intros Hok Hpm. split_and!; intros Hr.
  - by eapply rejects_ends.
  - by eapply cancels_ends.
  - by eapply expire_ends.
Qed.

(** Accepting.  An accepted offer is the account's own, its deadline
    ahead when the store moved it, and the accepting device is its
    recipient. *)
Theorem accept_offer_authorised c at_ a i d (w w' : World T) r :
  world_ok w → accept_offer cfg c at_ a i d w = (Ok r, w') →
  r ∈ transfer_rows (w_store w') ∧ tr_id r = i ∧ tr_user_id r = a ∧ tr_recipient_device_id r = d ∧
  tr_status r = "accepted" ∧ (at_clock (at_ 2%nat) < tr_expires_at r)%Z.
Proof.
  intros Hok Ha. apply bind_ok_inv in Ha as (current&w0&Hc&Ha).
  destruct (negb (offered current)); [done|].
  assert (world_ok w0) as Hok0 by (eapply run_ok; [|exact Hc|exact Hok]; auto with respects).
  apply bind_ok_inv in Ha as ([r1|]&w1&[Ha _]%on_store_inv&Hend); [|done].
  apply bind_ok_inv in Hend as ([]&w2&Hn&[= <- <-]).
  pose proof (notify_store (c 3%nat) a (tr_sender_device_id r1) (transfer_notification r1 "transfer_accepted") w1) as Hs.
  rewrite Hn in Hs. simpl in Hs. rewrite Hs.
  destruct Hok0 as (_&Hr&_). apply accept_result in Ha as [Hm Hd]; [|done].
  destruct Hm as (old&_&Hin&Hid&Hu&_&Hst&(Hsid&Hsu&_&_&_&_&Hse)&Hexp).
  unfold later_r in Hexp. simpl in Hexp. split_and!; congruence || lia || done.
Qed.

(** What only talks to the sockets leaves the store. *)
Definition same_store (w w' : World T) : Prop := w_store w' = w_store w.

#[local] Instance same_store_preorder : PreOrder same_store.
Proof. split; unfold same_store; [done|]. intros ???? ?. congruence. Qed.

Lemma quiet_on_presence {A} (m : M Presence A) : respects same_store (on_presence m).
Proof. intros w. unfold on_presence. rewrite zoom_snd. done. Qed.
#[local] Hint Resolve quiet_on_presence : respects.

Lemma quiet_notify now a d p : respects same_store (_notify (T := T) cfg now a d p).
Proof. unfold _notify. walk. Qed.
#[local] Hint Resolve quiet_notify : respects.

Lemma quiet_notify_participants c a r p : respects same_store (_notify_participants (T := T) cfg c a r p).
Proof. unfold _notify_participants. walk. Qed.

Lemma quiet_release i : respects same_store (_release (T := T) cfg i).
Proof. unfold _release. walk. Qed.
#[local] Hint Resolve quiet_notify_participants quiet_release : respects.

Lemma expire_stale_moved c at_ a i (w w' : World T) r :
  world_ok w → expire_stale cfg c at_ a i w = (Ok r, w') →
  ∃ k, moved (transfer_rows (w_store w)) (transfer_rows (w_store w')) (at_clock (at_ k)) a i
         _ACTIVE_STATUSES "expired" false r.
Proof.
  intros (_&Hr&_) He. apply bind_ok_inv in He as ([r1|]&w1&[He _]%on_store_inv&Hend); [|done].
  assert (respects same_store (do! _release (T := T) cfg i in
    do! _notify_participants cfg c a r1 (transfer_notification r1 "transfer_expired") in ret r1)) as Hq by walk.
  specialize (Hq w1). rewrite Hend in Hq. unfold same_store in Hq. simpl in Hq. rewrite Hq.
  apply bind_ok_inv in Hend as (?&?&_&Hend). apply bind_ok_inv in Hend as (?&?&_&[= <- _]).
  by apply expire_result in He.
Qed.

Lemma read_owned a i o (w w' : World T) :
  world_ok w → on_store (gets (get_by_id a i)) w = (Ok o, w') →
  w' = w ∧ ∀ r, o = Some r → r ∈ transfer_rows (w_store w) ∧ tr_id r = i ∧ tr_user_id r = a.
Proof.
  intros (_&Hr&_) Hg. unfold on_store, zoom, gets in Hg. injection Hg as <- <-.
  split; [by destruct w|]. intros r' Hr'. by apply get_by_id_owned.
Qed.

Lemma current_owned c at_ a i (w w' : World T) r :
  world_ok w → _current_or_expire cfg c at_ a i w = (Ok (Some r), w') →
  r ∈ transfer_rows (w_store w') ∧ tr_id r = i ∧ tr_user_id r = a.
Proof.
  intros Hok Hc. unfold _current_or_expire in Hc.
  apply bind_ok_inv in Hc as (o&w1&[-> Hg]%read_owned&Hc); [|done].
  destruct o as [r0|]; [|done]. specialize (Hg r0 eq_refl).
  destruct (negb (status_in r0 _)); [by injection Hc as -> <-|].
  destruct (c 0%nat <? tr_expires_at r0)%Z; [by injection Hc as -> <-|].
  unfold try_except in Hc.
  match type of Hc with context [match ?m w with _ => _ end] => destruct (m w) as [[o|e] w2] eqn:Hm end.
  - injection Hc as -> <-. apply bind_ok_inv in Hm as (r1&w3&He&[= -> <-]).
    apply expire_stale_moved in He as (k&old&_&Hin&Hid&Hu&_&_&(Hsid&Hsu&_)&_); [|done].
    split_and!; congruence || done.
  - destruct (is_transfer_error e); [|done].
    assert (world_ok w2) as Hok2 by (eapply run_ok; [|exact Hm|exact Hok]; walk).
    apply read_owned in Hc as [-> Hg2]; [|done]. by apply Hg2.
Qed.

(** C27: who gets a peer's key.  The device returned is the other party of a
    stored offer or negotiation of the caller's own account in which the
    caller takes part; both devices are active, of that account and of one
    epoch, the session's own where it is given. *)
Theorem peer_key_authorised c at_ a i d epoch (w w' : World T) peer :
  world_ok w → get_peer_device_key cfg c at_ a i d epoch w = (Ok peer, w') →
  ∃ r actor p,
    r ∈ transfer_rows (w_store w') ∧ tr_id r = i ∧ tr_user_id r = a ∧
    tr_status r ∈ TRANSFER_PEER_KEY_STATUSES ∧
    (d = tr_sender_device_id r ∧ p = tr_recipient_device_id r ∨
     d = tr_recipient_device_id r ∧ p = tr_sender_device_id r) ∧
    device_by_id a d (w_store w') = Ok (Some actor) ∧ device_by_id a p (w_store w') = Ok (Some peer) ∧
    dev_user_id actor = a ∧ dev_user_id peer = a ∧
    dev_status actor = "active" ∧ dev_status peer = "active" ∧ dev_epoch actor = dev_epoch peer ∧
    (∀ e, epoch = Some e → dev_epoch peer = e).
Proof.
  intros Hok Hp. apply bind_ok_inv in Hp as ([r|]&w1&Hc&Hp); [|done].
  apply current_owned in Hc as (Hin&Hid&Hu); [|done].
  destruct (status_in r TRANSFER_PEER_KEY_STATUSES) eqn:Hst; [|done].
  cbn [negb] in Hp. case_bool_decide as Hd; [done|]. destruct (tc_device_repository cfg); [|done].
  unfold device_of in Hp. apply bind_ok_inv in Hp as (actor&w2&[Ha _]%on_store_inv&Hp).
  apply bind_ok_inv in Hp as (peer'&w3&[Hb _]%on_store_inv&Hp).
  injection Ha as Ha Hw2. injection Hb as Hb Hw3. rewrite <- Hw2 in *.
  destruct actor as [actor|], peer' as [peer'|]; try done.
  destruct (peer_devices_ok a epoch actor peer') eqn:Hdev; [|done]. injection Hp as -> <-.
  unfold peer_devices_ok in Hdev. to_prop. rewrite <- Hw3. unfold status_in in Hst. to_prop.
  exists r, actor, (if decide (d = tr_sender_device_id r) then tr_recipient_device_id r else tr_sender_device_id r).
  split_and!; try done.
  - case_decide; [by left|]. right. split; [set_solver|done].
  - intros e ->. to_prop. done.
Qed.

(** ** Every interleaving *)

Lemma wsteps_evolve (w w' : World T) : rtc wstep w w' → world_ok w → evolves (w_store w) (w_store w').
Proof.
  induction 1 as [w|w w1 w' Hstep _ IH]; intros Hok; [reflexivity|].
  etrans; [|by apply IH; eapply wstep_ok]. destruct Hstep as [| |t Hlaw]; [reflexivity..|].
  destruct Hok as (_&Hr&_). by apply Hlaw.
Qed.

Lemma signaling_not_terminal s : s ∈ SIGNALING_ACTIVE_STATUSES → ¬ terminal s.
Proof.
  unfold SIGNALING_ACTIVE_STATUSES. rewrite !elem_of_cons, elem_of_nil.
  intros Hs. assert (bool_decide (terminal s) = false) as Hb; [|by apply bool_decide_eq_false in Hb].
  destruct_or! Hs; by subst.
Qed.

(** An ended transfer never signals again.  Once the store holds a
    transfer in a terminal status, no message naming it is forwarded, whatever
    sockets, handlers and store changes run in between. *)
Theorem ended_never_signals pcfg c moves connection message (w w1 w2 : World T) r s recipient ty :
  world_ok w → r ∈ transfer_rows (w_store w) → terminal (tr_status r) → rtc wstep w w1 →
  _parse_signaling_message message (c 1%nat) = Ok (Some (tr_id r, s, recipient, ty)) →
  forward_signaling pcfg c moves connection message w1 ≠ (Ok true, w2).
Proof.
  intros Hok Hr Hterm Hsteps Hparse Hf.
  apply forwarded_result in Hf as (t&s'&r'&ty'&transfer&_&_&Hparse'&Hg&Ha&_).
  assert (t = tr_id r) as -> by congruence.
  pose proof (wsteps_ok _ _ Hsteps Hok) as (_&Hr1&_).
  apply get_by_id_owned in Hg as (Hin&Hid&_); [|done].
  destruct (wsteps_evolve _ _ Hsteps Hok r Hr) as (r1&Hr1in&(Hsid&_)&Hst&_).
  assert (r1 = transfer) as -> by (eapply ids_unique; eauto; congruence).
  apply terminal_final in Hst; [|done]. unfold _active_transfer in Ha. to_prop.
  apply (signaling_not_terminal (tr_status transfer)); [done|]. by rewrite Hst.
Qed.

Lemma create_runs c at_ u a d1 d2 v (w : World T) :
  u ∉ map tr_id (transfer_rows (w_store w)) → runs w (create_offer cfg c at_ u a d1 d2 v w).2.
Proof.
  intros Hu Hok. unfold create_offer. do 2 (case_bool_decide; [apply rtc_refl|]).
  unfold bind at 1. destruct (_validate_devices cfg a d1 d2 w) as [[[]|e] w1] eqn:Hv.
  2: { simpl. assert (respects runs (_validate_devices (T := T) cfg a d1 d2)) as Hr.
       { unfold _validate_devices, device_of. walk. }
       specialize (Hr w Hok). by rewrite Hv in Hr. }
  apply validate_world in Hv. subst w1. unfold create_checked. unfold bind at 2.
  assert (respects runs (_ensure_capacity (T := T) a d1 d2 (c 0%nat))) as Hcap.
  { unfold _ensure_capacity. walk. }
  specialize (Hcap w Hok). unfold bind at 1.
  destruct (_ensure_capacity a d1 d2 (c 0%nat) w) as [[[]|e] w1] eqn:He; [|done].
  apply capacity_checked in He as [-> _].
  unfold on_store at 1, zoom at 1.
  pose proof (create_lawful at_ u a d1 d2 v (c 0%nat + tc_lifetime cfg)%Z (w_store w) Hu) as Hlaw.
  destruct (create _ _ _ _ _ _ _ (w_store w)) as [[r|e] t]; simpl in Hlaw.
  2: { simpl. apply rtc_once. by apply (w_repository w t). }
  assert (wstep w (Build_World (w_presence w) t)) as Hs by by apply w_repository.
  eapply rtc_l; [exact Hs|].
  match goal with |- rtc wstep ?w1 (?m ?w1).2 => assert (respects runs m) as Hm by walk; apply Hm end.
  by eapply wstep_ok.
Qed.

(** The handlers run as steps.  Every service operation is a sequence of
    the atomic steps the limits of the presence manager are proved for; a new
    offer's identifier is assumed fresh. *)
Theorem service_is_steps (w : World T) :
  world_ok w →
  (∀ c at_ u a d1 d2 v, u ∉ map tr_id (transfer_rows (w_store w)) →
     rtc wstep w (create_offer cfg c at_ u a d1 d2 v w).2) ∧
  (∀ c at_ a i d, rtc wstep w (accept_offer cfg c at_ a i d w).2) ∧
  (∀ c at_ a i d, rtc wstep w (reject_offer cfg c at_ a i d w).2) ∧
  (∀ c at_ a i d, rtc wstep w (cancel_transfer cfg c at_ a i d w).2) ∧
  (∀ c at_ a i, rtc wstep w (expire_stale cfg c at_ a i w).2) ∧
  (∀ c at_ a i d e, rtc wstep w (get_peer_device_key cfg c at_ a i d e w).2) ∧
  (∀ cs a, rtc wstep w (list_transfers_for cfg cs a w).2).
Proof.
  intros Hok. split_and!; intros.
  - by apply create_runs.
  - by apply r_accept.
  - by apply r_reject_offer.
  - by apply r_cancel.
  - by apply r_expire.
  - by apply r_peer_key.
  - assert (respects runs (list_transfers_for (T := T) cfg cs a)) as Hl; [|by apply Hl].
    unfold list_transfers_for. pose proof r_list_loop. walk.
Qed.
End theorems.

(** ** Witnesses *)

Definition service1 : TransferServiceConfig :=
  {| tc_presence_manager := true; tc_device_repository := true;
     tc_lifetime := TRANSFER_REQUEST_LIFETIME; tc_heartbeat_timeout := PRESENCE_HEARTBEAT_TIMEOUT |}.

(** The world in which device 10 has sent its session offer for transfer 100. *)
Definition world4 : World MemTransfers :=
  (forward_signaling config1 (still 10) (at_time 10) socket10 offer_message world2).2.

Lemma world4_ok : world_ok world4.
Proof. eapply wsteps_ok; [apply (r_forward config1), world2_ok|apply world2_ok]. Qed.

Definition created (w : World MemTransfers) : outcome TransferRequestRecord * World MemTransfers :=
  create_offer service1 (still 10) (at_time 10) 101 1 10 11 1 w.

Lemma create_offer_within_capacity_witness :
  within_capacity 10 1 (transfer_rows (w_store (created world2).2)) ∧
  length (transfer_rows (w_store (created world2).2)) = 2.
Proof.
  destruct (created world2) as [[r|e] w'] eqn:Hc; [|vm_compute in Hc; discriminate Hc]. unfold created in Hc.
  assert (within_capacity (still 10 0%nat) 1 (transfer_rows (w_store world2))) as Hcap.
  { split; [vm_compute; lia|]. intros d. etrans; [unfold device_count; apply filter_length_le|]. vm_compute. lia. }
  destruct (create_offer_within_capacity service1 (still 10) (at_time 10) 101 1 10 11 1 r world2 w' world2_ok
    ltac:(vm_compute; by intros ?%list_elem_of_singleton) Hcap Hc) as (H1&H2&_).
  cbn [snd]. split; [exact H1|]. rewrite H2. reflexivity.
Defined.

Lemma ended_transfer_released_witness :
  ∃ r, (cancel_transfer service1 (still 20) (at_time 20) 1 100 11 world4).1 = Ok r ∧
    tr_status r = "cancelled" ∧
    dict_get 100%N (pm_signaling (w_presence world4)) ≠ None ∧
    released 100 (cancel_transfer service1 (still 20) (at_time 20) 1 100 11 world4).2.
Proof.
  destruct (cancel_transfer service1 (still 20) (at_time 20) 1 100 11 world4) as [[r|e] w'] eqn:Hc;
    [|vm_compute in Hc; discriminate Hc].
  destruct (ended_transfer_released service1 (still 20) (at_time 20) 1 100 11 world4 w' r world4_ok eq_refl)
    as (_&H&_). destruct (H Hc) as (_&H1&_&H2).
  exists r. split_and!; [done..|vm_compute; discriminate|exact H2].
Defined.

Lemma accept_offer_authorised_witness :
  ∃ r, (accept_offer service1 (still 10) (at_time 10) 1 100 11 world2).1 = Ok r ∧
    tr_status r = "accepted" ∧ (10 < tr_expires_at r)%Z.
Proof.
  destruct (accept_offer service1 (still 10) (at_time 10) 1 100 11 world2) as [[r|e] w'] eqn:Hc;
    [|vm_compute in Hc; discriminate Hc].
  destruct (accept_offer_authorised service1 (still 10) (at_time 10) 1 100 11 world2 w' r world2_ok Hc)
    as (_&_&_&_&H1&H2).
  exists r. by split_and!.
Defined.

Lemma peer_key_authorised_witness :
  ∃ peer, (get_peer_device_key service1 (still 10) (at_time 10) 1 100 11 (Some 0%Z) world2).1 = Ok peer ∧
    dev_user_id peer = 1%N ∧ dev_epoch peer = 0%Z.
Proof.
  destruct (get_peer_device_key service1 (still 10) (at_time 10) 1 100 11 (Some 0%Z) world2) as [[peer|e] w'] eqn:Hc;
    [|vm_compute in Hc; discriminate Hc].
  destruct (peer_key_authorised service1 (still 10) (at_time 10) 1 100 11 (Some 0%Z) world2 w' peer world2_ok Hc)
    as (r&actor&p&_&_&_&_&_&_&_&_&H1&_&_&_&H2).
  exists peer. split_and!; [done..|]. by apply H2.
Defined.

(** Transfer 100 after its recipient rejected it. *)
Definition world5 : World MemTransfers :=
  (reject_offer service1 (still 20) (at_time 20) 1 100 11 world4).2.

Lemma world5_ok : world_ok world5.
Proof. eapply wsteps_ok; [apply r_reject_offer, world4_ok|apply world4_ok]. Qed.

Lemma ended_never_signals_witness :
  (forward_signaling config1 (still 30) (at_time 30) socket10 offer_message world5).1 ≠ Ok true.
Proof.
  destruct (forward_signaling config1 (still 30) (at_time 30) socket10 offer_message world5) as [o w'] eqn:Hf.
  simpl. intros ->. revert Hf.
  apply (ended_never_signals config1 (still 30) (at_time 30) socket10 offer_message world5 world5 w'
    (tr_replace offer_v1 "rejected" None None None) 10 11 "sdp_offer" world5_ok).
  - vm_compute. left.
  - vm_compute. reflexivity.
  - apply rtc_refl.
  - vm_compute. reflexivity.
Defined.

Lemma service_is_steps_witness :
  rtc wstep world2 (accept_offer service1 (still 10) (at_time 10) 1 100 11 world2).2.
Proof.
  destruct (service_is_steps service1 world2 world2_ok) as (_&H&_).
  exact (H (still 10) (at_time 10) 1%N 100%N 11%N).
Defined.
