(* ===== verification/Accounts.v ===== *)
(** * Accounts: [repositories/accounts.py] and the account stores of [app/auth.py]

    The account repository on PostgreSQL, the store [auth.py] builds on it, the
    in-memory store of the test application, and the interface both give the
    authentication services. *)
From S2P Require Import Prelude PyDict Json Models Sql Schema.
From stdpp Require Import list strings.

(** [AccountStore]: [now] is the database's clock, [created_at] the instant
    the caller passes. *)
Class AccountStore (S : Type) := {
  get_or_create : timestamp → UUID → UUID → pystr → timestamp → M S AccountRecord;
  account_by_id : UUID → M S (option AccountRecord);
  account_by_email : pystr → M S (option AccountRecord);
  mark_email_fallback : UUID → timestamp → M S (option AccountRecord) }.

(** The two refusals of [get_or_create]. *)
Definition same_email (email_normalized : pystr) (account : AccountRecord) : outcome AccountRecord :=
  if bool_decide (acc_email_normalized account ≠ email_normalized) then Raise ValueError else Ok account.
Definition same_identity (supabase_user_id : UUID) (account : AccountRecord) : outcome AccountRecord :=
  if bool_decide (acc_supabase_user_id account ≠ supabase_user_id) then Raise ValueError else Ok account.

(** ** [AccountRepository] and [RepositoryAccountStore] *)
Module Pg.
Definition lookup (cond : AccountRecord → bool) (db : Db) : option AccountRecord :=
  first_row (select (λ a, cond a && account_live a) (app_users db)).

Definition get_by_id (account_id : UUID) : M Db (option AccountRecord) :=
  gets (lookup (λ a, bool_decide (acc_id a = account_id))).
Definition get_by_supabase_user_id (supabase_user_id : UUID) : M Db (option AccountRecord) :=
  gets (lookup (λ a, bool_decide (acc_supabase_user_id a = supabase_user_id))).
Definition get_by_email (email_normalized : pystr) : M Db (option AccountRecord) :=
  gets (lookup (λ a, bool_decide (acc_email_normalized a = email_normalized))).

Section create.
(** The identities of the [auth.users] table the provider keeps. *)
Variable auth_user : UUID → bool.

(** [id] is the [gen_random_uuid()] default. *)
Definition create (now : timestamp) (id supabase_user_id : UUID) (email_normalized : pystr) : M Db AccountRecord :=
  let! rows := on_app_users (insert_returning
      (λ t r, account_admits t r && auth_user (acc_supabase_user_id r))
      [{| acc_id := id; acc_supabase_user_id := supabase_user_id; acc_email_normalized := email_normalized;
          acc_device_epoch := 0; acc_created_at := now; acc_email_fallback_at := None; acc_deleted_at := None |}]) in
  lift (required_row rows).

Definition get_or_create (now : timestamp) (id supabase_user_id : UUID) (email_normalized : pystr)
    (created_at : timestamp) : M Db AccountRecord :=
  let! account := get_by_supabase_user_id supabase_user_id in
  match account with
  | Some account => lift (same_email email_normalized account)
  | None =>
      let! existing := get_by_email email_normalized in
      match existing with
      | Some existing => lift (same_identity supabase_user_id existing)
      | None => create now id supabase_user_id email_normalized
      end
  end.
End create.

Definition mark_email_fallback (account_id : UUID) (at_ : timestamp) : M Db (option AccountRecord) :=
  let! rows := on_app_users (update_returning account_check
      (λ a, bool_decide (acc_id a = account_id) && account_live a) (λ a, acc_with_email_fallback a at_)) in
  ret (first_row rows).
End Pg.

Definition pg_accounts (auth_user : UUID → bool) : AccountStore Db := {|
  get_or_create := Pg.get_or_create auth_user;
  account_by_id := Pg.get_by_id;
  account_by_email := Pg.get_by_email;
  mark_email_fallback := Pg.mark_email_fallback |}.

(** ** [InMemoryAccountStore] *)
Record MemAccounts := {
  ma_by_identity : dict UUID AccountRecord;
  ma_by_email : dict pystr AccountRecord }.

Module Mem.
Definition store (a : AccountRecord) (s : MemAccounts) : MemAccounts :=
  {| ma_by_identity := dict_set (acc_supabase_user_id a) a (ma_by_identity s);
     ma_by_email := dict_set (acc_email_normalized a) a (ma_by_email s) |}.

Definition get_or_create (id supabase_user_id : UUID) (email_normalized : pystr) (created_at : timestamp) :
    M MemAccounts AccountRecord :=
  λ s, match dict_get supabase_user_id (ma_by_identity s) with
       | Some account => (same_email email_normalized account, s)
       | None =>
           match dict_get email_normalized (ma_by_email s) with
           | Some existing => (same_identity supabase_user_id existing, s)
           | None =>
               let account :=
                 {| acc_id := id; acc_supabase_user_id := supabase_user_id;
                    acc_email_normalized := email_normalized; acc_device_epoch := 0;
                    acc_created_at := created_at; acc_email_fallback_at := None; acc_deleted_at := None |} in
               (Ok account, store account s)
           end
       end.

Definition get_by_id (account_id : UUID) : M MemAccounts (option AccountRecord) :=
  gets (λ s, first_match (λ a, bool_decide (acc_id a = account_id)) (dict_values (ma_by_identity s))).

Definition get_by_email (email_normalized : pystr) : M MemAccounts (option AccountRecord) :=
  gets (λ s, match dict_get email_normalized (ma_by_email s) with
             | Some a => if is_null (acc_deleted_at a) then Some a else None
             | None => None
             end).

Definition mark_email_fallback (account_id : UUID) (at_ : timestamp) : M MemAccounts (option AccountRecord) :=
  let! account := get_by_id account_id in
  match account with
  | Some a =>
      if is_null (acc_deleted_at a)
      then do! modify (store (acc_with_email_fallback a at_)) in ret (Some (acc_with_email_fallback a at_))
      else ret None
  | None => ret None
  end.
End Mem.

#[export] Instance mem_accounts : AccountStore MemAccounts := {
  get_or_create := λ _, Mem.get_or_create;
  account_by_id := Mem.get_by_id;
  account_by_email := Mem.get_by_email;
  mark_email_fallback := Mem.mark_email_fallback }.
