(* ===== verification/Devices.v ===== *)
(** * Devices: [repositories/devices.py]

    Trusted devices of an account, on PostgreSQL and in memory: registration,
    linking, activity, renaming, logout and revocation. *)
From S2P Require Import Prelude PyDict Json Models Sql Schema.
From S2P Require Sessions.
From stdpp Require Import list strings.

(** What the services use of a device repository; [now] is the store's clock. *)
Class DeviceStore (S : Type) := {
  device_by_id : UUID → UUID → M S (option DeviceRecord);
  devices_of : UUID → M S (list DeviceRecord);
  register_for_email : timestamp → UUID → Z → pystr → bytes → bytes → UUID → M S DeviceRecord;
  touch_device : timestamp → UUID → UUID → M S (option DeviceRecord);
  rename_device : UUID → UUID → pystr → M S (option DeviceRecord);
  revoke_device : timestamp → UUID → UUID → string → M S (option DeviceRecord);
  revoke_devices : timestamp → UUID → string → M S nat;
  logout_device : timestamp → UUID → UUID → string → M S (option DeviceRecord) }.

(** A new active device. *)
Definition new_device (id user_id : UUID) (epoch : Z) (label : pystr) (spki fingerprint : bytes)
    (at_ : timestamp) (linked_by : option UUID) : DeviceRecord :=
  {| dev_id := id; dev_user_id := user_id; dev_epoch := epoch; dev_label := label;
     dev_signing_public_key_spki := spki; dev_fingerprint := fingerprint; dev_status := "active";
     dev_created_at := at_; dev_last_seen_at := at_; dev_revoked_at := None;
     dev_linked_by_device_id := linked_by |}.

(** The updates of one device row. *)
Definition dev_activated (r : DeviceRecord) (epoch : Z) (label : pystr) (at_ : timestamp) : DeviceRecord :=
  dev_replace r epoch label "active" at_ (dev_revoked_at r).
Definition dev_touched (r : DeviceRecord) (at_ : timestamp) : DeviceRecord :=
  dev_replace r (dev_epoch r) (dev_label r) (dev_status r) at_ (dev_revoked_at r).
Definition dev_renamed (r : DeviceRecord) (label : pystr) : DeviceRecord :=
  dev_replace r (dev_epoch r) label (dev_status r) (dev_last_seen_at r) (dev_revoked_at r).
Definition dev_revoked (r : DeviceRecord) (at_ : timestamp) : DeviceRecord :=
  dev_replace r (dev_epoch r) (dev_label r) "revoked" (dev_last_seen_at r) (Some at_).
Definition dev_logged_out (r : DeviceRecord) : DeviceRecord :=
  dev_replace r (dev_epoch r) (dev_label r)
    (if bool_decide (dev_status r = "revoked") then dev_status r else "inactive")
    (dev_last_seen_at r) (dev_revoked_at r).

(** ** [DeviceRepository] on PostgreSQL *)
Module Pg.
Definition owned (account_id device_id : UUID) (r : DeviceRecord) : bool :=
  bool_decide (dev_user_id r = account_id) && bool_decide (dev_id r = device_id).
Definition keyed_by (account_id : UUID) (fingerprint : bytes) (r : DeviceRecord) : bool :=
  bool_decide (dev_user_id r = account_id) && bool_decide (dev_fingerprint r = fingerprint).

Definition get_by_id (account_id device_id : UUID) : M Db (option DeviceRecord) :=
  gets (λ db, first_row (select (owned account_id device_id) (devices db))).
Definition get_by_fingerprint (account_id : UUID) (fingerprint : bytes) : M Db (option DeviceRecord) :=
  gets (λ db, first_row (select (keyed_by account_id fingerprint) (devices db))).
Definition list_for_account (account_id : UUID) : M Db (list DeviceRecord) :=
  gets (λ db, order_by_desc dev_created_at (select (λ r, bool_decide (dev_user_id r = account_id)) (devices db))).
Definition list_by_account := list_for_account.

(** The account an [INSERT ... SELECT ... FROM app_users] reads. *)
Definition current_account (account_id : UUID) (epoch : Z) (db : Db) : list AccountRecord :=
  List.filter (λ a, bool_decide (acc_id a = account_id) && account_live a &&
                    bool_decide (acc_device_epoch a = epoch)) (app_users db).

(** [COALESCE($2::uuid, gen_random_uuid())]: [fresh] is the generated one. *)
Definition create (now : timestamp) (fresh account_id : UUID) (epoch : Z) (label : pystr)
    (spki fingerprint : bytes) (linked_by_device_id device_id : option UUID) : M Db DeviceRecord :=
  let! new := gets (λ db,
    map (λ account, new_device (coalesce device_id fresh) (acc_id account) epoch label spki fingerprint now
                      linked_by_device_id)
      (List.filter (λ account,
         match linked_by_device_id with
         | None => true
         | Some approver_id =>
             existsb (λ approver, bool_decide (dev_id approver = approver_id) &&
                                  bool_decide (dev_user_id approver = acc_id account) &&
                                  bool_decide (dev_status approver = "active") &&
                                  bool_decide (dev_epoch approver = acc_device_epoch account)) (devices db)
         end) (current_account account_id epoch db))) in
  let! rows := on_devices (insert_returning device_admits new) in
  lift (required_row rows).

Definition update (cond : DeviceRecord → bool) (set : DeviceRecord → DeviceRecord) : M Db (list DeviceRecord) :=
  on_devices (update_returning device_check cond set).

Definition register_for_email (now : timestamp) (account_id : UUID) (epoch : Z) (label : pystr)
    (spki fingerprint : bytes) (device_id : UUID) : M Db DeviceRecord :=
  transaction (
    let! existing := get_by_fingerprint account_id fingerprint in
    match existing with
    | Some existing_device =>
        if bool_decide (dev_status existing_device = "revoked") then raise ValueError
        else
          let! rows := update (λ r, keyed_by account_id fingerprint r && bool_decide (dev_epoch r = epoch))
                         (λ r, dev_activated r (dev_epoch r) label now) in
          lift (required_row rows)
    | None =>
        let! new := gets (λ db, map (λ account, new_device device_id (acc_id account) epoch label spki
                                                  fingerprint now None) (current_account account_id epoch db)) in
        let! rows := on_devices (insert_returning device_admits new) in
        lift (required_row rows)
    end).

Definition touch_last_seen (now : timestamp) (account_id device_id : UUID) : M Db (option DeviceRecord) :=
  let! rows := update (λ r, owned account_id device_id r && bool_decide (dev_status r = "active"))
                 (λ r, dev_touched r now) in
  ret (first_row rows).

Definition rename (account_id device_id : UUID) (label : pystr) : M Db (option DeviceRecord) :=
  let! rows := update (owned account_id device_id) (λ r, dev_renamed r label) in ret (first_row rows).

(** A device update and, when a row matched, the revocation of its sessions. *)
Definition with_sessions (now : timestamp) (account_id device_id : UUID) (reason : string)
    (set : DeviceRecord → DeviceRecord) : M Db (option DeviceRecord) :=
  transaction (
    let! rows := update (owned account_id device_id) set in
    match first_row rows with
    | None => ret None
    | Some device =>
        do! Sessions.Pg.revoke_for_device now account_id device_id reason in ret (Some device)
    end).

Definition revoke_with_sessions (now : timestamp) (account_id device_id : UUID) (reason : string) :
    M Db (option DeviceRecord) :=
  with_sessions now account_id device_id reason (λ r, dev_revoked r (coalesce (dev_revoked_at r) now)).
Definition revoke := revoke_with_sessions.

Definition logout_with_sessions (now : timestamp) (account_id device_id : UUID) (reason : string) :
    M Db (option DeviceRecord) :=
  with_sessions now account_id device_id reason dev_logged_out.

Definition revoke_all_for_account (now : timestamp) (account_id : UUID) (reason : string) : M Db nat :=
  transaction (
    let! rows := update (λ r, bool_decide (dev_user_id r = account_id) && bool_decide (dev_status r = "active"))
                   (λ r, dev_revoked r (coalesce (dev_revoked_at r) now)) in
    do! Sessions.Pg.revoke_for_account now account_id reason in
    ret (length rows)).
End Pg.

(** The reason [revoke_all_for_account] defaults to. *)
Definition revoke_all_default_reason : string := "account_cleanup".

#[export] Instance pg_devices : DeviceStore Db := {
  device_by_id := Pg.get_by_id;
  devices_of := Pg.list_for_account;
  register_for_email := Pg.register_for_email;
  touch_device := Pg.touch_last_seen;
  rename_device := Pg.rename;
  revoke_device := Pg.revoke_with_sessions;
  revoke_devices := Pg.revoke_all_for_account;
  logout_device := Pg.logout_with_sessions }.

(** ** [InMemoryDeviceRepository]

    [md_sessions] is the state of the session repository it was given, which
    it shares with the session service. *)
Record MemDevices := {
  md_records : dict UUID DeviceRecord;
  md_sessions : option Sessions.MemSessions }.

Module Mem.
Definition store (r : DeviceRecord) (s : MemDevices) : MemDevices :=
  {| md_records := dict_set (dev_id r) r (md_records s); md_sessions := md_sessions s |}.

(** [revoker = getattr(self._session_repository, "revoke_for_device", None)]
    and its call when there is one. *)
Definition revoke_sessions (now : timestamp) (account_id device_id : UUID) (reason : string) : M MemDevices unit :=
  λ s, match md_sessions s with
       | None => (Ok tt, s)
       | Some sessions =>
           match Sessions.Mem.revoke_for_device now account_id device_id reason sessions with
           | (Ok _, sessions') => (Ok tt, {| md_records := md_records s; md_sessions := Some sessions' |})
           | (Raise e, sessions') => (Raise e, {| md_records := md_records s; md_sessions := Some sessions' |})
           end
       end.

Definition get_by_id (account_id device_id : UUID) : M MemDevices (option DeviceRecord) :=
  gets (λ s, match dict_get device_id (md_records s) with
             | Some r => if bool_decide (dev_user_id r = account_id) then Some r else None
             | None => None
             end).

Definition get_by_fingerprint (account_id : UUID) (fingerprint : bytes) : M MemDevices (option DeviceRecord) :=
  gets (λ s, first_match (Pg.keyed_by account_id fingerprint) (dict_values (md_records s))).

Definition list_for_account (account_id : UUID) : M MemDevices (list DeviceRecord) :=
  gets (λ s, order_by_desc dev_created_at
               (List.filter (λ r, bool_decide (dev_user_id r = account_id)) (dict_values (md_records s)))).

(** [device_id or uuid4()]: [fresh] is the generated one; no account, epoch or
    approver is looked up here. *)
Definition create (now : timestamp) (fresh account_id : UUID) (epoch : Z) (label : pystr)
    (spki fingerprint : bytes) (linked_by_device_id device_id : option UUID) : M MemDevices DeviceRecord :=
  let record := new_device (default fresh device_id) account_id epoch label spki fingerprint now
                  linked_by_device_id in
  let! clash := gets (λ s, existsb (Pg.keyed_by account_id fingerprint) (dict_values (md_records s))) in
  if clash then raise ValueError
  else do! modify (store record) in ret record.

Definition register_for_email (now : timestamp) (account_id : UUID) (epoch : Z) (label : pystr)
    (spki fingerprint : bytes) (device_id : UUID) : M MemDevices DeviceRecord :=
  let! existing := get_by_fingerprint account_id fingerprint in
  match existing with
  | Some existing =>
      if bool_decide (dev_status existing = "revoked") then raise ValueError
      else
        let updated := dev_activated existing epoch label now in
        do! modify (store updated) in ret updated
  | None =>
      let record := new_device device_id account_id epoch label spki fingerprint now None in
      let! clash := gets (λ s, existsb (λ r, bool_decide (dev_id r = device_id)) (dict_values (md_records s))) in
      if clash then raise ValueError
      else do! modify (store record) in ret record
  end.

Definition remove (account_id device_id : UUID) : M MemDevices bool :=
  let! record := get_by_id account_id device_id in
  match record with
  | None => ret false
  | Some _ =>
      do! modify (λ s, {| md_records := dict_del device_id (md_records s); md_sessions := md_sessions s |}) in
      ret true
  end.

Definition touch_last_seen (now : timestamp) (account_id device_id : UUID) : M MemDevices (option DeviceRecord) :=
  let! record := get_by_id account_id device_id in
  match record with
  | Some r =>
      if bool_decide (dev_status r ≠ "active") then ret None
      else do! modify (store (dev_touched r now)) in ret (Some (dev_touched r now))
  | None => ret None
  end.

Definition rename (account_id device_id : UUID) (label : pystr) : M MemDevices (option DeviceRecord) :=
  let! record := get_by_id account_id device_id in
  match record with
  | Some r => do! modify (store (dev_renamed r label)) in ret (Some (dev_renamed r label))
  | None => ret None
  end.

(** [at_] is the clock at the device's revocation, [now] at the sessions'. *)
Definition revoke_with_sessions (at_ now : timestamp) (account_id device_id : UUID) (reason : string) :
    M MemDevices (option DeviceRecord) :=
  let! record := get_by_id account_id device_id in
  match record with
  | None => ret None
  | Some r =>
      if bool_decide (dev_status r = "revoked") then ret (Some r)
      else
        do! modify (store (dev_revoked r at_)) in
        do! revoke_sessions now account_id device_id reason in
        ret (Some (dev_revoked r at_))
  end.
Definition revoke := revoke_with_sessions.

Definition logout_with_sessions (now : timestamp) (account_id device_id : UUID) (reason : string) :
    M MemDevices (option DeviceRecord) :=
  let! record := get_by_id account_id device_id in
  match record with
  | None => ret None
  | Some r =>
      let r' := if bool_decide (dev_status r ≠ "revoked") then dev_logged_out r else r in
      do! (if bool_decide (dev_status r ≠ "revoked") then modify (store r') else ret tt) in
      do! revoke_sessions now account_id device_id reason in
      ret (Some r')
  end.

Definition revoke_all_for_account (at_ now : timestamp) (account_id : UUID) (reason : string) : M MemDevices nat :=
  let! targets := gets (λ s, List.filter (λ r, bool_decide (dev_user_id r = account_id) &&
                                               bool_decide (dev_status r = "active"))
                               (dict_values (md_records s))) in
  do! for_each (λ r, modify (store (dev_revoked r at_))) targets in
  do! for_each (λ r, revoke_sessions now account_id (dev_id r) reason) targets in
  ret (length targets).
End Mem.

#[export] Instance mem_devices : DeviceStore MemDevices := {
  device_by_id := Mem.get_by_id;
  devices_of := Mem.list_for_account;
  register_for_email := Mem.register_for_email;
  touch_device := Mem.touch_last_seen;
  rename_device := Mem.rename;
  revoke_device := λ now, Mem.revoke_with_sessions now now;
  revoke_devices := λ now, Mem.revoke_all_for_account now now;
  logout_device := Mem.logout_with_sessions }.
