(* ===== verification/Challenges.v ===== *)
(** * Challenges: [repositories/challenges.py]

    One-time device authentication challenges, on PostgreSQL and in memory. *)
From S2P Require Import Prelude PyDict Json Models Sql Schema.
From S2P Require Devices.
From stdpp Require Import list strings.

(** [ChallengeStorePort]; [now] is the store's clock. *)
Class ChallengeStore (S : Type) := {
  challenge_by_id : UUID → UUID → M S (option DeviceChallengeRecord);
  create_challenge : timestamp → UUID → UUID → UUID → bytes → pystr → timestamp → M S DeviceChallengeRecord;
  consume_challenge : timestamp → UUID → UUID → M S (option DeviceChallengeRecord);
  fail_challenge : timestamp → UUID → UUID → M S (option DeviceChallengeRecord) }.

Definition new_challenge (id device_id : UUID) (nonce_hash : bytes) (origin : pystr)
    (created_at expires_at : timestamp) : DeviceChallengeRecord :=
  {| chl_id := id; chl_device_id := device_id; chl_nonce_hash := nonce_hash; chl_origin := origin;
     chl_created_at := created_at; chl_expires_at := expires_at; chl_consumed_at := None;
     chl_attempt_count := 0 |}.

Definition chl_consumed (r : DeviceChallengeRecord) (at_ : timestamp) : DeviceChallengeRecord :=
  chl_replace r (Some at_) (chl_attempt_count r).
Definition chl_failed (r : DeviceChallengeRecord) : DeviceChallengeRecord :=
  chl_replace r (chl_consumed_at r) (Z.min (chl_attempt_count r + 1) 10).

(** [challenge.consumed_at IS NULL AND challenge.expires_at > now] *)
Definition chl_open (now : timestamp) (r : DeviceChallengeRecord) : bool :=
  is_null (chl_consumed_at r) && (now <? chl_expires_at r)%Z.

(** ** [DeviceChallengeRepository] on PostgreSQL *)
Module Pg.
(** [FROM device_challenges JOIN devices JOIN app_users WHERE account.id = $1
    AND <key> AND account.deleted_at IS NULL] *)
Definition joined (account_id : UUID) (key : DeviceChallengeRecord → bool) (db : Db) :
    list DeviceChallengeRecord :=
  challenge ← List.filter key (device_challenges db);
  device ← List.filter (λ d, bool_decide (dev_id d = chl_device_id challenge)) (devices db);
  account ← List.filter (λ a, bool_decide (acc_id a = dev_user_id device) && bool_decide (acc_id a = account_id) &&
                              account_live a) (app_users db);
  [challenge].

(** The [EXISTS] clause: an active device of the live account's epoch. *)
Definition device_current (db : Db) (account_id : UUID) (r : DeviceChallengeRecord) : bool :=
  existsb (λ device, bool_decide (dev_id device = chl_device_id r) &&
    existsb (λ account, bool_decide (acc_id account = dev_user_id device) &&
                        bool_decide (acc_id account = account_id) && account_live account &&
                        bool_decide (dev_status device = "active") &&
                        bool_decide (dev_epoch device = acc_device_epoch account)) (app_users db)) (devices db).

Definition get_by_id (account_id challenge_id : UUID) : M Db (option DeviceChallengeRecord) :=
  gets (λ db, first_row (joined account_id (λ r, bool_decide (chl_id r = challenge_id)) db)).

Definition get_by_nonce_hash (account_id : UUID) (nonce_hash : bytes) : M Db (option DeviceChallengeRecord) :=
  gets (λ db, first_row (joined account_id (λ r, bool_decide (chl_nonce_hash r = nonce_hash)) db)).

(** The rows of the [INSERT ... SELECT]; [id] is the default. *)
Definition create_rows (now : timestamp) (id account_id device_id : UUID) (nonce_hash : bytes)
    (origin : pystr) (expires_at : timestamp) (db : Db) : list DeviceChallengeRecord :=
  device ← List.filter (λ d, bool_decide (dev_id d = device_id) && bool_decide (dev_status d = "active"))
             (devices db);
  account ← List.filter (λ a, bool_decide (acc_id a = dev_user_id device) && bool_decide (acc_id a = account_id) &&
                              account_live a && bool_decide (dev_epoch device = acc_device_epoch a)) (app_users db);
  [new_challenge id (dev_id device) nonce_hash origin now expires_at].

Definition create (now : timestamp) (id account_id device_id : UUID) (nonce_hash : bytes) (origin : pystr)
    (expires_at : timestamp) : M Db DeviceChallengeRecord :=
  let! new := gets (create_rows now id account_id device_id nonce_hash origin expires_at) in
  let! rows := on_device_challenges (insert_returning challenge_admits new) in
  lift (required_row rows).

(** [UPDATE device_challenges SET ... WHERE <cond> AND challenge.consumed_at IS
    NULL AND challenge.expires_at > CURRENT_TIMESTAMP AND EXISTS (...)] *)
Definition update_open (now : timestamp) (account_id : UUID) (cond : DeviceChallengeRecord → bool)
    (set : DeviceChallengeRecord → DeviceChallengeRecord) : M Db (option DeviceChallengeRecord) :=
  let! db := gets id in
  let! rows := on_device_challenges (update_returning challenge_check
      (λ r, cond r && chl_open now r && device_current db account_id r) set) in
  ret (first_row rows).

Definition consume (now : timestamp) (account_id challenge_id : UUID) : M Db (option DeviceChallengeRecord) :=
  transaction (update_open now account_id (λ r, bool_decide (chl_id r = challenge_id)) (λ r, chl_consumed r now)).

Definition consume_by_nonce_hash (now : timestamp) (account_id : UUID) (nonce_hash : bytes) :
    M Db (option DeviceChallengeRecord) :=
  transaction (update_open now account_id (λ r, bool_decide (chl_nonce_hash r = nonce_hash))
                 (λ r, chl_consumed r now)).

Definition mark_failed (now : timestamp) (account_id challenge_id : UUID) : M Db (option DeviceChallengeRecord) :=
  update_open now account_id (λ r, bool_decide (chl_id r = challenge_id) && (chl_attempt_count r <? 10)%Z)
    chl_failed.
End Pg.

#[export] Instance pg_challenges : ChallengeStore Db := {
  challenge_by_id := Pg.get_by_id;
  create_challenge := Pg.create;
  consume_challenge := Pg.consume;
  fail_challenge := Pg.mark_failed }.

(** ** [InMemoryDeviceChallengeRepository]

    [mc_devices] is the state of the device repository it looks devices up
    in. *)
Record MemChallenges := {
  mc_records : dict UUID DeviceChallengeRecord;
  mc_devices : Devices.MemDevices }.

Module Mem.
Definition store (r : DeviceChallengeRecord) (s : MemChallenges) : MemChallenges :=
  {| mc_records := dict_set (chl_id r) r (mc_records s); mc_devices := mc_devices s |}.

Definition device (account_id device_id : UUID) : M MemChallenges (option DeviceRecord) :=
  zoom mc_devices (λ d s, {| mc_records := mc_records s; mc_devices := d |})
    (Devices.Mem.get_by_id account_id device_id).

Definition active (d : option DeviceRecord) : bool :=
  match d with Some d => bool_decide (dev_status d = "active") | None => false end.

Definition create (now : timestamp) (id account_id device_id : UUID) (nonce_hash : bytes) (origin : pystr)
    (expires_at : timestamp) : M MemChallenges DeviceChallengeRecord :=
  let! device := device account_id device_id in
  if negb (active device) then raise ValueError
  else
    let record := new_challenge id device_id nonce_hash origin now expires_at in
    let! clash := gets (λ s, existsb (λ r, bool_decide (chl_nonce_hash r = nonce_hash)) (dict_values (mc_records s))) in
    if clash then raise ValueError else do! modify (store record) in ret record.

(** A record whose device the account owns. *)
Definition of_account (account_id : UUID) (record : option DeviceChallengeRecord) :
    M MemChallenges (option DeviceChallengeRecord) :=
  match record with
  | None => ret None
  | Some r =>
      let! device := device account_id (chl_device_id r) in
      ret (if is_null device then None else Some r)
  end.

Definition get_by_id (account_id challenge_id : UUID) : M MemChallenges (option DeviceChallengeRecord) :=
  let! record := gets (λ s, dict_get challenge_id (mc_records s)) in of_account account_id record.

Definition get_by_nonce_hash (account_id : UUID) (nonce_hash : bytes) : M MemChallenges (option DeviceChallengeRecord) :=
  let! record := gets (λ s, first_match (λ r, bool_decide (chl_nonce_hash r = nonce_hash)) (dict_values (mc_records s))) in
  of_account account_id record.

(** The update under the lock of a record still open at [now]. *)
Definition change_open (now : timestamp) (challenge_id : UUID) (f : DeviceChallengeRecord → DeviceChallengeRecord) :
    M MemChallenges (option DeviceChallengeRecord) :=
  let! current := gets (λ s, dict_get challenge_id (mc_records s)) in
  match current with
  | Some r => if chl_open now r then do! modify (store (f r)) in ret (Some (f r)) else ret None
  | None => ret None
  end.

Definition consume (now : timestamp) (account_id challenge_id : UUID) : M MemChallenges (option DeviceChallengeRecord) :=
  let! record := get_by_id account_id challenge_id in
  match record with
  | None => ret None
  | Some r =>
      if negb (chl_open now r) then ret None
      else
        let! device := device account_id (chl_device_id r) in
        if negb (active device) then ret None
        else change_open now challenge_id (λ r, chl_consumed r now)
  end.

Definition consume_by_nonce_hash (now : timestamp) (account_id : UUID) (nonce_hash : bytes) :
    M MemChallenges (option DeviceChallengeRecord) :=
  let! record := get_by_nonce_hash account_id nonce_hash in
  match record with
  | None => ret None
  | Some r => consume now account_id (chl_id r)
  end.

Definition mark_failed (now : timestamp) (account_id challenge_id : UUID) :
    M MemChallenges (option DeviceChallengeRecord) :=
  let! record := get_by_id account_id challenge_id in
  match record with
  | None => ret None
  | Some r => if negb (chl_open now r) then ret None else change_open now challenge_id chl_failed
  end.
End Mem.

#[export] Instance mem_challenges : ChallengeStore MemChallenges := {
  challenge_by_id := Mem.get_by_id;
  create_challenge := Mem.create;
  consume_challenge := Mem.consume;
  fail_challenge := Mem.mark_failed }.
