(* ===== verification/LinkingOtps.v ===== *)
(** * LinkingOtps: [repositories/device_linking_otps.py]

    Hashed one-time device-linking codes, on PostgreSQL and in memory, and the
    redemption that registers a device. *)
From S2P Require Import Prelude PyDict Json Models Sql Schema.
From S2P Require Devices.
From stdpp Require Import list strings.

(** [DeviceLinkingOtpStorePort]; [now] is the store's clock. *)
Class LinkingOtpStore (S : Type) := {
  create_otp : timestamp → UUID → UUID → UUID → bytes → timestamp → M S DeviceLinkingOtpRecord;
  active_otp_by_hash : timestamp → bytes → M S (option DeviceLinkingOtpRecord);
  fail_otp : timestamp → UUID → M S (option DeviceLinkingOtpRecord);
  consume_and_register : timestamp → UUID → UUID → UUID → Z → UUID → pystr → bytes → bytes →
    M S (option DeviceRecord) }.

Definition new_otp (id user_id issuing_device_id : UUID) (otp_hash : bytes) (created_at expires_at : timestamp) :
    DeviceLinkingOtpRecord :=
  {| otp_id := id; otp_user_id := user_id; otp_issuing_device_id := issuing_device_id; otp_otp_hash := otp_hash;
     otp_status := "active"; otp_attempt_count := 0; otp_created_at := created_at; otp_expires_at := expires_at;
     otp_consumed_at := None |}.

Definition otp_consumed (r : DeviceLinkingOtpRecord) (at_ : timestamp) : DeviceLinkingOtpRecord :=
  otp_replace r "consumed" (otp_attempt_count r) (Some at_).

(** [status = 'active' AND expires_at > now] *)
Definition otp_open (now : timestamp) (r : DeviceLinkingOtpRecord) : bool :=
  bool_decide (otp_status r = "active") && (now <? otp_expires_at r)%Z.

(** ** [DeviceLinkingOtpRepository] on PostgreSQL *)
Module Pg.
Definition create_rows (now : timestamp) (id account_id issuing_device_id : UUID) (otp_hash : bytes)
    (expires_at : timestamp) (db : Db) : list DeviceLinkingOtpRecord :=
  account ← List.filter (λ a, bool_decide (acc_id a = account_id) && account_live a) (app_users db);
  device ← List.filter (λ d, bool_decide (dev_user_id d = acc_id account) &&
                             bool_decide (dev_id d = issuing_device_id) &&
                             bool_decide (dev_status d = "active") &&
                             bool_decide (dev_epoch d = acc_device_epoch account)) (devices db);
  [new_otp id (acc_id account) (dev_id device) otp_hash now expires_at].

Definition create (now : timestamp) (id account_id issuing_device_id : UUID) (otp_hash : bytes)
    (expires_at : timestamp) : M Db DeviceLinkingOtpRecord :=
  let! new := gets (create_rows now id account_id issuing_device_id otp_hash expires_at) in
  let! rows := on_device_linking_otps (insert_returning linking_otp_admits new) in
  lift (required_row rows).

(** The select list is unqualified and the query joins [app_users]. *)
Definition _OTP_COLUMNS : list string :=
  ["id"; "user_id"; "issuing_device_id"; "otp_hash"; "status"; "attempt_count"; "created_at"; "expires_at";
   "consumed_at"].

Definition active_rows (now : timestamp) (otp_hash : bytes) (db : Db) : list DeviceLinkingOtpRecord :=
  otp ← List.filter (λ r, bool_decide (otp_otp_hash r = otp_hash) && otp_open now r) (device_linking_otps db);
  account ← List.filter (λ a, bool_decide (acc_id a = otp_user_id otp) && account_live a) (app_users db);
  [otp].

Definition get_active_by_hash (now : timestamp) (otp_hash : bytes) : M Db (option DeviceLinkingOtpRecord) :=
  select_list _OTP_COLUMNS [device_linking_otps_columns; app_users_columns]
    (gets (λ db, first_row (active_rows now otp_hash db))).

Definition mark_failed (now : timestamp) (otp_id_ : UUID) : M Db (option DeviceLinkingOtpRecord) :=
  let! rows := on_device_linking_otps (update_returning linking_otp_check
      (λ r, bool_decide (otp_id r = otp_id_) && otp_open now r && (otp_attempt_count r <? 10)%Z)
      (λ r, otp_replace r (if (10 <=? otp_attempt_count r + 1)%Z then "expired" else otp_status r)
              (Z.min (otp_attempt_count r + 1) 10) (otp_consumed_at r))) in
  ret (first_row rows).

(** The [EXISTS] clause of the redemption: a live account of the epoch, the
    issuing device active in it. *)
Definition issuer_current (db : Db) (epoch : Z) (r : DeviceLinkingOtpRecord) : bool :=
  existsb (λ account, bool_decide (acc_id account = otp_user_id r) && account_live account &&
                      bool_decide (acc_device_epoch account = epoch) &&
    existsb (λ issuer, bool_decide (dev_user_id issuer = acc_id account) &&
                       bool_decide (dev_id issuer = otp_issuing_device_id r) &&
                       bool_decide (dev_status issuer = "active") &&
                       bool_decide (dev_epoch issuer = acc_device_epoch account)) (devices db)) (app_users db).

Definition redeemable (db : Db) (now : timestamp) (otp_id_ account_id issuing_device_id : UUID) (epoch : Z)
    (r : DeviceLinkingOtpRecord) : bool :=
  bool_decide (otp_id r = otp_id_) && bool_decide (otp_user_id r = account_id) &&
  bool_decide (otp_issuing_device_id r = issuing_device_id) && otp_open now r &&
  (otp_attempt_count r <? 10)%Z && issuer_current db epoch r.

Definition consume_and_register (now : timestamp) (otp_id_ account_id issuing_device_id : UUID) (epoch : Z)
    (device_id : UUID) (label : pystr) (spki fingerprint : bytes) : M Db (option DeviceRecord) :=
  transaction (
    let! db := gets id in
    let! consumed := on_device_linking_otps (update_returning linking_otp_check
        (redeemable db now otp_id_ account_id issuing_device_id epoch) (λ r, otp_consumed r now)) in
    if bool_decide (consumed = []) then ret None
    else
      let! new := gets (λ db, map (λ account, Devices.new_device device_id (acc_id account) epoch label spki
                                                fingerprint now (Some issuing_device_id))
                                (Devices.Pg.current_account account_id epoch db)) in
      let! rows := on_devices (insert_returning device_admits new) in
      let! device := lift (required_row rows) in
      ret (Some device)).
End Pg.

#[export] Instance pg_linking_otps : LinkingOtpStore Db := {
  create_otp := Pg.create;
  active_otp_by_hash := Pg.get_active_by_hash;
  fail_otp := Pg.mark_failed;
  consume_and_register := Pg.consume_and_register }.

(** ** [InMemoryDeviceLinkingOtpRepository]

    [mo_devices] is the state of the device repository it registers in; the
    redemption lock makes each operation one step. *)
Record MemLinkingOtps := {
  mo_records : dict UUID DeviceLinkingOtpRecord;
  mo_devices : Devices.MemDevices }.

Module Mem.
Definition store (r : DeviceLinkingOtpRecord) (s : MemLinkingOtps) : MemLinkingOtps :=
  {| mo_records := dict_set (otp_id r) r (mo_records s); mo_devices := mo_devices s |}.

Definition on_devices {A} : M Devices.MemDevices A → M MemLinkingOtps A :=
  zoom mo_devices (λ d s, {| mo_records := mo_records s; mo_devices := d |}).

Definition create (now : timestamp) (id account_id issuing_device_id : UUID) (otp_hash : bytes)
    (expires_at : timestamp) : M MemLinkingOtps DeviceLinkingOtpRecord :=
  let record := new_otp id account_id issuing_device_id otp_hash now expires_at in
  do! modify (store record) in ret record.

Definition get_active_by_hash (now : timestamp) (otp_hash : bytes) : M MemLinkingOtps (option DeviceLinkingOtpRecord) :=
  gets (λ s, first_match (λ r, bool_decide (otp_otp_hash r = otp_hash) && otp_open now r)
               (dict_values (mo_records s))).

Definition get_active_by_hash_for_id (now : timestamp) (otp_id_ : UUID) :
    M MemLinkingOtps (option DeviceLinkingOtpRecord) :=
  gets (λ s, match dict_get otp_id_ (mo_records s) with
             | Some r => if otp_open now r then Some r else None
             | None => None
             end).

Definition mark_failed (now : timestamp) (otp_id_ : UUID) : M MemLinkingOtps (option DeviceLinkingOtpRecord) :=
  let! record := get_active_by_hash_for_id now otp_id_ in
  match record with
  | None => ret None
  | Some r =>
      if (10 <=? otp_attempt_count r)%Z then ret None
      else
        let updated := otp_replace r (if (10 <=? otp_attempt_count r + 1)%Z then "expired" else "active")
                         (otp_attempt_count r + 1) (otp_consumed_at r) in
        do! modify (store updated) in ret (Some updated)
  end.

(** [now n] is the clock at its [n]th use. *)
Definition consume_and_register (now : nat → timestamp) (otp_id_ account_id issuing_device_id : UUID) (epoch : Z)
    (device_id : UUID) (label : pystr) (spki fingerprint : bytes) : M MemLinkingOtps (option DeviceRecord) :=
  let! record := get_active_by_hash_for_id (now 0%nat) otp_id_ in
  match record with
  | None => ret None
  | Some r =>
      if bool_decide (otp_user_id r ≠ account_id) || bool_decide (otp_issuing_device_id r ≠ issuing_device_id) ||
         (10 <=? otp_attempt_count r)%Z
      then ret None
      else
        let! issuer := on_devices (Devices.Mem.get_by_id account_id issuing_device_id) in
        match issuer with
        | None => ret None
        | Some issuer =>
            if bool_decide (dev_status issuer ≠ "active") || bool_decide (dev_epoch issuer ≠ epoch) then ret None
            else
              let! device := on_devices (Devices.Mem.create (now 1%nat) device_id account_id epoch label spki
                               fingerprint (Some issuing_device_id) (Some device_id)) in
              let! current := gets (λ s, dict_get otp_id_ (mo_records s)) in
              match current with
              | None => ret None
              | Some current =>
                  if bool_decide (otp_status current ≠ "active") then ret None
                  else do! modify (store (otp_consumed current (now 2%nat))) in ret (Some device)
              end
        end
  end.
End Mem.

#[export] Instance mem_linking_otps : LinkingOtpStore MemLinkingOtps := {
  create_otp := Mem.create;
  active_otp_by_hash := Mem.get_active_by_hash;
  fail_otp := Mem.mark_failed;
  consume_and_register := λ now, Mem.consume_and_register (λ _, now) }.
