(* ===== verification/Tickets.v ===== *)
(** * Tickets: [repositories/websocket_tickets.py] and the handshake of [presence.py]

    Single-use WebSocket tickets on PostgreSQL and in memory, the service that
    issues them, and the admission of a socket by its ticket. *)
From Stdlib.Strings Require Import Byte.
From S2P Require Import Prelude PyDict Json Models Sql Schema Hashing Sessions TransferPort Signaling Presence Socket.
From stdpp Require Import list strings.

Definition WEBSOCKET_TICKET_LIFETIME : timedelta := minutes 1.

(** [WebSocketTicketRepositoryPort]; [now n] is the store's clock at its
    [n]th use. *)
Class TicketStore (S : Type) := {
  create_ticket : (nat → timestamp) → UUID → UUID → UUID → bytes → timestamp → M S WebSocketTicketRecord;
  consume_for_socket : (nat → timestamp) → bytes → M S (option WebSocketTicketRecord) }.

Definition new_ticket (id session_id : UUID) (token_hash : bytes) (created_at expires_at : timestamp) :
    WebSocketTicketRecord :=
  {| tkt_id := id; tkt_session_id := session_id; tkt_token_hash := token_hash; tkt_created_at := created_at;
     tkt_expires_at := expires_at; tkt_consumed_at := None |}.

(** [consumed_at IS NULL AND expires_at > now] *)
Definition tkt_open (now : timestamp) (r : WebSocketTicketRecord) : bool :=
  is_null (tkt_consumed_at r) && (now <? tkt_expires_at r)%Z.

(** ** [WebSocketTicketRepository] on PostgreSQL *)
Module Pg.
(** The joins on the ticket's session: a live account, an active device of it,
    and a session of their epoch that is unrevoked and unexpired. *)
Definition session_usable (db : Db) (now : timestamp) (session : SessionRecord) : bool :=
  Sessions.Pg.unexpired now session &&
  existsb (λ account, bool_decide (acc_id account = ses_user_id session) && account_live account &&
                      bool_decide (ses_epoch session = acc_device_epoch account) &&
    existsb (λ device, bool_decide (dev_id device = ses_device_id session) &&
                       bool_decide (dev_user_id device = acc_id account) &&
                       bool_decide (dev_status device = "active") &&
                       bool_decide (dev_epoch device = acc_device_epoch account)) (devices db)) (app_users db).

(** [EXISTS (SELECT 1 FROM app_sessions ... WHERE app_session.id =
    ticket.session_id AND ...)]; [owner] is the [account.id = $1] clause. *)
Definition session_current (db : Db) (now : timestamp) (owner : UUID → bool) (r : WebSocketTicketRecord) : bool :=
  existsb (λ session, bool_decide (ses_id session = tkt_session_id r) && owner (ses_user_id session) &&
                      session_usable db now session) (app_sessions db).

Definition get_by_id (account_id ticket_id : UUID) : M Db (option WebSocketTicketRecord) :=
  gets (λ db, first_row (
    ticket ← List.filter (λ r, bool_decide (tkt_id r = ticket_id)) (websocket_tickets db);
    session ← List.filter (λ s, bool_decide (ses_id s = tkt_session_id ticket)) (app_sessions db);
    account ← List.filter (λ a, bool_decide (acc_id a = ses_user_id session) && bool_decide (acc_id a = account_id) &&
                                account_live a) (app_users db);
    [ticket])).

Definition get_by_token_hash (now : timestamp) (account_id : UUID) (token_hash : bytes) :
    M Db (option WebSocketTicketRecord) :=
  gets (λ db, first_row (
    ticket ← List.filter (λ r, bool_decide (tkt_token_hash r = token_hash) && tkt_open now r) (websocket_tickets db);
    session ← List.filter (λ s, bool_decide (ses_id s = tkt_session_id ticket) && Sessions.Pg.unexpired now s)
                (app_sessions db);
    account ← List.filter (λ a, bool_decide (acc_id a = ses_user_id session) && bool_decide (acc_id a = account_id) &&
                                account_live a && bool_decide (ses_epoch session = acc_device_epoch a)) (app_users db);
    device ← List.filter (λ d, bool_decide (dev_id d = ses_device_id session) &&
                               bool_decide (dev_user_id d = acc_id account) && bool_decide (dev_status d = "active") &&
                               bool_decide (dev_epoch d = acc_device_epoch account)) (devices db);
    [ticket])).

Definition create_rows (now : timestamp) (id account_id session_id : UUID) (token_hash : bytes)
    (expires_at : timestamp) (db : Db) : list WebSocketTicketRecord :=
  session ← List.filter (λ s, bool_decide (ses_id s = session_id) && Sessions.Pg.unexpired now s) (app_sessions db);
  account ← List.filter (λ a, bool_decide (acc_id a = ses_user_id session) && bool_decide (acc_id a = account_id) &&
                              account_live a && bool_decide (ses_epoch session = acc_device_epoch a)) (app_users db);
  device ← List.filter (λ d, bool_decide (dev_id d = ses_device_id session) &&
                             bool_decide (dev_user_id d = acc_id account) && bool_decide (dev_status d = "active") &&
                             bool_decide (dev_epoch d = acc_device_epoch account)) (devices db);
  [new_ticket id (ses_id session) token_hash now expires_at].

Definition create (now : timestamp) (id account_id session_id : UUID) (token_hash : bytes)
    (expires_at : timestamp) : M Db WebSocketTicketRecord :=
  let! new := gets (create_rows now id account_id session_id token_hash expires_at) in
  let! rows := on_websocket_tickets (insert_returning ticket_admits new) in
  lift (required_row rows).

(** The [UPDATE ... SET consumed_at = CURRENT_TIMESTAMP] the four methods
    share. *)
Definition consume_where (now : timestamp) (key : WebSocketTicketRecord → bool) (owner : UUID → bool) :
    M Db (option WebSocketTicketRecord) :=
  transaction (
    let! db := gets id in
    let! rows := on_websocket_tickets (update_returning ticket_check
        (λ r, key r && tkt_open now r && session_current db now owner r)
        (λ r, tkt_with_consumed_at r now)) in
    ret (first_row rows)).

Definition consume (now : timestamp) (account_id : UUID) (token_hash : bytes) :=
  consume_where now (λ r, bool_decide (tkt_token_hash r = token_hash)) (λ a, bool_decide (a = account_id)).
Definition consume_by_token_hash := consume.
Definition consume_for_socket (now : timestamp) (token_hash : bytes) :=
  consume_where now (λ r, bool_decide (tkt_token_hash r = token_hash)) (λ _, true).
Definition consume_by_id (now : timestamp) (account_id ticket_id : UUID) :=
  consume_where now (λ r, bool_decide (tkt_id r = ticket_id)) (λ a, bool_decide (a = account_id)).
End Pg.

#[export] Instance pg_tickets : TicketStore Db := {
  create_ticket := λ now, Pg.create (now 0%nat);
  consume_for_socket := λ now, Pg.consume_for_socket (now 0%nat) }.

(** ** [InMemoryWebSocketTicketRepository]

    [mt_sessions] is the state of the session repository it was given. *)
Record MemTickets := {
  mt_sessions : option MemSessions;
  mt_records : dict UUID WebSocketTicketRecord;
  mt_accounts : dict UUID UUID;
  mt_by_token_hash : dict bytes UUID }.

Module Mem.
Definition put (r : WebSocketTicketRecord) (s : MemTickets) : MemTickets :=
  {| mt_sessions := mt_sessions s; mt_records := dict_set (tkt_id r) r (mt_records s);
     mt_accounts := mt_accounts s; mt_by_token_hash := mt_by_token_hash s |}.

Definition _record_for_token (token_hash : bytes) (s : MemTickets) : option WebSocketTicketRecord * option UUID :=
  match dict_get token_hash (mt_by_token_hash s) with
  | None => (None, None)
  | Some ticket_id => (dict_get ticket_id (mt_records s), dict_get ticket_id (mt_accounts s))
  end.

Definition _session_is_current (now : timestamp) (account_id session_id : UUID) (s : MemTickets) : bool :=
  match mt_sessions s with
  | None => true
  | Some sessions =>
      match Sessions.Mem.find_current_by_id now session_id sessions with
      | Some session => bool_decide (ses_user_id session = account_id)
      | None => false
      end
  end.

Definition get_by_id (account_id ticket_id : UUID) (s : MemTickets) : option WebSocketTicketRecord :=
  match dict_get ticket_id (mt_records s) with
  | Some r => if bool_decide (dict_get ticket_id (mt_accounts s) ≠ Some account_id) then None else Some r
  | None => None
  end.

Definition get_by_token_hash (now : nat → timestamp) (account_id : UUID) (token_hash : bytes) (s : MemTickets) :
    option WebSocketTicketRecord :=
  match _record_for_token token_hash s with
  | (Some r, Some owner) =>
      if bool_decide (owner ≠ account_id) || negb (tkt_open (now 0%nat) r) ||
         negb (_session_is_current (now 1%nat) owner (tkt_session_id r) s)
      then None else Some r
  | _ => None
  end.

Definition create (now : nat → timestamp) (id account_id session_id : UUID) (token_hash : bytes)
    (expires_at : timestamp) : M MemTickets WebSocketTicketRecord :=
  if (expires_at <=? now 0%nat)%Z then raise ValueError
  else if bool_decide (length token_hash ≠ 32%nat) then raise ValueError
  else
    let! current := gets (_session_is_current (now 1%nat) account_id session_id) in
    if negb current then raise RuntimeError
    else
      let record := new_ticket id session_id token_hash (now 0%nat) expires_at in
      let! clash := gets (λ s, dict_get token_hash (mt_by_token_hash s)) in
      match clash with
      | Some _ => raise ValueError
      | None =>
          do! modify (λ s, {| mt_sessions := mt_sessions s;
                              mt_records := dict_set id record (mt_records s);
                              mt_accounts := dict_set id account_id (mt_accounts s);
                              mt_by_token_hash := dict_set token_hash id (mt_by_token_hash s) |}) in
          ret record
      end.

Definition _consume (now : nat → timestamp) (token_hash : bytes) (account_id : option UUID) :
    M MemTickets (option WebSocketTicketRecord) :=
  let! found := gets (_record_for_token token_hash) in
  match found with
  | (Some r, Some owner) =>
      if match account_id with Some a => bool_decide (owner ≠ a) | None => false end ||
         negb (tkt_open (now 0%nat) r)
      then ret None
      else
        let! current := gets (_session_is_current (now 1%nat) owner (tkt_session_id r)) in
        if negb current then ret None
        else
          let! s := gets id in
          match dict_get (tkt_id r) (mt_records s) with
          | Some latest =>
              if negb (tkt_open (now 2%nat) latest) ||
                 bool_decide (dict_get (tkt_id r) (mt_accounts s) ≠ Some owner)
              then ret None
              else
                do! modify (put (tkt_with_consumed_at latest (now 2%nat))) in
                ret (Some (tkt_with_consumed_at latest (now 2%nat)))
          | None => ret None
          end
  | _ => ret None
  end.

Definition consume (now : nat → timestamp) (account_id : UUID) (token_hash : bytes) :=
  _consume now token_hash (Some account_id).
Definition consume_by_token_hash := consume.
Definition consume_for_socket (now : nat → timestamp) (token_hash : bytes) := _consume now token_hash None.

Definition consume_by_id (now : nat → timestamp) (account_id ticket_id : UUID) :
    M MemTickets (option WebSocketTicketRecord) :=
  let! found := gets (get_by_id account_id ticket_id) in
  match found with
  | None => ret None
  | Some r => _consume now (tkt_token_hash r) (Some account_id)
  end.
End Mem.

#[export] Instance mem_tickets : TicketStore MemTickets := {
  create_ticket := Mem.create;
  consume_for_socket := Mem.consume_for_socket }.

(** ** [WebSocketTicketService] and its route *)
Definition ticket_service (lifetime : timedelta) : outcome timedelta :=
  if (lifetime <=? 0)%Z then Raise ValueError else Ok lifetime.

Section service.
Context {S : Type} `{TicketStore S}.

(** [raw] is the token's draw, [id] the row's identifier. *)
Definition issue (lifetime : timedelta) (now : nat → timestamp) (issued_at : timestamp) (raw : bytes) (id : UUID)
    (session : SessionRecord) : M S (pystr * WebSocketTicketRecord) :=
  let! raw_ticket := lift (new_opaque_token SESSION_TOKEN_BYTES raw) in
  let! token_hash := lift (hash_secret raw_ticket) in
  let! record := create_ticket now id (ses_user_id session) (ses_id session) token_hash (issued_at + lifetime)%Z in
  ret (raw_ticket, record).

(** [POST /auth/websocket/ticket]: [except (RuntimeError, ValueError)]. *)
Definition issue_websocket_ticket (now : nat → timestamp) (issued_at : timestamp) (raw : bytes) (id : UUID)
    (session : SessionRecord) : M S (pystr * WebSocketTicketRecord) :=
  try_except (issue WEBSOCKET_TICKET_LIFETIME now issued_at raw id session)
    (λ e, is_runtime_error e || is_value_error e) (λ _, raise (HTTPException 401)).
End service.

Definition _ticket_hash (value : option pystr) : option bytes :=
  match value with
  | None => None
  | Some value =>
      if negb (bool_decide (1 ≤ length value ≤ 512)%nat) then None
      else if existsb (λ c, c <? 32)%N value then None
      else match hash_secret value with Ok h => Some h | Raise _ => None end
  end.

(** [_query_ticket]: the values of the [ticket] query parameter. *)
Definition _query_ticket (values : list pystr) : option pystr :=
  match values with [value] => Some value | _ => None end.

(** [_websocket_origin_allowed] *)
Definition _websocket_origin_allowed (app_origin : option pystr) (origin : option pystr) : bool :=
  match app_origin with Some o => bool_decide (origin = Some o) | None => false end.

Definition WS_1011_INTERNAL_ERROR : Z := 1011.

(** ** [websocket_presence] *)
Section handshake.
Context {T : Type} `{TransferRepository T} `{PresencePorts T} `{TicketStore T} (cfg : PresenceConfig).

(** The handshake up to [accept]: the session of the ticket, or the code the
    socket is closed with.  [configured] says the application has its ticket
    and session repositories and its manager. *)
Definition authenticate_socket (app_origin origin : option pystr) (query : list pystr) (configured : bool)
    (now : nat → timestamp) (lookup : readings) : M T (Z + SessionRecord) :=
  if negb (_websocket_origin_allowed app_origin origin) then ret (inl WEBSOCKET_CLOSE_POLICY)
  else match _ticket_hash (_query_ticket query) with
  | None => ret (inl WEBSOCKET_CLOSE_POLICY)
  | Some ticket_hash =>
      if negb configured then ret (inl WS_1011_INTERNAL_ERROR)
      else
        let! ticket := consume_for_socket now ticket_hash in
        match ticket with
        | None => ret (inl WEBSOCKET_CLOSE_POLICY)
        | Some ticket =>
            let! session := find_current_by_id lookup (tkt_session_id ticket) in
            match session with
            | None => ret (inl WEBSOCKET_CLOSE_POLICY)
            | Some session => ret (inr session)
            end
        end
  end.

(** The connection of an accepted socket. *)
Definition connection_of (id : UUID) (websocket : N) (session : SessionRecord) (now : timestamp) : ActiveConnection :=
  {| ac_id := id; ac_account_id := ses_user_id session; ac_device_id := ses_device_id session;
     ac_session_id := ses_id session; ac_websocket := websocket; ac_connected_at := now;
     ac_last_heartbeat_at := now |}.

Definition websocket_presence (app_origin origin : option pystr) (query : list pystr) (configured : bool)
    (now : nat → timestamp) (lookup : readings) (id : UUID) (websocket : N) (c : clock)
    (events : list (clock * readings * readings * received)) : M (World T) unit :=
  let! admitted := on_store (authenticate_socket app_origin origin query configured now lookup) in
  match admitted with
  | inl code => on_presence (_close websocket code)
  | inr session => serve_admitted cfg (later 1 c) (connection_of id websocket session (c 0%nat)) events
  end.
End handshake.
