(* ===== verification/Events.v ===== *)
(** * Events: [repositories/security_events.py]

    The bounded security events the services record, on PostgreSQL and in
    memory. *)
From S2P Require Import Prelude PyDict Json Models Sql Schema.
From stdpp Require Import list strings.

(** [SecurityEventStorePort]; [now] is the store's clock, [id] the new row's
    identifier. *)
Class SecurityEventStore (S : Type) := {
  create_event : timestamp → UUID → string → string → timestamp → option UUID → option UUID →
    option bytes → list (pystr * json) → M S SecurityEventRecord }.

Definition new_event (id : UUID) (event_type outcome : string) (created_at expires_at : timestamp)
    (user_id device_id : option UUID) (network_fingerprint : option bytes) (details : list (pystr * json)) :
    SecurityEventRecord :=
  {| ev_id := id; ev_user_id := user_id; ev_device_id := device_id; ev_event_type := event_type;
     ev_outcome := outcome; ev_network_fingerprint := network_fingerprint; ev_details := details;
     ev_created_at := created_at; ev_expires_at := expires_at |}.

(** ** [SecurityEventRepository] on PostgreSQL *)
Module Pg.
Definition _SECURITY_EVENT_COLUMNS : list string :=
  ["id"; "user_id"; "device_id"; "event_type"; "outcome"; "network_fingerprint"; "details"; "created_at";
   "expires_at"].

(** [FROM security_events AS event JOIN app_users AS account ON account.id =
    event.user_id WHERE event.user_id = $1 AND <cond> AND account.deleted_at
    IS NULL], the select list unqualified. *)
Definition owned_rows (account_id : UUID) (cond : SecurityEventRecord → bool) (db : Db) : list SecurityEventRecord :=
  event ← List.filter (λ e, bool_decide (ev_user_id e = Some account_id) && cond e) (security_events db);
  account ← List.filter (λ a, bool_decide (Some (acc_id a) = ev_user_id event) && account_live a) (app_users db);
  [event].

Definition get_by_id (account_id event_id : UUID) : M Db (option SecurityEventRecord) :=
  select_list _SECURITY_EVENT_COLUMNS [security_events_columns; app_users_columns]
    (gets (λ db, first_row (owned_rows account_id (λ e, bool_decide (ev_id e = event_id)) db))).

Definition list_for_account (account_id : UUID) (limit : Z) : M Db (list SecurityEventRecord) :=
  if (limit <=? 0)%Z then raise ValueError
  else
    select_list _SECURITY_EVENT_COLUMNS [security_events_columns; app_users_columns]
      (gets (λ db, firstn (Z.to_nat limit) (order_by_desc ev_created_at (owned_rows account_id (λ _, true) db)))).
Definition list_by_account := list_for_account.

(** [json.dumps(dict(details or {}), allow_nan=False)] refuses the floats JSON
    cannot write. *)
Fixpoint has_nan (j : json) : bool :=
  match j with
  | JFloat repr => bool_decide (repr ∈ ["nan"; "inf"; "-inf"])
  | JList l => existsb has_nan l
  | JObj ms => existsb (λ m, has_nan m.2) ms
  | _ => false
  end.

(** The [WHERE] clause of the [INSERT ... SELECT]. *)
Definition associated (user_id device_id : option UUID) (db : Db) : bool :=
  match user_id with
  | None => true
  | Some user => existsb (λ a, bool_decide (acc_id a = user) && account_live a) (app_users db)
  end &&
  match device_id with
  | None => true
  | Some device =>
      existsb (λ d, bool_decide (dev_id d = device) &&
                    match user_id with None => true | Some user => bool_decide (dev_user_id d = user) end)
        (devices db)
  end.

Definition create (now : timestamp) (id : UUID) (event_type outcome : string) (expires_at : timestamp)
    (user_id device_id : option UUID) (network_fingerprint : option bytes) (details : list (pystr * json)) :
    M Db SecurityEventRecord :=
  if has_nan (JObj details) then raise ValueError
  else
    let! new := gets (λ db,
      if associated user_id device_id db
      then [new_event id event_type outcome now expires_at user_id device_id network_fingerprint details]
      else []) in
    let! rows := on_security_events (insert_returning event_admits new) in
    lift (required_row rows).
Definition record := create.
End Pg.

#[export] Instance pg_events : SecurityEventStore Db := { create_event := Pg.create }.

(** ** [InMemorySecurityEventRepository]: the list of the events *)
Module Mem.
Definition get_by_id (account_id event_id : UUID) (s : list SecurityEventRecord) : option SecurityEventRecord :=
  first_match (λ e, bool_decide (ev_user_id e = Some account_id) && bool_decide (ev_id e = event_id)) s.

Definition list_for_account (account_id : UUID) (limit : Z) :
    M (list SecurityEventRecord) (list SecurityEventRecord) :=
  if (limit <=? 0)%Z then raise ValueError
  else gets (λ s, firstn (Z.to_nat limit) (List.filter (λ e, bool_decide (ev_user_id e = Some account_id)) s)).

Definition create (now : timestamp) (id : UUID) (event_type outcome : string) (expires_at : timestamp)
    (user_id device_id : option UUID) (network_fingerprint : option bytes) (details : list (pystr * json)) :
    M (list SecurityEventRecord) SecurityEventRecord :=
  let event := new_event id event_type outcome now expires_at user_id device_id network_fingerprint details in
  do! modify (λ s, s ++ [event]) in ret event.
Definition record := create.
End Mem.

#[export] Instance mem_events : SecurityEventStore (list SecurityEventRecord) := { create_event := Mem.create }.
