(* ===== verification/Rows.v ===== *)
(** * Rows: from the driver's rows to the records

    The [*_from_row] functions of [repositories/models.py] on a row as asyncpg
    gives it, a mapping from column names to values, and the select lists the
    repositories read them with.  The rest of the development takes a stored
    row to be the record it is read as; the lemmas here say why it may. *)
From Stdlib.Strings Require Import Byte Ascii.
From Stdlib Require Import String.
From S2P Require Import Prelude PyDict Json Models Schema Events LinkingOtps.
From stdpp Require Import list strings.

(** The Python values of the columns' types; [jsonb] is decoded to text. *)
Inductive cell :=
| CNull
| CUuid (v : UUID)
| CInt (v : Z)
| CBool (v : bool)
| CStr (v : pystr)
| CBytes (v : bytes)
| CTime (v : timestamp)
| CJsonText (v : list (pystr * json))
| CMapping (v : list (pystr * json)).

Definition row := list (string * cell).

(** [cast(T, value)] returns [value] as it is; the record's field has a
    counterpart only where the value is a [T]. *)
Definition as_uuid (c : cell) : option UUID := match c with CUuid v => Some v | _ => None end.
Definition as_int (c : cell) : option Z := match c with CInt v => Some v | _ => None end.
Definition as_bool (c : cell) : option bool := match c with CBool v => Some v | _ => None end.
Definition as_str (c : cell) : option pystr := match c with CStr v => Some v | _ => None end.
Definition as_bytes (c : cell) : option bytes := match c with CBytes v => Some v | _ => None end.
Definition as_datetime (c : cell) : option timestamp := match c with CTime v => Some v | _ => None end.
Definition as_mapping (c : cell) : option (list (pystr * json)) := match c with CMapping v => Some v | _ => None end.
(** Text of the program's own vocabulary, an ASCII word. *)
Definition as_word (c : cell) : option string :=
  match c with
  | CStr v => if forallb (λ x, (x <? 256)%N) v then Some (String.string_of_list_ascii (map Ascii.ascii_of_N v)) else None
  | _ => None
  end.
Definition or_none {A} (conversion : cell → option A) (c : cell) : option (option A) :=
  match c with CNull => Some None | _ => option_map Some (conversion c) end.

(** [cast(T, row[name])]: [None] for a missing column or another type. *)
Definition column {A} (conversion : cell → option A) (name : string) (r : row) : option A :=
  match dict_get name r with Some c => conversion c | None => None end.


(** ** [*_from_row] *)
Section from_row.
Variable r : row.
#[local] Notation "x <- f , name ; k" := (match column f name r with Some x => k | None => None end)
  (at level 100, f at level 0, name at level 0, k at level 200, right associativity, only parsing).

Definition account_from_row : option AccountRecord :=
  id' <- as_uuid, "id";
  supabase_user_id' <- as_uuid, "supabase_user_id";
  email_normalized' <- as_str, "email_normalized";
  device_epoch' <- as_int, "device_epoch";
  created_at' <- as_datetime, "created_at";
  email_fallback_at' <- (or_none as_datetime), "email_fallback_at";
  deleted_at' <- (or_none as_datetime), "deleted_at";
  Some {| acc_id := id'; acc_supabase_user_id := supabase_user_id'; acc_email_normalized := email_normalized'; acc_device_epoch := device_epoch'; acc_created_at := created_at'; acc_email_fallback_at := email_fallback_at'; acc_deleted_at := deleted_at' |}.

Definition device_from_row : option DeviceRecord :=
  id' <- as_uuid, "id";
  user_id' <- as_uuid, "user_id";
  epoch' <- as_int, "epoch";
  label' <- as_str, "label";
  signing_public_key_spki' <- as_bytes, "signing_public_key_spki";
  fingerprint' <- as_bytes, "fingerprint";
  status' <- as_word, "status";
  created_at' <- as_datetime, "created_at";
  last_seen_at' <- as_datetime, "last_seen_at";
  revoked_at' <- (or_none as_datetime), "revoked_at";
  linked_by_device_id' <- (or_none as_uuid), "linked_by_device_id";
  Some {| dev_id := id'; dev_user_id := user_id'; dev_epoch := epoch'; dev_label := label'; dev_signing_public_key_spki := signing_public_key_spki'; dev_fingerprint := fingerprint'; dev_status := status'; dev_created_at := created_at'; dev_last_seen_at := last_seen_at'; dev_revoked_at := revoked_at'; dev_linked_by_device_id := linked_by_device_id' |}.

Definition session_from_row : option SessionRecord :=
  id' <- as_uuid, "id";
  user_id' <- as_uuid, "user_id";
  device_id' <- as_uuid, "device_id";
  token_hash' <- as_bytes, "token_hash";
  csrf_hash' <- as_bytes, "csrf_hash";
  epoch' <- as_int, "epoch";
  created_at' <- as_datetime, "created_at";
  last_seen_at' <- as_datetime, "last_seen_at";
  idle_expires_at' <- as_datetime, "idle_expires_at";
  absolute_expires_at' <- as_datetime, "absolute_expires_at";
  revoked_at' <- (or_none as_datetime), "revoked_at";
  revocation_reason' <- (or_none as_word), "revocation_reason";
  Some {| ses_id := id'; ses_user_id := user_id'; ses_device_id := device_id'; ses_token_hash := token_hash'; ses_csrf_hash := csrf_hash'; ses_epoch := epoch'; ses_created_at := created_at'; ses_last_seen_at := last_seen_at'; ses_idle_expires_at := idle_expires_at'; ses_absolute_expires_at := absolute_expires_at'; ses_revoked_at := revoked_at'; ses_revocation_reason := revocation_reason' |}.

Definition device_challenge_from_row : option DeviceChallengeRecord :=
  id' <- as_uuid, "id";
  device_id' <- as_uuid, "device_id";
  nonce_hash' <- as_bytes, "nonce_hash";
  origin' <- as_str, "origin";
  created_at' <- as_datetime, "created_at";
  expires_at' <- as_datetime, "expires_at";
  consumed_at' <- (or_none as_datetime), "consumed_at";
  attempt_count' <- as_int, "attempt_count";
  Some {| chl_id := id'; chl_device_id := device_id'; chl_nonce_hash := nonce_hash'; chl_origin := origin'; chl_created_at := created_at'; chl_expires_at := expires_at'; chl_consumed_at := consumed_at'; chl_attempt_count := attempt_count' |}.

Definition device_linking_otp_from_row : option DeviceLinkingOtpRecord :=
  id' <- as_uuid, "id";
  user_id' <- as_uuid, "user_id";
  issuing_device_id' <- as_uuid, "issuing_device_id";
  otp_hash' <- as_bytes, "otp_hash";
  status' <- as_word, "status";
  attempt_count' <- as_int, "attempt_count";
  created_at' <- as_datetime, "created_at";
  expires_at' <- as_datetime, "expires_at";
  consumed_at' <- (or_none as_datetime), "consumed_at";
  Some {| otp_id := id'; otp_user_id := user_id'; otp_issuing_device_id := issuing_device_id'; otp_otp_hash := otp_hash'; otp_status := status'; otp_attempt_count := attempt_count'; otp_created_at := created_at'; otp_expires_at := expires_at'; otp_consumed_at := consumed_at' |}.

Definition websocket_ticket_from_row : option WebSocketTicketRecord :=
  id' <- as_uuid, "id";
  session_id' <- as_uuid, "session_id";
  token_hash' <- as_bytes, "token_hash";
  created_at' <- as_datetime, "created_at";
  expires_at' <- as_datetime, "expires_at";
  consumed_at' <- (or_none as_datetime), "consumed_at";
  Some {| tkt_id := id'; tkt_session_id := session_id'; tkt_token_hash := token_hash'; tkt_created_at := created_at'; tkt_expires_at := expires_at'; tkt_consumed_at := consumed_at' |}.

Definition transfer_request_from_row : option TransferRequestRecord :=
  id' <- as_uuid, "id";
  user_id' <- as_uuid, "user_id";
  sender_device_id' <- as_uuid, "sender_device_id";
  recipient_device_id' <- as_uuid, "recipient_device_id";
  protocol_version' <- as_int, "protocol_version";
  status' <- as_word, "status";
  created_at' <- as_datetime, "created_at";
  expires_at' <- as_datetime, "expires_at";
  accepted_at' <- (or_none as_datetime), "accepted_at";
  completed_at' <- (or_none as_datetime), "completed_at";
  failure_code' <- (or_none as_word), "failure_code";
  relay_used' <- as_bool, "relay_used";
  Some {| tr_id := id'; tr_user_id := user_id'; tr_sender_device_id := sender_device_id'; tr_recipient_device_id := recipient_device_id'; tr_protocol_version := protocol_version'; tr_status := status'; tr_created_at := created_at'; tr_expires_at := expires_at'; tr_accepted_at := accepted_at'; tr_completed_at := completed_at'; tr_failure_code := failure_code'; tr_relay_used := relay_used' |}.

Definition security_event_from_row : option SecurityEventRecord :=
  id' <- as_uuid, "id";
  user_id' <- (or_none as_uuid), "user_id";
  device_id' <- (or_none as_uuid), "device_id";
  event_type' <- as_word, "event_type";
  outcome' <- as_word, "outcome";
  network_fingerprint' <- (or_none as_bytes), "network_fingerprint";
  details' <- as_mapping, "details";
  created_at' <- as_datetime, "created_at";
  expires_at' <- as_datetime, "expires_at";
  Some {| ev_id := id'; ev_user_id := user_id'; ev_device_id := device_id'; ev_event_type := event_type'; ev_outcome := outcome'; ev_network_fingerprint := network_fingerprint'; ev_details := details'; ev_created_at := created_at'; ev_expires_at := expires_at' |}.

Definition rate_limit_bucket_from_row : option RateLimitBucketRecord :=
  scope' <- as_word, "scope";
  bucket_key' <- as_bytes, "bucket_key";
  window_started_at' <- as_datetime, "window_started_at";
  window_expires_at' <- as_datetime, "window_expires_at";
  request_count' <- as_int, "request_count";
  Some {| rlb_scope := scope'; rlb_bucket_key := bucket_key'; rlb_window_started_at := window_started_at'; rlb_window_expires_at := window_expires_at'; rlb_request_count := request_count' |}.

End from_row.

(** ** The stored rows, by column *)
Definition word (s : string) : cell := CStr (u s).
Definition nullable {A} (conversion : A → cell) (v : option A) : cell := match v with Some v => conversion v | None => CNull end.

Definition account_row (x : AccountRecord) : row :=
  [("id", CUuid (acc_id x));
   ("supabase_user_id", CUuid (acc_supabase_user_id x));
   ("email_normalized", CStr (acc_email_normalized x));
   ("device_epoch", CInt (acc_device_epoch x));
   ("created_at", CTime (acc_created_at x));
   ("email_fallback_at", nullable CTime (acc_email_fallback_at x));
   ("deleted_at", nullable CTime (acc_deleted_at x))].

Definition device_row (x : DeviceRecord) : row :=
  [("id", CUuid (dev_id x));
   ("user_id", CUuid (dev_user_id x));
   ("epoch", CInt (dev_epoch x));
   ("label", CStr (dev_label x));
   ("signing_public_key_spki", CBytes (dev_signing_public_key_spki x));
   ("fingerprint", CBytes (dev_fingerprint x));
   ("status", word (dev_status x));
   ("created_at", CTime (dev_created_at x));
   ("last_seen_at", CTime (dev_last_seen_at x));
   ("revoked_at", nullable CTime (dev_revoked_at x));
   ("linked_by_device_id", nullable CUuid (dev_linked_by_device_id x))].

Definition session_row (x : SessionRecord) : row :=
  [("id", CUuid (ses_id x));
   ("user_id", CUuid (ses_user_id x));
   ("device_id", CUuid (ses_device_id x));
   ("token_hash", CBytes (ses_token_hash x));
   ("csrf_hash", CBytes (ses_csrf_hash x));
   ("epoch", CInt (ses_epoch x));
   ("created_at", CTime (ses_created_at x));
   ("last_seen_at", CTime (ses_last_seen_at x));
   ("idle_expires_at", CTime (ses_idle_expires_at x));
   ("absolute_expires_at", CTime (ses_absolute_expires_at x));
   ("revoked_at", nullable CTime (ses_revoked_at x));
   ("revocation_reason", nullable word (ses_revocation_reason x))].

Definition device_challenge_row (x : DeviceChallengeRecord) : row :=
  [("id", CUuid (chl_id x));
   ("device_id", CUuid (chl_device_id x));
   ("nonce_hash", CBytes (chl_nonce_hash x));
   ("origin", CStr (chl_origin x));
   ("created_at", CTime (chl_created_at x));
   ("expires_at", CTime (chl_expires_at x));
   ("consumed_at", nullable CTime (chl_consumed_at x));
   ("attempt_count", CInt (chl_attempt_count x))].

Definition device_linking_otp_row (x : DeviceLinkingOtpRecord) : row :=
  [("id", CUuid (otp_id x));
   ("user_id", CUuid (otp_user_id x));
   ("issuing_device_id", CUuid (otp_issuing_device_id x));
   ("otp_hash", CBytes (otp_otp_hash x));
   ("status", word (otp_status x));
   ("attempt_count", CInt (otp_attempt_count x));
   ("created_at", CTime (otp_created_at x));
   ("expires_at", CTime (otp_expires_at x));
   ("consumed_at", nullable CTime (otp_consumed_at x))].

Definition websocket_ticket_row (x : WebSocketTicketRecord) : row :=
  [("id", CUuid (tkt_id x));
   ("session_id", CUuid (tkt_session_id x));
   ("token_hash", CBytes (tkt_token_hash x));
   ("created_at", CTime (tkt_created_at x));
   ("expires_at", CTime (tkt_expires_at x));
   ("consumed_at", nullable CTime (tkt_consumed_at x))].

Definition transfer_request_row (x : TransferRequestRecord) : row :=
  [("id", CUuid (tr_id x));
   ("user_id", CUuid (tr_user_id x));
   ("sender_device_id", CUuid (tr_sender_device_id x));
   ("recipient_device_id", CUuid (tr_recipient_device_id x));
   ("protocol_version", CInt (tr_protocol_version x));
   ("status", word (tr_status x));
   ("created_at", CTime (tr_created_at x));
   ("expires_at", CTime (tr_expires_at x));
   ("accepted_at", nullable CTime (tr_accepted_at x));
   ("completed_at", nullable CTime (tr_completed_at x));
   ("failure_code", nullable word (tr_failure_code x));
   ("relay_used", CBool (tr_relay_used x))].

Definition security_event_row (x : SecurityEventRecord) : row :=
  [("id", CUuid (ev_id x));
   ("user_id", nullable CUuid (ev_user_id x));
   ("device_id", nullable CUuid (ev_device_id x));
   ("event_type", word (ev_event_type x));
   ("outcome", word (ev_outcome x));
   ("network_fingerprint", nullable CBytes (ev_network_fingerprint x));
   ("details", CJsonText (ev_details x));
   ("created_at", CTime (ev_created_at x));
   ("expires_at", CTime (ev_expires_at x))].

Definition rate_limit_bucket_row (x : RateLimitBucketRecord) : row :=
  [("scope", word (rlb_scope x));
   ("bucket_key", CBytes (rlb_bucket_key x));
   ("window_started_at", CTime (rlb_window_started_at x));
   ("window_expires_at", CTime (rlb_window_expires_at x));
   ("request_count", CInt (rlb_request_count x))].

(** ** The select lists *)
Definition _ACCOUNT_COLUMNS : list string :=
  ["id"; "supabase_user_id"; "email_normalized"; "device_epoch"; "created_at"; "email_fallback_at";
   "deleted_at"].
Definition _DEVICE_COLUMNS : list string :=
  ["id"; "user_id"; "epoch"; "label"; "signing_public_key_spki"; "fingerprint"; "status"; "created_at";
   "last_seen_at"; "revoked_at"; "linked_by_device_id"].
Definition _SESSION_COLUMNS : list string :=
  ["id"; "user_id"; "device_id"; "token_hash"; "csrf_hash"; "epoch"; "created_at"; "last_seen_at";
   "idle_expires_at"; "absolute_expires_at"; "revoked_at"; "revocation_reason"].
Definition _DEVICE_CHALLENGE_COLUMNS : list string :=
  ["id"; "device_id"; "nonce_hash"; "origin"; "created_at"; "expires_at"; "consumed_at"; "attempt_count"].
Definition _WEBSOCKET_TICKET_COLUMNS : list string :=
  ["id"; "session_id"; "token_hash"; "created_at"; "expires_at"; "consumed_at"].
Definition _TRANSFER_REQUEST_COLUMNS : list string :=
  ["id"; "user_id"; "sender_device_id"; "recipient_device_id"; "protocol_version"; "status"; "created_at";
   "expires_at"; "accepted_at"; "completed_at"; "failure_code"; "relay_used"].
Definition _RATE_LIMIT_BUCKET_COLUMNS : list string :=
  ["scope"; "bucket_key"; "window_started_at"; "window_expires_at"; "request_count"].

(** The qualified lists of the joins. *)
Definition qualified (alias : string) (columns : list string) : list string := map (λ c, alias +:+ "." +:+ c) columns.
Definition _DEVICE_CHALLENGE_SELECT_COLUMNS : list string := qualified "challenge" _DEVICE_CHALLENGE_COLUMNS.
Definition _WEBSOCKET_TICKET_SELECT_COLUMNS : list string := qualified "ticket" _WEBSOCKET_TICKET_COLUMNS.
Definition _TRANSFER_SELECT_COLUMNS : list string := qualified "transfer" _TRANSFER_REQUEST_COLUMNS.

(** The columns of a result: a list's names, without the aliases. *)
Definition project (columns : list string) (r : row) : row :=
  flat_map (λ c, match dict_get c r with Some v => [(c, v)] | None => [] end) columns.

(** ** Every record read is the row stored *)
Lemma ascii_word s :
  forallb (λ x, (x <? 256)%N) (u s) = true ∧ String.string_of_list_ascii (map Ascii.ascii_of_N (u s)) = s.
Proof.
  induction s as [|c s [IH1 IH2]]; [done|]. simpl. rewrite IH1, IH2, Ascii.ascii_N_embedding. split; [|done].
  rewrite andb_true_r. apply N.ltb_lt, N_ascii_bounded.
Qed.

Lemma as_word_word s : as_word (word s) = Some s.
Proof. unfold as_word, word. destruct (ascii_word s) as [-> ->]. done. Qed.

Lemma or_none_nullable {A} (to : cell → option A) (from : A → cell) (v : option A) :
  (∀ x, to (from x) = Some x) → (∀ x, from x ≠ CNull) → or_none to (nullable from v) = Some v.
Proof.
  intros Hto Hnull. destruct v as [x|]; [|done]. simpl. specialize (Hto x). specialize (Hnull x). unfold or_none.
  destruct (from x); [done|..]; by rewrite Hto.
Qed.

(** A column of the projection, found; then its conversion. *)
#[local] Ltac decoded x := destruct x; lazy -[word as_word or_none nullable];
  rewrite ?or_none_nullable, ?as_word_word by (done || apply as_word_word); reflexivity.

Lemma account_decoded x : account_from_row (project _ACCOUNT_COLUMNS (account_row x)) = Some x.
Proof. decoded x. Qed.
Lemma device_decoded x : device_from_row (project _DEVICE_COLUMNS (device_row x)) = Some x.
Proof. decoded x. Qed.
Lemma session_decoded x : session_from_row (project _SESSION_COLUMNS (session_row x)) = Some x.
Proof. decoded x. Qed.
Lemma device_challenge_decoded x : device_challenge_from_row (project _DEVICE_CHALLENGE_COLUMNS (device_challenge_row x)) = Some x.
Proof. decoded x. Qed.
Lemma device_linking_otp_decoded x : device_linking_otp_from_row (project LinkingOtps.Pg._OTP_COLUMNS (device_linking_otp_row x)) = Some x.
Proof. decoded x. Qed.
Lemma websocket_ticket_decoded x : websocket_ticket_from_row (project _WEBSOCKET_TICKET_COLUMNS (websocket_ticket_row x)) = Some x.
Proof. decoded x. Qed.
Lemma transfer_request_decoded x : transfer_request_from_row (project _TRANSFER_REQUEST_COLUMNS (transfer_request_row x)) = Some x.
Proof. decoded x. Qed.
Lemma rate_limit_bucket_decoded x : rate_limit_bucket_from_row (project _RATE_LIMIT_BUCKET_COLUMNS (rate_limit_bucket_row x)) = Some x.
Proof. decoded x. Qed.

(** The driver decodes [jsonb] to text: an event read back has text where its
    record declares a mapping. *)
Lemma security_event_undecoded x : security_event_from_row (project Events.Pg._SECURITY_EVENT_COLUMNS (security_event_row x)) = None.
Proof. destruct x; lazy -[word as_word or_none nullable]. rewrite ?or_none_nullable, ?as_word_word by (done || apply as_word_word). reflexivity. Qed.
