(* ===== verification/Cleanup.v ===== *)
(** * Cleanup: [repositories/cleanup.py]

    The retention job: bounded batches, oldest first, of the records each
    table no longer keeps. *)
From S2P Require Import Prelude PyDict Json Models Sql Schema.
From stdpp Require Import list strings.

Definition DEFAULT_CLEANUP_BATCH_SIZE : Z := 100.
Definition MAX_CLEANUP_BATCH_SIZE : Z := 1000.

Definition _validate_batch_size (batch_size : Z) : outcome unit :=
  if ((0 <? batch_size) && (batch_size <=? MAX_CLEANUP_BATCH_SIZE))%Z then Ok tt else Raise ValueError.

(** ** [DELETE ... WHERE ctid IN (SELECT ctid ... ORDER BY key LIMIT $1)]

    A row's [ctid] is its position in the table. *)
Section batch.
Context {Row : Type} (cond : Row → bool) (key : Row → Z).

Fixpoint insert_asc (r : nat * Row) (l : list (nat * Row)) : list (nat * Row) :=
  match l with
  | [] => [r]
  | r' :: l' => if (key r.2 <=? key r'.2)%Z then r :: l else r' :: insert_asc r l'
  end.

Definition candidates (t : list Row) : list (nat * Row) :=
  foldr insert_asc [] (List.filter (λ r, cond r.2) (imap pair t)).

Definition victims (batch_size : Z) (t : list Row) : list nat :=
  map fst (firstn (Z.to_nat batch_size) (candidates t)).

(** [_delete_batch], the deleted rows kept for the cascade. *)
Definition _delete_batch (batch_size : Z) : M (list Row) (list Row) :=
  λ t, let chosen := victims batch_size t in
       (Ok (map snd (List.filter (λ r, bool_decide (r.1 ∈ chosen)) (imap pair t))),
        map snd (List.filter (λ r, negb (bool_decide (r.1 ∈ chosen))) (imap pair t))).
End batch.

(** ** The seven queries: which rows, oldest first by which instant *)
Definition session_retained (now : timestamp) (r : SessionRecord) : bool :=
  match ses_revoked_at r with
  | Some revoked_at => (revoked_at <=? now - days 7)%Z
  | None => (Z.min (ses_idle_expires_at r) (ses_absolute_expires_at r) <=? now - days 7)%Z
  end.
Definition session_age (r : SessionRecord) : Z := coalesce (ses_revoked_at r) (ses_absolute_expires_at r).

Definition challenge_done (now : timestamp) (r : DeviceChallengeRecord) : bool :=
  negb (is_null (chl_consumed_at r)) || (chl_expires_at r <=? now)%Z.
Definition challenge_age (r : DeviceChallengeRecord) : Z := coalesce (chl_consumed_at r) (chl_expires_at r).

Definition linking_otp_done (now : timestamp) (r : DeviceLinkingOtpRecord) : bool :=
  bool_decide (otp_status r ∈ ["consumed"; "expired"]) || (otp_expires_at r <=? now)%Z.
Definition linking_otp_age (r : DeviceLinkingOtpRecord) : Z := coalesce (otp_consumed_at r) (otp_expires_at r).

Definition transfer_done (now : timestamp) (r : TransferRequestRecord) : bool :=
  bool_decide (tr_status r ∈ ["completed"; "rejected"; "expired"; "cancelled"; "failed"]) &&
  (coalesce (tr_completed_at r) (tr_created_at r) <=? now - days 30)%Z.
Definition transfer_age (r : TransferRequestRecord) : Z := coalesce (tr_completed_at r) (tr_created_at r).

Definition ticket_done (now : timestamp) (r : WebSocketTicketRecord) : bool :=
  negb (is_null (tkt_consumed_at r)) || (tkt_expires_at r <=? now)%Z.
Definition ticket_age (r : WebSocketTicketRecord) : Z := coalesce (tkt_consumed_at r) (tkt_expires_at r).

Definition event_done (now : timestamp) (r : SecurityEventRecord) : bool := (ev_expires_at r <=? now)%Z.
Definition bucket_done (now : timestamp) (r : RateLimitBucketRecord) : bool := (rlb_window_expires_at r <=? now)%Z.

(** A batch of one table; [websocket_tickets_session_fk] deletes a session's
    tickets with it. *)
Definition counted {Row} (m : M Db (list Row)) : M Db nat := let! rows := m in ret (length rows).

Definition delete_sessions (now : timestamp) (batch_size : Z) : M Db nat :=
  let! rows := on_app_sessions (_delete_batch (session_retained now) session_age batch_size) in
  do! on_websocket_tickets (delete_returning (λ r, bool_decide (tkt_session_id r ∈ map ses_id rows))) in
  ret (length rows).
Definition delete_challenges (now : timestamp) (batch_size : Z) : M Db nat :=
  counted (on_device_challenges (_delete_batch (challenge_done now) challenge_age batch_size)).
Definition delete_linking_otps (now : timestamp) (batch_size : Z) : M Db nat :=
  counted (on_device_linking_otps (_delete_batch (linking_otp_done now) linking_otp_age batch_size)).
Definition delete_transfers (now : timestamp) (batch_size : Z) : M Db nat :=
  counted (on_transfer_requests (_delete_batch (transfer_done now) transfer_age batch_size)).
Definition delete_tickets (now : timestamp) (batch_size : Z) : M Db nat :=
  counted (on_websocket_tickets (_delete_batch (ticket_done now) ticket_age batch_size)).
Definition delete_events (now : timestamp) (batch_size : Z) : M Db nat :=
  counted (on_security_events (_delete_batch (event_done now) ev_expires_at batch_size)).
Definition delete_buckets (now : timestamp) (batch_size : Z) : M Db nat :=
  counted (on_rate_limit_buckets (_delete_batch (bucket_done now) rlb_window_expires_at batch_size)).

(** ** [ExpiryCleanupRepository] *)
Definition cleanup_expired (now : timestamp) (batch_size : Z) : M Db (list (string * nat)) :=
  do! lift (_validate_batch_size batch_size) in
  transaction (
    let! app_sessions := delete_sessions now batch_size in
    let! device_challenges := delete_challenges now batch_size in
    let! device_linking_otps := delete_linking_otps now batch_size in
    let! transfer_requests := delete_transfers now batch_size in
    let! websocket_tickets := delete_tickets now batch_size in
    let! security_events := delete_events now batch_size in
    let! rate_limit_buckets := delete_buckets now batch_size in
    ret [("app_sessions", app_sessions); ("device_challenges", device_challenges);
         ("device_linking_otps", device_linking_otps); ("transfer_requests", transfer_requests);
         ("websocket_tickets", websocket_tickets); ("security_events", security_events);
         ("rate_limit_buckets", rate_limit_buckets)]).
Definition cleanup := cleanup_expired.
Definition run := cleanup_expired.
Definition cleanup_all := cleanup_expired.

Definition _cleanup_one (delete : Z → M Db nat) (batch_size : Z) : M Db nat :=
  do! lift (_validate_batch_size batch_size) in transaction (delete batch_size).

Definition cleanup_sessions (now : timestamp) := _cleanup_one (delete_sessions now).
Definition cleanup_challenges (now : timestamp) := _cleanup_one (delete_challenges now).
Definition cleanup_device_linking_otps (now : timestamp) := _cleanup_one (delete_linking_otps now).
Definition cleanup_transfers (now : timestamp) := _cleanup_one (delete_transfers now).
Definition cleanup_tickets (now : timestamp) := _cleanup_one (delete_tickets now).
Definition cleanup_security_events (now : timestamp) := _cleanup_one (delete_events now).
Definition cleanup_rate_limits (now : timestamp) := _cleanup_one (delete_buckets now).
