(* ===== verification/Transactions.v ===== *)
(** * Transactions: the blocks the repositories run in a transaction

    Every [async with database.transaction()] of the repositories, statement by
    statement, and that the method is that block run without a failure. *)
From Stdlib.Strings Require Import Byte.
From S2P Require Import Prelude PyDict Json Models Sql Schema Hashing RateLimits.
From S2P Require Database Sessions Accounts Devices Challenges LinkingOtps Tickets Cleanup.
From stdpp Require Import list strings.

Import Database (script, Return, Throw, Fetch, and_then, computed, perform).

(** A method that is one transaction. *)
Class Transactional {A} (m : M Db A) := {
  body_of : script Db A;
  body_runs : ∀ db, m db = transaction (perform body_of []) db }.
Arguments body_of {A} m {_}.

Lemma transaction_ext {A} (m1 m2 : M Db A) db : m1 db = m2 db → transaction m1 db = transaction m2 db.
Proof. unfold transaction. by intros ->. Qed.

Lemma bind_ext {S A B} (m : M S A) (k1 k2 : A → M S B) s :
  (∀ a s', k1 a s' = k2 a s') → bind m k1 s = bind m k2 s.
Proof. intros Hk. unfold bind. destruct (m s) as [[a|e] s']; [apply Hk|done]. Qed.

Lemma bind_assoc {S A B C} (m : M S A) (k : A → M S B) (h : B → M S C) s :
  bind (bind m k) h s = bind m (λ a, bind (k a) h) s.
Proof. unfold bind. by destruct (m s) as [[a|e] s']. Qed.

Lemma bind_ret {S A} (m : M S A) s : bind m (λ a, ret a) s = m s.
Proof. unfold bind. by destruct (m s) as [[a|e] s']. Qed.

(** Without a failure, one script after another is one computation after the
    other. *)
Lemma perform_and_then {A B} (s : script Db A) (k : A → script Db B) db :
  perform (and_then s k) [] db = bind (perform s []) (λ a, perform (k a) []) db.
Proof.
  revert db. induction s as [a|e|C statement k' IH]; intros db; [done..|].
  cbn. rewrite bind_assoc. apply bind_ext. intros c db'. apply IH.
Qed.

Lemma perform_computed {A} (o : outcome A) (db : Db) : perform (computed o) [] db = lift o db.
Proof. by destruct o. Qed.

(** [INSERT INTO private.devices ... SELECT ... FROM private.app_users] *)
Definition insert_device (new : Db → list DeviceRecord) : M Db (list DeviceRecord) :=
  let! rows := gets new in on_devices (insert_returning device_admits rows).

Lemma perform_fetch {A B} (statement : M Db B) (k : B → script Db A) db :
  perform (Fetch statement k) [] db = bind statement (λ b, perform (k b) []) db.
Proof. done. Qed.

(** The two sides meet at each statement. *)
Ltac same_block :=
  intros db; apply transaction_ext;
  repeat first
    [ rewrite perform_fetch
    | rewrite bind_assoc
    | rewrite perform_computed
    | match goal with |- bind ?m _ _ = bind ?m _ _ => apply bind_ext; intros end
    | match goal with |- context [perform match ?x with _ => _ end] => destruct x end
    | match goal with |- context [and_then (computed ?o)] => solve [destruct o; reflexivity] end
    | progress unfold insert_device
    | lazymatch goal with |- bind _ _ _ = _ => fail | |- _ => reflexivity end ].

(** ** [repositories/devices.py] *)
Section devices.
Import Devices.

Definition with_sessions_block (now : timestamp) (account_id device_id : UUID) (reason : string)
    (set : DeviceRecord → DeviceRecord) : script Db (option DeviceRecord) :=
  Fetch (Pg.update (Pg.owned account_id device_id) set) (λ rows,
    match first_row rows with
    | None => Return None
    | Some device => Fetch (Sessions.Pg.revoke_for_device now account_id device_id reason) (λ _, Return (Some device))
    end).

#[export] Instance with_sessions_transactional now a d reason set : Transactional (Pg.with_sessions now a d reason set).
Proof. exists (with_sessions_block now a d reason set). unfold with_sessions_block. same_block. Defined.

#[export] Instance revoke_transactional now a d reason : Transactional (Pg.revoke_with_sessions now a d reason) :=
  with_sessions_transactional now a d reason _.
#[export] Instance logout_transactional now a d reason : Transactional (Pg.logout_with_sessions now a d reason) :=
  with_sessions_transactional now a d reason _.

Definition revoke_all_block (now : timestamp) (account_id : UUID) (reason : string) : script Db nat :=
  Fetch (Pg.update (λ r, bool_decide (dev_user_id r = account_id) && bool_decide (dev_status r = "active"))
           (λ r, dev_revoked r (coalesce (dev_revoked_at r) now))) (λ rows,
  Fetch (Sessions.Pg.revoke_for_account now account_id reason) (λ _, Return (length rows))).

#[export] Instance revoke_all_transactional now a reason : Transactional (Pg.revoke_all_for_account now a reason).
Proof. exists (revoke_all_block now a reason). unfold revoke_all_block. same_block. Defined.

Definition register_block (now : timestamp) (account_id : UUID) (epoch : Z) (label : pystr) (spki fingerprint : bytes)
    (device_id : UUID) : script Db DeviceRecord :=
  Fetch (Pg.get_by_fingerprint account_id fingerprint) (λ existing,
    match existing with
    | Some existing_device =>
        if bool_decide (dev_status existing_device = "revoked") then Throw ValueError
        else Fetch (Pg.update (λ r, Pg.keyed_by account_id fingerprint r && bool_decide (dev_epoch r = epoch))
                      (λ r, dev_activated r (dev_epoch r) label now)) (λ rows, computed (required_row rows))
    | None =>
        Fetch (insert_device (λ db, map (λ account,
                 new_device device_id (acc_id account) epoch label spki fingerprint now None)
                 (Pg.current_account account_id epoch db))) (λ rows, computed (required_row rows))
    end).

#[export] Instance register_transactional now a e l k fp d : Transactional (Pg.register_for_email now a e l k fp d).
Proof. exists (register_block now a e l k fp d). unfold register_block. same_block. Defined.
End devices.

(** ** [repositories/device_linking_otps.py] *)
Section linking.
Import LinkingOtps.

Definition redeem_block (now : timestamp) (otp_id_ account_id issuing_device_id : UUID) (epoch : Z) (device_id : UUID)
    (label : pystr) (spki fingerprint : bytes) : script Db (option DeviceRecord) :=
  Fetch (let! db := gets id in
         on_device_linking_otps (update_returning linking_otp_check
           (Pg.redeemable db now otp_id_ account_id issuing_device_id epoch) (λ r, otp_consumed r now))) (λ consumed,
    if bool_decide (consumed = []) then Return None
    else
      Fetch (insert_device (λ db, map (λ account,
               Devices.new_device device_id (acc_id account) epoch label spki fingerprint now (Some issuing_device_id))
               (Devices.Pg.current_account account_id epoch db))) (λ rows,
        and_then (computed (required_row rows)) (λ device, Return (Some device)))).

#[export] Instance redeem_transactional now i a d e n l k fp :
  Transactional (Pg.consume_and_register now i a d e n l k fp).
Proof.
  exists (redeem_block now i a d e n l k fp). unfold redeem_block. same_block.
Defined.
End linking.

(** ** [repositories/challenges.py] and [repositories/websocket_tickets.py]: one statement *)
#[export] Instance consume_challenge_transactional now a i : Transactional (Challenges.Pg.consume now a i).
Proof.
  exists (Fetch (Challenges.Pg.update_open now a (λ r, bool_decide (chl_id r = i)) (λ r, Challenges.chl_consumed r now)) Return).
  intros db. unfold Challenges.Pg.consume. apply transaction_ext. rewrite perform_fetch. symmetry. apply bind_ret.
Defined.

#[export] Instance consume_nonce_transactional now a h : Transactional (Challenges.Pg.consume_by_nonce_hash now a h).
Proof.
  exists (Fetch (Challenges.Pg.update_open now a (λ r, bool_decide (chl_nonce_hash r = h)) (λ r, Challenges.chl_consumed r now)) Return).
  intros db. unfold Challenges.Pg.consume_by_nonce_hash. apply transaction_ext. rewrite perform_fetch. symmetry. apply bind_ret.
Defined.

Definition consume_ticket_block (now : timestamp) (key : WebSocketTicketRecord → bool) (owner : UUID → bool) :
    script Db (option WebSocketTicketRecord) :=
  Fetch (let! db := gets id in
         on_websocket_tickets (update_returning ticket_check
           (λ r, key r && Tickets.tkt_open now r && Tickets.Pg.session_current db now owner r)
           (λ r, tkt_with_consumed_at r now))) (λ rows, Return (first_row rows)).

#[export] Instance consume_ticket_transactional now key owner : Transactional (Tickets.Pg.consume_where now key owner).
Proof. exists (consume_ticket_block now key owner). unfold consume_ticket_block. same_block. Defined.

(** ** [repositories/rate_limits.py] *)
Section limits.
Import RateLimits RateLimits.Pg.

(** The loop of [SELECT ... FOR UPDATE], which leaves the block at a spent
    bucket, and the loop of writes. *)
Fixpoint lock_block (current : timestamp) (requests : list keyed_request) :
    script Db (option (list (keyed_request * option window))) :=
  match requests with
  | [] => Return (Some [])
  | (scope, key, limit, length_) :: requests' =>
      Fetch (on_rate_limit_buckets (Pg.get scope key)) (λ row,
        if match row with
           | None => false
           | Some r => (current <? rlb_window_expires_at r)%Z && (limit <=? rlb_request_count r)%Z
           end
        then Return None
        else and_then (lock_block current requests') (λ rest, Return (option_map
               (cons ((scope, key, limit, length_), option_map (λ r, (rlb_window_expires_at r, rlb_request_count r)) row)) rest)))
  end.

Fixpoint write_block (current : timestamp) (found : list (keyed_request * option window)) : script Db bool :=
  match found with
  | [] => Return true
  | st :: found' => Fetch (on_rate_limit_buckets (write current st)) (λ _, write_block current found')
  end.

Definition consume_many_block (current : timestamp) (requests : list keyed_request) : script Db bool :=
  and_then (lock_block current requests) (λ found,
    match found with None => Return false | Some found => write_block current found end).

Lemma buckets_gets {A} (f : list RateLimitBucketRecord → A) db :
  on_rate_limit_buckets (gets f) db = (Ok (f (rate_limit_buckets db)), db).
Proof. by destruct db. Qed.

Lemma lock_block_runs current requests db :
  perform (lock_block current requests) [] db = (Ok (locked current requests (rate_limit_buckets db)), db).
Proof.
  induction requests as [|[[[scope key] limit] length_] requests IH]; [done|]. cbn [lock_block locked].
  rewrite perform_fetch. unfold Pg.get, bind at 1. rewrite buckets_gets.
  destruct (match first_row _ with Some _ => _ | None => _ end) eqn:Hspent; [done|].
  rewrite perform_and_then. unfold bind. rewrite IH. simpl. by destruct (locked _ _ _).
Qed.

Lemma write_block_runs current found db :
  perform (write_block current found) [] db = on_rate_limit_buckets (do! for_each (write current) found in ret true) db.
Proof.
  revert db. induction found as [|st found IH]; intros db; [by destruct db|]. cbn [write_block].
  rewrite perform_fetch. unfold on_rate_limit_buckets, zoom, bind in *. cbn [for_each].
  destruct (write current st (rate_limit_buckets db)) as [[[]|e] t] eqn:Hw.
  - rewrite IH. cbn. unfold bind. by rewrite Hw.
  - unfold bind. by rewrite Hw.
Qed.

(** Past its validation [consume_many] is one transaction. *)
Definition consume_many_transactional current requests :
  requests ≠ [] → existsb bad_keyed_request requests = false → Transactional (consume_many current requests).
Proof.
  intros Hne Hgood. exists (consume_many_block current requests). intros db. unfold consume_many.
  rewrite bool_decide_eq_false_2, Hgood by done. apply transaction_ext. unfold consume_many_block.
  rewrite perform_and_then. unfold bind. rewrite lock_block_runs.
  destruct (locked current requests (rate_limit_buckets db)) as [found|] eqn:Hl.
  - rewrite write_block_runs. unfold on_rate_limit_buckets, zoom, gets. by rewrite Hl.
  - unfold on_rate_limit_buckets, zoom, gets. rewrite Hl. by destruct db.
Defined.
End limits.

(** ** [repositories/cleanup.py] *)
Section cleanup.
Import Cleanup.

Definition cleanup_block (now : timestamp) (batch_size : Z) : script Db (list (string * nat)) :=
  Fetch (delete_sessions now batch_size) (λ app_sessions,
  Fetch (delete_challenges now batch_size) (λ device_challenges,
  Fetch (delete_linking_otps now batch_size) (λ device_linking_otps,
  Fetch (delete_transfers now batch_size) (λ transfer_requests,
  Fetch (delete_tickets now batch_size) (λ websocket_tickets,
  Fetch (delete_events now batch_size) (λ security_events,
  Fetch (delete_buckets now batch_size) (λ rate_limit_buckets,
  Return [("app_sessions", app_sessions); ("device_challenges", device_challenges);
          ("device_linking_otps", device_linking_otps); ("transfer_requests", transfer_requests);
          ("websocket_tickets", websocket_tickets); ("security_events", security_events);
          ("rate_limit_buckets", rate_limit_buckets)]))))))).

Definition cleanup_transactional now batch_size :
  _validate_batch_size batch_size = Ok tt → Transactional (cleanup_expired now batch_size).
Proof.
  intros Hsize. exists (cleanup_block now batch_size). intros db. unfold cleanup_expired, bind at 1, lift. rewrite Hsize.
  revert db. unfold cleanup_block. same_block.
Defined.
End cleanup.
