(* ===== verification/Integrity.v ===== *)
(** * Integrity: the private database as a whole

    The tables of [Schema.Db] with their constraints and the life of their
    rows ([Table] instances); what the repositories owe the database beyond one
    table: rows are never lost or taken back a step ([db_step]), and references
    never dangle ([linked_step]).  [Writes] is what a relation must satisfy to
    hold of every statement; both relations do. *)
From Stdlib.Strings Require Import Byte.
From S2P Require Import Prelude PyDict Json Models Sql Tables Schema Hashing.
From S2P Require Import TransferPort TransferRepository TransferTheorems RateLimits Sessions SessionTheorems.
From stdpp Require Import list strings relations.

(** ** The life of a row, table by table *)

(** No operation rewrites an account's identity, epoch or deletion. *)
Definition account_grows (r r' : AccountRecord) : Prop :=
  acc_id r' = acc_id r ∧ acc_supabase_user_id r' = acc_supabase_user_id r ∧
  acc_email_normalized r' = acc_email_normalized r ∧ acc_device_epoch r' = acc_device_epoch r ∧
  acc_created_at r' = acc_created_at r ∧ acc_deleted_at r' = acc_deleted_at r.

(** A device keeps its owner, key, epoch and lineage; revocation is final. *)
Definition device_grows (r r' : DeviceRecord) : Prop :=
  dev_id r' = dev_id r ∧ dev_user_id r' = dev_user_id r ∧ dev_epoch r' = dev_epoch r ∧
  dev_signing_public_key_spki r' = dev_signing_public_key_spki r ∧ dev_fingerprint r' = dev_fingerprint r ∧
  dev_created_at r' = dev_created_at r ∧ dev_linked_by_device_id r' = dev_linked_by_device_id r ∧
  (dev_status r = "revoked" → dev_status r' = "revoked") ∧
  (∀ t, dev_revoked_at r = Some t → dev_revoked_at r' = Some t).

(** A challenge is consumed once, and its attempts only go up. *)
Definition challenge_grows (r r' : DeviceChallengeRecord) : Prop :=
  chl_id r' = chl_id r ∧ chl_device_id r' = chl_device_id r ∧ chl_nonce_hash r' = chl_nonce_hash r ∧
  chl_origin r' = chl_origin r ∧ chl_created_at r' = chl_created_at r ∧ chl_expires_at r' = chl_expires_at r ∧
  (∀ t, chl_consumed_at r = Some t → chl_consumed_at r' = Some t) ∧
  (chl_attempt_count r <= chl_attempt_count r')%Z.

(** A linking code that is no longer active stays as it is. *)
Definition linking_otp_grows (r r' : DeviceLinkingOtpRecord) : Prop :=
  otp_id r' = otp_id r ∧ otp_user_id r' = otp_user_id r ∧ otp_issuing_device_id r' = otp_issuing_device_id r ∧
  otp_otp_hash r' = otp_otp_hash r ∧ otp_created_at r' = otp_created_at r ∧ otp_expires_at r' = otp_expires_at r ∧
  (otp_status r ≠ "active" → r' = r) ∧ (otp_attempt_count r <= otp_attempt_count r')%Z.

Definition ticket_grows (r r' : WebSocketTicketRecord) : Prop :=
  tkt_id r' = tkt_id r ∧ tkt_session_id r' = tkt_session_id r ∧ tkt_token_hash r' = tkt_token_hash r ∧
  tkt_created_at r' = tkt_created_at r ∧ tkt_expires_at r' = tkt_expires_at r ∧
  (∀ t, tkt_consumed_at r = Some t → r' = r).

Definition bucket_key (r : RateLimitBucketRecord) : string * bytes := (rlb_scope r, rlb_bucket_key r).

(** Each of these is a preorder: conjunctions of equations and of facts that,
    once true, stay true. *)
Ltac grows_preorder_tac :=
  split; [intros ?; split_and!; auto; lia
         |intros ? ? ? ? ?; repeat match goal with H : _ ∧ _ |- _ => destruct H end; split_and!;
          try congruence; try lia; eauto].

#[export] Program Instance account_table : Table AccountRecord := {|
  row_check := account_check;
  apart a b := acc_id a ≠ acc_id b ∧ acc_supabase_user_id a ≠ acc_supabase_user_id b ∧
               acc_email_normalized a ≠ acc_email_normalized b;
  grows := account_grows |}.
Next Obligation. unfold account_grows. grows_preorder_tac. Qed.
Next Obligation. unfold account_grows. intros; destruct_and?; split_and!; congruence. Qed.

#[export] Program Instance device_table : Table DeviceRecord := {|
  row_check := device_check;
  apart a b := dev_id a ≠ dev_id b ∧ (dev_user_id a, dev_fingerprint a) ≠ (dev_user_id b, dev_fingerprint b);
  grows := device_grows |}.
Next Obligation. unfold device_grows. grows_preorder_tac. Qed.
Next Obligation. unfold device_grows. intros; destruct_and?; split_and!; congruence. Qed.

#[export] Program Instance session_table : Table SessionRecord := {|
  row_check := session_check;
  apart a b := ses_id a ≠ ses_id b ∧ ses_token_hash a ≠ ses_token_hash b;
  grows := session_evolves |}.
Next Obligation. unfold session_evolves. intros; destruct_and?; split_and!; congruence. Qed.

#[export] Program Instance challenge_table : Table DeviceChallengeRecord := {|
  row_check := challenge_check;
  apart a b := chl_id a ≠ chl_id b ∧ chl_nonce_hash a ≠ chl_nonce_hash b;
  grows := challenge_grows |}.
Next Obligation. unfold challenge_grows. grows_preorder_tac. Qed.
Next Obligation. unfold challenge_grows. intros; destruct_and?; split_and!; congruence. Qed.

#[export] Program Instance linking_otp_table : Table DeviceLinkingOtpRecord := {|
  row_check := linking_otp_check;
  apart a b := otp_id a ≠ otp_id b ∧ otp_otp_hash a ≠ otp_otp_hash b;
  grows := linking_otp_grows |}.
Next Obligation.
  unfold linking_otp_grows. split.
  - intros r. split_and!; auto; lia.
  - intros r1 r2 r3 (?&?&?&?&?&?&H12&?) (?&?&?&?&?&?&H23&?). split_and!; try congruence; [|lia].
    intros Hr. rewrite <- (H12 Hr). apply H23. by rewrite (H12 Hr).
Qed.
Next Obligation. unfold linking_otp_grows. intros; destruct_and?; split_and!; congruence. Qed.

#[export] Program Instance transfer_table : Table TransferRequestRecord := {|
  row_check := transfer_check;
  apart a b := tr_id a ≠ tr_id b;
  grows := row_evolves |}.
Next Obligation. unfold row_evolves, same_transfer. intros; destruct_and?; congruence. Qed.

#[export] Program Instance ticket_table : Table WebSocketTicketRecord := {|
  row_check := ticket_check;
  apart a b := tkt_id a ≠ tkt_id b ∧ tkt_token_hash a ≠ tkt_token_hash b;
  grows := ticket_grows |}.
Next Obligation.
  unfold ticket_grows. split.
  - intros r. split_and!; auto.
  - intros r1 r2 r3 (?&?&?&?&?&H12) (?&?&?&?&?&H23). split_and!; try congruence.
    intros t Ht. rewrite <- (H12 t Ht). apply (H23 t). by rewrite (H12 t Ht).
Qed.
Next Obligation. unfold ticket_grows. intros; destruct_and?; split_and!; congruence. Qed.

#[export] Program Instance event_table : Table SecurityEventRecord := {|
  row_check := event_check;
  apart a b := ev_id a ≠ ev_id b;
  grows := eq |}.
Next Obligation. intros; congruence. Qed.

#[export] Program Instance bucket_table : Table RateLimitBucketRecord := {|
  row_check := RateLimits.Pg.storable;
  apart a b := bucket_key a ≠ bucket_key b;
  grows a b := bucket_key b = bucket_key a |}.
Next Obligation. split; [done|]. intros ? ? ? ? ?. congruence. Qed.
Next Obligation. intros; simpl in *; congruence. Qed.

(** ** The database *)
Definition well_formed (db : Db) : Prop :=
  sound (app_users db) ∧ sound (devices db) ∧ sound (app_sessions db) ∧ sound (device_challenges db) ∧
  sound (device_linking_otps db) ∧ sound (transfer_requests db) ∧ sound (websocket_tickets db) ∧
  sound (security_events db) ∧ sound (rate_limit_buckets db).

Definition db_step (db db' : Db) : Prop :=
  table_step (app_users db) (app_users db') ∧ table_step (devices db) (devices db') ∧
  table_step (app_sessions db) (app_sessions db') ∧ table_step (device_challenges db) (device_challenges db') ∧
  table_step (device_linking_otps db) (device_linking_otps db') ∧
  table_step (transfer_requests db) (transfer_requests db') ∧
  table_step (websocket_tickets db) (websocket_tickets db') ∧
  table_step (security_events db) (security_events db') ∧
  table_step (rate_limit_buckets db) (rate_limit_buckets db').

#[export] Instance db_step_preorder : PreOrder db_step.
Proof.
  split; unfold db_step; [intros db|intros x y z Hxy Hyz; destruct_and?]; split_and!; solve [reflexivity|by etrans].
Qed.

Lemma db_step_well_formed db db' : db_step db db' → well_formed db → well_formed db'.
Proof. unfold db_step, well_formed, table_step. intros. destruct_and?. split_and!; naive_solver. Qed.

Ltac on_table_tac := intros Hm db;
  unfold on_app_users, on_devices, on_app_sessions, on_device_challenges, on_device_linking_otps, on_transfer_requests,
    on_websocket_tickets, on_security_events, on_rate_limit_buckets; rewrite zoom_snd; unfold db_step; cbn; split_and!; solve [reflexivity|apply Hm].

Section on_tables.
Context {A : Type}.

Lemma on_app_users_step (m : M _ A) : respects table_step m → respects db_step (on_app_users m).
Proof. on_table_tac. Qed.
Lemma on_devices_step (m : M _ A) : respects table_step m → respects db_step (on_devices m).
Proof. on_table_tac. Qed.
Lemma on_app_sessions_step (m : M _ A) : respects table_step m → respects db_step (on_app_sessions m).
Proof. on_table_tac. Qed.
Lemma on_device_challenges_step (m : M _ A) : respects table_step m → respects db_step (on_device_challenges m).
Proof. on_table_tac. Qed.
Lemma on_device_linking_otps_step (m : M _ A) : respects table_step m → respects db_step (on_device_linking_otps m).
Proof. on_table_tac. Qed.
Lemma on_transfer_requests_step (m : M _ A) : respects table_step m → respects db_step (on_transfer_requests m).
Proof. on_table_tac. Qed.
Lemma on_websocket_tickets_step (m : M _ A) : respects table_step m → respects db_step (on_websocket_tickets m).
Proof. on_table_tac. Qed.
Lemma on_security_events_step (m : M _ A) : respects table_step m → respects db_step (on_security_events m).
Proof. on_table_tac. Qed.
Lemma on_rate_limit_buckets_step (m : M _ A) : respects table_step m → respects db_step (on_rate_limit_buckets m).
Proof. on_table_tac. Qed.
End on_tables.

#[export] Hint Resolve on_app_users_step on_devices_step on_app_sessions_step on_device_challenges_step
  on_device_linking_otps_step on_transfer_requests_step on_websocket_tickets_step on_security_events_step
  on_rate_limit_buckets_step : respects.

(** ** Inserts *)
Lemma keys_apart {Row K} (key : Row → K) (r : Row) t : key r ∉ map key t → Forall (λ x, key x ≠ key r) t.
Proof.
  intros Hn. apply Forall_forall. intros x Hx Heq. apply Hn. rewrite <- Heq. by apply list_elem_of_fmap_2.
Qed.

Ltac admits_tac :=
  intros; to_prop; split; [done|simpl; repeat (apply Forall_and; split); eapply keys_apart; eassumption].

Lemma account_admits_ok t r :
  account_admits t r = true → row_check r = true ∧ Forall (λ x, apart x r) t.
Proof. unfold account_admits. admits_tac. Qed.

Lemma device_admits_ok t r :
  device_admits t r = true → row_check r = true ∧ Forall (λ x, apart x r) t.
Proof.
  unfold device_admits. intros. to_prop. split; [done|]. simpl. apply Forall_and.
  split; [by apply (keys_apart dev_id)|by apply (keys_apart (λ d, (dev_user_id d, dev_fingerprint d)))].
Qed.

Lemma session_admits_ok t r :
  session_admits t r = true → row_check r = true ∧ Forall (λ x, apart x r) t.
Proof. unfold session_admits. admits_tac. Qed.

Lemma challenge_admits_ok t r :
  challenge_admits t r = true → row_check r = true ∧ Forall (λ x, apart x r) t.
Proof. unfold challenge_admits. admits_tac. Qed.

Lemma linking_otp_admits_ok t r :
  linking_otp_admits t r = true → row_check r = true ∧ Forall (λ x, apart x r) t.
Proof. unfold linking_otp_admits. admits_tac. Qed.

Lemma transfer_admits_ok t r :
  transfer_admits t r = true → row_check r = true ∧ Forall (λ x, apart x r) t.
Proof. unfold transfer_admits. admits_tac. Qed.

Lemma ticket_admits_ok t r :
  ticket_admits t r = true → row_check r = true ∧ Forall (λ x, apart x r) t.
Proof. unfold ticket_admits. admits_tac. Qed.

Lemma event_admits_ok t r :
  event_admits t r = true → row_check r = true ∧ Forall (λ x, apart x r) t.
Proof. unfold event_admits. admits_tac. Qed.

#[export] Hint Resolve account_admits_ok device_admits_ok session_admits_ok challenge_admits_ok
  linking_otp_admits_ok transfer_admits_ok ticket_admits_ok event_admits_ok : respects.
#[export] Hint Extern 1 (respects table_step (insert_returning _ _)) => apply table_insert : respects.

(** ** References

    What the statements keep of the references of a row: the foreign keys of
    the schema, and that a device was linked by a device of its account and an
    event is about a device of its account. *)
Definition device_refs (db : Db) (r : DeviceRecord) : bool :=
  has_account db (dev_user_id r) && opt_all (has_own_device db (dev_user_id r)) (dev_linked_by_device_id r).

Definition event_refs (db : Db) (r : SecurityEventRecord) : bool :=
  opt_all (has_account db) (ev_user_id r) &&
  opt_all (λ d, match ev_user_id r with Some a => has_own_device db a d | None => has_device db d end) (ev_device_id r).

Definition consistent (db : Db) : bool :=
  forallb (device_refs db) (devices db) && forallb (session_fks db) (app_sessions db) &&
  forallb (challenge_fks db) (device_challenges db) && forallb (linking_otp_fks db) (device_linking_otps db) &&
  forallb (transfer_fks db) (transfer_requests db) && forallb (ticket_fks db) (websocket_tickets db) &&
  forallb (event_refs db) (security_events db).

Lemma opt_all_true {A} (p : A → bool) o : opt_all p o = true ↔ ∀ a, o = Some a → p a = true.
Proof. destruct o; simpl; naive_solver. Qed.

Lemma opt_all_impl {A} (p q : A → bool) o :
  (∀ a, p a = true → q a = true) → opt_all p o = true → opt_all q o = true.
Proof. rewrite !opt_all_true. auto. Qed.

Lemma forallb_impl {A} (p q : A → bool) l :
  (∀ a, p a = true → q a = true) → forallb p l = true → forallb q l = true.
Proof. rewrite !forallb_forall. auto. Qed.

(** A test of existence, as membership. *)
Lemma existsb_elem {A} (p : A → bool) l : existsb p l = true ↔ ∃ x, x ∈ l ∧ p x = true.
Proof. rewrite existsb_exists. by setoid_rewrite list_elem_of_In. Qed.

Lemma own_device db a d : has_own_device db a d = true → has_device db d = true.
Proof.
  unfold has_own_device, has_device. rewrite !existsb_elem. intros (x&Hx&[_ Hk]%andb_true_iff). by exists x.
Qed.

Lemma consistent_foreign_keys db : consistent db = true → foreign_keys db = true.
Proof.
  unfold consistent, foreign_keys. rewrite !andb_true_iff. intros Hc. destruct_and?. split_and!; try done.
  - eapply forallb_impl; [|eassumption]. intros r. unfold device_refs, device_fks. rewrite !andb_true_iff.
    intros [? ?]. split; [done|]. eapply opt_all_impl; [|eassumption]. apply own_device.
  - eapply forallb_impl; [|eassumption]. intros r. unfold event_refs, event_fks. rewrite !andb_true_iff.
    intros [? ?]. split; [done|]. eapply opt_all_impl; [|eassumption]. intros d. destruct (ev_user_id r); [apply own_device|done].
Qed.

(** *** A stored target stays *)
Section kept.
Context (db db' : Db) (Hstep : db_step db db') (Hwf : well_formed db).

Lemma existsb_kept {Row} `{!Table Row} (p : Row → bool) t t' :
  table_step t t' → sound t → (∀ r r', grows r r' → p r = true → p r' = true) →
  existsb p t = true → existsb p t' = true.
Proof.
  intros Ht Hs Hp. rewrite !existsb_elem. intros (r&Hr&Hpr). destruct (Ht Hs) as [_ Hrows].
  destruct (Hrows r Hr) as (r'&?&?). exists r'. eauto.
Qed.

Lemma has_account_kept a : has_account db a = true → has_account db' a = true.
Proof.
  destruct Hstep as (Ht&_), Hwf as (Hs&_). apply (existsb_kept _ _ _ Ht Hs).
  intros r r' (Hid&_). rewrite !bool_decide_eq_true. congruence.
Qed.

Lemma has_device_kept d : has_device db d = true → has_device db' d = true.
Proof.
  destruct Hstep as (_&Ht&_), Hwf as (_&Hs&_). apply (existsb_kept _ _ _ Ht Hs).
  intros r r' (Hid&_). rewrite !bool_decide_eq_true. congruence.
Qed.

Lemma has_own_device_kept a d : has_own_device db a d = true → has_own_device db' a d = true.
Proof.
  destruct Hstep as (_&Ht&_), Hwf as (_&Hs&_). apply (existsb_kept _ _ _ Ht Hs).
  intros r r' (Hid&Hu&_). rewrite !andb_true_iff, !bool_decide_eq_true. intros [? ?]. split; congruence.
Qed.

Lemma has_session_kept s : has_session db s = true → has_session db' s = true.
Proof.
  destruct Hstep as (_&_&Ht&_), Hwf as (_&_&Hs&_). apply (existsb_kept _ _ _ Ht Hs).
  intros r r' (Hid&_). rewrite !bool_decide_eq_true. congruence.
Qed.
End kept.

(** *** Where the rows of a table come from *)

(** Each row descends from a stored one or refers to what is stored. *)
Definition rows_born {Row} `{!Table Row} (refs : Row → bool) (t t' : list Row) : Prop :=
  ∀ r', r' ∈ t' → (∃ r, r ∈ t ∧ grows r r') ∨ refs r' = true.

Section born.
Context {Row : Type} `{!Table Row} (refs : Row → bool).

Lemma rows_born_refl t : rows_born refs t t.
Proof. intros r Hr. left. exists r. split; [done|reflexivity]. Qed.

Lemma rows_born_update cond set t :
  (∀ r, r ∈ t → cond r = true → grows r (set r)) → rows_born refs t (update_returning row_check cond set t).2.
Proof.
  intros Hset. destruct (update_table row_check cond set t) as [-> | ->]; [apply rows_born_refl|].
  intros r' (r&->&Hr)%list_elem_of_fmap. left. exists r. split; [done|]. destruct (cond r) eqn:Hc; [auto|reflexivity].
Qed.

Lemma rows_born_insert admits new t :
  (∀ r, r ∈ new → refs r = true) → rows_born refs t (insert_returning admits new t).2.
Proof.
  intros Hnew. destruct (insert_returning admits new t) as [[rows|e] t'] eqn:Hi; simpl.
  - apply insert_returning_app in Hi as [-> ->]. intros r [Hr|Hr]%elem_of_app; [|auto].
    left. exists r. split; [done|reflexivity].
  - apply insert_returning_raise in Hi as ->. apply rows_born_refl.
Qed.

Lemma rows_born_kept (refs' : Row → bool) t t' :
  (∀ r, refs r = true → refs' r = true) → (∀ r r', grows r r' → refs r = true → refs r' = true) →
  rows_born refs t t' → forallb refs t = true → forallb refs' t' = true.
Proof.
  intros Hkept Hg Hborn. rewrite !forallb_forall. setoid_rewrite <- list_elem_of_In. intros Ht r' Hr'.
  apply Hkept. destruct (Hborn r' Hr') as [(r&Hr&?)|?]; [by eapply Hg; [|apply Ht]|done].
Qed.
End born.

(** The rows a statement leaves, table by table. *)
Definition db_born (db db' : Db) : Prop :=
  rows_born (device_refs db) (devices db) (devices db') ∧
  rows_born (session_fks db) (app_sessions db) (app_sessions db') ∧
  rows_born (challenge_fks db) (device_challenges db) (device_challenges db') ∧
  rows_born (linking_otp_fks db) (device_linking_otps db) (device_linking_otps db') ∧
  rows_born (transfer_fks db) (transfer_requests db) (transfer_requests db') ∧
  rows_born (ticket_fks db) (websocket_tickets db) (websocket_tickets db') ∧
  rows_born (event_refs db) (security_events db) (security_events db').

#[local] Ltac born_tac :=
  eapply rows_born_kept; [| |eassumption|eassumption];
  [intros ?|let Hg := fresh in intros ? ? Hg; simpl in Hg; try (unfold device_grows, session_evolves, challenge_grows,
     linking_otp_grows, row_evolves, same_transfer, ticket_grows in Hg; destruct_and?)].

Lemma born_consistent db db' :
  db_step db db' → well_formed db → db_born db db' → consistent db = true → consistent db' = true.
Proof.
  intros Hstep Hwf (?&?&?&?&?&?&?). unfold consistent. rewrite !andb_true_iff. intros Hc. destruct_and?.
  pose proof (has_account_kept _ _ Hstep Hwf) as Ha. pose proof (has_device_kept _ _ Hstep Hwf) as Hd.
  pose proof (has_own_device_kept _ _ Hstep Hwf) as Ho. pose proof (has_session_kept _ _ Hstep Hwf) as Hs.
  split_and!; born_tac;
    unfold device_refs, session_fks, challenge_fks, linking_otp_fks, transfer_fks, ticket_fks, event_refs;
    rewrite ?andb_true_iff; try (intros; destruct_and?; split_and!); auto; try (eapply opt_all_impl; [|eassumption]); auto;
    try congruence.
  - intros d. destruct (ev_user_id r); auto.
  - by subst.
Qed.

(** A statement keeps the references, beside the rows. *)
Definition linked_step (db db' : Db) : Prop :=
  db_step db db' ∧ (well_formed db → consistent db = true → consistent db' = true).

#[export] Instance linked_step_preorder : PreOrder linked_step.
Proof.
  split; [intros db; split; [reflexivity|done]|]. intros x y z [Hxy Hc] [Hyz Hc']. split; [by etrans|].
  intros Hwf Hx. apply Hc'; [by eapply db_step_well_formed|by apply Hc].
Qed.

(** ** The relations that hold of every statement

    An [UPDATE] whose rows grow, and an [INSERT] of rows that refer to what is
    stored, relate the database to what they leave. *)
Definition update_law {Row} `{!Table Row} (R : Db → Db → Prop) (rows : Db → list Row)
    (on_table : M (list Row) (list Row) → M Db (list Row)) : Prop :=
  ∀ db cond set, (sound (rows db) → ∀ r, r ∈ rows db → cond r = true → grows r (set r)) →
    R db (on_table (update_returning row_check cond set) db).2.

Definition insert_law {Row} (R : Db → Db → Prop) (on_table : M (list Row) (list Row) → M Db (list Row))
    (admits : list Row → Row → bool) (refs : Db → Row → bool) : Prop :=
  ∀ db new, (∀ r, r ∈ new → refs db r = true) → R db (on_table (insert_returning admits new) db).2.

Class Writes (R : Db → Db → Prop) := {
  writes_preorder :: PreOrder R;
  writes_users {A} (m : M (list AccountRecord) A) : respects table_step m → respects R (on_app_users m);
  writes_buckets {A} (m : M (list RateLimitBucketRecord) A) : respects table_step m → respects R (on_rate_limit_buckets m);
  updates_devices : update_law R devices on_devices;
  updates_sessions : update_law R app_sessions on_app_sessions;
  updates_challenges : update_law R device_challenges on_device_challenges;
  updates_otps : update_law R device_linking_otps on_device_linking_otps;
  updates_transfers : update_law R transfer_requests on_transfer_requests;
  updates_tickets : update_law R websocket_tickets on_websocket_tickets;
  inserts_challenges : insert_law R on_device_challenges challenge_admits challenge_fks;
  inserts_otps : insert_law R on_device_linking_otps linking_otp_admits linking_otp_fks;
  inserts_transfers : insert_law R on_transfer_requests transfer_admits transfer_fks;
  inserts_tickets : insert_law R on_websocket_tickets ticket_admits ticket_fks;
  inserts_events : insert_law R on_security_events event_admits event_refs }.

(** Opening a session and adding a device are set apart: some relations hold
    of every other statement. *)
Class OpensSessions (R : Db → Db → Prop) := inserts_sessions : insert_law R on_app_sessions session_admits session_fks.
Class AddsDevices (R : Db → Db → Prop) := inserts_devices : insert_law R on_devices device_admits device_refs.

Section laws.
Context {Row : Type} `{!Table Row} (rows : Db → list Row) (on_table : M (list Row) (list Row) → M Db (list Row)).
Context (admits : list Row → Row → bool) (refs : Db → Row → bool).

(** [db_step] asks of the written table what [Tables] proves. *)
Section step.
Hypothesis Hon : ∀ db m, table_step (rows db) (m (rows db)).2 → db_step db (on_table m db).2.

Lemma db_step_update : update_law db_step rows on_table.
Proof. intros db cond set Hset. by apply Hon, table_update_at. Qed.

Lemma db_step_insert :
  (∀ t r, admits t r = true → row_check r = true ∧ Forall (λ x, apart x r) t) →
  insert_law db_step on_table admits refs.
Proof. intros Hadm db new _. by apply Hon, table_insert. Qed.
End step.

(** [linked_step] also asks where its rows come from. *)
Section linked.
Hypothesis Hborn : ∀ db m, rows_born (refs db) (rows db) (m (rows db)).2 → db_born db (on_table m db).2.

Lemma linked_step_update :
  (∀ db, well_formed db → sound (rows db)) → update_law db_step rows on_table → update_law linked_step rows on_table.
Proof.
  intros Hsound Hu db cond set Hset. split; [by apply Hu|]. intros Hwf. apply born_consistent; [by apply Hu|done|].
  apply Hborn, rows_born_update. auto.
Qed.

Lemma linked_step_insert :
  insert_law db_step on_table admits refs → insert_law linked_step on_table admits refs.
Proof.
  intros Hi db new Hnew. split; [by apply (Hi db)|]. intros Hwf. apply born_consistent; [by apply (Hi db)|done|].
  by apply Hborn, rows_born_insert.
Qed.
End linked.
End laws.

#[local] Ltac on_table_unfold := unfold on_app_users, on_devices, on_app_sessions, on_device_challenges,
  on_device_linking_otps, on_transfer_requests, on_websocket_tickets, on_security_events, on_rate_limit_buckets;
  rewrite zoom_snd.

#[local] Ltac on_db_step := intros db m Hm; on_table_unfold; unfold db_step; cbn; split_and!; solve [reflexivity|apply Hm].
#[local] Ltac on_db_born :=
  intros db m Hm; on_table_unfold; unfold db_born; cbn; split_and!; solve [apply rows_born_refl|apply Hm].

#[export] Instance db_step_writes : Writes db_step.
Proof.
  split; [apply _|intros A m; apply on_app_users_step|intros A m; apply on_rate_limit_buckets_step|..].
  all: first [apply db_step_update; on_db_step
    |eapply db_step_insert; [on_db_step|eauto with respects]].
Qed.

#[export] Instance db_step_opens : OpensSessions db_step.
Proof. eapply db_step_insert; [on_db_step|eauto with respects]. Qed.
#[export] Instance db_step_adds : AddsDevices db_step.
Proof. eapply db_step_insert; [on_db_step|eauto with respects]. Qed.

#[local] Ltac unlinked_tac Hm :=
  intros db; split; [by apply db_step_writes|]; intros Hwf; apply born_consistent; [by apply db_step_writes|done|];
  on_table_unfold; unfold db_born; cbn; split_and!; apply rows_born_refl.

#[export] Instance linked_step_writes : Writes linked_step.
Proof.
  split; [apply _|intros A m Hm; unlinked_tac Hm|intros A m Hm; unlinked_tac Hm| | | | | | |..].
  - apply (linked_step_update _ _ device_refs); [on_db_born|intros db Hwf; apply Hwf|apply updates_devices].
  - apply (linked_step_update _ _ session_fks); [on_db_born|intros db Hwf; apply Hwf|apply updates_sessions].
  - apply (linked_step_update _ _ challenge_fks); [on_db_born|intros db Hwf; apply Hwf|apply updates_challenges].
  - apply (linked_step_update _ _ linking_otp_fks); [on_db_born|intros db Hwf; apply Hwf|apply updates_otps].
  - apply (linked_step_update _ _ transfer_fks); [on_db_born|intros db Hwf; apply Hwf|apply updates_transfers].
  - apply (linked_step_update _ _ ticket_fks); [on_db_born|intros db Hwf; apply Hwf|apply updates_tickets].
  - apply (linked_step_insert device_challenges); [on_db_born|apply inserts_challenges].
  - apply (linked_step_insert device_linking_otps); [on_db_born|apply inserts_otps].
  - apply (linked_step_insert transfer_requests); [on_db_born|apply inserts_transfers].
  - apply (linked_step_insert websocket_tickets); [on_db_born|apply inserts_tickets].
  - apply (linked_step_insert security_events); [on_db_born|apply inserts_events].
Qed.

#[export] Instance linked_step_opens : OpensSessions linked_step.
Proof. apply (linked_step_insert app_sessions); [on_db_born|apply db_step_opens]. Qed.
#[export] Instance linked_step_adds : AddsDevices linked_step.
Proof. apply (linked_step_insert devices); [on_db_born|apply db_step_adds]. Qed.

(** *** Using a law *)
Section use_law.
Context {Row : Type} `{!Table Row} (R : Db → Db → Prop) `{!PreOrder R}.
Context {rows : Db → list Row} {on_table : M (list Row) (list Row) → M Db (list Row)}.
Context {admits : list Row → Row → bool} {refs : Db → Row → bool}.

Lemma law_update (law : update_law R rows on_table) cond set :
  (∀ r, cond r = true → grows r (set r)) →
  respects R (on_table (update_returning row_check cond set)).
Proof. intros Hset db. apply law. auto. Qed.

(** [INSERT ... SELECT] of the rows [f] reads, and what is done with them. *)
Lemma law_insert_at (law : insert_law R on_table admits refs) {B} f (k : list Row → M Db B) db :
  (∀ r, r ∈ f db → refs db r = true) → (∀ l, respects R (k l)) →
  R db ((let! new := gets f in let! l := on_table (insert_returning admits new) in k l) db).2.
Proof.
  intros Hf Hk. pose proof (law db (f db) Hf) as Hi. unfold bind, gets.
  destruct (on_table _ db) as [[l|?] db1]; simpl in *; [|done]. etrans; [exact Hi|apply Hk].
Qed.

Lemma law_insert (law : insert_law R on_table admits refs) f :
  (∀ db r, r ∈ f db → refs db r = true) →
  respects R (let! new := gets f in let! l := on_table (insert_returning admits new) in lift (required_row l)).
Proof. intros Hf db. apply (law_insert_at law); [auto|]. intros l. apply respects_lift, _. Qed.
End use_law.

(** A transaction commits what its body did or undoes it. *)
Lemma transaction_step {A} (R : Db → Db → Prop) `{!PreOrder R} (m : M Db A) :
  respects R m → respects R (transaction m).
Proof.
  intros Hm db. specialize (Hm db). unfold transaction. destruct (m db) as [[a|e] db']; [exact Hm|reflexivity].
Qed.
#[export] Hint Resolve transaction_step : respects.
