(* ===== verification/History.v ===== *)
(** * History: the private database under every repository

    Every statement the repositories run that writes ([statement]), one
    constructor per method, and that a relation with the laws of [Writes] holds
    of each: so the database stays well-formed, no stored row is lost or taken
    back a step, and no reference dangles, over any run. *)
From Stdlib.Strings Require Import Byte.
From S2P Require Import Prelude PyDict Json Models Sql Tables Schema Integrity Hashing.
From S2P Require Import TransferPort TransferRepository TransferTheorems RateLimits Security Sessions SessionTheorems.
From S2P Require Accounts Devices Challenges LinkingOtps Tickets Events.
From stdpp Require Import list strings relations.

(** ** Every statement satisfies the laws *)
Ltac grows_tac :=
  let r := fresh "r" in intros r ?; to_prop;
  unfold grows; simpl; unfold account_grows, device_grows, challenge_grows, linking_otp_grows, ticket_grows;
  simpl; split_and!; try done; try lia; try congruence.

(** Walk through a method's body down to the statements that write. *)
Ltac steps :=
  repeat match goal with
  | |- respects _ (bind _ _) => apply respects_bind; [apply _| |intros ?]
  | |- respects _ (transaction _) => apply transaction_step
  | |- respects _ (lift _) => apply respects_lift; apply _
  | |- respects _ (gets _) => apply respects_gets; apply _
  | |- respects _ (ret _) => apply respects_ret; apply _
  | |- respects _ (raise _) => apply respects_raise; apply _
  | |- respects _ (match ?x with _ => _ end) => destruct x
  | _ => solve [eauto 4 with respects]
  end.

(** Membership in the rows an [INSERT ... SELECT] reads, as what its joins
    and conditions say. *)
Ltac selected H :=
  repeat match type of H with
  | _ ∈ mbind _ _ =>
      let x := fresh "row" in let Hx := fresh "Hrow" in
      apply list_elem_of_bind in H as (x & H & Hx);
      apply list_elem_of_In, filter_In in Hx as [Hx ?]; apply list_elem_of_In in Hx
  | _ ∈ [_] => apply list_elem_of_singleton in H as ->
  end; to_prop.

(** A reference to a row at hand. *)
Ltac refers :=
  unfold has_account, has_device, has_own_device, has_session; rewrite ?andb_true_iff;
  repeat match goal with |- _ ∧ _ => split end;
  apply existsb_elem;
  match goal with H : ?x ∈ _ |- _ =>
    exists x; split; [exact H|]; rewrite ?andb_true_iff, ?bool_decide_eq_true; solve [intuition congruence] end.

Section statements.
Context {R : Db → Db → Prop} `{!Writes R}.

Lemma users_update cond set :
  (∀ r, cond r = true → account_grows r (set r)) →
  respects R (on_app_users (update_returning account_check cond set)).
Proof. intros Hset. apply writes_users. exact (table_update (Row := AccountRecord) cond set Hset). Qed.

Lemma accounts_create_step auth now i s e : respects R (Accounts.Pg.create auth now i s e).
Proof.
  unfold Accounts.Pg.create. steps. apply writes_users, table_insert.
  intros t r [? _]%andb_true_iff. by apply account_admits_ok.
Qed.

Lemma accounts_get_or_create_step auth now i s e at_ : respects R (Accounts.Pg.get_or_create auth now i s e at_).
Proof.
  unfold Accounts.Pg.get_or_create, Accounts.Pg.get_by_supabase_user_id, Accounts.Pg.get_by_email. steps.
  apply accounts_create_step.
Qed.

Lemma accounts_mark_step a at_ : respects R (Accounts.Pg.mark_email_fallback a at_).
Proof.
  unfold Accounts.Pg.mark_email_fallback. steps. apply users_update. grows_tac.
Qed.

(** The row of an account a registration reads refers to it. *)
Lemma current_account_elem account_id epoch db account :
  account ∈ Devices.Pg.current_account account_id epoch db → has_account db (acc_id account) = true.
Proof.
  intros H. apply list_elem_of_In, filter_In in H as [H _]. apply list_elem_of_In in H. refers.
Qed.

(** Re-registration updates the row the lookup found, which is not revoked. *)
Lemma devices_register_step `{!AddsDevices R} now a e l k fp d : respects R (Devices.Pg.register_for_email now a e l k fp d).
Proof.
  unfold Devices.Pg.register_for_email. apply transaction_step; [apply _|]. intros db.
  unfold bind at 1, Devices.Pg.get_by_fingerprint, gets at 1. destruct (first_row _) as [r0|] eqn:Hf.
  - destruct (bool_decide (dev_status r0 = "revoked")) eqn:Hr0; [reflexivity|].
    pose proof (updates_devices db (λ r, Devices.Pg.keyed_by a fp r && bool_decide (dev_epoch r = e))
      (λ r, Devices.dev_activated r (dev_epoch r) l now)) as Hup.
    unfold Devices.Pg.update, bind, lift. change (row_check (Row := DeviceRecord)) with device_check in Hup.
    destruct (on_devices _ db) as [[rows|x] db1]; apply Hup; clear Hup;
      intros Hs r Hr Hc; apply first_row_elem, select_elem in Hf as [Hin Hk];
      unfold Devices.Pg.keyed_by in *; to_prop.
    all: assert (r0 = r) as -> by (apply (sound_unique _ _ _ Hs); simpl; [done..| |]; intuition congruence).
    all: unfold grows; simpl; unfold device_grows; simpl; split_and!; by auto.
  - clear Hf. revert db. apply (law_insert R inserts_devices). intros db r (account&->&Hr)%list_elem_of_fmap.
    unfold device_refs. simpl. by rewrite (current_account_elem _ _ _ _ Hr).
Qed.

Lemma devices_create_step `{!AddsDevices R} now f a e l k fp by_ d : respects R (Devices.Pg.create now f a e l k fp by_ d).
Proof.
  apply (law_insert R inserts_devices). intros db r (account&->&Hr)%list_elem_of_fmap.
  apply list_elem_of_In, filter_In in Hr as [Hr Hby]. apply list_elem_of_In in Hr.
  unfold device_refs. simpl. rewrite (current_account_elem _ _ _ _ Hr). destruct by_ as [i|]; [|done].
  apply existsb_elem in Hby as (x&Hx&Hk). simpl. to_prop. refers.
Qed.

Lemma devices_touch_step now a d : respects R (Devices.Pg.touch_last_seen now a d).
Proof. unfold Devices.Pg.touch_last_seen. steps. apply (law_update R updates_devices). grows_tac. Qed.

Lemma devices_rename_step a d l : respects R (Devices.Pg.rename a d l).
Proof. unfold Devices.Pg.rename. steps. apply (law_update R updates_devices). grows_tac. Qed.

Lemma sessions_revoke_where_step now reason cond : respects R (Sessions.Pg.revoke_where now reason cond).
Proof.
  apply (law_update R updates_sessions). intros r [_ Hr%is_null_true]%andb_true_iff.
  unfold session_evolves. split_and!; try done. intros t Ht. congruence.
Qed.

Lemma revoked_grows now r : device_grows r (Devices.dev_revoked r (coalesce (dev_revoked_at r) now)).
Proof. unfold device_grows. simpl. split_and!; try done. by intros t ->. Qed.

Lemma logged_out_grows r : device_grows r (Devices.dev_logged_out r).
Proof. unfold device_grows. simpl. split_and!; try done. intros ->. by rewrite bool_decide_true. Qed.

Lemma devices_with_sessions_step now a d reason set :
  (∀ r, device_grows r (set r)) → respects R (Devices.Pg.with_sessions now a d reason set).
Proof.
  intros Hset. unfold Devices.Pg.with_sessions. steps.
  - apply (law_update R updates_devices). intros r _. apply Hset.
  - unfold Sessions.Pg.revoke_for_device. steps. apply sessions_revoke_where_step.
Qed.

Lemma devices_revoke_all_step now a reason : respects R (Devices.Pg.revoke_all_for_account now a reason).
Proof.
  unfold Devices.Pg.revoke_all_for_account. steps.
  - apply (law_update R updates_devices). intros r _. apply revoked_grows.
  - unfold Sessions.Pg.revoke_for_account. steps. apply sessions_revoke_where_step.
Qed.

Lemma sessions_create_step `{!OpensSessions R} now i a d th ch e idle ab : respects R (Sessions.Pg.create now i a d th ch e idle ab).
Proof.
  apply (law_insert R inserts_sessions). intros db r Hr. unfold Sessions.Pg.create_rows in Hr. selected Hr.
  unfold session_fks. simpl. refers.
Qed.

Lemma sessions_touch_step now a i : respects R (Sessions.Pg.touch_last_seen now a i).
Proof.
  unfold Sessions.Pg.touch_last_seen. steps. apply (law_update R updates_sessions).
  intros r [_ Hu]%andb_true_iff. by eapply usable_evolves.
Qed.

Lemma sessions_csrf_step now a i h : respects R (Sessions.Pg.replace_csrf_hash now a i h).
Proof.
  unfold Sessions.Pg.replace_csrf_hash. steps. apply (law_update R updates_sessions).
  intros r [_ Hu]%andb_true_iff. by eapply usable_evolves.
Qed.

Lemma sessions_revoke_step now a i reason : respects R (Sessions.Pg.revoke now a i reason).
Proof. unfold Sessions.Pg.revoke. steps. apply sessions_revoke_where_step. Qed.

Lemma sessions_step `{!OpensSessions R} now op db : R db (run_op now op db).
Proof.
  destruct op; simpl; [apply sessions_create_step|apply sessions_touch_step|apply sessions_csrf_step|..].
  all: match goal with |- R _ (?m _).2 => revert db; change (respects R m) end.
  all: unfold Sessions.Pg.revoke, Sessions.Pg.revoke_by_token_hash, Sessions.Pg.revoke_for_device,
    Sessions.Pg.revoke_for_account; steps; apply sessions_revoke_where_step.
Qed.

(** *** Challenges, codes, tickets *)
Lemma challenges_create_step now i a d h o e : respects R (Challenges.Pg.create now i a d h o e).
Proof.
  apply (law_insert R inserts_challenges). intros db r Hr. unfold Challenges.Pg.create_rows in Hr. selected Hr.
  unfold challenge_fks. simpl. refers.
Qed.

Lemma challenges_update_step now a cond set :
  (∀ r, chl_consumed_at r = None → challenge_grows r (set r)) →
  respects R (Challenges.Pg.update_open now a cond set).
Proof.
  intros Hset. unfold Challenges.Pg.update_open. steps. apply (law_update R updates_challenges).
  intros r Hc. unfold Challenges.chl_open in Hc. to_prop. apply Hset. by apply is_null_true.
Qed.

Lemma challenges_consume_step now a cond :
  respects R (transaction (Challenges.Pg.update_open now a cond (λ r, Challenges.chl_consumed r now))).
Proof.
  apply transaction_step; [apply _|]. apply challenges_update_step. intros r Hr. unfold challenge_grows. simpl.
  split_and!; try done. intros t Ht. congruence.
Qed.

Lemma challenges_failed_step now a i : respects R (Challenges.Pg.mark_failed now a i).
Proof.
  unfold Challenges.Pg.mark_failed, Challenges.Pg.update_open. steps. apply (law_update R updates_challenges). grows_tac.
Qed.

Lemma otps_create_step now i a d h e : respects R (LinkingOtps.Pg.create now i a d h e).
Proof.
  apply (law_insert R inserts_otps). intros db r Hr. unfold LinkingOtps.Pg.create_rows in Hr. selected Hr.
  unfold linking_otp_fks. simpl. refers.
Qed.

Lemma otps_failed_step now i : respects R (LinkingOtps.Pg.mark_failed now i).
Proof.
  unfold LinkingOtps.Pg.mark_failed. steps. apply (law_update R updates_otps).
  intros r Hc. unfold LinkingOtps.otp_open in Hc. to_prop. unfold grows. simpl. unfold linking_otp_grows. simpl.
  split_and!; try done; lia.
Qed.

(** The device a redemption registers was linked by the code's issuer, which
    the first statement found. *)
Lemma otps_redeem_step `{!AddsDevices R} now i a d e n l k fp : respects R (LinkingOtps.Pg.consume_and_register now i a d e n l k fp).
Proof.
  unfold LinkingOtps.Pg.consume_and_register. apply transaction_step; [apply _|]. intros db.
  set (cond := LinkingOtps.Pg.redeemable db now i a d e). unfold bind at 1, gets at 1.
  assert (∀ r, cond r = true → linking_otp_grows r (LinkingOtps.otp_consumed r now)) as Hgrows.
  { intros r Hc. unfold cond, LinkingOtps.Pg.redeemable, LinkingOtps.otp_open in Hc. to_prop.
    unfold linking_otp_grows. simpl. split_and!; try done; lia. }
  pose proof (law_update R updates_otps cond _ Hgrows) as Hup.
  specialize (Hup db). unfold bind at 1. unfold on_device_linking_otps, zoom in *. cbn [row_check linking_otp_table] in Hup.
  destruct (update_returning _ _ _ _) as [[consumed|x] t] eqn:Hu; [|exact Hup]. cbn in Hup |- *.
  destruct (bool_decide (consumed = [])) eqn:Hnone; [exact Hup|]. etrans; [exact Hup|]. clear Hup.
  apply update_rows in Hu as [-> ->]. apply bool_decide_eq_false in Hnone.
  destruct (List.filter cond (device_linking_otps db)) as [|r rest] eqn:Hr; [done|].
  assert (cond r = true) as Hc by (apply (filter_In cond r (device_linking_otps db)); rewrite Hr; by left).
  apply (law_insert_at R inserts_devices); [|intros rows; steps].
  intros x (account&->&Hacc)%list_elem_of_fmap.
  unfold device_refs. simpl. rewrite (current_account_elem _ _ _ _ Hacc). simpl.
  unfold cond, LinkingOtps.Pg.redeemable in Hc. rewrite !andb_true_iff in Hc. destruct Hc as [[[[[_ Ha] Hd] _] _] Hi].
  apply list_elem_of_In, filter_In in Hacc as [_ Hacc]. apply existsb_elem in Hi as (owner&_&Hi).
  apply andb_true_iff in Hi as [Ho Hi]. apply existsb_elem in Hi as (issuer&Hin&Hi).
  apply existsb_elem. exists issuer. split; [exact Hin|]. clear - Ha Hd Hacc Ho Hi. simpl. to_prop.
  rewrite !bool_decide_true by congruence. done.
Qed.

Lemma tickets_create_step now i a s h e : respects R (Tickets.Pg.create now i a s h e).
Proof.
  apply (law_insert R inserts_tickets). intros db r Hr. unfold Tickets.Pg.create_rows in Hr. selected Hr.
  unfold ticket_fks. simpl. refers.
Qed.

Lemma tickets_consume_step now key owner : respects R (Tickets.Pg.consume_where now key owner).
Proof.
  unfold Tickets.Pg.consume_where. steps. apply (law_update R updates_tickets).
  intros r Hc. unfold Tickets.tkt_open in Hc. to_prop. unfold grows. simpl. unfold ticket_grows. simpl. split_and!; try done.
  intros t Ht. by rewrite Ht in *.
Qed.

Lemma events_create_step now i t o e user d fp details :
  respects R (Events.Pg.create now i t o e user d fp details).
Proof.
  unfold Events.Pg.create. destruct (Events.Pg.has_nan _); [steps|]. apply (law_insert R inserts_events).
  intros db r Hr. destruct (Events.Pg.associated user d db) eqn:Ha; [|by apply not_elem_of_nil in Hr].
  apply list_elem_of_singleton in Hr as ->. unfold Events.Pg.associated in Ha. apply andb_true_iff in Ha as [Hu Hd].
  unfold event_refs. simpl. apply andb_true_iff. split; apply opt_all_true.
  - intros x ->. apply existsb_elem in Hu as (y&?&?). to_prop. refers.
  - intros x ->. apply existsb_elem in Hd as (y&?&?). destruct user; to_prop; refers.
Qed.

(** *** Transfers and buckets *)
Lemma transfers_transition_step at_ a i from to u d role code :
  all_may_move from to = true → respects R (TransferRepository.Pg._transition at_ a i from to u d role code).
Proof.
  intros Hall. unfold TransferRepository.Pg._transition. steps. apply (law_update R updates_transfers).
  intros r (_&_&Hf&_)%transition_where_true. apply transition_set_evolves. by eapply all_may_move_step.
Qed.

Lemma transfers_step now op : respects R (pg_op now op).
Proof.
  destruct op; simpl; try by apply transfers_transition_step.
  - apply respects_bind; [apply _| |intros ?; steps]. apply (law_insert R inserts_transfers). intros db r Hr.
    unfold TransferRepository.Pg.create_rows in Hr. selected Hr.
    unfold transfer_fks. simpl. refers.
  - unfold TransferRepository.Pg.transition. destruct (allowed_transition _ _) eqn:Ha; [|steps].
    apply transfers_transition_step. simpl. by rewrite Ha.
  - unfold TransferRepository.Pg.mark_relay_used. steps. apply (law_update R updates_transfers). intros r _. by split_and!.
Qed.

Lemma select_nil {Row} (p : Row → bool) t : select p t = [] → ∀ r, r ∈ t → p r = false.
Proof.
  intros Hn r Hr. destruct (p r) eqn:Hp; [|done].
  assert (r ∈ select p t) as Hs by by apply select_elem. rewrite Hn in Hs. by apply not_elem_of_nil in Hs.
Qed.

Lemma buckets_update_step cond set :
  (∀ r, bucket_key (set r) = bucket_key r) →
  respects table_step (update_returning RateLimits.Pg.storable cond set).
Proof. intros Hset. exact (table_update (Row := RateLimitBucketRecord) cond set (λ r _, Hset r)). Qed.

Lemma buckets_upsert_step new set :
  (∀ r, bucket_key (set r) = bucket_key r) → respects table_step (RateLimits.Pg.upsert_row new set).
Proof.
  intros Hset t. unfold RateLimits.Pg.upsert_row. destruct (RateLimits.Pg.storable new) eqn:Hc; cbn [negb]; [|reflexivity].
  destruct (select _ t) as [|r0 rest] eqn:Hsel.
  - intros Hs. cbn. split.
    + apply sound_app; [done|done|]. apply Forall_forall. intros x Hx Heq. injection Heq as H1 H2.
      pose proof (select_nil _ _ Hsel x Hx) as Hn. unfold RateLimits.Pg.is_bucket in Hn.
      by rewrite !bool_decide_true in Hn by congruence.
    + intros r Hr. exists r. split; [apply elem_of_app; by left|reflexivity].
  - by apply buckets_update_step.
Qed.

Lemma buckets_write_step now st : respects table_step (RateLimits.Pg.write now st).
Proof.
  destruct st as [[[[scope key] limit] len] found]. unfold RateLimits.Pg.write.
  destruct found as [[e n]|]; [destruct (_ <=? _)%Z|]; steps; first [by apply buckets_upsert_step|by apply buckets_update_step].
Qed.

Lemma buckets_consume_step now requests : respects R (RateLimits.Pg.consume_many now requests).
Proof.
  unfold RateLimits.Pg.consume_many. steps. apply writes_buckets. steps.
  apply respects_for_each; [apply _|]. intros st. apply buckets_write_step.
Qed.

Lemma buckets_increment_step now scope key e :
  respects R (on_rate_limit_buckets (RateLimits.Pg.increment now scope key e)).
Proof.
  unfold RateLimits.Pg.increment. apply writes_buckets. steps. by apply buckets_upsert_step.
Qed.

End statements.

(** ** Runs

    One call of a repository method that writes. *)
Inductive statement (db : Db) : Db → Prop :=
| st_account_create auth now i s e at_ : statement db (Accounts.Pg.get_or_create auth now i s e at_ db).2
| st_account_fallback a at_ : statement db (Accounts.Pg.mark_email_fallback a at_ db).2
| st_device_create now f a e l k fp by_ d : statement db (Devices.Pg.create now f a e l k fp by_ d db).2
| st_device_register now a e l k fp d : statement db (Devices.Pg.register_for_email now a e l k fp d db).2
| st_device_touch now a d : statement db (Devices.Pg.touch_last_seen now a d db).2
| st_device_rename a d l : statement db (Devices.Pg.rename a d l db).2
| st_device_revoke now a d reason : statement db (Devices.Pg.revoke_with_sessions now a d reason db).2
| st_device_logout now a d reason : statement db (Devices.Pg.logout_with_sessions now a d reason db).2
| st_device_revoke_all now a reason : statement db (Devices.Pg.revoke_all_for_account now a reason db).2
| st_session now op : statement db (run_op now op db)
| st_challenge_create now i a d h o e : statement db (Challenges.Pg.create now i a d h o e db).2
| st_challenge_consume now a i : statement db (Challenges.Pg.consume now a i db).2
| st_challenge_consume_nonce now a h : statement db (Challenges.Pg.consume_by_nonce_hash now a h db).2
| st_challenge_failed now a i : statement db (Challenges.Pg.mark_failed now a i db).2
| st_otp_create now i a d h e : statement db (LinkingOtps.Pg.create now i a d h e db).2
| st_otp_failed now i : statement db (LinkingOtps.Pg.mark_failed now i db).2
| st_otp_redeem now i a d e n l k fp :
    statement db (LinkingOtps.Pg.consume_and_register now i a d e n l k fp db).2
| st_transfer now op : statement db (pg_op now op db).2
| st_ticket_create now i a s h e : statement db (Tickets.Pg.create now i a s h e db).2
| st_ticket_consume now key owner : statement db (Tickets.Pg.consume_where now key owner db).2
| st_event now i t o e user d fp details :
    statement db (Events.Pg.create now i t o e user d fp details db).2
| st_limit_many now requests : statement db (RateLimits.Pg.consume_many now requests db).2
| st_limit now scope key e : statement db (on_rate_limit_buckets (RateLimits.Pg.increment now scope key e) db).2.

Lemma statement_respects R `{!Writes R, !OpensSessions R, !AddsDevices R} db db' : statement db db' → R db db'.
Proof.
  destruct 1; [apply accounts_get_or_create_step|apply accounts_mark_step|apply devices_create_step
    |apply devices_register_step|apply devices_touch_step|apply devices_rename_step
    |apply devices_with_sessions_step, revoked_grows|apply devices_with_sessions_step, logged_out_grows
    |apply devices_revoke_all_step|apply sessions_step|apply challenges_create_step|apply challenges_consume_step
    |apply challenges_consume_step|apply challenges_failed_step|apply otps_create_step|apply otps_failed_step
    |apply otps_redeem_step|apply transfers_step|apply tickets_create_step|apply tickets_consume_step
    |apply events_create_step|apply buckets_consume_step|apply buckets_increment_step].
Qed.

Lemma run_respects R `{!Writes R, !OpensSessions R, !AddsDevices R} db db' : rtc statement db db' → R db db'.
Proof. induction 1 as [|x y z Hs _ IH]; [reflexivity|]. etrans; [by apply statement_respects|exact IH]. Qed.

Lemma statement_step db db' : statement db db' → db_step db db'.
Proof. apply (statement_respects db_step). Qed.

Lemma run_step db db' : rtc statement db db' → db_step db db'.
Proof. apply (run_respects db_step). Qed.
