(* ===== verification/DeviceCrypto.v ===== *)
(** * DeviceCrypto: [app/device_crypto.py]

    The strict base64url decoder, the canonical JSON the devices sign, the
    challenge payloads, and the key and signature checks over the
    [cryptography] package. *)
From Stdlib.Strings Require Import Byte.
From S2P Require Import Prelude PyDict Json Calendar Models Hashing Signaling.
From stdpp Require Import list strings.

Definition DEVICE_PROTOCOL_VERSION : Z := 1.
Definition DEVICE_CHALLENGE_VERSION : Z := 1.
Definition DEVICE_SIGNATURE_BYTES : nat := 64.
Definition SHA256_BYTES : nat := 32.

(** ** [decode_base64url] *)

(** The value of a character of [_BASE64URL_RE]. *)
Definition sextet (c : N) : option N :=
  (if (65 <=? c) && (c <=? 90) then Some (c - 65)
   else if (97 <=? c) && (c <=? 122) then Some (c - 71)
   else if (48 <=? c) && (c <=? 57) then Some (c + 4)
   else if c =? 45 then Some 62
   else if c =? 95 then Some 63
   else None)%N.

(** [binascii.a2b_base64] on the padded text, spare low bits dropped; a lone
    last character is an error. *)
Fixpoint a2b (l : list N) : option bytes :=
  match l with
  | [] => Some []
  | a :: b :: c :: d :: l' =>
      match a2b l' with
      | Some m =>
          let n := (((a * 64 + b) * 64 + c) * 64 + d)%N in
          Some (byte_of (n / 65536) :: byte_of (n / 256) :: byte_of n :: m)
      | None => None
      end
  | [a; b; c] => let n := ((a * 64 + b) * 64 + c)%N in Some [byte_of (n / 1024); byte_of (n / 4)]
  | [a; b] => Some [byte_of ((a * 64 + b) / 16)%N]
  | [_] => None
  end.

Definition decode_base64url (value : pystr) (maximum_bytes : nat) : outcome bytes :=
  if bool_decide (value = []) || (maximum_bytes * 2 <? length value)%nat then Raise DeviceCryptoError
  else match mapM sextet value with
       | None => Raise DeviceCryptoError
       | Some sextets =>
           match a2b sextets with
           | None => Raise DeviceCryptoError
           | Some decoded =>
               if bool_decide (decoded = []) || (maximum_bytes <? length decoded)%nat
               then Raise DeviceCryptoError else Ok decoded
           end
       end.

(** ** Canonical JSON *)
Definition normalize_timestamp (value : timestamp) : pystr := isoformat_z value.

Definition non_finite (repr : string) : bool := bool_decide (repr ∈ ["nan"; "inf"; "-inf"]).

(** [json.dumps(.., sort_keys=True)] *)
Fixpoint insert_by_key (m : pystr * json) (l : list (pystr * json)) : list (pystr * json) :=
  match l with
  | [] => [m]
  | m' :: l' => if pystr_leb m.1 m'.1 then m :: l else m' :: insert_by_key m l'
  end.
Definition sort_keys (l : list (pystr * json)) : list (pystr * json) := foldr insert_by_key [] l.

(** [normalize], with the keys in the order [dumps] writes them. *)
Fixpoint normalize (item : json) : outcome json :=
  match item with
  | JFloat repr => if non_finite repr then Raise DeviceCryptoError else Ok item
  | JList l =>
      (fix go l := match l with
       | [] => Ok (JList [])
       | x :: l' =>
           match normalize x with
           | Raise e => Raise e
           | Ok j => match go l' with
                     | Ok (JList js) => Ok (JList (j :: js))
                     | Ok _ => Raise DeviceCryptoError
                     | Raise e => Raise e
                     end
           end
       end) l
  | JObj ms =>
      let members := (fix go ms := match ms with
        | [] => Ok []
        | (k, v) :: ms' =>
            match normalize v with
            | Raise e => Raise e
            | Ok j => match go ms' with Ok js => Ok ((k, j) :: js) | Raise e => Raise e end
            end
        end) ms in
      match members with Ok ms => Ok (JObj (sort_keys ms)) | Raise e => Raise e end
  | _ => Ok item
  end.

Definition canonical_json_bytes (value : json) : outcome bytes :=
  match normalize value with
  | Ok j => encode_utf8 (dumps false j)
  | Raise e => Raise e
  end.

(** ** Payloads *)
Definition challenge_payload (challenge : DeviceChallengeRecord) (account : AccountRecord) (device : DeviceRecord)
    (nonce : bytes) : outcome json :=
  if bool_decide (chl_device_id challenge ≠ dev_id device) then Raise DeviceCryptoError
  else if bool_decide (length nonce ≠ 32%nat) then Raise DeviceCryptoError
  else Ok (JObj
    [(u "account_device_epoch", JInt (acc_device_epoch account));
     (u "account_id", JStr (uuid_str (acc_id account)));
     (u "challenge_id", JStr (uuid_str (chl_id challenge)));
     (u "challenge_version", JInt DEVICE_CHALLENGE_VERSION);
     (u "device_id", JStr (uuid_str (dev_id device)));
     (u "expires_at", JStr (normalize_timestamp (chl_expires_at challenge)));
     (u "issued_at", JStr (normalize_timestamp (chl_created_at challenge)));
     (u "nonce", JStr (encode_base64url nonce));
     (u "origin", JStr (chl_origin challenge));
     (u "protocol_version", JInt DEVICE_PROTOCOL_VERSION)]).

Definition registration_payload (challenge_id account_id device_id : pystr) (epoch : Z) (nonce : bytes)
    (origin : pystr) (issued_at expires_at : timestamp) (fingerprint : bytes) (fallback : bool)
    (enrollment_method : string) : outcome json :=
  if bool_decide (length nonce ≠ 32%nat) then Raise DeviceCryptoError
  else if bool_decide (length fingerprint ≠ SHA256_BYTES) then Raise DeviceCryptoError
  else Ok (JObj
    [(u "account_device_epoch", JInt epoch);
     (u "account_id", JStr account_id);
     (u "challenge_id", JStr challenge_id);
     (u "challenge_version", JInt DEVICE_CHALLENGE_VERSION);
     (u "device_fingerprint", JStr (encode_base64url fingerprint));
     (u "device_id", JStr device_id);
     (u "expires_at", JStr (normalize_timestamp expires_at));
     (u "issued_at", JStr (normalize_timestamp issued_at));
     (u "nonce", JStr (encode_base64url nonce));
     (u "origin", JStr origin);
     (u "protocol_version", JInt DEVICE_PROTOCOL_VERSION);
     (u "enrollment_method", JStr (u enrollment_method));
     (u "fallback", JBool fallback)]).

(** The domain separator, its last byte zero. *)
Definition signature_domain : bytes := to_bytes (u "e2e-secure-file-transfer/device-auth/v1") ++ [x00].

Definition signed_message (payload : json) : outcome bytes :=
  match canonical_json_bytes payload with
  | Ok m => Ok (signature_domain ++ m)
  | Raise e => Raise e
  end.

(** ** Keys and signatures *)

(** What [load_der_public_key] does with an encoding: a key, its
    [ValueError] or [TypeError], or [UnsupportedAlgorithm]. *)
Inductive loaded (K : Type) :=
| Loaded (key : K)
| Malformed
| Unsupported.
Arguments Loaded {K} key.
Arguments Malformed {K}.
Arguments Unsupported {K}.

(** The functions of the [cryptography] package the module calls. *)
Class Cryptography := {
  PublicKey : Type;
  load_der_public_key : bytes → loaded PublicKey;
  key_curve : PublicKey → option string;
  public_bytes : PublicKey → bytes;
  ecdsa_verify : PublicKey → bytes → bytes → bool;
  encode_dss_signature : N → N → bytes;
  decode_dss_signature : bytes → option (N * N) }.

Section crypto.
Context `{Cryptography}.

Definition canonical_public_key (raw : bytes) : outcome bytes :=
  if negb (bool_decide (1 ≤ length raw ≤ 1024)%nat) then Raise DeviceCryptoError
  else match load_der_public_key raw with
       | Malformed => Raise DeviceCryptoError
       | Unsupported => Raise UnsupportedAlgorithm
       | Loaded key =>
           if bool_decide (key_curve key ≠ Some "secp256r1") then Raise DeviceCryptoError
           else if bool_decide (public_bytes key ≠ raw) then Raise DeviceCryptoError
           else Ok (public_bytes key)
       end.

Definition fingerprint_public_key (public_key_spki : bytes) : outcome bytes :=
  match canonical_public_key public_key_spki with
  | Ok canonical => Ok (sha256 canonical)
  | Raise e => Raise e
  end.

(** [int.from_bytes(value, "big")] *)
Definition from_bytes (value : bytes) : N := fold_left (λ n b, (n * 256 + Byte.to_N b)%N) value 0%N.

Definition p1363_to_der (signature : bytes) : outcome bytes :=
  if bool_decide (length signature ≠ DEVICE_SIGNATURE_BYTES) then Raise DeviceCryptoError
  else
    let r := from_bytes (take 32 signature) in
    let s := from_bytes (drop 32 signature) in
    if ((r =? 0) || (s =? 0))%N then Raise DeviceCryptoError else Ok (encode_dss_signature r s).

Definition der_to_p1363 (signature : bytes) : outcome bytes :=
  match decode_dss_signature signature with
  | None => Raise DeviceCryptoError
  | Some (r, s) =>
      if (negb ((0 <? r) && (r <? 2 ^ 256)) || negb ((0 <? s) && (s <? 2 ^ 256)))%N
      then Raise DeviceCryptoError else Ok (big_endian 32 r ++ big_endian 32 s)
  end.

(** The handler returns [False] for everything but [UnsupportedAlgorithm]. *)
Definition verify_signature (public_key_spki signature message : bytes) : outcome bool :=
  match canonical_public_key public_key_spki with
  | Raise UnsupportedAlgorithm => Raise UnsupportedAlgorithm
  | Raise _ => Ok false
  | Ok canonical_key =>
      match load_der_public_key canonical_key with
      | Unsupported => Raise UnsupportedAlgorithm
      | Malformed => Ok false
      | Loaded key =>
          if is_null (key_curve key) then Ok false
          else
            match (if decide (length signature = DEVICE_SIGNATURE_BYTES) then p1363_to_der signature
                   else Ok signature) with
            | Ok der_signature => Ok (ecdsa_verify key der_signature message)
            | Raise _ => Ok false
            end
      end
  end.

Definition verify_p1363_signature (public_key_spki signature message : bytes) : outcome bool :=
  if bool_decide (length signature ≠ DEVICE_SIGNATURE_BYTES) then Ok false
  else verify_signature public_key_spki signature message.
End crypto.
