(* ===== verification/Auth.v ===== *)
(** * Auth: [app/auth.py]

    Email normalisation, the one-time bootstrap state, the OTP service and its
    routes.  (The limiter is in RateLimits, the account stores in Accounts.) *)
From Stdlib.Strings Require Import Byte.
From S2P Require Import Prelude PyDict Json Models Hashing Security Sessions RateLimits Accounts.
From stdpp Require Import list strings.

Definition OTP_WINDOW : timedelta := minutes 10.
Definition OTP_START_EMAIL_LIMIT : Z := 3.
Definition OTP_START_NETWORK_LIMIT : Z := 10.
Definition OTP_VERIFY_EMAIL_LIMIT : Z := 5.
Definition OTP_VERIFY_NETWORK_LIMIT : Z := 20.
Definition BOOTSTRAP_LIFETIME : timedelta := minutes 10.

(** ** The Unicode database of the interpreter

    [unicodedata.normalize("NFKC", s)], [s.casefold()], [s.upper()],
    [c.isspace()] and the value [int] gives a decimal digit. *)
Class UnicodeDatabase := {
  nfkc : pystr → pystr;
  casefold : pystr → pystr;
  upper : pystr → pystr;
  isspace : N → bool;
  decimal : N → option N }.

(** Removing leading and trailing characters. *)
Fixpoint drop_while (p : N → bool) (s : pystr) : pystr :=
  match s with
  | c :: s' => if p c then drop_while p s' else s
  | [] => []
  end.
Definition strip_with (p : N → bool) (s : pystr) : pystr := rev (drop_while p (rev (drop_while p s))).

(** [needle in s] for a text, and [s.replace(needle, "")] *)
Fixpoint is_prefix (needle s : pystr) : bool :=
  match needle, s with
  | [], _ => true
  | a :: needle', b :: s' => (a =? b)%N && is_prefix needle' s'
  | _ :: _, [] => false
  end.

Fixpoint contains (needle s : pystr) : bool :=
  is_prefix needle s || match s with [] => false | _ :: s' => contains needle s' end.

Fixpoint remove_all (fuel : nat) (needle s : pystr) : pystr :=
  match fuel with
  | O => s
  | S fuel' =>
      match s with
      | [] => []
      | c :: s' =>
          if is_prefix needle s then remove_all fuel' needle (drop (length needle) s)
          else c :: remove_all fuel' needle s'
      end
  end.

(** [s.rsplit("@", 1)] of a text with one at-sign *)
Fixpoint split_at (s : pystr) : pystr * pystr :=
  match s with
  | [] => ([], [])
  | c :: s' => if (c =? 64)%N then ([], s') else let '(a, b) := split_at s' in (c :: a, b)
  end.

Section text.
Context `{UnicodeDatabase}.

Definition strip (s : pystr) : pystr := strip_with isspace s.

Definition bad_email_characters : pystr := u "()<>[],;:\" ++ [34%N].

Definition normalize_email (value : pystr) : outcome pystr :=
  let normalized := casefold (strip (nfkc value)) in
  if negb (bool_decide (3 ≤ length normalized ≤ 320)%nat) then Raise ValueError
  else if existsb (λ c, isspace c || (c <? 32)%N) normalized then Raise ValueError
  else if negb (bool_decide (length (List.filter (λ c, c =? 64)%N normalized) = 1%nat)) then Raise ValueError
  else
    let '(local_part, domain) := split_at normalized in
    if bool_decide (local_part = []) || bool_decide (domain = []) ||
       bool_decide (head domain = Some 46%N) || bool_decide (last domain = Some 46%N)
    then Raise ValueError
    else if contains (u "..") local_part || contains (u "..") domain then Raise ValueError
    else if negb (bool_decide (46%N ∈ domain)) then Raise ValueError
    else if existsb (λ c, bool_decide (c ∈ normalized)) bad_email_characters then Raise ValueError
    else Ok normalized.

Definition network_fingerprint (network_identifier : pystr) (secret : bytes) : outcome bytes :=
  if bool_decide (secret = []) then Raise ValueError
  else
    let normalized := match casefold (strip network_identifier) with [] => u "unknown" | s => s end in
    match encode_utf8 normalized with
    | Ok message => Ok (hmac_sha256 secret message)
    | Raise e => Raise e
    end.

(** ** [UUID(text)]

    [int(text, 16)]: surrounding whitespace, a sign, an optional "0x", digits
    with single underscores between them. *)
Definition hex_digit_value (c : N) : option N :=
  (if (97 <=? c) && (c <=? 102) then Some (c - 87)
   else if (65 <=? c) && (c <=? 70) then Some (c - 55)
   else decimal c)%N.

Fixpoint hex_int (acc : N) (after_digit : bool) (s : pystr) : option N :=
  match s with
  | [] => if after_digit then Some acc else None
  | c :: s' =>
      match hex_digit_value c with
      | Some d => hex_int (16 * acc + d)%N true s'
      | None => if (c =? 95)%N && after_digit then hex_int acc false s' else None
      end
  end.

(** "0x" may be followed by an underscore. *)
Definition int16 (s : pystr) : option Z :=
  let s := strip s in
  let '(negative, body) := match s with 43%N :: b => (false, b) | 45%N :: b => (true, b) | _ => (false, s) end in
  let magnitude :=
    match body with
    | 48%N :: x :: ((_ :: _) as digits) =>
        if ((x =? 120) || (x =? 88))%N then hex_int 0 true digits else hex_int 0 false body
    | _ => hex_int 0 false body
    end in
  match magnitude with
  | Some n => Some (if (negative : bool) then (- Z.of_N n)%Z else Z.of_N n)
  | None => None
  end.

Definition python_uuid (text : pystr) : outcome UUID :=
  let hex := remove_all (length text) (u "uuid:") (remove_all (length text) (u "urn:") text) in
  let hex := List.filter (λ c, negb (c =? 45)%N) (strip_with (λ c, (c =? 123) || (c =? 125))%N hex) in
  if bool_decide (length hex ≠ 32%nat) then Raise ValueError
  else match int16 hex with
       | Some n => if (n <? 0)%Z then Raise ValueError else Ok (Z.to_N n)
       | None => Raise ValueError
       end.
End text.

(** ** [BootstrapStateStore] *)
Record BootstrapCredentials := {
  bc_bootstrap_id : UUID;
  bc_token : pystr;
  bc_account_id : UUID;
  bc_email_normalized : pystr;
  bc_device_epoch : Z;
  bc_expires_at : timestamp }.

Record _BootstrapState := {
  bs_bootstrap_id : UUID;
  bs_token_hash : bytes;
  bs_account_id : UUID;
  bs_email_normalized : pystr;
  bs_device_epoch : Z;
  bs_expires_at : timestamp }.

Definition credentials_of (token : pystr) (state : _BootstrapState) : BootstrapCredentials :=
  {| bc_bootstrap_id := bs_bootstrap_id state; bc_token := token; bc_account_id := bs_account_id state;
     bc_email_normalized := bs_email_normalized state; bc_device_epoch := bs_device_epoch state;
     bc_expires_at := bs_expires_at state |}.

Record BootstrapStateStore := {
  bss_lifetime : timedelta;
  bss_states : dict bytes _BootstrapState }.

Definition bootstrap_state_store (lifetime : timedelta) : outcome BootstrapStateStore :=
  if (lifetime <=? 0)%Z then Raise ValueError else Ok {| bss_lifetime := lifetime; bss_states := [] |}.

Definition set_states (f : dict bytes _BootstrapState → dict bytes _BootstrapState) (s : BootstrapStateStore) :
    BootstrapStateStore :=
  {| bss_lifetime := bss_lifetime s; bss_states := f (bss_states s) |}.

Module Bootstrap.
(** [id] is [uuid4()], [raw] the token's draw. *)
Definition issue (id : UUID) (raw : bytes) (account : AccountRecord) (issued_at : timestamp) :
    M BootstrapStateStore BootstrapCredentials :=
  let! token := lift (new_opaque_token SESSION_TOKEN_BYTES raw) in
  let! token_hash := lift (hash_secret token) in
  let! lifetime := gets bss_lifetime in
  let state := {| bs_bootstrap_id := id; bs_token_hash := token_hash; bs_account_id := acc_id account;
                  bs_email_normalized := acc_email_normalized account; bs_device_epoch := acc_device_epoch account;
                  bs_expires_at := issued_at + lifetime |} in
  do! modify (set_states (dict_set token_hash state)) in
  ret (credentials_of token state).

(** A state found by [consume] or [peek]. *)
Definition unexpired (token : pystr) (current : timestamp) (state : option _BootstrapState) :
    option BootstrapCredentials :=
  match state with
  | Some state => if (bs_expires_at state <=? current)%Z then None else Some (credentials_of token state)
  | None => None
  end.

Definition consume (current : timestamp) (token : pystr) : M BootstrapStateStore (option BootstrapCredentials) :=
  let! token_hash := lift (hash_secret token) in
  let! state := gets (λ s, dict_get token_hash (bss_states s)) in
  do! modify (set_states (dict_del token_hash)) in
  ret (unexpired token current state).

Definition peek (current : timestamp) (token : pystr) : M BootstrapStateStore (option BootstrapCredentials) :=
  let! token_hash := lift (hash_secret token) in
  let! state := gets (λ s, dict_get token_hash (bss_states s)) in
  ret (unexpired token current state).
End Bootstrap.

(** ** [OtpBootstrapService] *)

(** [AuthIdentity] and [AuthGateway] *)
Record AuthIdentity := { ai_user_id : pystr; ai_email : pystr }.

Class AuthGateway (S : Type) := {
  gateway_start_otp : pystr → M S unit;
  gateway_verify_otp : pystr → pystr → M S AuthIdentity }.

(** [RateLimiterPort] *)
Class LimiterStore (S : Type) := {
  limit_many : timestamp → list request → M S bool;
  limiter_secret : S → bytes }.

(** The service's state: what its stores keep, and the bootstrap states. *)
Record AuthWorld (S : Type) := { aw_stores : S; aw_bootstrap : BootstrapStateStore }.
Arguments Build_AuthWorld {S} _ _.
Arguments aw_stores {S} _.
Arguments aw_bootstrap {S} _.

Section service.
Context {S : Type} `{AuthGateway S} `{AccountStore S} `{LimiterStore S} `{UnicodeDatabase}.

Definition on_stores {A} : M S A → M (AuthWorld S) A := zoom aw_stores (λ t w, Build_AuthWorld t (aw_bootstrap w)).
Definition on_bootstrap {A} : M BootstrapStateStore A → M (AuthWorld S) A :=
  zoom aw_bootstrap (λ b w, Build_AuthWorld (aw_stores w) b).

Definition otp_buckets (email_normalized network_identifier : pystr) (verify : bool) : list request :=
  [(if verify then "otp:verify:email" else "otp:start:email", email_normalized,
    if verify then OTP_VERIFY_EMAIL_LIMIT else OTP_START_EMAIL_LIMIT, OTP_WINDOW);
   (if verify then "otp:verify:network" else "otp:start:network", network_identifier,
    if verify then OTP_VERIFY_NETWORK_LIMIT else OTP_START_NETWORK_LIMIT, OTP_WINDOW)].

Definition _allow (now : timestamp) (email_normalized network_identifier : pystr) (verify : bool) : M S bool :=
  limit_many now (otp_buckets email_normalized network_identifier verify).

Definition start_otp (now : timestamp) (email network_identifier : pystr) : M (AuthWorld S) pystr :=
  let! normalized := lift (normalize_email email) in
  let! allowed := on_stores (_allow now normalized network_identifier false) in
  if negb allowed then raise OtpRateLimitedError
  else do! on_stores (gateway_start_otp normalized) in ret normalized.

(** The [try] block of [verify_otp]: the identity the provider vouches for. *)
Definition verified_identity (normalized otp : pystr) : M S UUID :=
  try_except (
    let! identity := gateway_verify_otp normalized (strip otp) in
    let! identity_id := lift (python_uuid (ai_user_id identity)) in
    let! identity_email := lift (normalize_email (ai_email identity)) in
    if bool_decide (identity_email ≠ normalized) then raise OtpInvalidError else ret identity_id)
    (λ e, is_value_error e || bool_decide (e = TypeError)) (λ _, raise OtpInvalidError).

(** The clock is read before the limiter, [now], and after the provider
    answered, [verified_at]; [db_now] is the database's. *)
Definition verify_otp (now verified_at db_now : timestamp) (account_id bootstrap_id : UUID) (raw : bytes)
    (email otp network_identifier : pystr) : M (AuthWorld S) BootstrapCredentials :=
  let! normalized := lift (normalize_email email) in
  if negb (bool_decide (1 ≤ length (strip otp) ≤ 64)%nat) then raise OtpInvalidError
  else
    let! allowed := on_stores (_allow now normalized network_identifier true) in
    if negb allowed then raise OtpRateLimitedError
    else
      let! identity_id := on_stores (verified_identity normalized otp) in
      let! account := on_stores (get_or_create db_now account_id identity_id normalized verified_at) in
      on_bootstrap (Bootstrap.issue bootstrap_id raw account verified_at).

(** ** Routes

    [OtpStartRequest] and [OtpVerifyRequest]: pydantic's length bounds. *)
Definition field_length (lo hi : nat) (value : pystr) : bool := bool_decide (lo ≤ length value ≤ hi)%nat.

Definition otp_errors {A} (m : M (AuthWorld S) A) : M (AuthWorld S) A :=
  try_except m (λ e, bool_decide (e = OtpRateLimitedError) || is_value_error e)
    (λ e, raise (HTTPException (if decide (e = OtpRateLimitedError) then 429 else 400))).

Definition start_otp_route (app_origin : pystr) (hs : headers) (now : timestamp) (email network_identifier : pystr) :
    M (AuthWorld S) unit :=
  if negb (field_length 1 320 email) then raise (HTTPException 422)
  else
    do! lift (check_optional_origin app_origin hs) in
    do! otp_errors (start_otp now email network_identifier) in ret tt.

Definition verify_otp_route (app_origin : pystr) (hs : headers) (now verified_at db_now : timestamp)
    (account_id bootstrap_id : UUID) (raw : bytes) (email otp network_identifier : pystr) :
    M (AuthWorld S) BootstrapCredentials :=
  if negb (field_length 1 320 email && field_length 1 64 otp) then raise (HTTPException 422)
  else
    do! lift (check_optional_origin app_origin hs) in
    otp_errors (verify_otp now verified_at db_now account_id bootstrap_id raw email otp network_identifier).
End service.

(** [_network_identifier]: the peer's host, if the server knows it. *)
Definition _network_identifier (host : option pystr) : pystr :=
  match host with
  | None | Some [] => u "unknown"
  | Some h => h
  end.
