(* ===== verification/DeviceAuth.v ===== *)
(** * DeviceAuth: [app/device_auth.py]

    Device registration by email or by a linking code, challenge login, and the
    routes over them, against the store interfaces. *)
From Stdlib.Strings Require Import Byte.
From S2P Require Import Prelude PyDict Json Models Hashing Signaling Security Sessions RateLimits.
From S2P Require Import Accounts Devices Challenges LinkingOtps Events DeviceCrypto Auth.
From stdpp Require Import list strings.

Definition DEVICE_CHALLENGE_LIFETIME : timedelta := minutes 5.
Definition REGISTRATION_CHALLENGE_LIFETIME : timedelta := minutes 10.
Definition MAX_DEVICE_LABEL_LENGTH : nat := 100.
Definition DEVICE_LINKING_OTP_LIFETIME : timedelta := minutes 10.
Definition DEVICE_LINKING_OTP_LENGTH : nat := 6.
Definition DEVICE_LINKING_RATE_LIMIT_WINDOW : timedelta := minutes 10.
Definition DEVICE_LINKING_SECURITY_EVENT_RETENTION : timedelta := days 30.

Definition normalize_device_label `{UnicodeDatabase} (value : pystr) : outcome pystr :=
  let label := Auth.strip value in
  if negb (bool_decide (1 ≤ length label ≤ MAX_DEVICE_LABEL_LENGTH)%nat) then Raise ValueError
  else if existsb (λ c, (c <? 32) || (c =? 127))%N label then Raise ValueError
  else Ok label.

Definition _hash_nonce (nonce : bytes) : outcome bytes :=
  if bool_decide (length nonce ≠ 32%nat) then Raise DeviceAuthFailure else Ok (sha256 nonce).

(** ** Challenges of a registration *)
Record RegistrationChallenge := {
  rc_challenge_id : UUID;
  rc_account_id : UUID;
  rc_device_id : UUID;
  rc_epoch : Z;
  rc_nonce : bytes;
  rc_origin : pystr;
  rc_issued_at : timestamp;
  rc_expires_at : timestamp;
  rc_fingerprint : bytes;
  rc_fallback : bool;
  rc_enrollment_method : string;
  rc_linking_otp_id : option UUID;
  rc_linked_by_device_id : option UUID }.

(** [RegistrationChallenge.payload] *)
Definition rc_payload (c : RegistrationChallenge) : outcome json :=
  registration_payload (uuid_str (rc_challenge_id c)) (uuid_str (rc_account_id c)) (uuid_str (rc_device_id c))
    (rc_epoch c) (rc_nonce c) (rc_origin c) (rc_issued_at c) (rc_expires_at c) (rc_fingerprint c)
    (rc_fallback c) (rc_enrollment_method c).

Record _RegistrationState := {
  rs_challenge : RegistrationChallenge;
  rs_public_key_spki : bytes;
  rs_label : pystr;
  rs_attempts : Z }.

Record RegistrationChallengeStore := {
  rcs_lifetime : timedelta;
  rcs_states : dict UUID _RegistrationState }.

Definition registration_challenge_store (lifetime : timedelta) : outcome RegistrationChallengeStore :=
  if (lifetime <=? 0)%Z then Raise ValueError else Ok {| rcs_lifetime := lifetime; rcs_states := [] |}.

Module Registration.
Section registration.
Context `{Cryptography}.

Definition set_states (f : dict UUID _RegistrationState → dict UUID _RegistrationState)
    (s : RegistrationChallengeStore) : RegistrationChallengeStore :=
  {| rcs_lifetime := rcs_lifetime s; rcs_states := f (rcs_states s) |}.

(** [id] is [uuid4()], [nonce] the draw of [secrets.token_bytes(32)]. *)
Definition issue (id : UUID) (nonce : bytes) (account : AccountRecord) (device_id : UUID) (public_key_spki : bytes)
    (label origin : pystr) (fallback : bool) (enrollment_method : string)
    (linking_otp_id linked_by_device_id : option UUID) (issued_at : timestamp) :
    M RegistrationChallengeStore RegistrationChallenge :=
  let! fingerprint := lift (fingerprint_public_key public_key_spki) in
  let! lifetime := gets rcs_lifetime in
  let challenge :=
    {| rc_challenge_id := id; rc_account_id := acc_id account; rc_device_id := device_id;
       rc_epoch := acc_device_epoch account; rc_nonce := nonce; rc_origin := origin; rc_issued_at := issued_at;
       rc_expires_at := issued_at + lifetime; rc_fingerprint := fingerprint; rc_fallback := fallback;
       rc_enrollment_method := enrollment_method; rc_linking_otp_id := linking_otp_id;
       rc_linked_by_device_id := linked_by_device_id |} in
  do! modify (set_states (dict_set id {| rs_challenge := challenge; rs_public_key_spki := public_key_spki;
                                         rs_label := label; rs_attempts := 0 |})) in
  ret challenge.

Definition expired (now : timestamp) (state : _RegistrationState) : bool :=
  (rc_expires_at (rs_challenge state) <=? now)%Z.

Definition get (challenge_id : UUID) (now : timestamp) :
    M RegistrationChallengeStore (option _RegistrationState) :=
  let! state := gets (λ s, dict_get challenge_id (rcs_states s)) in
  match state with
  | None => ret None
  | Some state =>
      if expired now state then do! modify (set_states (dict_del challenge_id)) in ret None
      else ret (Some state)
  end.

Definition mark_failed (challenge_id : UUID) (now : timestamp) : M RegistrationChallengeStore unit :=
  let! state := gets (λ s, dict_get challenge_id (rcs_states s)) in
  match state with
  | None => ret tt
  | Some state =>
      if expired now state then modify (set_states (dict_del challenge_id))
      else modify (set_states (dict_set challenge_id
        {| rs_challenge := rs_challenge state; rs_public_key_spki := rs_public_key_spki state;
           rs_label := rs_label state; rs_attempts := Z.min (rs_attempts state + 1) 10 |}))
  end.

Definition consume (challenge_id : UUID) (now : timestamp) :
    M RegistrationChallengeStore (option _RegistrationState) :=
  let! state := gets (λ s, dict_get challenge_id (rcs_states s)) in
  do! modify (set_states (dict_del challenge_id)) in
  match state with
  | None => ret None
  | Some state => if expired now state then ret None else ret (Some state)
  end.
End registration.
End Registration.

(** ** Results *)
Record DeviceLoginChallenge := {
  lc_challenge : DeviceChallengeRecord;
  lc_account : AccountRecord;
  lc_device : DeviceRecord;
  lc_nonce : bytes }.

Definition lc_payload (c : DeviceLoginChallenge) : outcome json :=
  challenge_payload (lc_challenge c) (lc_account c) (lc_device c) (lc_nonce c).

Record DeviceLinkingOtpResult := { lo_code : pystr; lo_record : DeviceLinkingOtpRecord }.

Record DeviceAuthResult := {
  dr_account : AccountRecord;
  dr_device : DeviceRecord;
  dr_session : CreatedSession;
  dr_fallback : bool }.

(** [str(n).zfill(6)] of a number below one million *)
Definition otp_code (n : Z) : pystr := Calendar.digits DEVICE_LINKING_OTP_LENGTH n.

(** [_DEVICE_LINKING_OTP_RE.fullmatch(code.strip())] *)
Definition is_linking_code (code : pystr) : bool :=
  bool_decide (length code = DEVICE_LINKING_OTP_LENGTH) && forallb (λ c, (48 <=? c) && (c <=? 57))%N code.

(** ** [DeviceAuthService] *)

(** The optional collaborators of [DeviceAuthService.__init__]. *)
Record DeviceAuthConfig := {
  dc_bootstrap_consumer : bool;
  dc_bootstrap_peeker : bool;
  dc_rate_limiter : bool;
  dc_security_event_store : bool }.

(** What the service reaches: its stores, the bootstrap states of the OTP
    service, and its registration challenges. *)
Record DeviceWorld (S : Type) := {
  dw_stores : S;
  dw_bootstrap : BootstrapStateStore;
  dw_registrations : RegistrationChallengeStore }.
Arguments Build_DeviceWorld {S} _ _ _.
Arguments dw_stores {S} _.
Arguments dw_bootstrap {S} _.
Arguments dw_registrations {S} _.

(** The identifiers and secrets a call draws. *)
Record Draws := {
  dr_device_id : UUID;
  dr_challenge_id : UUID;
  dr_nonce : bytes;
  dr_session_id : UUID;
  dr_secrets : entropy;
  dr_event_id : UUID }.

Section service.
Context {S : Type} `{AccountStore S} `{DeviceStore S} `{ChallengeStore S} `{LinkingOtpStore S}
  `{SecurityEventStore S} `{SessionRepositoryPort S} `{LimiterStore S} `{Cryptography} `{UnicodeDatabase}
  (cfg : DeviceAuthConfig).

Definition stores {A} : M S A → M (DeviceWorld S) A :=
  zoom dw_stores (λ t w, Build_DeviceWorld t (dw_bootstrap w) (dw_registrations w)).
Definition bootstrap {A} : M BootstrapStateStore A → M (DeviceWorld S) A :=
  zoom dw_bootstrap (λ b w, Build_DeviceWorld (dw_stores w) b (dw_registrations w)).
Definition registrations {A} : M RegistrationChallengeStore A → M (DeviceWorld S) A :=
  zoom dw_registrations (λ r w, Build_DeviceWorld (dw_stores w) (dw_bootstrap w) r).

(** [_audit_device_event]: whatever the store raises is dropped. *)
Definition _audit_device_event (db_now : timestamp) (id : UUID) (event_type outcome_ : string) (now : timestamp)
    (user_id device_id : option UUID) (network_identifier : option pystr) (details : list (pystr * json)) :
    M S unit :=
  if negb (dc_security_event_store cfg) then ret tt
  else
    let! secret := gets limiter_secret in
    let fingerprint :=
      match network_identifier with
      | Some ((_ :: _) as identifier) =>
          if dc_rate_limiter cfg
          then match network_fingerprint identifier secret with Ok h => Some h | Raise _ => None end
          else None
      | _ => None
      end in
    try_except
      (do! create_event db_now id event_type outcome_ (now + DEVICE_LINKING_SECURITY_EVENT_RETENTION)%Z
             user_id device_id fingerprint details in ret tt)
      (λ _, true) (λ _, ret tt).

Definition _allow (requests : list request) (now : timestamp) : M S bool :=
  if negb (dc_rate_limiter cfg) then ret true else limit_many now requests.

(** [device is None or device.status != "active" or device.epoch !=
    account.device_epoch], with the account's own test *)
Definition unavailable (account : option AccountRecord) (device : option DeviceRecord) : bool :=
  match account, device with
  | Some account, Some device =>
      bool_decide (dev_status device ≠ "active") || bool_decide (dev_epoch device ≠ acc_device_epoch account)
  | _, _ => true
  end.

(** The [try] block that validates a key and a label. *)
Definition checked_values (public_key_spki : bytes) (label : pystr) : outcome pystr :=
  match fingerprint_public_key public_key_spki with
  | Raise UnsupportedAlgorithm => Raise UnsupportedAlgorithm
  | Raise _ => Raise DeviceAuthFailure
  | Ok _ => match normalize_device_label label with Ok l => Ok l | Raise _ => Raise DeviceAuthFailure end
  end.

(** The bootstrap store reads its own clock: [now 0] at the first use, [now 1]
    at the consumption after a peek; [now 2] is the service's. *)
Definition issue_registration_challenge (now : nat → timestamp) (d : Draws) (bootstrap_token : pystr)
    (public_key_spki : bytes) (label origin : pystr) (device_id : option UUID) :
    M (DeviceWorld S) RegistrationChallenge :=
  if negb (dc_bootstrap_consumer cfg) then raise DeviceAuthFailure
  else
    let! found := bootstrap (if dc_bootstrap_peeker cfg then Bootstrap.peek (now 0%nat) bootstrap_token
                             else Bootstrap.consume (now 0%nat) bootstrap_token) in
    match found with
    | None => raise DeviceAuthFailure
    | Some credentials =>
        let! account := stores (account_by_id (bc_account_id credentials)) in
        match account with
        | None => raise DeviceAuthFailure
        | Some account =>
            if bool_decide (acc_device_epoch account ≠ bc_device_epoch credentials) then raise DeviceAuthFailure
            else
              let! normalized_label := lift (checked_values public_key_spki label) in
              let! existing := stores (devices_of (acc_id account)) in
              do! (if dc_bootstrap_peeker cfg then
                     let! consumed := bootstrap (Bootstrap.consume (now 1%nat) bootstrap_token) in
                     if is_null consumed then raise DeviceAuthFailure else ret tt
                   else ret tt) in
              registrations (Registration.issue (dr_challenge_id d) (dr_nonce d) account
                (default (dr_device_id d) device_id) public_key_spki normalized_label origin
                (negb (bool_decide (existing = []))) "email" None None (now 2%nat))
        end
    end.

Definition creation_buckets (account_id issuing_device_id : UUID) : list request :=
  [("device-linking:create:account", uuid_str account_id, 10%Z, DEVICE_LINKING_RATE_LIMIT_WINDOW);
   ("device-linking:create:device", uuid_str issuing_device_id, 5%Z, DEVICE_LINKING_RATE_LIMIT_WINDOW)].

(** [number] is the draw of [secrets.randbelow], [otp_id_] the row's id. *)
Definition issue_linking_otp (now : timestamp) (db_now : nat → timestamp) (number : Z) (otp_id_ event_id : UUID)
    (account_id issuing_device_id : UUID) (network_identifier : pystr) : M (DeviceWorld S) DeviceLinkingOtpResult :=
  let! account := stores (account_by_id account_id) in
  let! device := stores (device_by_id account_id issuing_device_id) in
  if unavailable account device then raise DeviceAuthFailure
  else
    let! allowed := stores (_allow (creation_buckets account_id issuing_device_id) now) in
    if negb allowed then
      do! stores (_audit_device_event (db_now 0%nat) event_id "rate_limited" "blocked" now (Some account_id)
                    (Some issuing_device_id) (Some network_identifier)
                    [(u "scope", JStr (u "device_linking_creation"))]) in
      raise DeviceLinkingRateLimited
    else
      let code := otp_code number in
      let! code_bytes := lift (encode_ascii code) in
      let! record := stores (create_otp (db_now 0%nat) otp_id_ account_id issuing_device_id (sha256 code_bytes)
                               (now + DEVICE_LINKING_OTP_LIFETIME)%Z) in
      do! stores (_audit_device_event (db_now 1%nat) event_id "device_linking_otp_created" "success" now
                    (Some account_id) (Some issuing_device_id) (Some network_identifier) []) in
      ret {| lo_code := code; lo_record := record |}.

Definition redemption_buckets (network_identifier : pystr) (code_hash : bytes) : list request :=
  [("device-linking:redeem:network", network_identifier, 30%Z, DEVICE_LINKING_RATE_LIMIT_WINDOW);
   ("device-linking:redeem:code", encode_base64url code_hash, 10%Z, DEVICE_LINKING_RATE_LIMIT_WINDOW)].

Definition issue_linking_challenge (now db_now : timestamp) (d : Draws) (code : pystr) (public_key_spki : bytes)
    (label origin : pystr) (device_id : option UUID) (network_identifier : pystr) :
    M (DeviceWorld S) RegistrationChallenge :=
  if negb (is_linking_code (Auth.strip code)) then raise DeviceAuthFailure
  else
    let! code_bytes := lift (encode_ascii (Auth.strip code)) in
    let code_hash := sha256 code_bytes in
    let! allowed := stores (_allow (redemption_buckets network_identifier code_hash) now) in
    if negb allowed then raise DeviceLinkingRateLimited
    else
      let! record := stores (active_otp_by_hash db_now code_hash) in
      match record with
      | None => raise DeviceAuthFailure
      | Some record =>
          if (10 <=? otp_attempt_count record)%Z then raise DeviceAuthFailure
          else
            let! account := stores (account_by_id (otp_user_id record)) in
            let! issuer := stores (device_by_id (otp_user_id record) (otp_issuing_device_id record)) in
            match account with
            | Some account_ =>
                if unavailable account issuer then raise DeviceAuthFailure
                else
                  let! normalized_label := lift (checked_values public_key_spki label) in
                  registrations (Registration.issue (dr_challenge_id d) (dr_nonce d) account_
                    (default (dr_device_id d) device_id) public_key_spki normalized_label origin false
                    "device_link" (Some (otp_id record)) (Some (otp_issuing_device_id record)) now)
            | None => raise DeviceAuthFailure
            end
      end.

(** [verify_p1363_signature(key, signature, signed_message(payload))] *)
Definition proof_holds (public_key_spki signature : bytes) (payload : outcome json) : outcome bool :=
  match payload with
  | Raise e => Raise e
  | Ok payload =>
      match signed_message payload with
      | Raise e => Raise e
      | Ok message => verify_p1363_signature public_key_spki signature message
      end
  end.

(** Registering the device of a claimed challenge: by the linking code it is
    bound to, or by email; the device, the fallback flag and the event. *)
Definition register_claimed (now : timestamp) (db_now : nat → timestamp) (account : AccountRecord)
    (claimed : _RegistrationState) : M S (DeviceRecord * bool * string) :=
  let challenge := rs_challenge claimed in
  match rc_linking_otp_id challenge with
  | Some otp =>
      let! device := LinkingOtps.consume_and_register (db_now 0%nat) otp (acc_id account)
                       (default 0%N (rc_linked_by_device_id challenge)) (acc_device_epoch account)
                       (rc_device_id challenge) (rs_label claimed) (rs_public_key_spki claimed)
                       (rc_fingerprint challenge) in
      match device with
      | None => raise DeviceAuthFailure
      | Some device => ret (device, false, "device_linked")
      end
  | None =>
      let! device := register_for_email (db_now 0%nat) (acc_id account) (acc_device_epoch account)
                       (rs_label claimed) (rs_public_key_spki claimed) (rc_fingerprint challenge)
                       (rc_device_id challenge) in
      if rc_fallback challenge then
        do! mark_email_fallback (acc_id account) now in ret (device, true, "email_fallback_completed")
      else ret (device, false, "device_registered")
  end.

Definition complete_registration (now : timestamp) (db_now : nat → timestamp) (d : Draws) (challenge_id : UUID)
    (signature : bytes) (origin : pystr) : M (DeviceWorld S) DeviceAuthResult :=
  let! state := registrations (Registration.get challenge_id now) in
  match state with
  | None => raise DeviceAuthFailure
  | Some state =>
      if bool_decide (rc_origin (rs_challenge state) ≠ origin) || (10 <=? rs_attempts state)%Z
      then raise DeviceAuthFailure
      else
        let! valid := lift (proof_holds (rs_public_key_spki state) signature (rc_payload (rs_challenge state))) in
        if negb valid then
          do! registrations (Registration.mark_failed challenge_id now) in
          do! match rc_linking_otp_id (rs_challenge state) with
              | Some otp => do! stores (fail_otp (db_now 0%nat) otp) in ret tt
              | None => ret tt
              end in
          raise DeviceAuthFailure
        else
          let! claimed := registrations (Registration.consume challenge_id now) in
          match claimed with
          | None => raise DeviceAuthFailure
          | Some claimed =>
              let! account := stores (account_by_id (rc_account_id (rs_challenge claimed))) in
              match account with
              | None => raise DeviceAuthFailure
              | Some account =>
                  if bool_decide (acc_device_epoch account ≠ rc_epoch (rs_challenge claimed))
                  then raise DeviceAuthFailure
                  else
                    let! registered := stores (register_claimed now db_now account claimed) in
                    let '(device, fallback, event_type) := registered in
                    let! session := stores (create_session (λ n, db_now (1 + n)%nat) (dr_session_id d)
                                      (dr_secrets d) (acc_id account) (dev_id device) (acc_device_epoch account)
                                      now None) in
                    do! stores (_audit_device_event (db_now 2%nat) (dr_event_id d) event_type "success" now
                                  (Some (acc_id account)) (Some (dev_id device)) None []) in
                    ret {| dr_account := account; dr_device := device; dr_session := session;
                           dr_fallback := fallback |}
              end
          end
  end.

Definition issue_login_challenge (now db_now : timestamp) (d : Draws) (account_id device_id : UUID)
    (origin : pystr) : M (DeviceWorld S) DeviceLoginChallenge :=
  let! account := stores (account_by_id account_id) in
  let! device := stores (device_by_id account_id device_id) in
  match account, device with
  | Some account_, Some device_ =>
      if unavailable account device then raise DeviceAuthFailure
      else
        let! nonce_hash := lift (_hash_nonce (dr_nonce d)) in
        let! challenge := stores (create_challenge db_now (dr_challenge_id d) account_id device_id nonce_hash origin
                                    (now + DEVICE_CHALLENGE_LIFETIME)%Z) in
        ret {| lc_challenge := challenge; lc_account := account_; lc_device := device_; lc_nonce := dr_nonce d |}
  | _, _ => raise DeviceAuthFailure
  end.

(** The disjunction of [complete_login_challenge], in the order it is
    evaluated: hashing a nonce of another length raises. *)
Definition login_refused (current : timestamp) (nonce : bytes) (account : option AccountRecord)
    (device : option DeviceRecord) (challenge : DeviceChallengeRecord) : outcome bool :=
  if unavailable account device || (chl_expires_at challenge <=? current)%Z ||
     negb (is_null (chl_consumed_at challenge))
  then Ok true
  else match _hash_nonce nonce with
       | Raise e => Raise e
       | Ok nonce_hash => Ok (bool_decide (chl_nonce_hash challenge ≠ nonce_hash))
       end.

Definition complete_login_challenge (current : timestamp) (db_now : nat → timestamp) (d : Draws)
    (account_id challenge_id : UUID) (nonce signature : bytes) (origin : pystr) :
    M (DeviceWorld S) DeviceAuthResult :=
  let! challenge := stores (challenge_by_id account_id challenge_id) in
  match challenge with
  | None => raise DeviceAuthFailure
  | Some challenge =>
      if bool_decide (chl_origin challenge ≠ origin) then raise DeviceAuthFailure
      else
        let! account := stores (account_by_id account_id) in
        let! device := stores (device_by_id account_id (chl_device_id challenge)) in
        let! refused := lift (login_refused current nonce account device challenge) in
        let fail := do! stores (fail_challenge (db_now 0%nat) account_id challenge_id) in raise DeviceAuthFailure in
        match account, device with
        | Some account, Some device =>
            if (refused : bool) then fail
            else
              let! valid := lift (proof_holds (dev_signing_public_key_spki device) signature
                                    (challenge_payload challenge account device nonce)) in
              if negb valid then fail
              else
                let! consumed := stores (consume_challenge (db_now 0%nat) account_id challenge_id) in
                match consumed with
                | None => raise DeviceAuthFailure
                | Some _ =>
                    let! touched := stores (touch_device (db_now 1%nat) account_id (dev_id device)) in
                    let! session := stores (create_session (λ n, db_now (2 + n)%nat) (dr_session_id d)
                                      (dr_secrets d) account_id (dev_id device) (acc_device_epoch account)
                                      current None) in
                    ret {| dr_account := account; dr_device := default device touched; dr_session := session;
                           dr_fallback := false |}
                end
        | _, _ => fail
        end
  end.
End service.
