(* ===== verification/DeviceRoutes.v ===== *)
(** * DeviceRoutes: the HTTP routes of [device_auth.py] and [session_api.py]

    Request validation, the translation of errors into statuses, the response
    bodies and the session cookie. *)
From Stdlib.Strings Require Import Byte.
From S2P Require Import Prelude PyDict Json Models Hashing Signaling TransferPort Presence Socket Security Sessions.
From S2P Require Import Accounts Devices Challenges LinkingOtps Events DeviceCrypto Auth DeviceAuth.
From stdpp Require Import list strings.

(** ** Response bodies

    The dictionaries the handlers return; FastAPI renders the instants. *)
Inductive pyvalue :=
| VJson (j : json)
| VTime (t : timestamp)
| VDict (members : list (string * pyvalue))
| VList (items : list pyvalue).

Definition v_str (s : pystr) : pyvalue := VJson (JStr s).
Definition v_uuid (id : UUID) : pyvalue := v_str (uuid_str id).
Definition v_opt {A} (f : A → pyvalue) (o : option A) : pyvalue :=
  match o with Some a => f a | None => VJson JNull end.

Definition public_session (record : SessionRecord) : pyvalue :=
  VDict [("session_id", v_uuid (ses_id record)); ("device_id", v_uuid (ses_device_id record));
         ("created_at", VTime (ses_created_at record)); ("last_seen_at", VTime (ses_last_seen_at record));
         ("idle_expires_at", VTime (ses_idle_expires_at record));
         ("absolute_expires_at", VTime (ses_absolute_expires_at record));
         ("revoked_at", v_opt VTime (ses_revoked_at record));
         ("revocation_reason", v_opt (λ r, v_str (u r)) (ses_revocation_reason record))].

Definition public_device (device : DeviceRecord) : pyvalue :=
  VDict [("device_id", v_uuid (dev_id device)); ("epoch", VJson (JInt (dev_epoch device)));
         ("label", v_str (dev_label device)); ("fingerprint", v_str (encode_base64url (dev_fingerprint device)));
         ("status", v_str (u (dev_status device))); ("created_at", VTime (dev_created_at device));
         ("last_seen_at", VTime (dev_last_seen_at device)); ("revoked_at", v_opt VTime (dev_revoked_at device));
         ("linked_by_device_id", v_opt v_uuid (dev_linked_by_device_id device))].

Definition public_auth_result (result : DeviceAuthResult) : pyvalue :=
  VDict [("authenticated", VJson (JBool true)); ("account_id", v_uuid (acc_id (dr_account result)));
         ("device", public_device (dr_device result)); ("session", public_session (cs_record (dr_session result)));
         ("csrf_token", v_str (ss_csrf_secret (cs_secrets (dr_session result))));
         ("fallback", VJson (JBool (dr_fallback result)))].

(** [_challenge_response]; [payload] raises when the challenge is unusable. *)
Definition _challenge_response (challenge : RegistrationChallenge) : outcome pyvalue :=
  match rc_payload challenge with
  | Raise e => Raise e
  | Ok payload => Ok (VDict
      [("challenge_id", v_uuid (rc_challenge_id challenge)); ("account_id", v_uuid (rc_account_id challenge));
       ("device_id", v_uuid (rc_device_id challenge)); ("device_epoch", VJson (JInt (rc_epoch challenge)));
       ("nonce", v_str (encode_base64url (rc_nonce challenge))); ("origin", v_str (rc_origin challenge));
       ("issued_at", VTime (rc_issued_at challenge)); ("expires_at", VTime (rc_expires_at challenge));
       ("fingerprint", v_str (encode_base64url (rc_fingerprint challenge)));
       ("protocol_version", VJson (JInt DEVICE_PROTOCOL_VERSION));
       ("challenge_version", VJson (JInt DEVICE_CHALLENGE_VERSION));
       ("fallback", VJson (JBool (rc_fallback challenge)));
       ("enrollment_method", v_str (u (rc_enrollment_method challenge))); ("payload", VJson payload)])
  end.

Definition _login_challenge_response (challenge : DeviceLoginChallenge) : outcome pyvalue :=
  match lc_payload challenge with
  | Raise e => Raise e
  | Ok payload => Ok (VDict
      [("challenge_id", v_uuid (chl_id (lc_challenge challenge))); ("account_id", v_uuid (acc_id (lc_account challenge)));
       ("device_id", v_uuid (dev_id (lc_device challenge)));
       ("device_epoch", VJson (JInt (acc_device_epoch (lc_account challenge))));
       ("nonce", v_str (encode_base64url (lc_nonce challenge)));
       ("origin", v_str (chl_origin (lc_challenge challenge)));
       ("issued_at", VTime (chl_created_at (lc_challenge challenge)));
       ("expires_at", VTime (chl_expires_at (lc_challenge challenge)));
       ("protocol_version", VJson (JInt DEVICE_PROTOCOL_VERSION));
       ("challenge_version", VJson (JInt DEVICE_CHALLENGE_VERSION)); ("payload", VJson payload)])
  end.

(** ** The session cookie: host-only, [Secure], [HttpOnly], [SameSite=Lax] *)
Definition SESSION_ABSOLUTE_SECONDS : Z := 90 * 24 * 60 * 60.

Inductive cookie :=
| SetCookie (value : pystr) (max_age : Z)
| DeleteCookie.

Definition set_session_cookie (token : pystr) : cookie := SetCookie token SESSION_ABSOLUTE_SECONDS.
Definition clear_session_cookie : cookie := DeleteCookie.

(** ** Request bodies: pydantic's bounds, [HTTPException 422] outside them *)
Definition optional_length (lo hi : nat) (value : option pystr) : bool :=
  match value with Some v => field_length lo hi v | None => true end.

Record RegistrationChallengeRequest := {
  rr_bootstrap_token : pystr;
  rr_public_key_spki : option pystr;
  rr_public_key : option pystr;
  rr_label : pystr;
  rr_device_id : option UUID }.
Definition valid_registration_challenge (p : RegistrationChallengeRequest) : bool :=
  field_length 1 512 (rr_bootstrap_token p) && optional_length 1 4096 (rr_public_key_spki p) &&
  optional_length 1 4096 (rr_public_key p) && field_length 1 MAX_DEVICE_LABEL_LENGTH (rr_label p).

Record RegistrationCompleteRequest := { rq_challenge_id : UUID; rq_signature : pystr }.
Definition valid_registration_complete (p : RegistrationCompleteRequest) : bool :=
  field_length 1 1024 (rq_signature p).

Record DeviceLinkingChallengeRequest := {
  lq_otp : option pystr;
  lq_linking_otp : option pystr;
  lq_public_key_spki : option pystr;
  lq_public_key : option pystr;
  lq_label : pystr;
  lq_device_id : option UUID }.
Definition valid_linking_challenge (p : DeviceLinkingChallengeRequest) : bool :=
  optional_length 1 64 (lq_otp p) && optional_length 1 64 (lq_linking_otp p) &&
  optional_length 1 4096 (lq_public_key_spki p) && optional_length 1 4096 (lq_public_key p) &&
  field_length 1 MAX_DEVICE_LABEL_LENGTH (lq_label p).

Record DeviceChallengeCompleteRequest := {
  cq_account_id : UUID;
  cq_challenge_id : UUID;
  cq_nonce : pystr;
  cq_signature : pystr }.
Definition valid_challenge_complete (p : DeviceChallengeCompleteRequest) : bool :=
  field_length 1 128 (cq_nonce p) && field_length 1 1024 (cq_signature p).

(** [a or b or ""]; the bounds make a present value non-empty. *)
Definition either (a b : option pystr) : pystr :=
  match a with Some v => v | None => default [] b end.

Definition _decode_signature (value : pystr) : outcome bytes := decode_base64url value 512.
Definition _decode_key (value : pystr) : outcome bytes := decode_base64url value 1024.

(** [_origin]: a request without the header is refused. *)
Definition _origin (hs : headers) : outcome pystr :=
  match header "origin" hs with Some o => Ok o | None => Raise (HTTPException 403) end.

Section routes.
Context {S : Type} `{AccountStore S} `{DeviceStore S} `{ChallengeStore S} `{LinkingOtpStore S}
  `{SecurityEventStore S} `{SessionRepositoryPort S} `{LimiterStore S} `{Cryptography} `{UnicodeDatabase}
  (cfg : DeviceAuthConfig) (app_origin : pystr).
Implicit Types (hs : headers) (d : Draws) (db_now : nat → timestamp).

(** [except (DeviceAuthError, DeviceCryptoError, ValueError)] *)
Definition refused_as {A} (status : Z) (m : M (DeviceWorld S) A) : M (DeviceWorld S) A :=
  try_except m is_value_error (λ _, raise (HTTPException status)).

(** The same after [except DeviceLinkingRateLimited]. *)
Definition limited_or {A} (status : Z) (m : M (DeviceWorld S) A) : M (DeviceWorld S) A :=
  try_except m is_value_error
    (λ e, raise (HTTPException (if decide (e = DeviceLinkingRateLimited) then 429 else status))).

(** [require_exact_origin], then the validated body. *)
Definition admitted_body {A} hs (valid : bool) (m : M (DeviceWorld S) A) : M (DeviceWorld S) A :=
  do! lift (require_exact_origin app_origin hs) in
  if negb valid then raise (HTTPException 422) else m.

Definition registration_challenge hs (now : nat → timestamp) d (payload : RegistrationChallengeRequest) :
    M (DeviceWorld S) pyvalue :=
  admitted_body hs (valid_registration_challenge payload) (
    let! challenge := refused_as 400 (
      let! key := lift (_decode_key (either (rr_public_key_spki payload) (rr_public_key payload))) in
      let! origin := lift (_origin hs) in
      issue_registration_challenge cfg now d (rr_bootstrap_token payload) key (rr_label payload) origin
        (rr_device_id payload)) in
    lift (_challenge_response challenge)).

(** [complete_registration] and [complete_linking], the body and the cookie. *)
Definition complete_enrollment hs (now : timestamp) db_now d (payload : RegistrationCompleteRequest) :
    M (DeviceWorld S) (pyvalue * cookie) :=
  admitted_body hs (valid_registration_complete payload) (
    let! result := refused_as 401 (
      let! signature := lift (_decode_signature (rq_signature payload)) in
      let! origin := lift (_origin hs) in
      complete_registration cfg now db_now d (rq_challenge_id payload) signature origin) in
    ret (public_auth_result result, set_session_cookie (ss_token (cs_secrets (dr_session result))))).
Definition complete_registration_route := complete_enrollment.
Definition complete_linking := complete_enrollment.

(** The session has passed [require_session_csrf]. *)
Definition create_linking_otp (now : timestamp) db_now (number : Z) (otp_id_ event_id : UUID)
    (session : SessionRecord) (host : option pystr) : M (DeviceWorld S) pyvalue :=
  let! result := limited_or 403 (issue_linking_otp cfg now db_now number otp_id_ event_id (ses_user_id session)
                                   (ses_device_id session) (_network_identifier host)) in
  ret (VDict [("message", v_str (u "A device-linking code was created.")); ("otp", v_str (lo_code result));
              ("expires_at", VTime (otp_expires_at (lo_record result)))]).

Definition linking_challenge hs (now db_now : timestamp) d (host : option pystr)
    (payload : DeviceLinkingChallengeRequest) : M (DeviceWorld S) pyvalue :=
  admitted_body hs (valid_linking_challenge payload) (
    let! challenge := limited_or 401 (
      let! key := lift (_decode_key (either (lq_public_key_spki payload) (lq_public_key payload))) in
      let! origin := lift (_origin hs) in
      issue_linking_challenge cfg now db_now d (either (lq_otp payload) (lq_linking_otp payload)) key
        (lq_label payload) origin (lq_device_id payload) (_network_identifier host)) in
    lift (_challenge_response challenge)).

Definition issue_login_challenge_route hs (now db_now : timestamp) d (account_id device_id : UUID) :
    M (DeviceWorld S) pyvalue :=
  admitted_body hs true (
    let! challenge := refused_as 401 (
      let! origin := lift (_origin hs) in
      issue_login_challenge now db_now d account_id device_id origin) in
    lift (_login_challenge_response challenge)).

Definition complete_login_challenge_route hs (current : timestamp) db_now d
    (payload : DeviceChallengeCompleteRequest) : M (DeviceWorld S) (pyvalue * cookie) :=
  admitted_body hs (valid_challenge_complete payload) (
    let! result := refused_as 401 (
      let! nonce := lift (decode_base64url (cq_nonce payload) 64) in
      let! signature := lift (_decode_signature (cq_signature payload)) in
      let! origin := lift (_origin hs) in
      complete_login_challenge current db_now d (cq_account_id payload) (cq_challenge_id payload) nonce
        signature origin) in
    ret (public_auth_result result, set_session_cookie (ss_token (cs_secrets (dr_session result))))).

Definition list_devices hs (session : SessionRecord) : M (DeviceWorld S) pyvalue :=
  do! lift (check_optional_origin app_origin hs) in
  let! records := stores (devices_of (ses_user_id session)) in
  ret (VDict [("devices", VList (map public_device records))]).

Definition rename_device_route (session : SessionRecord) (device_id : UUID) (label : pystr) :
    M (DeviceWorld S) pyvalue :=
  if negb (field_length 1 MAX_DEVICE_LABEL_LENGTH label) then raise (HTTPException 422)
  else
    let! device := refused_as 400 (
      let! normalized := lift (normalize_device_label label) in
      stores (rename_device (ses_user_id session) device_id normalized)) in
    match device with
    | None => raise (HTTPException 404)
    | Some device => ret (VDict [("device", public_device device)])
    end.
End routes.

(** ** Logout: the device, its sessions and its socket *)
Section logout.
Context {T : Type} `{TransferRepository T} `{PresencePorts T} `{DeviceStore T} `{SessionRepositoryPort T}
  (pcfg : PresenceConfig).

(** [presence] says the application has a presence manager. *)
Definition disconnect (presence : bool) (c : clock) (account_id device_id : UUID) : M (World T) unit :=
  if presence then disconnect_device pcfg c account_id device_id else ret tt.

(** [DELETE /auth/devices/{device_id}] *)
Definition logout_device_route (presence : bool) (c : clock) (db_now : timestamp) (session : SessionRecord)
    (device_id : UUID) : M (World T) (pyvalue * option cookie) :=
  let! device := on_store (logout_device db_now (ses_user_id session) device_id "logout") in
  match device with
  | None => raise (HTTPException 404)
  | Some device =>
      do! disconnect presence c (ses_user_id session) device_id in
      ret (VDict [("device", public_device device); ("logged_out", VJson (JBool true))],
           if bool_decide (device_id = ses_device_id session) then Some clear_session_cookie else None)
  end.

(** [POST /auth/logout] *)
Definition logout (presence : bool) (c : clock) (db_now : nat → timestamp) (session : SessionRecord) :
    M (World T) (pyvalue * cookie) :=
  let! logged_out := on_store (logout_device (db_now 0%nat) (ses_user_id session) (ses_device_id session) "logout") in
  do! (if is_null logged_out
       then do! on_store (revoke_session (db_now 1%nat) (ses_user_id session) (ses_id session) "logout") in ret tt
       else ret tt) in
  do! disconnect presence c (ses_user_id session) (ses_device_id session) in
  ret (VDict [("message", v_str (u "Logged out.")); ("logged_out", VJson (JBool true))], clear_session_cookie).
End logout.

(** [GET /auth/session] and [GET /auth/sessions] *)
Definition current_session_body (csrf_secret : pystr) (updated : SessionRecord) : pyvalue :=
  match public_session updated with
  | VDict public =>
      VDict (public ++ [("authenticated", VJson (JBool true)); ("account_id", v_uuid (ses_user_id updated));
                        ("account_device_epoch", VJson (JInt (ses_epoch updated)));
                        ("csrf_token", v_str csrf_secret); ("session", VDict public)])
  | v => v
  end.

Definition list_sessions {R} (list_for_account : UUID → R → list SessionRecord) (app_origin : pystr)
    (hs : headers) (session : SessionRecord) : M R pyvalue :=
  do! lift (check_optional_origin app_origin hs) in
  let! records := gets (list_for_account (ses_user_id session)) in
  ret (VDict [("sessions", VList (map public_session records))]).

(** [SessionIssuer.issue_for_device] *)
Definition issue_for_device {R} `{SessionRepositoryPort R} (now : nat → timestamp) (new_id : UUID) (e : entropy)
    (account_id device_id : UUID) (epoch : Z) (with_response : bool) (created_at : timestamp) :
    M R (CreatedSession * option cookie) :=
  let! created := create_session now new_id e account_id device_id epoch created_at None in
  ret (created, if with_response then Some (set_session_cookie (ss_token (cs_secrets created))) else None).
