(* ===== verification/TransferRoutes.v ===== *)
(** * TransferRoutes: the HTTP routes of [transfers.py]

    The validated body of an offer, the statuses of errors and the response
    bodies. *)
From Stdlib.Strings Require Import Byte.
From S2P Require Import Prelude PyDict Json Models Hashing Security Signaling TransferPort Presence Socket TransferService DeviceRoutes.
From stdpp Require Import list strings.

(** ** Bodies *)
Definition public_transfer (record : TransferRequestRecord) : list (string * pyvalue) :=
  [("v", VJson (JInt (tr_protocol_version record))); ("transfer_id", v_uuid (tr_id record));
   ("sender_device_id", v_uuid (tr_sender_device_id record));
   ("recipient_device_id", v_uuid (tr_recipient_device_id record)); ("status", v_str (u (tr_status record)));
   ("created_at", VTime (tr_created_at record)); ("expires_at", VTime (tr_expires_at record))].

(** [{**public, "transfer": public, "status": record.status, action: True}];
    the second [status] takes the place of the first. *)
Definition _public_response (record : TransferRequestRecord) (action : string) : pyvalue :=
  let public := public_transfer record in
  VDict (public ++ [("transfer", VDict public); (action, VJson (JBool true))]).

Definition public_peer_device_key (device : DeviceRecord) : pyvalue :=
  VDict [("device_id", v_uuid (dev_id device));
         ("public_key_spki", v_str (encode_base64url (dev_signing_public_key_spki device)))].

(** [TransferCreateRequest], its fields' bounds, and [resolved_recipient]:
    exactly one recipient, however it is spelled. *)
Record TransferCreateRequest := {
  tq_recipient_device_id : option UUID;
  tq_recipient_id : option UUID;
  tq_device_id : option UUID;
  tq_protocol_version : Z;
  tq_v : option Z }.

Definition valid_transfer_create (p : TransferCreateRequest) : bool :=
  (1 <=? tq_protocol_version p)%Z && (tq_protocol_version p <=? 1)%Z &&
  match tq_v p with None => true | Some v => (1 <=? v)%Z && (v <=? 1)%Z end.

Definition resolved_recipient (p : TransferCreateRequest) : outcome UUID :=
  match remove_dups (omap id [tq_recipient_device_id p; tq_recipient_id p; tq_device_id p]) with
  | [value] =>
      match tq_v p with
      | Some v => if bool_decide (v ≠ tq_protocol_version p) then Raise ValueError else Ok value
      | None => Ok value
      end
  | _ => Raise ValueError
  end.

(** ** Routes

    The session's account, device and epoch come from authentication. *)
Section service.
Context {T : Type} `{TransferRepository T} `{PresencePorts T} (cfg : TransferServiceConfig).
Implicit Types (c : clock) (account_id transfer_id : UUID).

(** [except (TransferError, RuntimeError, TypeError, ValueError)] *)
Definition is_handled (e : exn) : bool :=
  is_transfer_error e || is_runtime_error e || bool_decide (e = TypeError) || is_value_error e.

Definition create_transfer_offer c at_ (new_id : UUID) (payload : TransferCreateRequest) (session : SessionRecord) :
    M (World T) pyvalue :=
  if negb (valid_transfer_create payload) then raise (HTTPException 422)
  else
    let! record := try_except
      (let! recipient_device_id := lift (resolved_recipient payload) in
       create_offer cfg c at_ new_id (ses_user_id session) (ses_device_id session) recipient_device_id
         (tq_protocol_version payload))
      is_handled
      (λ e, raise (HTTPException (if decide (e = TransferCapacityError) then 429 else 400))) in
    ret (_public_response record "offered").

Definition unavailable (action : string) (m : M (World T) TransferRequestRecord) : M (World T) pyvalue :=
  let! record := try_except m is_handled (λ _, raise (HTTPException 409)) in ret (_public_response record action).

Definition accept_transfer c at_ transfer_id (session : SessionRecord) :=
  unavailable "accepted" (accept_offer cfg c at_ (ses_user_id session) transfer_id (ses_device_id session)).
Definition reject_transfer c at_ transfer_id (session : SessionRecord) :=
  unavailable "rejected" (reject_offer cfg c at_ (ses_user_id session) transfer_id (ses_device_id session)).
Definition cancel_transfer_route c at_ transfer_id (session : SessionRecord) :=
  unavailable "cancelled" (cancel_transfer cfg c at_ (ses_user_id session) transfer_id (ses_device_id session)).
Definition expire_transfer c at_ transfer_id (session : SessionRecord) :=
  unavailable "expired" (expire_stale cfg c at_ (ses_user_id session) transfer_id).

(** The reads answer 409 for a [TransferError] only, and check a supplied
    Origin first. *)
Definition list_transfers (app_origin : pystr) (hs : headers) (cs : nat → clock * readings)
    (session : SessionRecord) : M (World T) pyvalue :=
  do! lift (check_optional_origin app_origin hs) in
  let! records := list_transfers_for cfg cs (ses_user_id session) in
  ret (VDict [("transfers", VList (map (λ r, VDict (public_transfer r)) records))]).

Definition get_transfer (app_origin : pystr) (hs : headers) c at_ transfer_id (session : SessionRecord) :
    M (World T) pyvalue :=
  do! lift (check_optional_origin app_origin hs) in
  let! record := try_except (get cfg c at_ (ses_user_id session) transfer_id) is_transfer_error
    (λ _, raise (HTTPException 409)) in
  ret (VDict (public_transfer record)).

Definition get_transfer_peer_key (app_origin : pystr) (hs : headers) c at_ transfer_id
    (session : SessionRecord) : M (World T) pyvalue :=
  do! lift (check_optional_origin app_origin hs) in
  let! device := try_except
    (get_peer_device_key cfg c at_ (ses_user_id session) transfer_id (ses_device_id session)
       (Some (ses_epoch session)))
    is_transfer_error (λ _, raise (HTTPException 409)) in
  ret (public_peer_device_key device).
End service.

(** The routes of a state change answer, or refuse with a status of 4xx. *)
Lemma unavailable_answers {T} action (m : M (World T) TransferRequestRecord) w e w' :
  unavailable action m w = (Raise e, w') → e = HTTPException 409 ∨ is_handled e = false.
Proof.
  unfold unavailable, bind, try_except. destruct (m w) as [[r|e'] w1]; [done|].
  destruct (is_handled e') eqn:He; simpl; intros [= <- _]; auto.
Qed.

Example resolved_twice v :
  resolved_recipient {| tq_recipient_device_id := Some 7%N; tq_recipient_id := None; tq_device_id := Some 7%N;
    tq_protocol_version := 1; tq_v := v |} = match v with Some 1%Z | None => Ok 7%N | _ => Raise ValueError end.
Proof. destruct v as [[|[]|]|]; reflexivity. Qed.
