(* ===== verification/Adapters.v ===== *)
(** * Adapters: [app/adapters.py]

    The provider boundary: Supabase Auth and Cloudflare TURN over an HTTP
    client, the disabled and the deterministic adapters, and the factories. *)
From Stdlib.Strings Require Import Byte.
From S2P Require Import Prelude PyDict Json Calendar Models Hashing DeviceCrypto Auth.
From stdpp Require Import list strings.

(** ** The HTTP client (httpx)

    A request fails, or answers a status and a body, [None] when the body is
    not JSON. *)
Inductive http_result :=
| HttpFailed
| HttpResponse (status : Z) (body : option json).

Class HttpClient (S : Type) := {
  http_post : pystr → list (string * pystr) → json → M S http_result }.

(** [value[key]] of a decoded body: [None] stands for the [KeyError] or
    [TypeError] of a missing key or of another type. *)
Definition subscript (key : string) (value : json) : option json :=
  match value with JObj ms => dict_get (u key) ms | _ => None end.

(** ** [SupabaseAuthGateway] *)
Record SupabaseAuthGateway := { sg_url : pystr; sg_publishable_key : pystr }.

(** [url.rstrip("/")] *)
Definition supabase_auth_gateway (url publishable_key : pystr) : SupabaseAuthGateway :=
  {| sg_url := rev (drop_while (λ c, c =? 47)%N (rev url)); sg_publishable_key := publishable_key |}.

Module Supabase.
Section gateway.
Context {S : Type} `{HttpClient S} (g : SupabaseAuthGateway).

(** The answer's body, [json()] of it. *)
Definition _post (path : pystr) (payload : json) (invalid_is_otp : bool) : M S (option json) :=
  let! response := http_post (sg_url g ++ path) [("Accept", u "application/json"); ("apikey", sg_publishable_key g)]
                     payload in
  match response with
  | HttpFailed => raise AuthGatewayUnavailableError
  | HttpResponse status body =>
      if ((200 <=? status) && (status <? 300))%Z then ret body
      else if invalid_is_otp && ((400 <=? status) && (status <? 500))%Z then raise InvalidOtpError
      else raise AuthGatewayUnavailableError
  end.

Definition start_otp (email : pystr) : M S unit :=
  do! _post (u "/auth/v1/otp") (JObj [(u "email", JStr email); (u "create_user", JBool true)]) false in ret tt.

Definition verify_otp (email otp : pystr) : M S AuthIdentity :=
  let! body := _post (u "/auth/v1/verify")
    (JObj [(u "email", JStr email); (u "token", JStr otp); (u "type", JStr (u "email"))]) true in
  match body ≫= subscript "user" with
  | Some user =>
      match subscript "id" user, subscript "email" user with
      | Some (JStr user_id), Some (JStr user_email) => ret {| ai_user_id := user_id; ai_email := user_email |}
      | _, _ => raise AuthGatewayUnavailableError
      end
  | None => raise AuthGatewayUnavailableError
  end.
End gateway.
End Supabase.

Definition supabase_gateway {S} `{HttpClient S} (g : SupabaseAuthGateway) : AuthGateway S := {|
  gateway_start_otp := Supabase.start_otp g;
  gateway_verify_otp := Supabase.verify_otp g |}.

(** ** [FakeAuthGateway] *)
Record FakeAuthGateway := { fg_otps : dict pystr pystr; fg_requested_emails : list pystr }.

Definition _require_test_environment (app_env : string) : outcome unit :=
  if bool_decide (app_env ≠ "test") then Raise ConfigurationError else Ok tt.

Module Fake.
Definition new (app_env : string) : outcome FakeAuthGateway :=
  match _require_test_environment app_env with
  | Raise e => Raise e
  | Ok _ => Ok {| fg_otps := []; fg_requested_emails := [] |}
  end.

Definition _deterministic_otp (email : pystr) : outcome pystr :=
  match encode_utf8 (u "otp:" ++ email) with
  | Raise e => Raise e
  | Ok m => Ok (digits 6 (Z.of_N (from_bytes (take 4 (sha256 m))) mod 1000000))
  end.

Definition _deterministic_user_id (email : pystr) : outcome pystr :=
  match encode_utf8 (u "user:" ++ email) with
  | Raise e => Raise e
  | Ok m => Ok (take 32 (hex_of (sha256 m)))
  end.

Definition otp_for (email : pystr) (s : FakeAuthGateway) : outcome pystr :=
  match dict_get email (fg_otps s) with Some otp => Ok otp | None => Raise InvalidOtpError end.

Definition start_otp (email : pystr) : M FakeAuthGateway unit :=
  let! otp := lift (_deterministic_otp email) in
  modify (λ s, {| fg_otps := dict_set email otp (fg_otps s);
                  fg_requested_emails := fg_requested_emails s ++ [email] |}).

(** [hmac.compare_digest] takes ASCII texts only. *)
Definition compare_digest (a b : pystr) : outcome bool :=
  if forallb (λ c, c <? 128)%N a && forallb (λ c, c <? 128)%N b then Ok (bool_decide (a = b)) else Raise TypeError.

Definition verify_otp (email otp : pystr) : M FakeAuthGateway AuthIdentity :=
  let! expected := gets (λ s, dict_get email (fg_otps s)) in
  match expected with
  | None => raise InvalidOtpError
  | Some expected =>
      let! same := lift (compare_digest expected otp) in
      if negb same then raise InvalidOtpError
      else
        do! modify (λ s, {| fg_otps := dict_del email (fg_otps s);
                            fg_requested_emails := fg_requested_emails s |}) in
        let! user_id := lift (_deterministic_user_id email) in
        ret {| ai_user_id := user_id; ai_email := email |}
  end.
End Fake.

#[export] Instance fake_gateway : AuthGateway FakeAuthGateway := {
  gateway_start_otp := Fake.start_otp;
  gateway_verify_otp := Fake.verify_otp }.

(** ** TURN credentials *)
Record TurnCredentialRequest := {
  tq_account_id : pystr;
  tq_device_id : pystr;
  tq_transfer_id : pystr;
  tq_ttl_seconds : Z }.

Record TurnCredentials := {
  tc_urls : list pystr;
  tc_username : pystr;
  tc_credential : pystr;
  tc_expires_at : Z }.

Class TurnCredentialProvider (S : Type) := {
  issue_credentials : TurnCredentialRequest → M S TurnCredentials }.

(** [DisabledTurnCredentialProvider] *)
Definition disabled_issue {S} (request : TurnCredentialRequest) : M S TurnCredentials :=
  raise TurnCredentialProviderError.

Definition _CLOUDFLARE_MAX_TTL_SECONDS : Z := 48 * 60 * 60.

(** The part of a URL [urlsplit] reads as its authority, validated by the
    standard library. *)
Class UrlLibrary := { netloc_ok : pystr → bool }.

Section cloudflare.
Context `{UnicodeDatabase} `{UrlLibrary}.

Definition _required_turn_text (value : pystr) : outcome pystr :=
  let normalized := Auth.strip value in
  if bool_decide (normalized = []) then Raise ConfigurationError
  else if existsb (λ c, (c <? 32) || (c =? 127))%N normalized then Raise ConfigurationError
  else Ok normalized.

Definition _turn_scope_identifier (request : TurnCredentialRequest) : outcome pystr :=
  match encode_utf8 (u "turn:" ++ tq_account_id request ++ [0%N] ++ tq_device_id request ++ [0%N] ++
                     tq_transfer_id request) with
  | Raise e => Raise e
  | Ok m => Ok (hex_of (sha256 m))
  end.

Definition _validate_turn_request (request : TurnCredentialRequest) : outcome unit :=
  if existsb (λ v, bool_decide (Auth.strip v = []))
       [tq_account_id request; tq_device_id request; tq_transfer_id request] then Raise ValueError
  else if (tq_ttl_seconds request <=? 0)%Z then Raise ValueError
  else if (_CLOUDFLARE_MAX_TTL_SECONDS <? tq_ttl_seconds request)%Z then Raise ValueError
  else Ok tt.

(** [urlsplit(url).scheme]: leading controls and spaces and every tab and
    line break are dropped. *)
Definition is_alpha (c : N) : bool := ((65 <=? c) && (c <=? 90) || (97 <=? c) && (c <=? 122))%N.
Definition scheme_char (c : N) : bool :=
  (is_alpha c || (48 <=? c) && (c <=? 57) || (c =? 43) || (c =? 45) || (c =? 46))%N.
Definition lower (c : N) : N := if ((65 <=? c) && (c <=? 90))%N then (c + 32)%N else c.

Fixpoint before_colon (s : pystr) : option (pystr * pystr) :=
  match s with
  | [] => None
  | c :: s' => if (c =? 58)%N then Some ([], s')
               else match before_colon s' with Some (a, b) => Some (c :: a, b) | None => None end
  end.

Fixpoint take_netloc (s : pystr) : pystr :=
  match s with
  | c :: s' => if ((c =? 47) || (c =? 63) || (c =? 35))%N then [] else c :: take_netloc s'
  | [] => []
  end.

Definition url_scheme (url : pystr) : outcome pystr :=
  let url := List.filter (λ c, negb ((c =? 9) || (c =? 10) || (c =? 13))%N) (drop_while (λ c, c <=? 32)%N url) in
  let '(scheme, rest) :=
    match before_colon url with
    | Some ((c :: _) as name, rest) =>
        if is_alpha c && forallb scheme_char name then (map lower name, rest) else ([], url)
    | _ => ([], url)
    end in
  match rest with
  | 47%N :: 47%N :: rest' => if netloc_ok (take_netloc rest') then Ok scheme else Raise ValueError
  | _ => Ok scheme
  end.

Definition json_strings (l : list json) : option (list pystr) :=
  mapM (λ j, match j with JStr s => Some s | _ => None end) l.

(** [_ice_urls]: every refusal is a [TurnCredentialProviderError]. *)
Definition ice_url_ok (url : pystr) : bool :=
  negb (bool_decide (Auth.strip url = [])) &&
  match url_scheme url with
  | Ok scheme => bool_decide (scheme ∈ map u ["stun"; "turn"; "turns"])
  | Raise _ => false
  end.

Definition _ice_urls (value : option json) : outcome (list pystr) :=
  match match value with
        | Some (JStr url) => Some [url]
        | Some (JList l) => json_strings l
        | _ => None
        end with
  | None | Some [] => Raise TurnCredentialProviderError
  | Some urls => if forallb ice_url_ok urls then Ok urls else Raise TurnCredentialProviderError
  end.

Definition is_turn_url (url : pystr) : bool :=
  match url_scheme url with
  | Ok scheme => bool_decide (scheme ∈ map u ["turn"; "turns"])
  | Raise _ => false
  end.

(** The loop of [_parse_cloudflare_credentials]: the URLs so far without
    repetition, whether one is a relay, and the credentials found. *)
Definition add_urls (urls new : list pystr) : list pystr :=
  fold_left (λ urls url, if bool_decide (url ∈ urls) then urls else urls ++ [url]) new urls.

Definition truthy_str (j : option json) : option pystr :=
  match j with Some (JStr ((_ :: _) as s)) => Some s | _ => None end.

Definition is_none (j : option json) : bool := match j with None | Some JNull => true | _ => false end.

Definition agrees (known : option pystr) (new : pystr) : bool :=
  match known with Some k => bool_decide (k = new) | None => true end.

Fixpoint parse_servers (servers : list json) (urls : list pystr) (has_turn_url : bool)
    (username credential : option pystr) : outcome (list pystr * bool * option pystr * option pystr) :=
  match servers with
  | [] => Ok (urls, has_turn_url, username, credential)
  | JObj server :: servers' =>
      match _ice_urls (dict_get (u "urls") server) with
      | Raise e => Raise e
      | Ok server_urls =>
          let urls := add_urls urls server_urls in
          let has_turn_url := has_turn_url || existsb is_turn_url server_urls in
          let raw_username := dict_get (u "username") server in
          let raw_credential := dict_get (u "credential") server in
          if is_none raw_username && is_none raw_credential
          then parse_servers servers' urls has_turn_url username credential
          else
            match truthy_str raw_username, truthy_str raw_credential with
            | Some name, Some secret =>
                if agrees username name && agrees credential secret
                then parse_servers servers' urls has_turn_url (Some name) (Some secret)
                else Raise TurnCredentialProviderError
            | _, _ => Raise TurnCredentialProviderError
            end
      end
  | _ :: _ => Raise TurnCredentialProviderError
  end.

Definition _parse_cloudflare_credentials (payload : json) : outcome (list pystr * pystr * pystr) :=
  match subscript "iceServers" payload with
  | Some (JList ((_ :: _) as servers)) =>
      match parse_servers servers [] false None None with
      | Raise e => Raise e
      | Ok ((_ :: _) as urls, true, Some username, Some credential) => Ok (urls, username, credential)
      | Ok _ => Raise TurnCredentialProviderError
      end
  | _ => Raise TurnCredentialProviderError
  end.

(** [quote(text, safe="")] *)
Definition unreserved (n : N) : bool :=
  (is_alpha n || (48 <=? n) && (n <=? 57) || (n =? 95) || (n =? 46) || (n =? 45) || (n =? 126))%N.
Definition upper_hex (n : N) : N := (if n <? 10 then 48 + n else 55 + n)%N.
Definition quote (text : pystr) : outcome pystr :=
  match utf8 text with
  | Raise e => Raise e
  | Ok l => Ok (concat (map (λ n, if unreserved n then [n]
                                  else [37%N; upper_hex (n / 16); upper_hex (n mod 16)]%N) l))
  end.

Record CloudflareTurnCredentialProvider := { cf_turn_key_id : pystr; cf_api_token : pystr }.

(** [timeout_ok]: the timeout is a positive finite float. *)
Definition cloudflare_provider (turn_key_id api_token : pystr) (timeout_ok : bool) :
    outcome CloudflareTurnCredentialProvider :=
  match _required_turn_text turn_key_id, _required_turn_text api_token with
  | Ok key_id, Ok token =>
      if negb timeout_ok then Raise ConfigurationError
      else Ok {| cf_turn_key_id := key_id; cf_api_token := token |}
  | Raise e, _ | _, Raise e => Raise e
  end.

(** [clock_ms] is [int(self._clock() * 1_000)]. *)
Definition cloudflare_issue {S} `{HttpClient S} (p : CloudflareTurnCredentialProvider) (clock_ms : Z)
    (request : TurnCredentialRequest) : M S TurnCredentials :=
  do! lift (_validate_turn_request request) in
  let! key_id := lift (quote (cf_turn_key_id p)) in
  let! identifier := lift (_turn_scope_identifier request) in
  let! response := http_post
    (u "https://rtc.live.cloudflare.com/v1/turn/keys/" ++ key_id ++ u "/credentials/generate-ice-servers")
    [("Accept", u "application/json"); ("Authorization", u "Bearer " ++ cf_api_token p);
     ("Content-Type", u "application/json")]
    (JObj [(u "ttl", JInt (tq_ttl_seconds request)); (u "customIdentifier", JStr identifier)]) in
  match response with
  | HttpFailed => raise TurnCredentialProviderError
  | HttpResponse status body =>
      if negb ((200 <=? status) && (status <? 300))%Z then raise TurnCredentialProviderError
      else match body with
           | None => raise TurnCredentialProviderError
           | Some payload =>
               let! parsed := lift (_parse_cloudflare_credentials payload) in
               let '(urls, username, credential) := parsed in
               ret {| tc_urls := urls; tc_username := username; tc_credential := credential;
                      tc_expires_at := clock_ms + tq_ttl_seconds request * 1000 |}
           end
  end.
End cloudflare.

(** ** [FakeTurnCredentialProvider] *)
Definition _FAKE_EPOCH_MS : Z := 1700000000000.
Definition _FAKE_TURN_URLS : list pystr := [u "stun:turn.test.invalid"; u "turn:turn.test.invalid?transport=udp"].

Definition fake_turn_provider (app_env : string) : outcome (list TurnCredentialRequest) :=
  match _require_test_environment app_env with Ok _ => Ok [] | Raise e => Raise e end.

Definition fake_issue (request : TurnCredentialRequest) : M (list TurnCredentialRequest) TurnCredentials :=
  if (tq_ttl_seconds request <=? 0)%Z then raise ValueError
  else
    do! modify (λ s, s ++ [request]) in
    let! scope := lift (encode_utf8 (u "turn:" ++ tq_account_id request ++ u ":" ++ tq_device_id request ++ u ":" ++
                                     tq_transfer_id request)) in
    let digest := hex_of (sha256 scope) in
    ret {| tc_urls := _FAKE_TURN_URLS; tc_username := u "test-" ++ take 16 digest;
           tc_credential := take 32 (drop 16 digest);
           tc_expires_at := _FAKE_EPOCH_MS + tq_ttl_seconds request * 1000 |}.

#[export] Instance fake_turn : TurnCredentialProvider (list TurnCredentialRequest) := {
  issue_credentials := fake_issue }.

(** ** Factories *)
Inductive auth_adapter :=
| UseFakeAuth (g : FakeAuthGateway)
| UseSupabase (g : SupabaseAuthGateway).

(** An empty setting counts as missing. *)
Definition present (value : option pystr) : option pystr :=
  match value with Some [] => None | v => v end.

Definition create_auth_gateway (app_env adapter : string) (supabase_url supabase_publishable_key : option pystr) :
    outcome auth_adapter :=
  if bool_decide (adapter = "fake") then
    match Fake.new app_env with Ok g => Ok (UseFakeAuth g) | Raise e => Raise e end
  else
    match bool_decide (adapter = "supabase"), present supabase_url, present supabase_publishable_key with
    | true, Some url, Some key => Ok (UseSupabase (supabase_auth_gateway url key))
    | _, _, _ => Raise ConfigurationError
    end.

Inductive turn_adapter :=
| UseFakeTurn
| UseDisabledTurn
| UseCloudflare (p : CloudflareTurnCredentialProvider).

Definition create_turn_credential_provider `{UnicodeDatabase} (app_env adapter : string)
    (turn_key_id api_token : option pystr) : outcome turn_adapter :=
  if bool_decide (adapter = "fake") then
    match fake_turn_provider app_env with Ok _ => Ok UseFakeTurn | Raise e => Raise e end
  else if bool_decide (adapter = "disabled") then Ok UseDisabledTurn
  else if bool_decide (adapter = "cloudflare") then
    match turn_key_id, api_token with
    | Some key_id, Some token =>
        match cloudflare_provider key_id token true with Ok p => Ok (UseCloudflare p) | Raise e => Raise e end
    | _, _ => Raise ConfigurationError
    end
  else Raise ConfigurationError.
