(* ===== verification/Turn.v ===== *)
(** * Turn: [app/turn.py]

    Who may be issued TURN credentials for a transfer, at what rate, and the
    route. *)
From S2P Require Import Prelude PyDict Json Models TransferPort Signaling Presence Socket Security RateLimits.
From S2P Require Import TransferService Auth Adapters DeviceRoutes.
From stdpp Require Import list strings.

Definition TURN_CREDENTIAL_TTL_SECONDS : Z := 5 * 60.
Definition TURN_CREDENTIAL_ISSUE_WINDOW : timedelta := minutes 10.
Definition TURN_CREDENTIAL_ACCOUNT_LIMIT : Z := 20.
Definition TURN_CREDENTIAL_DEVICE_LIMIT : Z := 10.
Definition TURN_CREDENTIAL_TRANSFER_LIMIT : Z := 6.
Definition TURN_CREDENTIAL_NETWORK_LIMIT : Z := 30.
Definition TURN_CREDENTIAL_ELIGIBLE_STATUSES : list string := TRANSFER_ACTIVE_STATUSES.

(** [normalized[:256] or "unknown"] *)
Definition _network_identifier `{UnicodeDatabase} (value : pystr) : pystr :=
  match take 256 (Auth.strip value) with [] => u "unknown" | s => s end.

Definition _transfer_is_eligible (transfer : TransferRequestRecord) (current : timestamp) (device_id : UUID) : bool :=
  status_in transfer TURN_CREDENTIAL_ELIGIBLE_STATUSES && (current <? tr_expires_at transfer)%Z &&
  bool_decide (device_id ∈ [tr_sender_device_id transfer; tr_recipient_device_id transfer]).

Definition _device_is_eligible (device : option DeviceRecord) (session : SessionRecord) : bool :=
  match device with
  | Some d =>
      bool_decide (dev_user_id d = ses_user_id session) && bool_decide (dev_id d = ses_device_id session) &&
      bool_decide (dev_status d = "active") && bool_decide (dev_epoch d = ses_epoch session)
  | None => false
  end.

Definition _peer_is_eligible (peer actor : option DeviceRecord) : bool :=
  match peer, actor with
  | Some p, Some a =>
      bool_decide (dev_user_id p = dev_user_id a) && bool_decide (dev_status p = "active") &&
      bool_decide (dev_epoch p = dev_epoch a)
  | _, _ => false
  end.

Section service.
Context {T : Type} `{TransferRepository T} `{PresencePorts T} `{LimiterStore T} `{TurnCredentialProvider T}
  `{UnicodeDatabase} (cfg : TransferServiceConfig).
Implicit Types (c : clock) (session : SessionRecord).

Definition denied {A} : M (World T) A :=
  do! on_presence (modify (increment "turn_credential_denied" 1)) in raise TurnAuthorizationError.

Definition issue_buckets session (transfer : TransferRequestRecord) (network_identifier : pystr) : list request :=
  [("turn:credential:account", uuid_str (ses_user_id session), TURN_CREDENTIAL_ACCOUNT_LIMIT, TURN_CREDENTIAL_ISSUE_WINDOW);
   ("turn:credential:device", uuid_str (ses_device_id session), TURN_CREDENTIAL_DEVICE_LIMIT, TURN_CREDENTIAL_ISSUE_WINDOW);
   ("turn:credential:transfer", uuid_str (tr_id transfer), TURN_CREDENTIAL_TRANSFER_LIMIT, TURN_CREDENTIAL_ISSUE_WINDOW);
   ("turn:credential:network", _network_identifier network_identifier, TURN_CREDENTIAL_NETWORK_LIMIT,
    TURN_CREDENTIAL_ISSUE_WINDOW)].

Definition credential_request session (transfer : TransferRequestRecord) : TurnCredentialRequest :=
  {| tq_account_id := uuid_str (ses_user_id session); tq_device_id := uuid_str (ses_device_id session);
     tq_transfer_id := uuid_str (tr_id transfer); tq_ttl_seconds := TURN_CREDENTIAL_TTL_SECONDS |}.

(** [current] is the service's clock; [c] and [at_] are the transfer
    service's. *)
Definition issue (current : timestamp) c (at_ : readings) session (transfer_id : UUID) (network_identifier : pystr) :
    M (World T) TurnCredentials :=
  let! transfer := try_except (TransferService.get cfg c at_ (ses_user_id session) transfer_id) is_transfer_error
                     (λ _, denied) in
  if negb (_transfer_is_eligible transfer current (ses_device_id session)) then denied
  else
    let! actor := device_of (ses_user_id session) (ses_device_id session) in
    let peer_device_id := if decide (tr_sender_device_id transfer = ses_device_id session)
                          then tr_recipient_device_id transfer else tr_sender_device_id transfer in
    let! peer := device_of (ses_user_id session) peer_device_id in
    if negb (_device_is_eligible actor session) || negb (_peer_is_eligible peer actor) then denied
    else
      let! allowed := on_store (limit_many current (issue_buckets session transfer network_identifier)) in
      if negb allowed then
        do! on_presence (modify (increment "turn_credential_rate_limited" 1)) in
        raise TurnCredentialRateLimitedError
      else
        let! credentials := try_except (on_store (issue_credentials (credential_request session transfer)))
          (λ e, bool_decide (e = TurnCredentialProviderError))
          (λ _, do! on_presence (modify (increment "turn_provider_failed" 1)) in
                raise TurnProviderUnavailableError) in
        do! on_presence (modify (increment "turn_credential_issued" 1)) in
        ret credentials.

Definition public_turn_credentials (credentials : TurnCredentials) : pyvalue :=
  VDict [("ice_servers", VList [VDict [("urls", VList (map v_str (tc_urls credentials)));
                                       ("username", v_str (tc_username credentials));
                                       ("credential", v_str (tc_credential credentials))]]);
         ("expires_at", VJson (JInt (tc_expires_at credentials)))].

(** The status of an error of [issue]; any other goes on. *)
Definition turn_status (e : exn) : option Z :=
  match e with
  | TurnCredentialRateLimitedError => Some 429
  | TurnAuthorizationError => Some 409
  | TurnProviderUnavailableError => Some 503
  | _ => None
  end%Z.

Definition issue_turn_credentials (current : timestamp) c (at_ : readings) session (transfer_id : UUID)
    (host : option pystr) : M (World T) pyvalue :=
  let! credentials :=
    try_except (issue current c at_ session transfer_id (Auth._network_identifier host))
      (λ e, negb (is_null (turn_status e)))
      (λ e, raise (HTTPException (default 500%Z (turn_status e)))) in
  ret (public_turn_credentials credentials).
End service.
