(* ===== verification/Main.v ===== *)
(** * Main: [app/main.py], [app/operator_metrics.py], [app/availability]

    The production wiring of the services over the private database, the
    handler of provider failures, the operator's bearer token, and the health
    and availability probes. *)
From Stdlib.Strings Require Import Byte.
From S2P Require Import Prelude PyDict Json Models Sql Schema Hashing Security Sessions RateLimits.
From S2P Require Import TransferPort TransferRepository Presence Socket SocketInvariant TransferService.
From S2P Require Import Database.
From S2P Require Import Accounts Devices Challenges LinkingOtps Tickets Events Auth DeviceAuth DeviceRoutes.
From stdpp Require Import list strings.

(** ** [lifespan] outside the test environment

    Every store is a repository over one database. *)

(** [PersistentRateLimiter(RateLimitBucketRepository(database), secret)] *)
Definition persistent_limiter (rate_limit_secret : bytes) : LimiterStore Db := {|
  limit_many := RateLimits.Pg.allow_many rate_limit_secret;
  limiter_secret _ := rate_limit_secret |}.

(** The session and device repositories [PresenceManager] receives. *)
#[export] Instance pg_ports : PresencePorts Db := {|
  Socket.find_current_by_id at_ session_id :=
    gets (Sessions.Pg.find_current_by_id (at_clock (at_ 0%nat)) session_id);
  Socket.device_by_id account_id device_id db := (Devices.Pg.get_by_id account_id device_id db).1 |}.

#[export] Instance pg_ports_laws : PresencePortsLaws Db.
Proof. constructor. intros at_ i db. simpl. reflexivity. Qed.

Definition production_presence : PresenceConfig :=
  {| pc_heartbeat_timeout := PRESENCE_HEARTBEAT_TIMEOUT; pc_session_repository := true;
     pc_device_repository := true; pc_transfer_repository := true |}.

Definition production_transfers : TransferServiceConfig :=
  {| tc_presence_manager := true; tc_device_repository := true; tc_lifetime := TRANSFER_REQUEST_LIFETIME;
     tc_heartbeat_timeout := PRESENCE_HEARTBEAT_TIMEOUT |}.

Definition production_device_auth : DeviceAuthConfig :=
  {| dc_bootstrap_consumer := true; dc_bootstrap_peeker := true; dc_rate_limiter := true;
     dc_security_event_store := true |}.

(** ** Errors that reach the application

    [_backend_unavailable] answers 503 to a provider failure and counts it; the
    status of any other unhandled exception is the server's 500. *)
Definition BACKEND_UNAVAILABLE_MESSAGE : pystr := u "The secure transfer service is temporarily unavailable.".

Definition _backend_unavailable {T} : M (World T) (Z * pyvalue) :=
  do! on_presence (modify (increment "backend_unavailable" 1)) in
  ret (503%Z, VDict [("detail", v_str BACKEND_UNAVAILABLE_MESSAGE)]).

Definition answered {T} (route : M (World T) (Z * pyvalue)) : M (World T) (Z * pyvalue) :=
  try_except route (λ e, bool_decide (e ∈ [BackendUnavailableError; PostgresError; InterfaceError])) (λ _, _backend_unavailable).

(** ** [require_operator_auth] *)

(** [request.headers.getlist(name)] *)
Definition getlist (name : string) (hs : headers) : list pystr :=
  map snd (List.filter (λ h, bool_decide (h.1 = name)) hs).

(** [value.partition(" ")] *)
Fixpoint partition_space (value : pystr) : pystr * bool * pystr :=
  match value with
  | [] => ([], false, [])
  | c :: value' =>
      if (c =? 32)%N then ([], true, value')
      else let '(scheme, separator, token) := partition_space value' in (c :: scheme, separator, token)
  end.

Section operator.
Context `{UnicodeDatabase}.

Definition _supplied_bearer_token (hs : headers) : option pystr :=
  match getlist "authorization" hs with
  | [authorization] =>
      let '(scheme, separator, token) := partition_space authorization in
      if bool_decide (casefold scheme ≠ u "bearer") || negb separator || bool_decide (token = []) ||
         bool_decide (32%N ∈ token)
      then None else Some token
  | _ => None
  end.

(** [hmac.compare_digest] of the two encodings. *)
Definition _tokens_match (expected supplied : option pystr) : bool :=
  match expected, supplied with
  | Some expected, Some supplied =>
      match encode_utf8 expected, encode_utf8 supplied with
      | Ok a, Ok b => bool_decide (a = b)
      | _, _ => false
      end
  | _, _ => false
  end.

Definition require_operator_auth (operator_token : option pystr) (hs : headers) : outcome unit :=
  if _tokens_match operator_token (_supplied_bearer_token hs) then Ok tt else Raise (HTTPException 401).

(** [GET /internal/metrics] *)
Definition resource_metrics {T} (operator_token : option pystr) (hs : headers) : M (World T) (list (string * Z)) :=
  do! lift (require_operator_auth operator_token hs) in on_presence (gets resource_snapshot).
End operator.

(** ** The database's life and the probes

    [created] and [c] are what the driver makes of creating the pool and of
    [SELECT 1], the deadline of the probe included. *)
Section probes.
Context {T : Type}.

Definition is_backend_error (e : exn) : bool := bool_decide (e = BackendUnavailableError).

(** [lifespan], before its [yield] and after it *)
Definition startup (created : outcome N) : M (Database T) unit :=
  try_except (connect created) is_backend_error (λ _, ret tt).

Definition shutdown (closed : outcome unit) : M (Presence * Database T) unit :=
  do! zoom fst (λ p w, (p, w.2)) close_all in zoom snd (λ d w, (w.1, d)) (close closed).

(** [GET /health]; [configured] says the application has a database. *)
Definition health (configured : bool) (created : outcome N) : M (Database T) Z :=
  let! connected := gets is_connected in
  if configured && negb connected then
    try_except (do! connect created in ret 200%Z) is_backend_error (λ _, ret 503%Z)
  else ret 200%Z.

Definition _database_is_available (configured : bool) (created : outcome N) (c : course) : M (Database T) bool :=
  if negb configured then ret false
  else
    try_except (
      let! connected := gets is_connected in
      do! (if connected then ret tt else connect created) in
      do! fetch c (ret tt) in ret true)
      (λ _, true) (λ _, ret false).

(** [GET /availability/wake] *)
Definition wake : outcome Z := Ok 200%Z.

(** [GET /availability/readiness] and [GET /availability/probe] *)
Definition readiness (configured : bool) (created : outcome N) (c : course) : M (Database T) Z :=
  let! available := _database_is_available configured created c in
  ret (if available then 200%Z else 503%Z).

Definition probe `{UnicodeDatabase} (operator_token : option pystr) (hs : headers) (configured : bool)
    (created : outcome N) (c : course) : M (Database T) Z :=
  do! lift (require_operator_auth operator_token hs) in readiness configured created c.
End probes.
