(* ===== verification/Application.v ===== *)
(** * Application: the routes of [app/main.py] over one state

    What [lifespan] wires: the presence manager, the process's bootstrap and
    registration states, and the stores.  [serve_on] is the routes over any
    stores; [serve] over the repositories on one database, as outside the test
    environment ([TestEnvironment] has the other wiring).  A request runs its
    dependencies (the session and CSRF checks) and then its handler.  The
    providers' answers are part of the request, since neither reaches the
    stores. *)
From Stdlib.Strings Require Import Byte.
From S2P Require Import Prelude PyDict Json Models Schema Security Sessions TransferPort TransferRepository.
From S2P Require Import Signaling Presence Socket TransferService Accounts Devices Challenges LinkingOtps Tickets Events.
From S2P Require Import Auth DeviceCrypto DeviceAuth.
From S2P Require Import DeviceRoutes TransferRoutes Adapters Turn Main.
From stdpp Require Import list strings.

Record ApplicationOn (S : Type) := {
  ap_presence : Presence;
  ap_database : S;
  ap_bootstrap : BootstrapStateStore;
  ap_registrations : RegistrationChallengeStore }.
Arguments Build_ApplicationOn {S} _ _ _ _.
Arguments ap_presence {S} _.
Arguments ap_database {S} _.
Arguments ap_bootstrap {S} _.
Arguments ap_registrations {S} _.

Abbreviation Application := (ApplicationOn Db).
Abbreviation Build_Application := (@Build_ApplicationOn Db).

(** The parts of the state a service works on. *)
Section parts.
Context {S : Type}.

Definition on_database {A} : M S A → M (ApplicationOn S) A :=
  zoom ap_database (λ db a, Build_ApplicationOn (ap_presence a) db (ap_bootstrap a) (ap_registrations a)).
Definition in_world {A} : M (World S) A → M (ApplicationOn S) A :=
  zoom (λ a, Build_World (ap_presence a) (ap_database a))
    (λ w a, Build_ApplicationOn (w_presence w) (w_store w) (ap_bootstrap a) (ap_registrations a)).
Definition in_otp_service {A} : M (AuthWorld S) A → M (ApplicationOn S) A :=
  zoom (λ a, Build_AuthWorld (ap_database a) (ap_bootstrap a))
    (λ w a, Build_ApplicationOn (ap_presence a) (aw_stores w) (aw_bootstrap w) (ap_registrations a)).
Definition in_device_service {A} : M (DeviceWorld S) A → M (ApplicationOn S) A :=
  zoom (λ a, Build_DeviceWorld (ap_database a) (ap_bootstrap a) (ap_registrations a))
    (λ w a, Build_ApplicationOn (ap_presence a) (dw_stores w) (dw_bootstrap w) (dw_registrations w)).
End parts.

(** What every request brings: its headers and cookie, the peer's host, and
    the clock readings of the session check and of the database in it. *)
Record Sender := {
  sn_headers : headers;
  sn_cookie : option pystr;
  sn_host : option pystr;
  sn_current : timestamp;
  sn_db : nat → timestamp }.

(** The routes that reach the database, with the clocks, draws and provider
    answers their handlers consume. *)
Inductive request :=
| StartOtp (now : timestamp) (email : pystr) (sent : outcome unit)
| VerifyOtp (now verified_at db_now : timestamp) (account_id bootstrap_id : UUID) (raw : bytes) (email otp : pystr)
    (identity : outcome AuthIdentity)
| RegistrationChallenge_ (now : nat → timestamp) (d : Draws) (payload : RegistrationChallengeRequest)
| CompleteEnrollment (now : timestamp) (db_now : nat → timestamp) (d : Draws) (payload : RegistrationCompleteRequest)
| CreateLinkingOtp (now : timestamp) (db_now : nat → timestamp) (number : Z) (otp_id_ event_id : UUID)
| LinkingChallenge (now db_now : timestamp) (d : Draws) (payload : DeviceLinkingChallengeRequest)
| IssueLoginChallenge (now db_now : timestamp) (d : Draws) (account_id device_id : UUID)
| CompleteLogin (current : timestamp) (db_now : nat → timestamp) (d : Draws) (payload : DeviceChallengeCompleteRequest)
| ListDevices
| RenameDevice (device_id : UUID) (label : pystr)
| LogoutDevice (c : clock) (db_now : timestamp) (device_id : UUID)
| Logout (c : clock) (db_now : nat → timestamp)
| CurrentSession (raw : bytes)
| ListSessions
| IssueTicket (now : nat → timestamp) (issued_at : timestamp) (raw : bytes) (id : UUID)
| ListOnline (now : timestamp)
| WebSocket (origin : option pystr) (query : list pystr) (now : nat → timestamp) (lookup : readings) (id : UUID)
    (websocket : N) (c : clock) (events : list (clock * readings * readings * received))
| CreateTransfer (c : clock) (at_ : readings) (new_id : UUID) (payload : TransferCreateRequest)
| ListTransfers (cs : nat → clock * readings)
| GetTransfer (c : clock) (at_ : readings) (transfer_id : UUID)
| GetPeerKey (c : clock) (at_ : readings) (transfer_id : UUID)
| AcceptTransfer (c : clock) (at_ : readings) (transfer_id : UUID)
| RejectTransfer (c : clock) (at_ : readings) (transfer_id : UUID)
| CancelTransfer (c : clock) (at_ : readings) (transfer_id : UUID)
| ExpireTransfer (c : clock) (at_ : readings) (transfer_id : UUID)
| TurnCredentials_ (current : timestamp) (c : clock) (at_ : readings) (transfer_id : UUID)
    (credentials : outcome TurnCredentials).

Section wiring.
Context {S : Type} `{TransferRepository S} `{PresencePorts S} `{AccountStore S} `{DeviceStore S} `{ChallengeStore S}
  `{LinkingOtpStore S} `{SecurityEventStore S} `{SessionRepositoryPort S} `{TicketStore S} `{LimiterStore S}
  `{Cryptography} `{UnicodeDatabase}.
Context (sessions_of : UUID → S → list SessionRecord) (app_origin : pystr).

(** The Auth gateway and the TURN provider, answering as given. *)
Definition gateway (sent : outcome unit) (identity : outcome AuthIdentity) : AuthGateway S :=
  {| gateway_start_otp _ := lift sent; gateway_verify_otp _ _ := lift identity |}.
Definition turn_provider (credentials : outcome TurnCredentials) : TurnCredentialProvider S :=
  {| issue_credentials _ := lift credentials |}.

(** [Depends(get_authenticated_session)] and [Depends(require_session_csrf)] *)
Definition with_session {A} (s : Sender) (handler : SessionRecord → M (ApplicationOn S) A) : M (ApplicationOn S) A :=
  let! session := on_database (get_authenticated_session (sn_db s) (sn_current s) (sn_cookie s)) in handler session.
Definition with_csrf {A} (s : Sender) (handler : SessionRecord → M (ApplicationOn S) A) : M (ApplicationOn S) A :=
  let! session := on_database (require_session_csrf app_origin (sn_headers s) (sn_db s) (sn_current s) (sn_cookie s)) in
  handler session.

(** A response here is the cookie it sets, if any. *)
Definition no_cookie {A} (m : M (ApplicationOn S) A) : M (ApplicationOn S) (option cookie) := do! m in ret None.
Definition sets_cookie {A} (m : M (ApplicationOn S) (A * cookie)) : M (ApplicationOn S) (option cookie) :=
  let! answer := m in ret (Some answer.2).

Definition serve_on (s : Sender) (r : request) : M (ApplicationOn S) (option cookie) :=
  match r with
  | StartOtp now email sent =>
      no_cookie (in_otp_service (start_otp_route (H := gateway sent (Raise RuntimeError)) app_origin (sn_headers s) now email
        (Auth._network_identifier (sn_host s))))
  | VerifyOtp now verified_at db_now account_id bootstrap_id raw email otp identity =>
      no_cookie (in_otp_service (verify_otp_route (H := gateway (Raise RuntimeError) identity) app_origin (sn_headers s) now
        verified_at db_now account_id bootstrap_id raw email otp (Auth._network_identifier (sn_host s))))
  | RegistrationChallenge_ now d payload =>
      no_cookie (in_device_service (registration_challenge production_device_auth app_origin (sn_headers s) now d payload))
  | CompleteEnrollment now db_now d payload =>
      sets_cookie (in_device_service (complete_enrollment production_device_auth app_origin (sn_headers s) now db_now d payload))
  | CreateLinkingOtp now db_now number otp_id_ event_id =>
      no_cookie (with_csrf s (λ session, in_device_service
        (create_linking_otp production_device_auth now db_now number otp_id_ event_id session (sn_host s))))
  | LinkingChallenge now db_now d payload =>
      no_cookie (in_device_service
        (linking_challenge production_device_auth app_origin (sn_headers s) now db_now d (sn_host s) payload))
  | IssueLoginChallenge now db_now d account_id device_id =>
      no_cookie (in_device_service (issue_login_challenge_route app_origin (sn_headers s) now db_now d account_id device_id))
  | CompleteLogin current db_now d payload =>
      sets_cookie (in_device_service (complete_login_challenge_route app_origin (sn_headers s) current db_now d payload))
  | ListDevices => no_cookie (with_session s (λ session, in_device_service (list_devices app_origin (sn_headers s) session)))
  | RenameDevice device_id label =>
      no_cookie (with_csrf s (λ session, in_device_service (rename_device_route session device_id label)))
  | LogoutDevice c db_now device_id =>
      with_csrf s (λ session,
        let! answer := in_world (logout_device_route production_presence true c db_now session device_id) in ret answer.2)
  | Logout c db_now => sets_cookie (with_csrf s (λ session, in_world (logout production_presence true c db_now session)))
  | CurrentSession raw =>
      no_cookie (on_database (current_session app_origin (sn_headers s) (sn_db s) (sn_current s) (sn_cookie s) raw))
  | ListSessions =>
      no_cookie (with_session s (λ session, on_database
        (list_sessions sessions_of app_origin (sn_headers s) session)))
  | IssueTicket now issued_at raw id =>
      no_cookie (with_csrf s (λ session, on_database (issue_websocket_ticket now issued_at raw id session)))
  | ListOnline now =>
      no_cookie (with_session s (λ session,
        do! lift (check_optional_origin app_origin (sn_headers s)) in
        in_world (online_devices production_presence now (ses_user_id session))))
  | WebSocket origin query now lookup id websocket c events =>
      no_cookie (in_world (websocket_presence production_presence (Some app_origin) origin query true now lookup id
        websocket c events))
  | CreateTransfer c at_ new_id payload =>
      no_cookie (with_csrf s (λ session, in_world
        (create_transfer_offer production_transfers c at_ new_id payload session)))
  | ListTransfers cs =>
      no_cookie (with_session s (λ session, in_world (list_transfers production_transfers app_origin (sn_headers s) cs session)))
  | GetTransfer c at_ transfer_id =>
      no_cookie (with_session s (λ session, in_world
        (get_transfer production_transfers app_origin (sn_headers s) c at_ transfer_id session)))
  | GetPeerKey c at_ transfer_id =>
      no_cookie (with_session s (λ session, in_world
        (get_transfer_peer_key production_transfers app_origin (sn_headers s) c at_ transfer_id session)))
  | AcceptTransfer c at_ transfer_id =>
      no_cookie (with_csrf s (λ session, in_world (accept_transfer production_transfers c at_ transfer_id session)))
  | RejectTransfer c at_ transfer_id =>
      no_cookie (with_csrf s (λ session, in_world (reject_transfer production_transfers c at_ transfer_id session)))
  | CancelTransfer c at_ transfer_id =>
      no_cookie (with_csrf s (λ session, in_world (cancel_transfer_route production_transfers c at_ transfer_id session)))
  | ExpireTransfer c at_ transfer_id =>
      no_cookie (with_csrf s (λ session, in_world (expire_transfer production_transfers c at_ transfer_id session)))
  | TurnCredentials_ current c at_ transfer_id credentials =>
      no_cookie (with_csrf s (λ session, in_world
        (issue_turn_credentials (H2 := turn_provider credentials) production_transfers current c at_ session transfer_id
           (sn_host s))))
  end.
End wiring.

(** ** Outside the test environment: repositories over one database *)
Section application.
Context `{Cryptography} `{UnicodeDatabase}.
Context (auth_user : UUID → bool) (rate_limit_secret : bytes) (app_origin : pystr).

#[local] Instance accounts : AccountStore Db := pg_accounts auth_user.
#[local] Instance limiter : LimiterStore Db := persistent_limiter rate_limit_secret.

Definition serve : Sender → request → M Application (option cookie) :=
  serve_on Sessions.Pg.list_for_account app_origin.
End application.
