(* ===== verification/RouteCalls.v ===== *)
(** * RouteCalls: what the routes do to the database, call by call

    Every repository call but the creation of a session is [quiet]: a
    statement after which each session descends from an earlier one.  The
    services and routes are walked once, for any relation the calls they make
    satisfy: [ServiceCalls] for all of them but the two that complete an
    enrolment or a login, and [AccountCalls] for those that act for the account
    of a session. *)
From Stdlib.Strings Require Import Byte.
From S2P Require Import Prelude PyDict Json Models Sql Tables Schema Hashing Security Sessions SessionTheorems RateLimits.
From S2P Require Import TransferPort TransferRepository TransferTheorems Integrity History Signaling Presence Socket.
From S2P Require Import SocketInvariant TransferService.
From S2P Require Import Accounts Devices Challenges LinkingOtps Tickets Events.
From S2P Require Import Auth DeviceCrypto DeviceAuth DeviceRoutes TransferRoutes Adapters Turn Main Application.
From stdpp Require Import list strings relations.

(** ** Statements that open no session *)
Definition sessions_descend (db db' : Db) : Prop :=
  ∀ s', s' ∈ app_sessions db' → ∃ s, s ∈ app_sessions db ∧ session_evolves s s'.

Definition quiet_step (db db' : Db) : Prop := db_step db db' ∧ (well_formed db → sessions_descend db db').

#[export] Instance quiet_step_preorder : PreOrder quiet_step.
Proof.
  split.
  - intros db. split; [reflexivity|]. intros _ s Hs. exists s. split; [done|reflexivity].
  - intros x y z [Hxy Hd] [Hyz Hd']. split; [by etrans|]. intros Hwf s' Hs'.
    destruct (Hd' (db_step_well_formed _ _ Hxy Hwf) s' Hs') as (s1&Hs1&?). destruct (Hd Hwf s1 Hs1) as (s&?&?).
    exists s. split; [done|by etrans].
Qed.

(** A statement on another table leaves the sessions as they are. *)
Lemma descend_same db db' : app_sessions db' = app_sessions db → sessions_descend db db'.
Proof. intros Heq s Hs. exists s. rewrite <- Heq. split; [done|reflexivity]. Qed.

#[local] Ltac sessions_same :=
  apply descend_same; unfold on_app_users, on_devices, on_device_challenges, on_device_linking_otps, on_transfer_requests,
    on_websocket_tickets, on_security_events, on_rate_limit_buckets; by rewrite zoom_snd.

#[export] Instance quiet_step_writes : Writes quiet_step.
Proof.
  split; [apply _|intros A m Hm db; split; [by apply writes_users|intros _; sessions_same]
    |intros A m Hm db; split; [by apply writes_buckets|intros _; sessions_same]|..].
  2: { intros db cond set Hset. split; [by apply (updates_sessions (R := db_step))|]. intros (_&_&Hs&_) s' Hs'.
    unfold on_app_sessions in Hs'. rewrite zoom_snd in Hs'.
    destruct (rows_born_update (λ _, false) cond set (app_sessions db) (Hset Hs) s' Hs') as [?|?]; done. }
  all: unfold update_law, insert_law; intros; split; [|intros _; sessions_same].
  all: first [by apply (updates_devices (R := db_step))|by apply (updates_challenges (R := db_step))
    |by apply (updates_otps (R := db_step))|by apply (updates_transfers (R := db_step))
    |by apply (updates_tickets (R := db_step))
    |by apply (inserts_challenges (R := db_step))|by apply (inserts_otps (R := db_step))
    |by apply (inserts_transfers (R := db_step))|by apply (inserts_tickets (R := db_step))
    |by apply (inserts_events (R := db_step))].
Qed.

#[export] Instance quiet_step_adds : AddsDevices quiet_step.
Proof. intros db new Hnew. split; [by apply (inserts_devices (R := db_step))|intros _; sessions_same]. Qed.

(** A statement of the repositories that opens no session. *)
Definition quiet (db db' : Db) : Prop := statement db db' ∧ quiet_step db db'.

Lemma quiet_once {A} (m : M Db A) :
  (∀ db, statement db (m db).2) → respects quiet_step m → respects (rtc quiet) m.
Proof. intros Hs Hq db. apply rtc_once. split; [apply Hs|apply Hq]. Qed.

Lemma quiet_statements db db' : rtc quiet db db' → rtc statement db db'.
Proof. induction 1 as [|x y z [Hs _] _ IH]; [apply rtc_refl|by eapply rtc_l]. Qed.

Lemma quiet_descend db db' : rtc quiet db db' → quiet_step db db'.
Proof. induction 1 as [|x y z [_ Hq] _ IH]; [reflexivity|by etrans]. Qed.

(** ** The repositories, call by call *)
Section calls.
Context (auth_user : UUID → bool) (rate_limit_secret : bytes).

#[local] Ltac one c l := intros; apply quiet_once; [intros db; by apply c|by apply l].

Lemma q_get_or_create now i s e at_ : respects (rtc quiet) (Accounts.Pg.get_or_create auth_user now i s e at_).
Proof. one st_account_create accounts_get_or_create_step. Qed.
Lemma q_fallback a at_ : respects (rtc quiet) (Accounts.Pg.mark_email_fallback a at_).
Proof. one st_account_fallback accounts_mark_step. Qed.
Lemma q_register now a e l k fp d : respects (rtc quiet) (Devices.Pg.register_for_email now a e l k fp d).
Proof. one st_device_register devices_register_step. Qed.
Lemma q_device_touch now a d : respects (rtc quiet) (Devices.Pg.touch_last_seen now a d).
Proof. one st_device_touch devices_touch_step. Qed.
Lemma q_device_rename a d l : respects (rtc quiet) (Devices.Pg.rename a d l).
Proof. one st_device_rename devices_rename_step. Qed.
Lemma q_device_logout now a d reason : respects (rtc quiet) (Devices.Pg.logout_with_sessions now a d reason).
Proof. apply quiet_once; [intros db; apply st_device_logout|]. apply devices_with_sessions_step, logged_out_grows. Qed.
Lemma q_session_touch now a i : respects (rtc quiet) (Sessions.Pg.touch_last_seen now a i).
Proof. one (λ db, st_session db now (OpTouch a i)) sessions_touch_step. Qed.
Lemma q_session_csrf now a i h : respects (rtc quiet) (Sessions.Pg.replace_csrf_hash now a i h).
Proof. one (λ db, st_session db now (OpReplaceCsrf a i h)) sessions_csrf_step. Qed.
Lemma q_session_revoke now a i reason : respects (rtc quiet) (Sessions.Pg.revoke now a i reason).
Proof. one (λ db, st_session db now (OpRevoke a i reason)) sessions_revoke_step. Qed.
Lemma q_challenge_create now i a d h o e : respects (rtc quiet) (Challenges.Pg.create now i a d h o e).
Proof. one st_challenge_create challenges_create_step. Qed.
Lemma q_challenge_consume now a i : respects (rtc quiet) (Challenges.Pg.consume now a i).
Proof. one st_challenge_consume challenges_consume_step. Qed.
Lemma q_challenge_failed now a i : respects (rtc quiet) (Challenges.Pg.mark_failed now a i).
Proof. one st_challenge_failed challenges_failed_step. Qed.
Lemma q_otp_create now i a d h e : respects (rtc quiet) (LinkingOtps.Pg.create now i a d h e).
Proof. one st_otp_create otps_create_step. Qed.
Lemma q_otp_failed now i : respects (rtc quiet) (LinkingOtps.Pg.mark_failed now i).
Proof. one st_otp_failed otps_failed_step. Qed.
Lemma q_otp_redeem now i a d e n l k fp : respects (rtc quiet) (LinkingOtps.Pg.consume_and_register now i a d e n l k fp).
Proof. one st_otp_redeem otps_redeem_step. Qed.
Lemma q_ticket_create now i a s h e : respects (rtc quiet) (Tickets.Pg.create now i a s h e).
Proof. one st_ticket_create tickets_create_step. Qed.
Lemma q_ticket_consume now key owner : respects (rtc quiet) (Tickets.Pg.consume_where now key owner).
Proof. one st_ticket_consume tickets_consume_step. Qed.
Lemma q_event now i t o e user d fp details : respects (rtc quiet) (Events.Pg.create now i t o e user d fp details).
Proof. one st_event events_create_step. Qed.
Lemma q_consume_many now requests : respects (rtc quiet) (RateLimits.Pg.consume_many now requests).
Proof. one st_limit_many buckets_consume_step. Qed.
Lemma q_limit now requests : respects (rtc quiet) (RateLimits.Pg.allow_many rate_limit_secret now requests).
Proof.
  unfold RateLimits.Pg.allow_many. apply respects_bind; [apply _|apply respects_lift, _|]. intros encoded.
  apply q_consume_many.
Qed.
End calls.

#[export] Hint Resolve q_register q_otp_redeem : respects.

Lemma q_transfer now op : respects (rtc quiet) (pg_op now op).
Proof. apply quiet_once; [intros db; apply st_transfer|apply transfers_step]. Qed.

Lemma q_transfer_create at_ i a d1 d2 v e : respects (rtc quiet) (TransferRepository.Pg.create at_ i a d1 d2 v e).
Proof.
  intros db. pose proof (q_transfer at_ (OpCreate i a d1 d2 v e) db) as H. revert H. simpl. unfold bind.
  by destruct (TransferRepository.Pg.create _ _ _ _ _ _ _ db) as [[?|?] ?].
Qed.

Lemma q_accept at_ a i d : respects (rtc quiet) (TransferRepository.Pg.accept at_ a i d).
Proof. apply (q_transfer at_ (OpAccept a i d)). Qed.
Lemma q_reject at_ a i d : respects (rtc quiet) (TransferRepository.Pg.reject at_ a i d).
Proof. apply (q_transfer at_ (OpReject a i d)). Qed.
Lemma q_cancel at_ a i d : respects (rtc quiet) (TransferRepository.Pg.cancel at_ a i d).
Proof. apply (q_transfer at_ (OpCancel a i d)). Qed.
Lemma q_expire at_ a i : respects (rtc quiet) (TransferRepository.Pg.expire at_ a i).
Proof. apply (q_transfer at_ (OpExpire a i)). Qed.
Lemma q_relay at_ a i : respects (rtc quiet) (TransferRepository.Pg.mark_relay_used at_ a i).
Proof. apply (q_transfer at_ (OpMarkRelayUsed a i)). Qed.
Lemma q_negotiating at_ a i : respects (rtc quiet) (TransferRepository.Pg.mark_negotiating at_ a i).
Proof. apply (q_transfer at_ (OpTransition a i "accepted" "negotiating")). Qed.

(** ** The calls of the services

    Every call of the services but those that store a device or a session. *)
Class ServiceCalls (R : Db → Db → Prop) := {
  service_preorder :: PreOrder R;
  service_get_or_create auth now i s e at_ : respects R (Accounts.Pg.get_or_create auth now i s e at_);
  service_fallback a at_ : respects R (Accounts.Pg.mark_email_fallback a at_);
  service_device_touch now a d : respects R (Devices.Pg.touch_last_seen now a d);
  service_device_rename a d l : respects R (Devices.Pg.rename a d l);
  service_device_logout now a d reason : respects R (Devices.Pg.logout_with_sessions now a d reason);
  service_session_touch now a i : respects R (Sessions.Pg.touch_last_seen now a i);
  service_session_csrf now a i h : respects R (Sessions.Pg.replace_csrf_hash now a i h);
  service_session_revoke now a i reason : respects R (Sessions.Pg.revoke now a i reason);
  service_challenge_create now i a d h o e : respects R (Challenges.Pg.create now i a d h o e);
  service_challenge_consume now a i : respects R (Challenges.Pg.consume now a i);
  service_challenge_failed now a i : respects R (Challenges.Pg.mark_failed now a i);
  service_otp_create now i a d h e : respects R (LinkingOtps.Pg.create now i a d h e);
  service_otp_failed now i : respects R (LinkingOtps.Pg.mark_failed now i);
  service_ticket_create now i a s h e : respects R (Tickets.Pg.create now i a s h e);
  service_ticket_consume now key owner : respects R (Tickets.Pg.consume_where now key owner);
  service_event now i t o e user d fp details : respects R (Events.Pg.create now i t o e user d fp details);
  service_limit secret now requests : respects R (RateLimits.Pg.allow_many secret now requests);
  service_transfer_create at_ i a d1 d2 v e : respects R (TransferRepository.Pg.create at_ i a d1 d2 v e);
  service_accept at_ a i d : respects R (TransferRepository.Pg.accept at_ a i d);
  service_reject at_ a i d : respects R (TransferRepository.Pg.reject at_ a i d);
  service_cancel at_ a i d : respects R (TransferRepository.Pg.cancel at_ a i d);
  service_expire at_ a i : respects R (TransferRepository.Pg.expire at_ a i);
  service_relay at_ a i : respects R (TransferRepository.Pg.mark_relay_used at_ a i);
  service_negotiating at_ a i : respects R (TransferRepository.Pg.mark_negotiating at_ a i) }.

#[export] Hint Resolve service_get_or_create service_fallback service_device_touch service_challenge_create
  service_challenge_consume service_challenge_failed service_otp_failed service_ticket_consume service_event
  service_session_touch service_session_csrf service_limit service_expire service_relay service_negotiating : respects.
#[export] Hint Extern 1 (ServiceCalls _) => apply _ : respects.

#[export] Instance quiet_service : ServiceCalls (rtc quiet).
Proof.
  split; intros; first [apply _|apply q_get_or_create|apply q_fallback|apply q_device_touch|apply q_device_rename
    |apply q_device_logout|apply q_session_touch|apply q_session_csrf|apply q_session_revoke|apply q_challenge_create
    |apply q_challenge_consume|apply q_challenge_failed|apply q_otp_create|apply q_otp_failed|apply q_ticket_create
    |apply q_ticket_consume|apply q_event|apply q_limit|apply q_transfer_create|apply q_accept|apply q_reject
    |apply q_cancel|apply q_expire|apply q_relay|apply q_negotiating].
Qed.

(** So does every relation that holds of the repositories' other statements. *)
Lemma writes_service R : Writes R → ServiceCalls R.
Proof.
  intros HR. assert (∀ now op, respects R (pg_op now op)) as Ht by (intros; apply transfers_step).
  split; intros.
  - apply _.
  - apply accounts_get_or_create_step.
  - apply accounts_mark_step.
  - apply devices_touch_step.
  - apply devices_rename_step.
  - apply devices_with_sessions_step, logged_out_grows.
  - apply sessions_touch_step.
  - apply sessions_csrf_step.
  - apply sessions_revoke_step.
  - apply challenges_create_step.
  - apply challenges_consume_step.
  - apply challenges_failed_step.
  - apply otps_create_step.
  - apply otps_failed_step.
  - apply tickets_create_step.
  - apply tickets_consume_step.
  - apply events_create_step.
  - unfold RateLimits.Pg.allow_many. apply respects_bind; [apply _|apply respects_lift, _|].
    intros encoded. apply buckets_consume_step.
  - intros db. pose proof (Ht at_ (OpCreate i a d1 d2 v e) db) as H. revert H. simpl. unfold bind.
    by destruct (TransferRepository.Pg.create _ _ _ _ _ _ _ db) as [[?|?] ?].
  - apply (Ht at_ (OpAccept a i d)).
  - apply (Ht at_ (OpReject a i d)).
  - apply (Ht at_ (OpCancel a i d)).
  - apply (Ht at_ (OpExpire a i)).
  - apply (Ht at_ (OpMarkRelayUsed a i)).
  - apply (Ht at_ (OpTransition a i "accepted" "negotiating")).
Qed.

(** ** Calls on behalf of an account

    What the routes that need a session do to the database: calls with the
    session's account. *)
Class AccountCalls (R : Db → Db → Prop) (a : UUID) := {
  account_preorder :: PreOrder R;
  account_session_touch now i : respects R (Sessions.Pg.touch_last_seen now a i);
  account_session_csrf now i h : respects R (Sessions.Pg.replace_csrf_hash now a i h);
  account_session_revoke now i reason : respects R (Sessions.Pg.revoke now a i reason);
  account_device_rename d l : respects R (Devices.Pg.rename a d l);
  account_device_logout now d reason : respects R (Devices.Pg.logout_with_sessions now a d reason);
  account_otp_create now i d h e : respects R (LinkingOtps.Pg.create now i a d h e);
  account_ticket_create now i s h e : respects R (Tickets.Pg.create now i a s h e);
  account_event now i t o e d fp details : respects R (Events.Pg.create now i t o e (Some a) d fp details);
  account_limit secret now requests : respects R (RateLimits.Pg.allow_many secret now requests);
  account_transfer_create at_ i d1 d2 v e : respects R (TransferRepository.Pg.create at_ i a d1 d2 v e);
  account_accept at_ i d : respects R (TransferRepository.Pg.accept at_ a i d);
  account_reject at_ i d : respects R (TransferRepository.Pg.reject at_ a i d);
  account_cancel at_ i d : respects R (TransferRepository.Pg.cancel at_ a i d);
  account_expire at_ i : respects R (TransferRepository.Pg.expire at_ a i);
  account_relay at_ i : respects R (TransferRepository.Pg.mark_relay_used at_ a i) }.

#[export] Hint Resolve account_session_touch account_session_csrf account_session_revoke account_device_rename
  account_device_logout account_otp_create account_ticket_create account_event account_limit account_transfer_create
  account_accept account_reject account_cancel account_expire account_relay : respects.

#[export] Instance service_account R a : ServiceCalls R → AccountCalls R a.
Proof.
  split; intros; first [apply _|apply service_session_touch|apply service_session_csrf|apply service_session_revoke
    |apply service_device_rename|apply service_device_logout|apply service_otp_create|apply service_ticket_create
    |apply service_event|apply service_limit|apply service_transfer_create|apply service_accept|apply service_reject
    |apply service_cancel|apply service_expire|apply service_relay].
Qed.
#[export] Hint Extern 1 (AccountCalls _ _) => apply _ : respects.

(** ** Coroutines: the socket, the transfer service, TURN credentials *)
Definition calls (R : Db → Db → Prop) (w w' : World Db) : Prop := R (w_store w) (w_store w').

#[export] Instance calls_preorder R `{!PreOrder R} : PreOrder (calls R).
Proof. split; unfold calls; [intros w; reflexivity|intros x y z ? ?; by etrans]. Qed.

Section calls_of.
Context {R : Db → Db → Prop} `{!PreOrder R}.

Lemma c_presence {A} (m : M Presence A) : respects (calls R) (on_presence m).
Proof. intros w. unfold calls, on_presence. rewrite zoom_snd. reflexivity. Qed.
Lemma c_store {A} (m : M Db A) : respects R m → respects (calls R) (on_store m).
Proof. intros Hm w. unfold calls, on_store. rewrite zoom_snd. apply Hm. Qed.
Lemma q_read {A} (f : Db → outcome A) : respects R (λ db, (f db, db)).
Proof. intros db. reflexivity. Qed.
#[local] Hint Resolve c_presence c_store q_read : respects.

Context (cfg : PresenceConfig).

Lemma c_entries l : respects R (device_entries (T := Db) cfg l).
Proof. induction l as [|c l IH]; simpl; walk. Qed.
#[local] Hint Resolve c_entries : respects.
Lemma c_online now a : respects (calls R) (online_devices (T := Db) cfg now a).
Proof. unfold online_devices. walk. Qed.
#[local] Hint Resolve c_online : respects.
Lemma c_broadcast c a : respects (calls R) (broadcast_presence (T := Db) cfg c a).
Proof. unfold broadcast_presence. walk. Qed.
#[local] Hint Resolve c_broadcast : respects.
Lemma c_disconnect c a d : respects (calls R) (disconnect_device (T := Db) cfg c a d).
Proof. unfold disconnect_device. walk. Qed.
End calls_of.
#[export] Hint Resolve c_presence c_store q_read c_online c_broadcast c_disconnect : respects.

Section socket.
Context {R : Db → Db → Prop} `{!ServiceCalls R} (cfg : PresenceConfig).

Lemma c_reject : respects (calls R) (reject_signaling (T := Db)).
Proof. unfold reject_signaling. walk. Qed.
#[local] Hint Resolve c_reject : respects.
Lemma c_heartbeat sessions now c : respects (calls R) (heartbeat cfg sessions now c).
Proof. unfold heartbeat. simpl. walk. Qed.
Lemma c_role moves c transfer s r ty : respects (calls R) (role_refused moves c transfer s r ty).
Proof. unfold role_refused, start_negotiating. simpl. walk. Qed.
Lemma c_deliver c connection message transfer s r ty :
  respects (calls R) (deliver_signaling (T := Db) cfg c connection message transfer s r ty).
Proof. unfold deliver_signaling. walk. Qed.
#[local] Hint Resolve c_role c_deliver : respects.
Lemma c_forward c moves connection message : respects (calls R) (forward_signaling cfg c moves connection message).
Proof. unfold forward_signaling. walk. Qed.
Lemma c_mode relays connection message : respects (calls R) (record_connection_mode cfg relays connection message).
Proof. unfold record_connection_mode. simpl. walk. Qed.
#[local] Hint Resolve c_heartbeat c_forward c_mode : respects.
Lemma c_close ws code : respects (calls R) (close_with (T := Db) ws code).
Proof. unfold close_with. walk. Qed.
#[local] Hint Resolve c_close : respects.
Lemma c_dispatch c moves sessions ws connection message :
  respects (calls R) (dispatch cfg c moves sessions ws connection message).
Proof. unfold dispatch. walk. Qed.
#[local] Hint Resolve c_dispatch : respects.
Lemma c_serve_one c moves sessions ws connection event :
  respects (calls R) (serve_one cfg c moves sessions ws connection event).
Proof. unfold serve_one. walk. Qed.
#[local] Hint Resolve c_serve_one : respects.
Lemma c_serve ws connection fuel events : respects (calls R) (_serve_connection cfg ws connection fuel events).
Proof.
  revert connection events. induction fuel as [|fuel IH]; intros connection events; simpl; [walk|].
  destruct events as [|[[[c moves] sessions] event] events]; walk.
Qed.
#[local] Hint Resolve c_serve : respects.
Lemma c_serve_admitted c connection events : respects (calls R) (serve_admitted cfg c connection events).
Proof.
  unfold serve_admitted, serve_until_closed.
  repeat (apply respects_bind; [apply _|walk|intros ?]). destruct _; [|walk].
  repeat (apply respects_bind; [apply _|walk|intros ?]). apply respects_try_finally; [apply _|walk|walk].
Qed.
#[local] Hint Resolve c_serve_admitted : respects.

Lemma q_authenticate app_origin origin query configured now lookup :
  respects R (authenticate_socket app_origin origin query configured now lookup).
Proof. unfold authenticate_socket. simpl. unfold Tickets.Pg.consume_for_socket. walk. Qed.
#[local] Hint Resolve q_authenticate : respects.

Lemma c_websocket app_origin origin query configured now lookup id websocket c events :
  respects (calls R) (websocket_presence cfg app_origin origin query configured now lookup id websocket c events).
Proof. unfold websocket_presence. walk. Qed.
End socket.
#[export] Hint Resolve c_websocket : respects.

Section transfers.
Context {R : Db → Db → Prop} {a : UUID} `{!AccountCalls R a} (cfg : TransferServiceConfig).

Lemma c_notify now a' d p : respects (calls R) (_notify (T := Db) cfg now a' d p).
Proof. unfold _notify. walk. Qed.
#[local] Hint Resolve c_notify : respects.
Lemma c_participants c a' r p : respects (calls R) (_notify_participants (T := Db) cfg c a' r p).
Proof. unfold _notify_participants. walk. Qed.
Lemma c_release i : respects (calls R) (_release (T := Db) cfg i).
Proof. unfold _release. walk. Qed.
#[local] Hint Resolve c_participants c_release : respects.
Lemma c_device_of a' d : respects (calls R) (device_of (T := Db) a' d).
Proof. unfold device_of. walk. Qed.
#[local] Hint Resolve c_device_of : respects.
Lemma c_offer c at_ i d1 d2 v : respects (calls R) (create_offer (T := Db) cfg c at_ i a d1 d2 v).
Proof. unfold create_offer, create_checked, _validate_devices, _ensure_capacity. simpl. walk. Qed.
Lemma c_expire_stale c at_ i : respects (calls R) (expire_stale (T := Db) cfg c at_ a i).
Proof. unfold expire_stale. simpl. walk. Qed.
#[local] Hint Resolve c_offer c_expire_stale : respects.
Lemma c_current c at_ i : respects (calls R) (_current_or_expire (T := Db) cfg c at_ a i).
Proof. unfold _current_or_expire. walk. Qed.
#[local] Hint Resolve c_current : respects.
Lemma c_accept c at_ i d : respects (calls R) (accept_offer (T := Db) cfg c at_ a i d).
Proof. unfold accept_offer. simpl. walk. Qed.
Lemma c_reject_offer c at_ i d : respects (calls R) (reject_offer (T := Db) cfg c at_ a i d).
Proof. unfold reject_offer. simpl. walk. Qed.
Lemma c_cancel c at_ i d : respects (calls R) (cancel_transfer (T := Db) cfg c at_ a i d).
Proof. unfold cancel_transfer. simpl. walk. Qed.
Lemma c_get c at_ i : respects (calls R) (TransferService.get (T := Db) cfg c at_ a i).
Proof. unfold TransferService.get. walk. Qed.
Lemma c_peer_key c at_ i d e : respects (calls R) (get_peer_device_key (T := Db) cfg c at_ a i d e).
Proof. unfold get_peer_device_key. walk. Qed.
Lemma c_list_loop rs cs : respects (calls R) (list_loop (T := Db) cfg cs a rs).
Proof.
  revert cs. induction rs as [|r rs IH]; intros cs; simpl; [walk|]. destruct (cs 0%nat). walk.
Qed.
End transfers.
#[export] Hint Resolve c_offer c_accept c_reject_offer c_cancel c_get c_peer_key c_list_loop c_expire_stale c_current
  c_device_of : respects.

(** The routes call with the session's account. *)
Section routes.
Context {R : Db → Db → Prop} {session : SessionRecord} `{!AccountCalls R (ses_user_id session)}.

Section transfer_routes.
Context (cfg : TransferServiceConfig).

Lemma c_create_route c at_ i payload : respects (calls R) (create_transfer_offer (T := Db) cfg c at_ i payload session).
Proof. unfold create_transfer_offer. walk. Qed.
Lemma c_list_route app_origin hs cs : respects (calls R) (list_transfers (T := Db) cfg app_origin hs cs session).
Proof. unfold list_transfers, list_transfers_for. walk. Qed.
Lemma c_get_route app_origin hs c at_ i : respects (calls R) (get_transfer (T := Db) cfg app_origin hs c at_ i session).
Proof. unfold get_transfer. walk. Qed.
Lemma c_peer_route app_origin hs c at_ i :
  respects (calls R) (get_transfer_peer_key (T := Db) cfg app_origin hs c at_ i session).
Proof. unfold get_transfer_peer_key. walk. Qed.
Lemma c_accept_route c at_ i : respects (calls R) (accept_transfer (T := Db) cfg c at_ i session).
Proof. unfold accept_transfer, unavailable. walk. Qed.
Lemma c_reject_route c at_ i : respects (calls R) (reject_transfer (T := Db) cfg c at_ i session).
Proof. unfold reject_transfer, unavailable. walk. Qed.
Lemma c_cancel_route c at_ i : respects (calls R) (cancel_transfer_route (T := Db) cfg c at_ i session).
Proof. unfold cancel_transfer_route, unavailable. walk. Qed.
Lemma c_expire_route c at_ i : respects (calls R) (expire_transfer (T := Db) cfg c at_ i session).
Proof. unfold expire_transfer, unavailable. walk. Qed.

Lemma c_turn `{UnicodeDatabase} secret answer current c at_ i host :
  respects (calls R) (issue_turn_credentials (H1 := persistent_limiter secret) (H2 := turn_provider answer)
    cfg current c at_ session i host).
Proof. unfold issue_turn_credentials, issue, denied. simpl. walk. Qed.
End transfer_routes.

Section logouts.
Context (cfg : PresenceConfig).
Lemma c_logout_device presence c db_now d : respects (calls R) (logout_device_route cfg presence c db_now session d).
Proof. unfold logout_device_route, disconnect. simpl. walk. Qed.
Lemma c_logout presence c db_now : respects (calls R) (logout cfg presence c db_now session).
Proof. unfold logout, disconnect, revoke_session. simpl. walk. Qed.
End logouts.

Lemma q_sessions app_origin hs : respects R (list_sessions Sessions.Pg.list_for_account app_origin hs session).
Proof. unfold list_sessions. walk. Qed.
Lemma q_ticket now issued_at raw i : respects R (issue_websocket_ticket (S := Db) now issued_at raw i session).
Proof. unfold issue_websocket_ticket, Tickets.issue. cbn [create_ticket pg_tickets]. walk. Qed.
End routes.
#[export] Hint Resolve c_create_route c_list_route c_get_route c_peer_route c_accept_route c_reject_route c_cancel_route
  c_expire_route c_turn c_logout_device c_logout q_sessions q_ticket : respects.

(** ** The OTP service and the device service *)
Definition otp_calls (R : Db → Db → Prop) (w w' : AuthWorld Db) : Prop := R (aw_stores w) (aw_stores w').
Definition device_calls (R : Db → Db → Prop) (w w' : DeviceWorld Db) : Prop := R (dw_stores w) (dw_stores w').

#[export] Instance otp_calls_preorder R `{!PreOrder R} : PreOrder (otp_calls R).
Proof. split; unfold otp_calls; [intros w; reflexivity|intros x y z ? ?; by etrans]. Qed.
#[export] Instance device_calls_preorder R `{!PreOrder R} : PreOrder (device_calls R).
Proof. split; unfold device_calls; [intros w; reflexivity|intros x y z ? ?; by etrans]. Qed.

Section services.
Context {R : Db → Db → Prop} `{!ServiceCalls R}.
Context `{Cryptography} `{UnicodeDatabase} (auth_user : UUID → bool) (secret : bytes).
#[local] Instance accounts : AccountStore Db := pg_accounts auth_user.
#[local] Instance limiter : LimiterStore Db := persistent_limiter secret.

Lemma o_stores {A} (m : M Db A) : respects R m → respects (otp_calls R) (on_stores m).
Proof. intros Hm w. unfold otp_calls, on_stores. rewrite zoom_snd. apply Hm. Qed.
Lemma o_bootstrap {A} (m : M BootstrapStateStore A) : respects (otp_calls R) (on_bootstrap (S := Db) m).
Proof. intros w. unfold otp_calls, on_bootstrap. rewrite zoom_snd. reflexivity. Qed.
#[local] Hint Resolve o_stores o_bootstrap : respects.

Lemma q_allow_otp now email network verify : respects R (Auth._allow (S := Db) now email network verify).
Proof. unfold Auth._allow. simpl. walk. Qed.
Lemma q_get_account db_now i identity email at_ :
  respects R (get_or_create (S := Db) db_now i identity email at_).
Proof. simpl. walk. Qed.
#[local] Hint Resolve q_allow_otp q_get_account : respects.

Lemma q_verified answer identity email otp :
  respects R (verified_identity (H := gateway answer identity) email otp).
Proof. unfold verified_identity. simpl. walk. Qed.
#[local] Hint Resolve q_verified : respects.

Lemma o_start answer identity app_origin hs now email network :
  respects (otp_calls R) (start_otp_route (H := gateway answer identity) app_origin hs now email network).
Proof. unfold start_otp_route, otp_errors, start_otp. cbn [gateway_start_otp gateway]. walk. Qed.

Lemma o_verify answer identity app_origin hs now verified_at db_now i b raw email otp network :
  respects (otp_calls R) (verify_otp_route (H := gateway answer identity) app_origin hs now verified_at db_now i b raw email otp
    network).
Proof. unfold verify_otp_route, otp_errors, verify_otp. walk. Qed.

End services.

(** *** Devices *)
Section device_calls_of.
Context {R : Db → Db → Prop} `{!PreOrder R}.

Lemma d_stores {A} (m : M Db A) : respects R m → respects (device_calls R) (stores m).
Proof. intros Hm w. unfold device_calls, stores. rewrite zoom_snd. apply Hm. Qed.
Lemma d_bootstrap {A} (m : M BootstrapStateStore A) : respects (device_calls R) (bootstrap (S := Db) m).
Proof. intros w. unfold device_calls, bootstrap. rewrite zoom_snd. reflexivity. Qed.
Lemma d_registrations {A} (m : M RegistrationChallengeStore A) : respects (device_calls R) (registrations (S := Db) m).
Proof. intros w. unfold device_calls, registrations. rewrite zoom_snd. reflexivity. Qed.
End device_calls_of.
#[export] Hint Resolve d_stores d_bootstrap d_registrations : respects.

Section own_devices.
Context `{UnicodeDatabase} (auth_user : UUID → bool) (secret : bytes).
#[local] Instance own_accounts : AccountStore Db := pg_accounts auth_user.
#[local] Instance own_limiter : LimiterStore Db := persistent_limiter secret.
Context {R : Db → Db → Prop} {session : SessionRecord} `{!AccountCalls R (ses_user_id session)} (cfg : DeviceAuthConfig).

Lemma q_audit_own db_now i ty o now d n details :
  respects R (_audit_device_event (S := Db) cfg db_now i ty o now (Some (ses_user_id session)) d n details).
Proof. unfold _audit_device_event. simpl. walk. Qed.
Lemma q_allow_own requests now : respects R (DeviceAuth._allow (S := Db) cfg requests now).
Proof. unfold DeviceAuth._allow. simpl. walk. Qed.
#[local] Hint Resolve q_audit_own q_allow_own : respects.

Lemma d_linking_otp now db_now number i ev host :
  respects (device_calls R) (create_linking_otp (S := Db) cfg now db_now number i ev session host).
Proof.
  unfold create_linking_otp, limited_or, issue_linking_otp. simpl. unfold Accounts.Pg.get_by_id, Devices.Pg.get_by_id. walk.
Qed.

Lemma d_list_devices app_origin hs : respects (device_calls R) (list_devices (S := Db) app_origin hs session).
Proof. unfold list_devices. simpl. unfold Devices.Pg.list_for_account. walk. Qed.

Lemma d_rename dev label : respects (device_calls R) (rename_device_route (S := Db) session dev label).
Proof. unfold rename_device_route, refused_as. simpl. walk. Qed.
End own_devices.

Section device_services.
Context {R : Db → Db → Prop} `{!ServiceCalls R}.
Context `{Cryptography} `{UnicodeDatabase} (auth_user : UUID → bool) (secret : bytes).
#[local] Instance service_accounts : AccountStore Db := pg_accounts auth_user.
#[local] Instance service_limiter : LimiterStore Db := persistent_limiter secret.
Context (cfg : DeviceAuthConfig).

Lemma q_audit db_now i ty o now a d n details :
  respects R (_audit_device_event (S := Db) cfg db_now i ty o now a d n details).
Proof. unfold _audit_device_event. simpl. walk. Qed.
Lemma q_allow requests now : respects R (DeviceAuth._allow (S := Db) cfg requests now).
Proof. unfold DeviceAuth._allow. simpl. walk. Qed.
#[local] Hint Resolve q_audit q_allow : respects.

Lemma d_registration_challenge app_origin hs now d payload :
  respects (device_calls R) (registration_challenge (S := Db) cfg app_origin hs now d payload).
Proof.
  unfold registration_challenge, admitted_body, refused_as, issue_registration_challenge. simpl.
  unfold Accounts.Pg.get_by_id, Devices.Pg.list_for_account. walk.
Qed.

Lemma q_account i : respects R (account_by_id (S := Db) i).
Proof. simpl. unfold Accounts.Pg.get_by_id. walk. Qed.
Lemma q_device a i : respects R (device_by_id (S := Db) a i).
Proof. simpl. unfold Devices.Pg.get_by_id. walk. Qed.
#[local] Hint Resolve q_account q_device : respects.

Lemma q_lookup db_now h : respects R (active_otp_by_hash (S := Db) db_now h).
Proof. simpl. unfold LinkingOtps.Pg.get_active_by_hash, select_list. walk. Qed.
#[local] Hint Resolve q_lookup : respects.

Lemma d_linking_challenge app_origin hs now db_now d host payload :
  respects (device_calls R) (linking_challenge (S := Db) cfg app_origin hs now db_now d host payload).
Proof.
  unfold linking_challenge, admitted_body, limited_or, issue_linking_challenge. walk.
Qed.

Lemma d_login_challenge app_origin hs now db_now d a dev :
  respects (device_calls R) (issue_login_challenge_route (S := Db) app_origin hs now db_now d a dev).
Proof.
  unfold issue_login_challenge_route, admitted_body, refused_as, issue_login_challenge. simpl.
  unfold Accounts.Pg.get_by_id, Devices.Pg.get_by_id. walk.
Qed.

End device_services.

(** ** The application *)
Definition app_calls (R : Db → Db → Prop) (a a' : Application) : Prop := R (ap_database a) (ap_database a').

#[export] Instance app_calls_preorder R `{!PreOrder R} : PreOrder (app_calls R).
Proof. split; unfold app_calls; [intros w; reflexivity|intros x y z ? ?; by etrans]. Qed.

Section application.
Context {R : Db → Db → Prop} `{!PreOrder R}.

Lemma a_database {A} (m : M Db A) : respects R m → respects (app_calls R) (on_database m).
Proof. intros Hm a. unfold app_calls, on_database. rewrite zoom_snd. apply Hm. Qed.
Lemma a_world {A} (m : M (World Db) A) : respects (calls R) m → respects (app_calls R) (in_world m).
Proof. intros Hm a. unfold app_calls, in_world. rewrite zoom_snd. apply (Hm (Build_World (ap_presence a) (ap_database a))). Qed.
Lemma a_device {A} (m : M (DeviceWorld Db) A) : respects (device_calls R) m → respects (app_calls R) (in_device_service m).
Proof.
  intros Hm a. unfold app_calls, in_device_service. rewrite zoom_snd.
  apply (Hm (Build_DeviceWorld (ap_database a) (ap_bootstrap a) (ap_registrations a))).
Qed.
Lemma a_otp {A} (m : M (AuthWorld Db) A) : respects (otp_calls R) m → respects (app_calls R) (in_otp_service m).
Proof. intros Hm a. unfold app_calls, in_otp_service. rewrite zoom_snd. apply (Hm (Build_AuthWorld (ap_database a) (ap_bootstrap a))). Qed.
End application.
#[export] Hint Resolve a_database a_world a_device a_otp : respects.

(** The cookie changes nothing. *)
Lemma no_cookie_snd {A} (m : M Application A) a : (no_cookie m a).2 = (m a).2.
Proof. unfold no_cookie, bind. by destruct (m a) as [[?|?] ?]. Qed.
Lemma sets_cookie_snd {A} (m : M Application (A * cookie)) a : (sets_cookie m a).2 = (m a).2.
Proof. unfold sets_cookie, bind. by destruct (m a) as [[?|?] ?]. Qed.

(** The session checks, which do not yet know the account. *)
Section session_checks.
Context {R : Db → Db → Prop} `{!ServiceCalls R}.

Lemma q_session_of now current cookie : respects R (get_authenticated_session (R := Db) now current cookie).
Proof. unfold get_authenticated_session, authenticate. simpl. walk. Qed.
#[local] Hint Resolve q_session_of : respects.
Lemma q_csrf app_origin hs now current cookie :
  respects R (require_session_csrf (R := Db) app_origin hs now current cookie).
Proof. unfold require_session_csrf. walk. Qed.
Lemma q_current app_origin hs now current cookie raw :
  respects R (current_session (R := Db) app_origin hs now current cookie raw).
Proof. unfold current_session, reissue_csrf. simpl. walk. Qed.
End session_checks.
#[export] Hint Resolve q_session_of q_csrf q_current : respects.
