(* ===== verification/Keys.v ===== *)
(** * Keys: a device's fingerprint is the digest of its key

    The schema stores a device's key and its fingerprint as two columns and
    relates them by nothing; a held registration challenge also has both.  That
    the fingerprint is the SHA-256 of the key, in every row and every held
    challenge, is what the service owes: [bound], kept by every route.  Only
    completing an enrolment adds a device; every other call is [settled], and
    each device after it descends from one before. *)
From Stdlib.Strings Require Import Byte.
From S2P Require Import Prelude PyDict Json Models Sql KeyedTable Tables Schema Hashing Security Sessions SessionTheorems RateLimits.
From S2P Require Import TransferPort TransferRepository TransferTheorems Integrity History Signaling Presence Socket.
From S2P Require Import SocketInvariant TransferService RouteCalls.
From S2P Require Import Accounts Devices Challenges LinkingOtps Tickets Events.
From S2P Require Import Auth DeviceCrypto DeviceAuth DeviceRoutes TransferRoutes Adapters Turn Main Application.
From stdpp Require Import list strings relations.

Definition keyed_row (r : DeviceRecord) : Prop := dev_fingerprint r = sha256 (dev_signing_public_key_spki r).
Definition rows_keyed (db : Db) : Prop := ∀ r, r ∈ devices db → keyed_row r.

Definition keyed_state (s : _RegistrationState) : Prop := rc_fingerprint (rs_challenge s) = sha256 (rs_public_key_spki s).
Definition held_keyed (s : RegistrationChallengeStore) : Prop :=
  ∀ i state, (i, state) ∈ rcs_states s → keyed_state state.

(** ** Calls that add no device *)
Definition devices_descend (db db' : Db) : Prop :=
  ∀ r', r' ∈ devices db' → ∃ r, r ∈ devices db ∧ device_grows r r'.

Definition settled (db db' : Db) : Prop := db_step db db' ∧ (well_formed db → devices_descend db db').

#[export] Instance settled_preorder : PreOrder settled.
Proof.
  split.
  - intros db. split; [reflexivity|]. intros _ r Hr. exists r. split; [done|]. change (grows r r). reflexivity.
  - intros x y z [Hxy Hd] [Hyz Hd']. split; [by etrans|]. intros Hwf r' Hr'.
    destruct (Hd' (db_step_well_formed _ _ Hxy Hwf) r' Hr') as (r1&Hr1&?). destruct (Hd Hwf r1 Hr1) as (r&?&?).
    exists r. split; [done|]. change (grows r r'). by trans r1.
Qed.

Lemma descend_devices_same db db' : devices db' = devices db → devices_descend db db'.
Proof. intros Heq r Hr. exists r. rewrite <- Heq. split; [done|]. change (grows r r). reflexivity. Qed.

#[local] Ltac devices_same :=
  apply descend_devices_same; unfold on_app_users, on_app_sessions, on_device_challenges, on_device_linking_otps,
    on_transfer_requests, on_websocket_tickets, on_security_events, on_rate_limit_buckets; by rewrite zoom_snd.

#[export] Instance settled_writes : Writes settled.
Proof.
  split; [apply _|intros A m Hm db; split; [by apply writes_users|intros _; devices_same]
    |intros A m Hm db; split; [by apply writes_buckets|intros _; devices_same]|..].
  1: { intros db cond set Hset. split; [by apply (updates_devices (R := db_step))|]. intros (_&Hs&_) r' Hr'.
    unfold on_devices in Hr'. rewrite zoom_snd in Hr'.
    destruct (rows_born_update (λ _, false) cond set (devices db) (Hset Hs) r' Hr') as [?|?]; done. }
  all: unfold update_law, insert_law; intros; split; [|intros _; devices_same].
  all: first [by apply (updates_sessions (R := db_step))|by apply (updates_challenges (R := db_step))
    |by apply (updates_otps (R := db_step))|by apply (updates_transfers (R := db_step))
    |by apply (updates_tickets (R := db_step))
    |by apply (inserts_challenges (R := db_step))|by apply (inserts_otps (R := db_step))
    |by apply (inserts_transfers (R := db_step))|by apply (inserts_tickets (R := db_step))
    |by apply (inserts_events (R := db_step))].
Qed.

#[export] Instance settled_opens : OpensSessions settled.
Proof. intros db new Hnew. split; [by apply (inserts_sessions (R := db_step))|intros _; devices_same]. Qed.

#[export] Instance settled_service : ServiceCalls settled.
Proof. apply writes_service, _. Qed.

(** Well-formed tables whose devices' fingerprints are their keys'. *)
Definition keyed_tables (db : Db) : Prop := well_formed db ∧ rows_keyed db.

Lemma settled_keyed db db' : settled db db' → keeps keyed_tables db db'.
Proof.
  intros [Hs Hd] [Hwf Hk]. split; [by eapply db_step_well_formed|]. intros r' Hr'.
  destruct (Hd Hwf r' Hr') as (r&Hr&_&_&_&Hkey&Hfp&_). unfold keyed_row. rewrite Hkey, Hfp. by apply Hk.
Qed.

(** ** Statements that add one *)

(** Under a key and its own fingerprint, a registration keeps them so, whether
    it adds a row or takes one with that fingerprint. *)
Lemma register_keyed now a e l k fp d :
  fp = sha256 k → respects (keeps keyed_tables) (Devices.Pg.register_for_email now a e l k fp d).
Proof.
  intros -> db [Hwf Hk]. split.
  { eapply db_step_well_formed; [|exact Hwf]. apply (devices_register_step (R := db_step)). }
  unfold Devices.Pg.register_for_email, transaction, bind at 1, Devices.Pg.get_by_fingerprint, gets.
  destruct (first_row _) as [r0|].
  - destruct (bool_decide _); [exact Hk|]. unfold bind, Devices.Pg.update, on_devices, zoom.
    match goal with |- context [update_returning ?check ?cond ?set ?t] =>
      pose proof (update_table check cond set t) as Ht; destruct (update_returning check cond set t) as [[rows|x] t'] end;
      [|exact Hk]. unfold lift. destruct (required_row rows); [|exact Hk]. cbn [snd] in *.
    intros r' Hr'. cbn [devices] in Hr'. destruct Ht as [->| ->]; [by apply Hk|].
    apply list_elem_of_fmap in Hr' as (r&->&Hr). specialize (Hk r Hr). by destruct (_ && _).
  - unfold bind, on_devices, zoom. destruct (insert_returning _ _ _) as [[rows|x] t'] eqn:Hi; [|exact Hk].
    apply insert_returning_app in Hi as [-> ->]. unfold lift. destruct (required_row _); [|exact Hk].
    intros r [Hr|Hr]%elem_of_app; [by apply Hk|]. by apply list_elem_of_fmap in Hr as (acc&->&_).
Qed.

Lemma redeem_keyed now i a d e n l k fp :
  fp = sha256 k → respects (keeps keyed_tables) (LinkingOtps.Pg.consume_and_register now i a d e n l k fp).
Proof.
  intros -> db [Hwf Hk]. split.
  { eapply db_step_well_formed; [|exact Hwf]. apply (otps_redeem_step (R := db_step)). }
  unfold LinkingOtps.Pg.consume_and_register, transaction, bind, gets, on_device_linking_otps, on_devices, zoom, ret.
  cbn beta iota zeta. destruct (update_returning _ _ _ _) as [[rows|x] t]; [|exact Hk].
  destruct (bool_decide _); [exact Hk|]. cbn [devices].
  destruct (insert_returning _ _ _) as [[new|x] t'] eqn:Hi; [|exact Hk].
  apply insert_returning_app in Hi as [-> ->]. unfold lift. destruct (required_row _); [|exact Hk].
  intros r [Hr|Hr]%elem_of_app; [by apply Hk|]. by apply list_elem_of_fmap in Hr as (acc&->&_).
Qed.

(** ** The registration store *)
Definition held (w w' : DeviceWorld Db) : Prop := keeps held_keyed (dw_registrations w) (dw_registrations w').

#[export] Instance held_preorder : PreOrder held.
Proof. split; unfold held; [intros w; reflexivity|intros x y z ? ?; by etrans]. Qed.

Lemma held_stores {A} (m : M Db A) : respects held (stores m).
Proof. intros w. unfold held, stores. rewrite zoom_snd. reflexivity. Qed.
Lemma held_bootstrap {A} (m : M BootstrapStateStore A) : respects held (bootstrap (S := Db) m).
Proof. intros w. unfold held, bootstrap. rewrite zoom_snd. reflexivity. Qed.
Lemma held_registrations {A} (m : M RegistrationChallengeStore A) :
  respects (keeps held_keyed) m → respects held (registrations (S := Db) m).
Proof. intros Hm w. unfold held, registrations. rewrite zoom_snd. apply Hm. Qed.

(** Forgetting challenges, and failing one, keep the rest. *)
Lemma held_del i s : held_keyed s → held_keyed (Registration.set_states (dict_del i) s).
Proof. intros Hs j state Hin%dict_del_elem. by apply (Hs j). Qed.

Lemma held_set i state s : keyed_state state → held_keyed s → held_keyed (Registration.set_states (dict_set i state) s).
Proof. intros Hk Hs j st [[_ ->]|Hin]%dict_set_elem; [done|]. by apply (Hs j). Qed.

Lemma held_get_state i state s : held_keyed s → dict_get i (rcs_states s) = Some state → keyed_state state.
Proof. intros Hs Hg%dict_get_Some_In. by apply (Hs i). Qed.

Lemma get_keyed i now s o s' :
  Registration.get i now s = (Ok o, s') → held_keyed s → held_keyed s' ∧ ∀ state, o = Some state → keyed_state state.
Proof.
  unfold Registration.get, bind, gets, modify, ret. intros Hg Hs. destruct (dict_get i _) as [state|] eqn:Hd; [|by simplify_eq].
  apply held_get_state in Hd; [|done]. destruct (Registration.expired _ _); simplify_eq; (split; [|by intros ? [= <-]]); [|done].
  by apply held_del.
Qed.

Lemma consume_keyed i now s o s' :
  Registration.consume i now s = (Ok o, s') → held_keyed s → held_keyed s' ∧ ∀ state, o = Some state → keyed_state state.
Proof.
  unfold Registration.consume, bind, gets, modify, ret. intros Hg Hs.
  destruct (dict_get i _) as [state|] eqn:Hd; [|simplify_eq; split; [by apply held_del|done]].
  apply held_get_state in Hd; [|done].
  destruct (Registration.expired _ _); simplify_eq; (split; [by apply held_del|by intros ? [= <-]]).
Qed.

Lemma failed_keyed i now : respects (keeps held_keyed) (Registration.mark_failed i now).
Proof.
  intros s Hs. unfold Registration.mark_failed, bind, gets, modify, ret. destruct (dict_get i _) as [state|] eqn:Hd; [|done].
  apply held_get_state in Hd; [|done]. destruct (Registration.expired _ _); [by apply held_del|by apply held_set].
Qed.

Section services.
Context `{Cryptography} `{UnicodeDatabase} (auth_user : UUID → bool) (secret : bytes).
#[local] Instance keys_accounts : AccountStore Db := pg_accounts auth_user.
#[local] Instance keys_limiter : LimiterStore Db := persistent_limiter secret.
Context (cfg : DeviceAuthConfig).

(** The fingerprint of a new challenge is computed from its key, which has to
    be in its canonical form. *)
Lemma issue_keyed i nonce account d key label origin fallback method otp linked at_ :
  respects (keeps held_keyed) (Registration.issue i nonce account d key label origin fallback method otp linked at_).
Proof.
  intros s Hs. unfold Registration.issue, bind, lift, gets, modify, ret. unfold fingerprint_public_key.
  destruct (canonical_public_key key) as [canonical|] eqn:Hc; [|done]. cbn [snd]. apply held_set; [|done].
  unfold keyed_state. simpl. unfold canonical_public_key in Hc. repeat case_match; simplify_eq. to_prop.
  by match goal with H : ¬ (public_bytes _ ≠ _) |- _ => apply dec_stable in H as -> end.
Qed.
#[local] Hint Resolve held_stores held_bootstrap held_registrations issue_keyed failed_keyed : respects.

Lemma held_registration_challenge app_origin hs now d payload :
  respects held (registration_challenge (S := Db) cfg app_origin hs now d payload).
Proof. unfold registration_challenge, admitted_body, refused_as, issue_registration_challenge. walk. Qed.
Lemma held_linking_otp now db_now number i ev session host :
  respects held (create_linking_otp (S := Db) cfg now db_now number i ev session host).
Proof. unfold create_linking_otp, limited_or, issue_linking_otp. walk. Qed.
Lemma held_linking_challenge app_origin hs now db_now d host payload :
  respects held (linking_challenge (S := Db) cfg app_origin hs now db_now d host payload).
Proof. unfold linking_challenge, admitted_body, limited_or, issue_linking_challenge. walk. Qed.
Lemma held_login_challenge app_origin hs now db_now d a dev :
  respects held (issue_login_challenge_route (S := Db) app_origin hs now db_now d a dev).
Proof. unfold issue_login_challenge_route, admitted_body, refused_as, issue_login_challenge. walk. Qed.
Lemma held_login app_origin hs current db_now d payload :
  respects held (complete_login_challenge_route (S := Db) app_origin hs current db_now d payload).
Proof. unfold complete_login_challenge_route, admitted_body, refused_as, complete_login_challenge. walk. Qed.
Lemma held_list app_origin hs session : respects held (list_devices (S := Db) app_origin hs session).
Proof. unfold list_devices. walk. Qed.
Lemma held_rename session dev label : respects held (rename_device_route (S := Db) session dev label).
Proof. unfold rename_device_route, refused_as. walk. Qed.

(** ** Completing a login or an enrolment *)
Definition bound_world (w : DeviceWorld Db) : Prop := keyed_tables (dw_stores w) ∧ held_keyed (dw_registrations w).

Lemma bound_calls {A} (m : M (DeviceWorld Db) A) :
  respects (device_calls settled) m → respects held m → respects (keeps bound_world) m.
Proof. intros Hs Hh w [Hk Hr]. split; [by apply (settled_keyed _ _ (Hs w))|by apply Hh]. Qed.

(** [m] keeps the keys, and [Q] holds of its results. *)
Definition bound_then {A} (Q : A → Prop) (m : M (DeviceWorld Db) A) : Prop :=
  ∀ w, bound_world w → bound_world (m w).2 ∧ ∀ a, (m w).1 = Ok a → Q a.

Lemma bound_bind {A B} (Q : A → Prop) (m : M (DeviceWorld Db) A) (k : A → M (DeviceWorld Db) B) :
  bound_then Q m → (∀ a, Q a → respects (keeps bound_world) (k a)) → respects (keeps bound_world) (bind m k).
Proof.
  intros Hm Hk w Hw. destruct (Hm w Hw) as [Hw' HQ]. unfold bind. destruct (m w) as [[a|e] w']; [|done].
  by apply (Hk a (HQ a eq_refl)).
Qed.

Lemma bound_any {A} (m : M (DeviceWorld Db) A) : respects (keeps bound_world) m → bound_then (λ _, True) m.
Proof. intros Hm w Hw. by split; [apply Hm|]. Qed.

Lemma bound_stores {A} (m : M Db A) : respects (keeps keyed_tables) m → respects (keeps bound_world) (stores m).
Proof.
  intros Hm w [Hk Hr]. unfold stores, zoom. specialize (Hm _ Hk). destruct (m (dw_stores w)) as [o t]. by split.
Qed.

Lemma bound_settled {A} (m : M Db A) : respects settled m → respects (keeps bound_world) (stores m).
Proof. intros Hm. apply bound_stores. intros db. by apply settled_keyed, Hm. Qed.

Lemma bound_registrations {A} (Q : A → Prop) (m : M RegistrationChallengeStore A) :
  (∀ s, held_keyed s → held_keyed (m s).2 ∧ ∀ a, (m s).1 = Ok a → Q a) → bound_then Q (registrations (S := Db) m).
Proof.
  intros Hm w [Hk Hr]. unfold registrations, zoom. destruct (Hm _ Hr) as [Hr' HQ].
  by destruct (m (dw_registrations w)) as [o t].
Qed.

Lemma bound_get i now :
  bound_then (λ o, ∀ state, o = Some state → keyed_state state) (registrations (S := Db) (Registration.get i now)).
Proof.
  apply bound_registrations. intros s Hs. destruct (Registration.get i now s) as [[o|e] s'] eqn:Hg.
  - apply get_keyed in Hg as [? ?]; [|done]. split; [done|]. by intros ? [= <-].
  - by unfold Registration.get, bind, gets, modify, ret in Hg; repeat case_match; simplify_eq.
Qed.

Lemma bound_consume i now :
  bound_then (λ o, ∀ state, o = Some state → keyed_state state) (registrations (S := Db) (Registration.consume i now)).
Proof.
  apply bound_registrations. intros s Hs. destruct (Registration.consume i now s) as [[o|e] s'] eqn:Hg.
  - apply consume_keyed in Hg as [? ?]; [|done]. split; [done|]. by intros ? [= <-].
  - by unfold Registration.consume, bind, gets, modify, ret in Hg; repeat case_match; simplify_eq.
Qed.

Lemma bound_failed i now : respects (keeps bound_world) (registrations (S := Db) (Registration.mark_failed i now)).
Proof.
  intros w Hw. apply (bound_registrations (λ _, True)); [|done]. intros s Hs. split; [by apply failed_keyed|done].
Qed.

Lemma settled_create_session now id e a d ep issued absolute :
  respects settled (create_session (R := Db) now id e a d ep issued absolute).
Proof.
  assert (∀ now i a d th ch e idle ab, respects settled (create_row (R := Db) now i a d th ch e idle ab)) as Hc
    by (intros; apply sessions_create_step).
  unfold create_session. walk.
Qed.

Lemma settled_audit db_now i ty o now a d n details :
  respects settled (_audit_device_event (S := Db) cfg db_now i ty o now a d n details).
Proof. unfold _audit_device_event. simpl. walk. Qed.
#[local] Hint Resolve settled_create_session settled_audit : respects.

(** A claimed challenge registers its own key. *)
Lemma claimed_keyed now db_now account claimed :
  keyed_state claimed → respects (keeps keyed_tables) (register_claimed (S := Db) now db_now account claimed).
Proof.
  intros Hk. unfold register_claimed. destruct (rc_linking_otp_id _).
  - apply respects_bind; [apply _|by apply redeem_keyed|walk].
  - apply respects_bind; [apply _|by apply register_keyed|]. intros device.
    destruct (rc_fallback _); [|walk]. apply respects_bind; [apply _| |walk].
    intros db. apply settled_keyed. simpl. apply (service_fallback (R := settled)).
Qed.

#[local] Hint Resolve bound_settled bound_failed : respects.

Lemma registration_keyed now db_now d i signature origin :
  respects (keeps bound_world) (complete_registration (S := Db) cfg now db_now d i signature origin).
Proof.
  unfold complete_registration. apply (bound_bind _ _ _ (bound_get i now)). intros [state|] _; [|walk].
  destruct (_ || _); [walk|]. apply respects_bind; [apply _|walk|]. intros valid.
  destruct valid; cbn [negb]; [|simpl; walk].
  apply (bound_bind _ _ _ (bound_consume i now)). intros [claimed|] Hk; [|walk]. specialize (Hk claimed eq_refl).
  apply respects_bind; [apply _|simpl; unfold Accounts.Pg.get_by_id; walk|]. intros [account|]; [|walk].
  destruct (bool_decide _); [walk|].
  apply respects_bind; [apply _|by apply bound_stores, claimed_keyed|]. intros [[device fallback] event]. walk.
Qed.

Lemma enrollment_keyed app_origin hs now db_now d payload :
  respects (keeps bound_world) (complete_enrollment (S := Db) cfg app_origin hs now db_now d payload).
Proof. pose proof registration_keyed. unfold complete_enrollment, admitted_body, refused_as. walk. Qed.

Lemma login_settled app_origin hs current db_now d payload :
  respects (device_calls settled) (complete_login_challenge_route (S := Db) app_origin hs current db_now d payload).
Proof.
  unfold complete_login_challenge_route, admitted_body, refused_as, complete_login_challenge. simpl.
  unfold Accounts.Pg.get_by_id, Devices.Pg.get_by_id, Challenges.Pg.get_by_id. walk.
Qed.
End services.

(** ** The routes *)

(** The tables are well-formed, and a fingerprint is the digest of the key it
    is stored with, in each device and each held challenge. *)
Definition bound (a : Application) : Prop :=
  well_formed (ap_database a) ∧ rows_keyed (ap_database a) ∧ held_keyed (ap_registrations a).

Section application.
Context `{Cryptography} `{UnicodeDatabase} (auth_user : UUID → bool) (secret : bytes) (app_origin : pystr).
#[local] Instance bound_accounts : AccountStore Db := pg_accounts auth_user.
#[local] Instance bound_limiter : LimiterStore Db := persistent_limiter secret.

Lemma bound_part a a' :
  ap_registrations a' = ap_registrations a → settled (ap_database a) (ap_database a') → keeps bound a a'.
Proof. intros Hr Hs (Hwf&Hk&Hh). destruct (settled_keyed _ _ Hs (conj Hwf Hk)). unfold bound. by rewrite Hr. Qed.

Lemma k_database {A} (m : M Db A) : respects settled m → respects (keeps bound) (on_database m).
Proof. intros Hm a. apply bound_part; unfold on_database; rewrite zoom_snd; [done|apply Hm]. Qed.
Lemma k_world {A} (m : M (World Db) A) : respects (calls settled) m → respects (keeps bound) (in_world m).
Proof.
  intros Hm a. apply bound_part; unfold in_world; rewrite zoom_snd; [done|].
  apply (Hm (Build_World (ap_presence a) (ap_database a))).
Qed.
Lemma k_otp {A} (m : M (AuthWorld Db) A) : respects (otp_calls settled) m → respects (keeps bound) (in_otp_service m).
Proof.
  intros Hm a. apply bound_part; unfold in_otp_service; rewrite zoom_snd; [done|].
  apply (Hm (Build_AuthWorld (ap_database a) (ap_bootstrap a))).
Qed.
Lemma k_device {A} (m : M (DeviceWorld Db) A) : respects (keeps bound_world) m → respects (keeps bound) (in_device_service m).
Proof.
  intros Hm a (Hwf&Hk&Hh). unfold in_device_service. rewrite zoom_snd.
  destruct (Hm (Build_DeviceWorld (ap_database a) (ap_bootstrap a) (ap_registrations a)) (conj (conj Hwf Hk) Hh)) as [[? ?] ?].
  by split_and!.
Qed.
Lemma k_calls {A} (m : M (DeviceWorld Db) A) :
  respects (device_calls settled) m → respects held m → respects (keeps bound) (in_device_service m).
Proof. intros. by apply k_device, bound_calls. Qed.
#[local] Hint Resolve k_database k_world k_otp k_calls : respects.
#[local] Hint Resolve o_start o_verify d_registration_challenge d_linking_otp d_linking_challenge d_login_challenge
  d_list_devices d_rename login_settled : respects.
#[local] Hint Resolve held_registration_challenge held_linking_otp held_linking_challenge held_login_challenge held_login
  held_list held_rename : respects.

Lemma serve_bound s r : respects (keeps bound) (serve auth_user secret app_origin s r).
Proof.
  destruct r; unfold serve, serve_on, no_cookie, sets_cookie, with_csrf, with_session; try solve [walk].
  apply respects_bind; [apply _|apply k_device, enrollment_keyed|walk].
Qed.
End application.
