(* ===== verification/Isolation.v ===== *)
(** * Isolation: calls for one account leave the others' rows alone

    [others a db] is the database without the rows of account [a]; [isolated]
    says a run left it as it was.  It satisfies [AccountCalls], so it holds of
    every service and route that acts for the account of a session. *)
From Stdlib.Strings Require Import Byte.
From S2P Require Import Prelude PyDict Json Models Sql Tables Schema Hashing Security Sessions RateLimits.
From S2P Require Import TransferPort TransferRepository Integrity History Signaling Presence Socket.
From S2P Require Import SocketInvariant TransferService RouteCalls.
From S2P Require Import Accounts Devices Challenges LinkingOtps Tickets Events.
From stdpp Require Import list strings.

(** ** Statements and filters *)
Lemma filter_same {Row} (p : Row → bool) (f : Row → Row) t :
  (∀ r, r ∈ t → p (f r) = p r ∧ (p r = true → f r = r)) → List.filter p (map f t) = List.filter p t.
Proof.
  induction t as [|r t IH]; simpl; [done|]. intros Hf. destruct (Hf r ltac:(left)) as [Hp Hr]. rewrite Hp.
  rewrite IH by (intros x Hx; apply Hf; by right). destruct (p r); [|done]. by rewrite Hr.
Qed.

Lemma filter_update {Row} (p : Row → bool) check cond set t :
  (∀ r, cond r = true → p r = false ∧ p (set r) = false) →
  List.filter p (update_returning check cond set t).2 = List.filter p t.
Proof.
  intros Hc. destruct (update_table check cond set t) as [->| ->]; [done|]. apply filter_same. intros r _.
  destruct (cond r) eqn:Hr; [|done]. destruct (Hc r Hr) as [-> ->]. done.
Qed.

Lemma filter_insert {Row} (p : Row → bool) admits new t :
  (∀ r, r ∈ new → p r = false) → List.filter p (insert_returning admits new t).2 = List.filter p t.
Proof.
  intros Hn. destruct (insert_returning admits new t) as [[rows|e] t'] eqn:Hi.
  - apply insert_returning_app in Hi as [_ ->]. simpl. rewrite List.filter_app.
    assert (List.filter p new = []) as ->; [|apply app_nil_r].
    induction new as [|r new IH]; simpl; [done|]. rewrite (Hn r) by left. apply IH. intros x Hx. apply Hn. by right.
  - by apply insert_returning_raise in Hi as ->.
Qed.

Lemma keys_update {Row K} (key : Row → K) (p : Row → bool) check cond set t :
  (∀ r, key (set r) = key r ∧ p (set r) = p r) →
  map key (List.filter p (update_returning check cond set t).2) = map key (List.filter p t).
Proof.
  intros Hk. destruct (update_table check cond set t) as [->| ->]; [done|]. unfold update_set.
  induction t as [|r t IH]; simpl; [done|]. destruct (Hk r) as [Hkey Hp].
  destruct (cond r); rewrite ?Hp; destruct (p r); simpl; by rewrite ?IH, ?Hkey.
Qed.

(** ** The rows of the other accounts *)
Section account.
Context (a : UUID).

Definition foreign (owner : UUID) : bool := negb (bool_decide (owner = a)).

(** The account's sessions, to which its tickets refer. *)
Definition own_sessions (db : Db) : list UUID :=
  map ses_id (List.filter (λ s, bool_decide (ses_user_id s = a)) (app_sessions db)).

Definition others (db : Db) : Db :=
  {| app_users := app_users db;
     devices := List.filter (λ r, foreign (dev_user_id r)) (devices db);
     app_sessions := List.filter (λ r, foreign (ses_user_id r)) (app_sessions db);
     device_challenges := device_challenges db;
     device_linking_otps := List.filter (λ r, foreign (otp_user_id r)) (device_linking_otps db);
     transfer_requests := List.filter (λ r, foreign (tr_user_id r)) (transfer_requests db);
     websocket_tickets := List.filter (λ r, negb (bool_decide (tkt_session_id r ∈ own_sessions db))) (websocket_tickets db);
     security_events := List.filter (λ r, negb (bool_decide (ev_user_id r = Some a))) (security_events db);
     rate_limit_buckets := [] |}.

Definition isolated (db db' : Db) : Prop := others db' = others db ∧ own_sessions db' = own_sessions db.

#[export] Instance isolated_preorder : PreOrder isolated.
Proof. split; [by intros db|]. intros x y z [? ?] [? ?]. split; congruence. Qed.

Lemma foreign_own owner : foreign owner = false ↔ owner = a.
Proof. unfold foreign. rewrite negb_false_iff. apply bool_decide_eq_true. Qed.

(** A statement on one table. *)
#[local] Ltac one_table Hm :=
  intros Hm db; split;
  [unfold others, on_devices, on_device_linking_otps, on_transfer_requests, on_websocket_tickets, on_security_events,
     on_rate_limit_buckets, own_sessions; rewrite zoom_snd; simpl; by rewrite ?Hm
  |unfold on_devices, on_device_linking_otps, on_transfer_requests, on_websocket_tickets, on_security_events,
     on_rate_limit_buckets; by rewrite zoom_snd].

Lemma isolated_devices {A} (m : M (list DeviceRecord) A) :
  (∀ t, List.filter (λ r, foreign (dev_user_id r)) (m t).2 = List.filter (λ r, foreign (dev_user_id r)) t) →
  respects isolated (on_devices m).
Proof. one_table Hm. Qed.
Lemma isolated_otps {A} (m : M (list DeviceLinkingOtpRecord) A) :
  (∀ t, List.filter (λ r, foreign (otp_user_id r)) (m t).2 = List.filter (λ r, foreign (otp_user_id r)) t) →
  respects isolated (on_device_linking_otps m).
Proof. one_table Hm. Qed.
Lemma isolated_transfers {A} (m : M (list TransferRequestRecord) A) :
  (∀ t, List.filter (λ r, foreign (tr_user_id r)) (m t).2 = List.filter (λ r, foreign (tr_user_id r)) t) →
  respects isolated (on_transfer_requests m).
Proof. one_table Hm. Qed.
Lemma isolated_events {A} (m : M (list SecurityEventRecord) A) :
  (∀ t, List.filter (λ r, negb (bool_decide (ev_user_id r = Some a))) (m t).2 =
     List.filter (λ r, negb (bool_decide (ev_user_id r = Some a))) t) →
  respects isolated (on_security_events m).
Proof. one_table Hm. Qed.
Lemma isolated_buckets {A} (m : M (list RateLimitBucketRecord) A) : respects isolated (on_rate_limit_buckets m).
Proof. intros db. split; unfold on_rate_limit_buckets; by rewrite zoom_snd. Qed.

(** The account's own sessions stay its own under an update. *)
Lemma isolated_sessions cond set :
  (∀ r, cond r = true → ses_user_id r = a) → (∀ r, ses_id (set r) = ses_id r ∧ ses_user_id (set r) = ses_user_id r) →
  respects isolated (Sessions.Pg.update cond set).
Proof.
  intros Hc Hset db. unfold Sessions.Pg.update, on_app_sessions.
  assert (own_sessions (zoom app_sessions (λ t db, Build_Db (app_users db) (devices db) t (device_challenges db)
    (device_linking_otps db) (transfer_requests db) (websocket_tickets db) (security_events db) (rate_limit_buckets db))
    (update_returning session_check cond set) db).2 = own_sessions db) as Hown.
  { unfold own_sessions. rewrite zoom_snd. simpl. apply keys_update. intros r. destruct (Hset r) as [-> ->]. done. }
  split; [|done]. unfold others. rewrite Hown, zoom_snd. simpl. f_equal.
  apply filter_update. intros r Hr. destruct (Hset r) as [_ ->]. by rewrite foreign_own, (Hc r Hr).
Qed.

(** ** The calls of an account *)

(** The clause that names the account makes the row its own. *)
#[local] Ltac own := unfold Devices.Pg.owned, Sessions.Pg.owned, TransferRepository.Pg.transition_where,
  TransferRepository.Pg.relay_where in *; to_prop; rewrite ?foreign_own; auto.
#[local] Ltac session_call := walk; apply isolated_sessions; intros r; [intros Hr; own|done].

Lemma i_session_touch now i : respects isolated (Sessions.Pg.touch_last_seen now a i).
Proof. unfold Sessions.Pg.touch_last_seen. session_call. Qed.
Lemma i_session_csrf now i h : respects isolated (Sessions.Pg.replace_csrf_hash now a i h).
Proof. unfold Sessions.Pg.replace_csrf_hash. session_call. Qed.
Lemma i_session_revoke now i reason : respects isolated (Sessions.Pg.revoke now a i reason).
Proof. unfold Sessions.Pg.revoke, Sessions.Pg.revoke_where. session_call. Qed.
Lemma i_sessions_revoke now d reason : respects isolated (Sessions.Pg.revoke_for_device now a d reason).
Proof. unfold Sessions.Pg.revoke_for_device, Sessions.Pg.revoke_where. session_call. Qed.

Lemma isolated_device_update cond set :
  (∀ r, cond r = true → dev_user_id r = a) → (∀ r, dev_user_id (set r) = dev_user_id r) →
  respects isolated (Devices.Pg.update cond set).
Proof.
  intros Hc Hset. apply isolated_devices. intros db. apply filter_update. intros r Hr. by rewrite Hset, !foreign_own, (Hc r Hr).
Qed.

Lemma i_device_rename d l : respects isolated (Devices.Pg.rename a d l).
Proof. unfold Devices.Pg.rename. walk. apply isolated_device_update; [|done]. intros r Hr. own. Qed.
Lemma i_device_logout now d reason : respects isolated (Devices.Pg.logout_with_sessions now a d reason).
Proof.
  unfold Devices.Pg.logout_with_sessions, Devices.Pg.with_sessions. apply (transaction_step _).
  apply respects_bind; [apply _| |intros rows; destruct (first_row rows); [|walk]].
  - apply isolated_device_update; [|done]. intros r Hr. own.
  - apply respects_bind; [apply _|apply i_sessions_revoke|walk].
Qed.

(** An [INSERT ... SELECT] of the account's own rows. *)
Lemma isolated_insert {Row} (on_table : M (list Row) (list Row) → M Db (list Row)) admits (p : Row → bool) rows :
  (∀ m, (∀ t, List.filter p (m t).2 = List.filter p t) → respects isolated (on_table m)) →
  (∀ db r, r ∈ rows db → p r = false) →
  respects isolated (let! new := gets rows in let! got := on_table (insert_returning admits new) in lift (required_row got)).
Proof.
  intros Hon Hrows db. unfold bind at 1, gets. cbn [fst snd].
  assert (respects isolated (let! got := on_table (insert_returning admits (rows db)) in lift (required_row got))) as Hr; [|apply Hr].
  apply respects_bind; [apply _| |walk]. apply Hon. intros t. apply filter_insert, Hrows.
Qed.

Lemma i_otp_create now i d h e : respects isolated (LinkingOtps.Pg.create now i a d h e).
Proof.
  apply (isolated_insert _ _ _ _ (@isolated_otps _)). intros db r Hr. unfold LinkingOtps.Pg.create_rows in Hr.
  apply list_elem_of_bind in Hr as (acc&Hr&Hacc). apply list_elem_of_bind in Hr as (dev&->%list_elem_of_singleton&_).
  apply list_elem_of_In, filter_In in Hacc as [_ Hacc]. simpl. own.
Qed.

Lemma i_transfer_create at_ i d1 d2 v e : respects isolated (TransferRepository.Pg.create at_ i a d1 d2 v e).
Proof.
  apply (isolated_insert _ _ _ _ (@isolated_transfers _)). intros db r Hr. unfold TransferRepository.Pg.create_rows in Hr.
  apply list_elem_of_bind in Hr as (acc&Hr&Hacc). apply list_elem_of_bind in Hr as (x&Hr&_).
  apply list_elem_of_bind in Hr as (y&->%list_elem_of_singleton&_).
  apply list_elem_of_In, filter_In in Hacc as [_ Hacc]. simpl. own.
Qed.

Lemma i_event now i t o e d fp details : respects isolated (Events.Pg.create now i t o e (Some a) d fp details).
Proof.
  unfold Events.Pg.create. destruct (Events.Pg.has_nan _); [walk|]. apply (isolated_insert _ _ _ _ (@isolated_events _)).
  intros db r Hr. destruct (Events.Pg.associated _ _ _); [|by apply not_elem_of_nil in Hr].
  apply list_elem_of_singleton in Hr as ->. simpl. by rewrite bool_decide_true.
Qed.

Lemma i_ticket_create now i s h e : respects isolated (Tickets.Pg.create now i a s h e).
Proof.
  intros db. unfold Tickets.Pg.create, bind at 1, gets. cbn [fst snd].
  set (new := Tickets.Pg.create_rows now i a s h e db).
  assert (∀ r, r ∈ new → tkt_session_id r ∈ own_sessions db) as Hnew.
  { intros r Hr. unfold new, Tickets.Pg.create_rows in Hr. apply list_elem_of_bind in Hr as (ses&Hr&Hses).
    apply list_elem_of_bind in Hr as (acc&Hr&Hacc). apply list_elem_of_bind in Hr as (dev&->%list_elem_of_singleton&_).
    apply list_elem_of_In, filter_In in Hacc as [_ Hacc], Hses as [Hses _]. to_prop. simpl.
    apply list_elem_of_fmap. exists ses. split; [done|]. apply list_elem_of_In, filter_In. split; [done|].
    apply bool_decide_eq_true. congruence. }
  unfold bind at 1, on_websocket_tickets. destruct (zoom _ _ _ db) as [o db'] eqn:Hz.
  assert (isolated db db') as Hi; [|by destruct o].
  unfold zoom in Hz. pose proof (filter_insert (λ r, negb (bool_decide (tkt_session_id r ∈ own_sessions db))) ticket_admits new
    (websocket_tickets db)) as Hf.
  destruct (insert_returning ticket_admits new (websocket_tickets db)) as [o' t]. injection Hz as <- <-.
  split; [|done]. unfold others, own_sessions. simpl. f_equal. apply Hf. intros r Hr. apply negb_false_iff, bool_decide_eq_true. auto.
Qed.

Lemma i_transition at_ i from to unexpired actor role code :
  respects isolated (TransferRepository.Pg._transition at_ a i from to unexpired actor role code).
Proof.
  unfold TransferRepository.Pg._transition. apply respects_bind; [apply _|walk|]. intros db.
  apply respects_bind; [apply _| |walk]. apply isolated_transfers. intros t. apply filter_update. intros r Hr.
  unfold TransferRepository.Pg.transition_set, tr_replace. simpl. own.
Qed.

Lemma i_relay at_ i : respects isolated (TransferRepository.Pg.mark_relay_used at_ a i).
Proof.
  unfold TransferRepository.Pg.mark_relay_used. walk. apply isolated_transfers. intros t. apply filter_update. intros r Hr. simpl. own.
Qed.

Lemma i_limit secret now requests : respects isolated (RateLimits.Pg.allow_many secret now requests).
Proof.
  unfold RateLimits.Pg.allow_many. apply respects_bind; [apply _|walk|]. intros encoded. unfold RateLimits.Pg.consume_many.
  destruct (bool_decide _); [walk|]. destruct (existsb _ _); [walk|]. apply (transaction_step _), isolated_buckets.
Qed.

#[export] Instance isolated_account : AccountCalls isolated a.
Proof.
  split; intros; first [apply _|apply i_session_touch|apply i_session_csrf|apply i_session_revoke|apply i_device_rename
    |apply i_device_logout|apply i_otp_create|apply i_ticket_create|apply i_event|apply i_limit|apply i_transfer_create
    |apply i_transition|apply i_relay].
Qed.
End account.
