(* ===== verification/Config.v ===== *)
(** * Config: [app/config.py] and the adapters [app/main.py] builds from it

    The settings read from the environment, [urllib.parse.urlsplit] as far as
    they use it, and the adapters the application starts with.  [UrlLibrary]
    stands for the validation of a URL's authority by the standard library
    (brackets and NFKC), [UnicodeDatabase] for its character tables. *)
From S2P Require Import Prelude PyDict Json Auth Adapters.
From stdpp Require Import list strings.

(** An exception ends the function. *)
Declare Scope config_scope.
Notation "'let?' x := o 'in' k" := (match o with Ok x => k | Raise e => Raise e end)
  (at level 200, x name, o at level 100, k at level 200) : config_scope.
#[local] Open Scope config_scope.

Definition _DEFAULT_APP_ENV : string := "development".
Definition _DEFAULT_LOG_LEVEL : string := "INFO".
Definition _DEFAULT_AUTH_ADAPTER : string := "fake".
Definition _DEFAULT_TURN_ADAPTER : string := "fake".
Definition _DEFAULT_RATE_LIMIT_SECRET : string := "local-development-rate-limit-secret".

Definition _APP_ENVIRONMENTS : list string := ["development"; "test"; "production"].
Definition _LOG_LEVELS : list string := ["DEBUG"; "INFO"; "WARNING"; "ERROR"; "CRITICAL"].
Definition _AUTH_ADAPTERS : list string := ["supabase"; "fake"].
Definition _TURN_ADAPTERS : list string := ["cloudflare"; "fake"; "disabled"].

(** ** [urllib.parse.urlsplit] *)
Record SplitResult := {
  sr_scheme : pystr;
  sr_netloc : pystr;
  sr_path : pystr;
  sr_query : pystr;
  sr_fragment : pystr }.

(** [s.partition(c)]: the text before, and after if [c] occurs. *)
Fixpoint partition_at (c : N) (s : pystr) : pystr * option pystr :=
  match s with
  | [] => ([], None)
  | x :: s' => if (x =? c)%N then ([], Some s')
               else let '(before, after) := partition_at c s' in (x :: before, after)
  end.

(** [s.rpartition(c)[2]] *)
Definition after_last (c : N) (s : pystr) : pystr := rev (fst (partition_at c (rev s))).

(** Leading controls and spaces, and every tab and line break, are dropped. *)
Definition cleaned (url : pystr) : pystr :=
  List.filter (λ c, negb ((c =? 9) || (c =? 10) || (c =? 13))%N) (drop_while (λ c, c <=? 32)%N url).

Definition split_scheme (url : pystr) : pystr * pystr :=
  match before_colon url with
  | Some ((c :: _) as name, rest) =>
      if is_alpha c && forallb scheme_char name then (map lower name, rest) else ([], url)
  | _ => ([], url)
  end.

Section settings.
Context `{UnicodeDatabase} `{UrlLibrary}.

Definition split_netloc (url : pystr) : outcome (pystr * pystr) :=
  match url with
  | 47%N :: 47%N :: rest =>
      let netloc := take_netloc rest in
      if netloc_ok netloc then Ok (netloc, drop (length netloc) rest) else Raise ValueError
  | _ => Ok ([], url)
  end.

Definition urlsplit (url : pystr) : outcome SplitResult :=
  let '(scheme, url) := split_scheme (cleaned url) in
  match split_netloc url with
  | Raise e => Raise e
  | Ok (netloc, url) =>
      let '(url, fragment) := partition_at 35 url in
      let '(path, query) := partition_at 63 url in
      Ok {| sr_scheme := scheme; sr_netloc := netloc; sr_path := path; sr_query := default [] query;
            sr_fragment := default [] fragment |}
  end.

(** [parsed.username]: [None] without an at sign. *)
Definition has_userinfo (netloc : pystr) : bool := bool_decide (64%N ∈ netloc).

(** [_hostinfo]: the host, and the port if it is not empty. *)
Definition _hostinfo (netloc : pystr) : pystr * option pystr :=
  let hostinfo := after_last 64 netloc in
  let '(hostname, port) :=
    match partition_at 91 hostinfo with
    | (_, Some bracketed) =>
        let '(hostname, after) := partition_at 93 bracketed in
        (hostname, snd (partition_at 58 (default [] after)))
    | (_, None) => partition_at 58 hostinfo
    end in
  (hostname, match port with Some [] => None | p => p end).

(** [parsed.port] *)
Definition url_port (netloc : pystr) : outcome (option Z) :=
  match snd (_hostinfo netloc) with
  | None => Ok None
  | Some digits =>
      if forallb (λ c, (48 <=? c) && (c <=? 57))%N digits then
        let port := fold_left (λ n c, n * 10 + Z.of_N (c - 48))%Z digits 0%Z in
        if (port <=? 65535)%Z then Ok (Some port) else Raise ValueError
      else Raise ValueError
  end.

(** ** Reading one variable *)
Definition environ : Type := dict string pystr.

Definition required_text (raw_value : pystr) : outcome pystr :=
  let value := Auth.strip raw_value in
  if bool_decide (value = []) then Raise ConfigurationError else Ok value.

Definition _value (env : environ) (name : string) (default_ : string) : outcome pystr :=
  match dict_get name env with None => Ok (u default_) | Some raw_value => required_text raw_value end.

Definition _optional_value (env : environ) (name : string) : outcome (option pystr) :=
  match dict_get name env with
  | None => Ok None
  | Some raw_value => let? value := required_text raw_value in Ok (Some value)
  end.

Definition _choice (env : environ) (name default_ : string) (allowed : list string) (lower_ : bool) :
    outcome string :=
  let? value := _value env name default_ in
  let normalized := if lower_ then casefold value else upper value in
  match List.find (λ choice, bool_decide (u choice = normalized)) allowed with
  | Some choice => Ok choice
  | None => Raise ConfigurationError
  end.

(** The host and the port, checked after the properties have been read. *)
Definition check_authority (netloc : pystr) : outcome unit :=
  match url_port netloc with
  | Raise _ => Raise ConfigurationError
  | Ok _ => if bool_decide (fst (_hostinfo netloc) = []) then Raise ConfigurationError else Ok tt
  end.

(** [value.rstrip("/")] *)
Definition rstrip_slash (value : pystr) : pystr := rev (drop_while (λ c, c =? 47)%N (rev value)).

Definition _origin (env : environ) (name : string) : outcome pystr :=
  let? value := _value env name "" in
  let? parsed := urlsplit value in
  if bool_decide (sr_scheme parsed ∉ map u ["http"; "https"]) || bool_decide (sr_netloc parsed = [])
  then Raise ConfigurationError
  else if has_userinfo (sr_netloc parsed) then Raise ConfigurationError
  else if bool_decide (sr_path parsed ∉ map u [""; "/"]) || negb (bool_decide (sr_query parsed = [])) ||
          negb (bool_decide (sr_fragment parsed = []))
  then Raise ConfigurationError
  else let? _ := check_authority (sr_netloc parsed) in Ok (rstrip_slash value).

Definition _database_url (env : environ) : outcome pystr :=
  let? value := _value env "DATABASE_URL" "" in
  let? parsed := urlsplit value in
  if bool_decide (sr_scheme parsed ∉ map u ["postgres"; "postgresql"]) || bool_decide (sr_netloc parsed = [])
  then Raise ConfigurationError
  else let? _ := check_authority (sr_netloc parsed) in
       if bool_decide (sr_fragment parsed = []) then Ok value else Raise ConfigurationError.

Definition _turn_secret (env : environ) (name : string) (required : bool) : outcome (option pystr) :=
  match dict_get name env with
  | None => if required then Raise ConfigurationError else Ok None
  | Some raw_value => let? value := required_text raw_value in Ok (Some value)
  end.

(** ** [Settings] *)
Record Settings := {
  app_env : string;
  app_origin : pystr;
  api_origin : pystr;
  database_url : pystr;
  log_level : string;
  auth_adapter_name : string;
  turn_adapter_name : string;
  rate_limit_secret : pystr;
  supabase_url : option pystr;
  supabase_publishable_key : option pystr;
  availability_probe_token : option pystr;
  cloudflare_turn_key_id : option pystr;
  cloudflare_turn_api_token : option pystr }.

(** [Settings.from_env], the keyword arguments of the constructor evaluated
    last, in their order. *)
Definition from_env (source : environ) : outcome Settings :=
  let? app_env := _choice source "APP_ENV" _DEFAULT_APP_ENV _APP_ENVIRONMENTS true in
  let? log_level := _choice source "LOG_LEVEL" _DEFAULT_LOG_LEVEL _LOG_LEVELS false in
  let? auth_adapter := _choice source "AUTH_ADAPTER" _DEFAULT_AUTH_ADAPTER _AUTH_ADAPTERS true in
  let? turn_adapter := _choice source "TURN_ADAPTER" _DEFAULT_TURN_ADAPTER _TURN_ADAPTERS true in
  let? rate_limit_secret := _value source "RATE_LIMIT_SECRET" _DEFAULT_RATE_LIMIT_SECRET in
  let? supabase_url := _optional_value source "SUPABASE_URL" in
  let? supabase_publishable_key := _optional_value source "SUPABASE_PUBLISHABLE_KEY" in
  let? availability_probe_token := _optional_value source "AVAILABILITY_PROBE_TOKEN" in
  let cloudflare := bool_decide (turn_adapter = "cloudflare") in
  let? cloudflare_turn_key_id := _turn_secret source "CLOUDFLARE_TURN_KEY_ID" cloudflare in
  let? cloudflare_turn_api_token := _turn_secret source "CLOUDFLARE_TURN_API_TOKEN" cloudflare in
  if bool_decide (app_env = "production") && (bool_decide (auth_adapter = "fake") || bool_decide (turn_adapter = "fake"))
  then Raise ConfigurationError
  else if bool_decide (auth_adapter = "supabase") && (is_null supabase_url || is_null supabase_publishable_key)
  then Raise ConfigurationError
  else
    let? app_origin := _origin source "APP_ORIGIN" in
    let? api_origin := _origin source "API_ORIGIN" in
    let? database_url := _database_url source in
    let? supabase_url := (match supabase_url with
                          | Some _ => let? url := _origin source "SUPABASE_URL" in Ok (Some url)
                          | None => Ok None
                          end) in
    Ok {| app_env := app_env; app_origin := app_origin; api_origin := api_origin; database_url := database_url;
          log_level := log_level; auth_adapter_name := auth_adapter; turn_adapter_name := turn_adapter;
          rate_limit_secret := rate_limit_secret; supabase_url := supabase_url;
          supabase_publishable_key := supabase_publishable_key;
          availability_probe_token := availability_probe_token; cloudflare_turn_key_id := cloudflare_turn_key_id;
          cloudflare_turn_api_token := cloudflare_turn_api_token |}.
Definition load_settings := from_env.

(** ** [lifespan]: the adapters the application starts with *)
Definition startup_adapters (settings : Settings) : outcome (auth_adapter * turn_adapter) :=
  let? auth_gateway := create_auth_gateway (app_env settings) (auth_adapter_name settings) (supabase_url settings)
                         (supabase_publishable_key settings) in
  let? turn_credential_provider := create_turn_credential_provider (app_env settings) (turn_adapter_name settings)
                                     (cloudflare_turn_key_id settings) (cloudflare_turn_api_token settings) in
  Ok (auth_gateway, turn_credential_provider).
End settings.
