(* ===== verification/Regex.v ===== *)
(** * Regex: the part of Python's [re] that [app/logging.py] uses

    Patterns over code points with repetition of single characters, named
    groups, back references, a negative look-behind and word boundaries; the
    backtracking matcher; and [re.sub].  The matcher is proved to find a match
    exactly when there is one, and [sub] to leave no position at which one
    begins. *)
From S2P Require Import Prelude PyDict Json.
From stdpp Require Import list strings.

(** The character tables [re] consults: the simple lower case of a character,
    whether it is white space, and whether it belongs to a word. *)
Class RegexDatabase := {
  tolower : N → N;
  is_space : N → bool;
  is_word : N → bool }.

(** ** Patterns *)
Inductive regex :=
| Epsilon
| Char (p : N → bool)
| Cat (r s : regex)
| Alt (r s : regex)
| Star (greedy : bool) (p : N → bool)
| Group (name : string) (r : regex)
| Back (name : string)
| NotAfter (p : N → bool)
| Boundary.

Definition Opt (p : N → bool) : regex := Alt (Char p) Epsilon.
Definition Plus (p : N → bool) : regex := Cat (Char p) (Star true p).

(** A position: the text before it, reversed, the text after it, and the
    groups matched so far. *)
Record position := {
  before : pystr;
  after : pystr;
  groups : dict string pystr }.

Definition advance (c : N) (rest : pystr) (st : position) : position :=
  {| before := c :: before st; after := rest; groups := groups st |}.

(** The text between two positions of a match. *)
Definition between (st st' : position) : pystr := take (length (after st) - length (after st')) (after st).

Definition set_group (name : string) (st st' : position) : position :=
  {| before := before st'; after := after st'; groups := dict_set name (between st st') (groups st') |}.

Fixpoint skip_text (text : pystr) (st : position) : option position :=
  match text with
  | [] => Some st
  | c :: text' =>
      match after st with
      | x :: rest => if (x =? c)%N then skip_text text' (advance x rest st) else None
      | [] => None
      end
  end.

Section matcher.
Context `{RegexDatabase}.

Definition at_boundary (st : position) : bool :=
  xorb (match before st with c :: _ => is_word c | [] => false end)
       (match after st with c :: _ => is_word c | [] => false end).

Definition after_none (p : N → bool) (st : position) : bool :=
  match before st with c :: _ => negb (p c) | [] => true end.

(** The repetition of a character: as many as possible first, or as few. *)
Fixpoint star {A} (greedy : bool) (p : N → bool) (k : position → option A) (bef : pystr) (rest : pystr)
    (gs : dict string pystr) : option A :=
  let here := k {| before := bef; after := rest; groups := gs |} in
  let more :=
    match rest with
    | c :: rest' => if p c then star greedy p k (c :: bef) rest' gs else None
    | [] => None
    end in
  if greedy then match more with Some a => Some a | None => here end
  else match here with Some a => Some a | None => more end.

Fixpoint run {A} (r : regex) (k : position → option A) (st : position) : option A :=
  match r with
  | Epsilon => k st
  | Char p => match after st with c :: rest => if p c then k (advance c rest st) else None | [] => None end
  | Cat r s => run r (run s k) st
  | Alt r s => match run r k st with Some a => Some a | None => run s k st end
  | Star greedy p => star greedy p k (before st) (after st) (groups st)
  | Group name r => run r (λ st', k (set_group name st st')) st
  | Back name =>
      match dict_get name (groups st) with
      | Some text => match skip_text text st with Some st' => k st' | None => None end
      | None => None
      end
  | NotAfter p => if after_none p st then k st else None
  | Boundary => if at_boundary st then k st else None
  end.

(** [pattern.match(text, pos)] *)
Definition match_at (r : regex) (st : position) : option position := run r Some st.

(** [pattern.sub(repl, text)] of a pattern that matches no empty text: the
    groups of each match give its replacement, and the scan goes on after it. *)
Fixpoint sub_from (fuel : nat) (r : regex) (repl : dict string pystr → pystr) (bef rest : pystr) : pystr :=
  match fuel, rest with
  | S fuel', c :: rest' =>
      match match_at r {| before := bef; after := rest; groups := [] |} with
      | Some st => repl (groups st) ++ sub_from fuel' r repl (before st) (after st)
      | None => c :: sub_from fuel' r repl (c :: bef) rest'
      end
  | _, _ => []
  end.
Definition sub (r : regex) (repl : dict string pystr → pystr) (text : pystr) : pystr :=
  sub_from (length text) r repl [] text.

(** ** What a pattern matches *)
Inductive matches : regex → position → position → Prop :=
| m_empty st : matches Epsilon st st
| m_char p st c rest : after st = c :: rest → p c = true → matches (Char p) st (advance c rest st)
| m_cat r s st st1 st2 : matches r st st1 → matches s st1 st2 → matches (Cat r s) st st2
| m_left r s st st' : matches r st st' → matches (Alt r s) st st'
| m_right r s st st' : matches s st st' → matches (Alt r s) st st'
| m_star_nil b p st : matches (Star b p) st st
| m_star_cons b p st c rest st' : after st = c :: rest → p c = true →
    matches (Star b p) (advance c rest st) st' → matches (Star b p) st st'
| m_group name r st st' : matches r st st' → matches (Group name r) st (set_group name st st')
| m_back name st text st' : dict_get name (groups st) = Some text → skip_text text st = Some st' →
    matches (Back name) st st'
| m_not_after p st : after_none p st = true → matches (NotAfter p) st st
| m_boundary st : at_boundary st = true → matches Boundary st st.

Lemma star_sound {A} b p (k : position → option A) rest bef gs a :
  star b p k bef rest gs = Some a →
  ∃ st', matches (Star b p) {| before := bef; after := rest; groups := gs |} st' ∧ k st' = Some a.
Proof.
  revert bef. induction rest as [|c rest IH]; intros bef; cbn [star].
  - intros Hs. assert (k {| before := bef; after := []; groups := gs |} = Some a) as Hk.
    { destruct b; [done|]. by destruct (k _). }
    eexists. split; [constructor|exact Hk].
  - intros Hs. assert (k {| before := bef; after := c :: rest; groups := gs |} = Some a ∨
      p c = true ∧ star b p k (c :: bef) rest gs = Some a) as [Hk|[Hp Hk]].
    { destruct b, (p c); try (destruct (star _ _ _ _ _ _) eqn:Hst); try destruct (k _) eqn:?; simplify_eq; auto. }
    + eexists. split; [constructor|exact Hk].
    + destruct (IH _ Hk) as (st'&Hm&Hk'). exists st'. split; [|done]. by eapply m_star_cons.
Qed.

Lemma star_complete {A} b p (k : position → option A) st st' :
  matches (Star b p) st st' → k st' ≠ None → star b p k (before st) (after st) (groups st) ≠ None.
Proof.
  intros Hm. remember (Star b p) as r eqn:Hr. revert Hr.
  induction Hm as [| | | | |b' p' st|b' p' st c rest st' Hst Hp Hm IH| | | |]; intros [= -> ->] Hk; try done.
  - destruct st as [bef [|c rest] gs]; cbn [star before after groups] in *.
    + destruct b; [done|]. by case_match.
    + destruct b; by case_match.
  - specialize (IH eq_refl Hk). rewrite Hst. cbn [star]. rewrite Hp. simpl in IH.
    destruct (star b p k _ rest _) eqn:He; [|done]. destruct b; [done|]. by case_match.
Qed.

(** The matcher finds what matches and satisfies the rest, and nothing else. *)
Lemma run_sound {A} r (k : position → option A) st a :
  run r k st = Some a → ∃ st', matches r st st' ∧ k st' = Some a.
Proof.
  revert A k st a. induction r as [|p|r IHr s IHs|r IHr s IHs|b p|name r IHr|name|p|]; intros A k st a; cbn [run].
  - intros Hk. exists st. split; [constructor|done].
  - destruct (after st) as [|c rest] eqn:Hst; [done|]. destruct (p c) eqn:Hp; [|done]. intros Hk.
    eexists. split; [by econstructor|done].
  - intros (st1&Hr&Hk)%IHr. apply IHs in Hk as (st2&Hs&Hk). exists st2. split; [by econstructor|done].
  - destruct (run r k st) eqn:Hr; [intros [= ->]; apply IHr in Hr as (st1&?&?)|intros (st1&?&?)%IHs];
      exists st1; (split; [|done]); by constructor.
  - intros (st'&Hm&Hk)%star_sound. exists st'. split; [by destruct st|done].
  - intros (st'&Hr&Hk)%IHr. eexists. split; [by constructor|done].
  - destruct (dict_get name (groups st)) as [text|] eqn:Hg; [|done].
    destruct (skip_text text st) as [st'|] eqn:Hs; [|done]. intros Hk. exists st'. split; [by econstructor|done].
  - destruct (after_none p st) eqn:Ha; [|done]. intros Hk. exists st. split; [by constructor|done].
  - destruct (at_boundary st) eqn:Ha; [|done]. intros Hk. exists st. split; [by constructor|done].
Qed.

Lemma run_complete {A} r (k : position → option A) st st' : matches r st st' → k st' ≠ None → run r k st ≠ None.
Proof.
  revert A k st st'. induction r as [|p|r IHr s IHs|r IHr s IHs|b p|name r IHr|name|p|]; intros A k st st' Hm Hk;
    cbn [run].
  5: { by eapply star_complete. }
  all: inversion Hm; subst; simplify_eq.
  - done.
  - match goal with Ha : after st = _ |- _ => rewrite Ha end. by match goal with Hp : p _ = true |- _ => rewrite Hp end.
  - eapply IHr; [done|]. by eapply IHs.
  - destruct (run r k st) eqn:Hr; [done|]. exfalso. by eapply (IHr A k).
  - destruct (run r k st) eqn:Hr; [done|]. by eapply IHs.
  - by eapply IHr.
  - match goal with Hg : dict_get name _ = _, Hs : skip_text _ _ = _ |- _ => by rewrite Hg, Hs end.
  - match goal with Hn : after_none p _ = true |- _ => by rewrite Hn end.
  - match goal with Hn : at_boundary _ = true |- _ => by rewrite Hn end.
Qed.

Lemma match_at_iff r st : (match_at r st = None ↔ ∀ st', ¬ matches r st st').
Proof.
  unfold match_at. split.
  - intros Hn st' Hm. by eapply (run_complete r Some st st').
  - intros Hno. destruct (run r Some st) as [a|] eqn:Hr; [|done]. apply run_sound in Hr as (st'&Hm&_). by destruct (Hno st').
Qed.
End matcher.

(** ** The texts of a match *)
Lemma skip_text_spec text st st' :
  skip_text text st = Some st' → after st = text ++ after st' ∧ before st' = rev text ++ before st.
Proof.
  revert st. induction text as [|c text IH]; intros st; simpl; [by intros [= ->]|].
  destruct (after st) as [|x rest] eqn:Ha; [done|]. destruct (N.eqb_spec x c) as [->|]; [|done].
  intros [Hr Hb]%IH. simpl in *. rewrite Hr, Hb, <- app_assoc. done.
Qed.

Section scanning.
Context `{RegexDatabase}.

Lemma matches_text r st st' :
  matches r st st' → ∃ text, after st = text ++ after st' ∧ before st' = rev text ++ before st.
Proof.
  induction 1 as [st|p st c rest Ha _|r s st st1 st2 _ (t1&Ha1&Hb1) _ (t2&Ha2&Hb2)|r s st st' _ IH|r s st st' _ IH|b p st
    |b p st c rest st' Ha _ _ (t&Ht&Hb)|name r st st' _ IH|name st text st' _ Hs|p st _|st _]; try done; try (by exists []).
  - exists [c]. by rewrite Ha.
  - exists (t1 ++ t2). by rewrite Ha1, Ha2, Hb2, Hb1, rev_app_distr, !app_assoc.
  - exists (c :: t). simpl in *. rewrite Ha, Ht, Hb. split; [done|]. by rewrite <- app_assoc.
  - exists text. by apply skip_text_spec.
Qed.

(** The pattern matches no empty text. *)
Fixpoint consuming (r : regex) : bool :=
  match r with
  | Char _ => true
  | Cat r s => consuming r || consuming s
  | Alt r s => consuming r && consuming s
  | Group _ r => consuming r
  | _ => false
  end.

Lemma matches_shorter r st st' : matches r st st' → (length (after st') ≤ length (after st))%nat.
Proof. intros (t&->&_)%matches_text. rewrite length_app. lia. Qed.

Lemma consuming_shorter r st st' :
  matches r st st' → consuming r = true → (length (after st') < length (after st))%nat.
Proof.
  induction 1 as [st|p st c rest Ha _|r s st st1 st2 H1 IH1 H2 IH2|r s st st' _ IH|r s st st' _ IH|b p st
    |b p st c rest st' Ha _ _ _|name r st st' _ IH|name st text st' _ Hs|p st _|st _]; simpl; try done.
  - intros _. rewrite Ha. simpl. lia.
  - apply matches_shorter in H1, H2. intros [Hc|Hc]%orb_true_iff; [specialize (IH1 Hc)|specialize (IH2 Hc)]; lia.
  - intros [? _]%andb_true_iff. by apply IH.
  - intros [_ ?]%andb_true_iff. by apply IH.
Qed.

(** *** What [re.sub] promises: every character it keeps is at a position where
    no match begins, and what it replaces is a match, the one [re] prefers. *)
Inductive scanned (r : regex) (repl : dict string pystr → pystr) : pystr → pystr → pystr → Prop :=
| sc_end bef : scanned r repl bef [] []
| sc_keep bef c rest out :
    (∀ st, ¬ matches r {| before := bef; after := c :: rest; groups := [] |} st) →
    scanned r repl (c :: bef) rest out → scanned r repl bef (c :: rest) (c :: out)
| sc_match bef text rest st out :
    matches r {| before := bef; after := text ++ rest; groups := [] |} st →
    match_at r {| before := bef; after := text ++ rest; groups := [] |} = Some st →
    text ≠ [] → after st = rest → before st = rev text ++ bef →
    scanned r repl (before st) rest out → scanned r repl bef (text ++ rest) (repl (groups st) ++ out).

Lemma sub_scanned r repl text : consuming r = true → scanned r repl [] text (sub r repl text).
Proof.
  intros Hc. unfold sub. assert (∀ fuel bef rest, (length rest ≤ fuel)%nat → scanned r repl bef rest (sub_from fuel r repl bef rest))
    as Hgen; [|by apply Hgen].
  induction fuel as [|fuel IH]; intros bef rest Hf; destruct rest as [|c rest]; simpl in Hf; cbn [sub_from];
    try lia; try constructor.
  destruct (match_at r _) as [st|] eqn:Hm.
  - pose proof Hm as Hm'. unfold match_at in Hm'. apply run_sound in Hm' as (st'&Hmat&[= ->]).
    pose proof (consuming_shorter _ _ _ Hmat Hc) as Hlt. destruct (matches_text _ _ _ Hmat) as (t&Ht&Hb). simpl in Ht, Hb.
    assert (t ≠ []) as Hne by (intros ->; apply (f_equal length) in Ht; simpl in *; lia).
    simpl in Hlt. rewrite Ht in Hm, Hmat |- *. apply sc_match with (rest := after st); try done. apply IH. lia.
  - constructor; [by apply match_at_iff|]. apply IH. lia.
Qed.
End scanning.
