(* ===== verification/Redaction.v ===== *)
(** * Redaction: [app/logging.py]

    Which keys are sensitive, the four passes over a text, the recursive
    redaction of a value, the filter and the formatter of log records.  A
    record carries the results of [getMessage] and [formatException]. *)
From S2P Require Import Prelude PyDict Json Calendar Auth Regex.
From stdpp Require Import list strings.

Definition REDACTED : pystr := u "[REDACTED]".

Definition _SENSITIVE_KEY_MARKERS : list string :=
  ["authorization"; "cookie"; "session"; "csrf"; "token"; "password"; "passphrase"; "secret"; "apikey"; "privatekey";
   "signingkey"; "otp"].

(** ** Patterns, all with [re.IGNORECASE] *)
Section patterns.
Context `{RegexDatabase}.

(** [sre] folds a character to its lower case, and adds the dotless i to i and
    the long s to s. *)
Definition same_letter (a c : N) : bool :=
  let l := tolower c in
  ((l =? a) || (a =? 105) && (l =? 305) || (a =? 115) && (l =? 383))%N.

(** A literal in lower case. *)
Fixpoint literal (s : pystr) : regex :=
  match s with
  | [] => Epsilon
  | [a] => Char (same_letter a)
  | a :: s' => Cat (Char (same_letter a)) (literal s')
  end.
Definition lit (s : string) : regex := literal (u s).

(** [[A-Za-z0-9]] *)
Definition alphanumeric (c : N) : bool :=
  let l := tolower c in ((97 <=? l) && (l <=? 122) || (48 <=? l) && (l <=? 57) || (l =? 305) || (l =? 383))%N.
Definition one_of (s : pystr) (c : N) : bool := bool_decide (c ∈ s).
Definition quote_mark : N → bool := one_of [39; 34]%N.
(** [[-_ ]?] *)
Definition separator : regex := Opt (one_of (u "-_ ")).

Fixpoint alternatives (l : list regex) : regex :=
  match l with
  | [] => Epsilon
  | [r] => r
  | r :: l' => Alt r (alternatives l')
  end.
Definition sequence (l : list regex) : regex := foldr Cat Epsilon l.

Definition _SENSITIVE_FIELD_PATTERN : regex :=
  Cat (alternatives
    [lit "authorization"; sequence [lit "proxy"; separator; lit "authorization"]; lit "cookie";
     sequence [lit "set"; separator; lit "cookie"]; lit "session"; lit "csrf"; lit "token"; lit "password";
     lit "passphrase"; lit "secret"; sequence [lit "api"; separator; lit "key"];
     sequence [lit "private"; separator; lit "key"]; sequence [lit "signing"; separator; lit "key"]; lit "otp"])
  (Star true (λ c, alphanumeric c || one_of (u "-_") c)).

(** [\s*[:=]\s*] *)
Definition assigns : regex := sequence [Star true is_space; Char (one_of (u ":=")); Star true is_space].

(** [[^\r\n,}]+] *)
Definition header_value : regex := Plus (λ c, negb (one_of [13; 10; 44; 125]%N c)).

Definition _AUTH_HEADER_RE : regex :=
  Cat (Group "prefix" (sequence
    [NotAfter alphanumeric;
     alternatives [lit "authorization"; sequence [lit "proxy"; separator; lit "authorization"]]; assigns]))
  (Group "value" header_value).

Definition _COOKIE_HEADER_RE : regex :=
  Cat (Group "prefix" (sequence
    [NotAfter alphanumeric; alternatives [lit "cookie"; sequence [lit "set"; separator; lit "cookie"]]; assigns]))
  (Group "value" header_value).

Definition _SENSITIVE_ASSIGNMENT_RE : regex :=
  Cat (Group "prefix" (sequence
    [NotAfter alphanumeric; Opt quote_mark; _SENSITIVE_FIELD_PATTERN; Opt quote_mark; assigns]))
  (Alt (sequence [Group "quote" (Char quote_mark); Group "quoted" (Star false (λ c, negb (c =? 10)%N)); Back "quote"])
       (Group "bare" (Plus (λ c, negb (is_space c) && negb (one_of (u ",;}]") c))))).

Definition _BEARER_RE : regex :=
  Cat (Group "prefix" (sequence
    [Boundary; alternatives [lit "bearer"; lit "basic"; lit "digest"]; Plus is_space]))
  (Group "value" (Plus (λ c, negb (is_space c) && negb (one_of (u ",;") c)))).

Definition group (name : string) (gs : dict string pystr) : pystr := default [] (dict_get name gs).

Definition _replace_header (gs : dict string pystr) : pystr := group "prefix" gs ++ REDACTED.
Definition _replace_assignment (gs : dict string pystr) : pystr :=
  group "prefix" gs ++ group "quote" gs ++ REDACTED ++ group "quote" gs.

Definition redact_text (value : pystr) : pystr :=
  let redacted := sub _SENSITIVE_ASSIGNMENT_RE _replace_assignment value in
  let redacted := sub _AUTH_HEADER_RE _replace_header redacted in
  let redacted := sub _COOKIE_HEADER_RE _replace_header redacted in
  sub _BEARER_RE _replace_header redacted.
End patterns.

(** ** Values

    What a log call can carry: a key is given by its [str], an object of
    another type by its [str] too, a float by its [repr]. *)
Inductive loggable :=
| LNone
| LBool (b : bool)
| LInt (z : Z)
| LFloat (repr : string)
| LStr (s : pystr)
| LBytes
| LMapping (members : list (pystr * loggable))
| LSequence (items : list loggable)
| LSet (items : list loggable)
| LOther (text : pystr).

Section redaction.
Context `{RegexDatabase} `{UnicodeDatabase}.

(** [re.sub(r"[^a-z0-9]", "", str(key).casefold())] *)
Definition _normalise_key (key : pystr) : pystr :=
  List.filter (λ c, (97 <=? c) && (c <=? 122) || (48 <=? c) && (c <=? 57))%N (casefold key).

Definition _is_sensitive_key (key : pystr) : bool :=
  existsb (λ marker, contains (u marker) (_normalise_key key)) _SENSITIVE_KEY_MARKERS.

Fixpoint redact_value (value : loggable) (key : option pystr) : loggable :=
  if match key with Some key => _is_sensitive_key key | None => false end then LStr REDACTED
  else
    match value with
    | LNone | LBool _ | LInt _ | LFloat _ => value
    | LStr s => LStr (redact_text s)
    | LBytes => LStr REDACTED
    | LMapping members =>
        LMapping (fold_left (λ d m, dict_set m.1 m.2 d) (map (λ m, (m.1, redact_value m.2 (Some m.1))) members) [])
    | LSequence items | LSet items => LSequence (map (λ item, redact_value item None) items)
    | LOther text => LStr (redact_text text)
    end.

(** ** Records *)
Record LogRecord := {
  lr_created : timestamp;
  lr_levelname : pystr;
  lr_name : pystr;
  lr_message : pystr;
  lr_exc_info : option pystr;
  lr_exc_text : option pystr;
  lr_stack_info : option pystr;
  lr_attributes : dict pystr loggable }.

(** An empty text counts as missing. *)
Definition truthy (o : option pystr) : option pystr := match o with Some [] => None | _ => o end.

(** [RedactingFilter.filter] *)
Definition filter_record (record : LogRecord) : LogRecord :=
  {| lr_created := lr_created record;
     lr_levelname := redact_text (lr_levelname record);
     lr_name := redact_text (lr_name record);
     lr_message := redact_text (lr_message record);
     lr_exc_info := None;
     lr_exc_text := match lr_exc_info record with
                    | Some exception_text => Some (redact_text exception_text)
                    | None => lr_exc_text record
                    end;
     lr_stack_info := match truthy (lr_stack_info record) with
                      | Some text => Some (redact_text text)
                      | None => lr_stack_info record
                      end;
     lr_attributes := map (λ m, (m.1, redact_value m.2 (Some m.1))) (lr_attributes record) |}.

Definition _STANDARD_RECORD_FIELDS : list string :=
  ["name"; "msg"; "args"; "levelname"; "levelno"; "pathname"; "filename"; "module"; "exc_info"; "exc_text";
   "stack_info"; "lineno"; "funcName"; "created"; "msecs"; "relativeCreated"; "thread"; "threadName"; "processName";
   "process"; "taskName"; "message"].

(** The value [json.dumps] writes; it raises on bytes, sets and other
    objects. *)
Fixpoint to_json (value : loggable) : outcome json :=
  match value with
  | LNone => Ok JNull
  | LBool b => Ok (JBool b)
  | LInt z => Ok (JInt z)
  | LFloat repr => Ok (JFloat repr)
  | LStr s => Ok (JStr s)
  | LMapping members =>
      match (fix go ms := match ms with
             | [] => Ok []
             | (k, v) :: ms' =>
                 match to_json v, go ms' with
                 | Ok j, Ok js => Ok ((k, j) :: js)
                 | Raise e, _ | _, Raise e => Raise e
                 end
             end) members with
      | Ok ms => Ok (JObj ms)
      | Raise e => Raise e
      end
  | LSequence items =>
      match (fix go l := match l with
             | [] => Ok []
             | v :: l' =>
                 match to_json v, go l' with
                 | Ok j, Ok js => Ok (j :: js)
                 | Raise e, _ | _, Raise e => Raise e
                 end
             end) items with
      | Ok l => Ok (JList l)
      | Raise e => Raise e
      end
  | LBytes | LSet _ | LOther _ => Raise TypeError
  end.

(** [JsonFormatter.format] *)
Definition log_event (record : LogRecord) : dict pystr loggable :=
  let event := [(u "timestamp", LStr (isoformat (lr_created record))); (u "level", LStr (lr_levelname record));
                (u "logger", LStr (lr_name record)); (u "message", LStr (redact_text (lr_message record)))] in
  let event := fold_left (λ event m,
    if bool_decide (m.1 ∈ map u _STANDARD_RECORD_FIELDS) then event
    else dict_set m.1 (redact_value m.2 (Some m.1)) event) (lr_attributes record) event in
  match truthy (lr_exc_text record) with
  | Some text => dict_set (u "exception") (LStr (redact_text text)) event
  | None => event
  end.

Definition format_record (record : LogRecord) : outcome pystr :=
  match to_json (LMapping (log_event record)) with
  | Ok event => Ok (dumps false event)
  | Raise e => Raise e
  end.

(** A handler with the filter and the formatter [configure_logging] gives it. *)
Definition emit (record : LogRecord) : outcome pystr := format_record (filter_record record).
End redaction.
