(* ===== verification/Fixtures.v ===== *)
(** * Fixtures: a concrete account, its devices and its secrets

    The concrete inputs at which the theorems over the private database are
    instantiated: a well-formed database with one account, two devices, a
    session, a challenge, a linking code and a ticket; a [Cryptography] whose
    signatures are hashes; and the ASCII part of the Unicode tables. *)
From Stdlib.Strings Require Import Byte.
From S2P Require Import Prelude PyDict Json Models Sql Tables Schema Hashing Integrity History.
From S2P Require Import Sessions DeviceCrypto Auth DeviceAuth Regex.
From stdpp Require Import list strings.

(** ** The libraries *)
Definition ascii_lower (c : N) : N := if ((65 <=? c) && (c <=? 90))%N then (c + 32)%N else c.

Definition ascii_upper (c : N) : N := if ((97 <=? c) && (c <=? 122))%N then (c - 32)%N else c.

Definition ascii_unicode : UnicodeDatabase := {|
  nfkc s := s;
  casefold := map ascii_lower;
  upper := map ascii_upper;
  isspace c := (c =? 32)%N || ((9 <=? c) && (c <=? 13))%N;
  decimal c := if ((48 <=? c) && (c <=? 57))%N then Some (c - 48)%N else None |}.

Definition ascii_regex : RegexDatabase := {|
  tolower := ascii_lower;
  is_space c := (c =? 32)%N || ((9 <=? c) && (c <=? 13))%N;
  is_word c := ((97 <=? ascii_lower c) && (ascii_lower c <=? 122))%N || ((48 <=? c) && (c <=? 57))%N || (c =? 95)%N |}.

Definition toy_sign (key message : bytes) : bytes := sha256 (key ++ message) ++ sha256 (message ++ key).

Definition toy_cryptography : Cryptography := {|
  PublicKey := bytes;
  load_der_public_key := Loaded;
  key_curve _ := Some "secp256r1";
  public_bytes key := key;
  ecdsa_verify key signature message := bool_decide (signature = toy_sign key message);
  encode_dss_signature r s := big_endian 32 r ++ big_endian 32 s;
  decode_dss_signature _ := None |}.

(** ** Rows *)
Definition ada : AccountRecord :=
  {| acc_id := 1; acc_supabase_user_id := 1001; acc_email_normalized := u "ada@example.test"; acc_device_epoch := 0;
     acc_created_at := 0; acc_email_fallback_at := None; acc_deleted_at := None |}.

Definition laptop_key : bytes := to_bytes (u "laptop key").
Definition phone_key : bytes := to_bytes (u "phone key").
Definition laptop_fingerprint : bytes := Eval vm_compute in sha256 laptop_key.
Definition phone_fingerprint : bytes := Eval vm_compute in sha256 phone_key.

Definition laptop : DeviceRecord :=
  {| dev_id := 10; dev_user_id := 1; dev_epoch := 0; dev_label := u "laptop"; dev_signing_public_key_spki := laptop_key;
     dev_fingerprint := laptop_fingerprint; dev_status := "active"; dev_created_at := 0; dev_last_seen_at := 0;
     dev_revoked_at := None; dev_linked_by_device_id := None |}.
Definition phone : DeviceRecord :=
  {| dev_id := 11; dev_user_id := 1; dev_epoch := 0; dev_label := u "phone"; dev_signing_public_key_spki := phone_key;
     dev_fingerprint := phone_fingerprint; dev_status := "active"; dev_created_at := 0; dev_last_seen_at := 0;
     dev_revoked_at := None; dev_linked_by_device_id := Some 10%N |}.

Definition nonce7 : bytes := repeat x07 32.
Definition nonce7_hash : bytes := Eval vm_compute in sha256 nonce7.
Definition site : pystr := u "https://relay.example.test".

Definition laptop_session : SessionRecord :=
  {| ses_id := 100; ses_user_id := 1; ses_device_id := 10; ses_token_hash := repeat x01 32; ses_csrf_hash := repeat x02 32;
     ses_epoch := 0; ses_created_at := 0; ses_last_seen_at := 0; ses_idle_expires_at := days 1;
     ses_absolute_expires_at := days 7; ses_revoked_at := None; ses_revocation_reason := None |}.

Definition laptop_challenge : DeviceChallengeRecord :=
  {| chl_id := 200; chl_device_id := 10; chl_nonce_hash := nonce7_hash; chl_origin := site; chl_created_at := 0;
     chl_expires_at := minutes 5; chl_consumed_at := None; chl_attempt_count := 0 |}.

Definition code_hash123456 : bytes := Eval vm_compute in sha256 (to_bytes (u "123456")).
Definition laptop_code : DeviceLinkingOtpRecord :=
  {| otp_id := 300; otp_user_id := 1; otp_issuing_device_id := 10; otp_otp_hash := code_hash123456; otp_status := "active";
     otp_attempt_count := 0; otp_created_at := 0; otp_expires_at := minutes 10; otp_consumed_at := None |}.

Definition ticket_value : pystr := Eval vm_compute in encode_base64url (repeat x09 32).
Definition ticket_digest : bytes := Eval vm_compute in sha256 (to_bytes ticket_value).
Definition laptop_ticket : WebSocketTicketRecord :=
  {| tkt_id := 400; tkt_session_id := 100; tkt_token_hash := ticket_digest; tkt_created_at := 0;
     tkt_expires_at := minutes 1; tkt_consumed_at := None |}.

Definition home : Db := Build_Db [ada] [laptop; phone] [laptop_session] [laptop_challenge] [laptop_code] []
  [laptop_ticket] [] [].

Lemma home_well_formed : well_formed home.
Proof.
  unfold well_formed, home. simpl app_users. simpl devices. simpl app_sessions. simpl device_challenges.
  simpl device_linking_otps. simpl transfer_requests. simpl websocket_tickets. simpl security_events.
  simpl rate_limit_buckets.
  repeat first [exact I|apply Forall_nil_2|apply Forall_cons_2|split|by vm_compute|done].
Qed.

(** ** Calls *)
Definition at_minute : nat → timestamp := λ _, minutes 1.

Definition draws : Draws :=
  {| dr_device_id := 12; dr_challenge_id := 201; dr_nonce := repeat x05 32; dr_session_id := 101;
     dr_secrets := {| en_token := repeat x03 32; en_csrf := repeat x04 32 |}; dr_event_id := 501 |}.

Definition world0 : DeviceWorld Db :=
  Build_DeviceWorld home {| bss_lifetime := minutes 10; bss_states := [] |}
    {| rcs_lifetime := minutes 10; rcs_states := [] |}.
