(* ===== verification/TestEnvironment.v ===== *)
(** * TestEnvironment: the stores [lifespan] wires for [app_env = "test"]

    Every repository is the in-memory one, and they share objects: the device
    repository holds the session repository, the challenge, linking-code and
    transfer repositories hold the device repository, the ticket repository the
    session repository.  Here the state behind all of them is one record, and
    a repository works on the part its references reach, so an operation of
    one is seen by the others as it is in the process. *)
From Stdlib.Strings Require Import Byte.
From S2P Require Import Prelude PyDict Json Models Schema Hashing Security Sessions RateLimits.
From S2P Require Import TransferPort TransferRepository TransferMemory Signaling Presence Socket TransferService.
From S2P Require Import Accounts Devices Challenges LinkingOtps Tickets Events.
From S2P Require Import Auth DeviceCrypto DeviceAuth DeviceRoutes Adapters Turn Main Application Fixtures.
From stdpp Require Import list strings.

Record TestStores := {
  ts_accounts : MemAccounts;
  ts_rate_limiter : RateLimits.Mem.RateLimiter;
  ts_sessions : MemSessions;
  ts_devices : dict UUID DeviceRecord;
  ts_challenges : dict UUID DeviceChallengeRecord;
  ts_linking_otps : dict UUID DeviceLinkingOtpRecord;
  ts_events : list SecurityEventRecord;
  ts_ticket_records : dict UUID WebSocketTicketRecord;
  ts_ticket_accounts : dict UUID UUID;
  ts_ticket_hashes : dict bytes UUID;
  ts_transfers : dict UUID TransferRequestRecord }.

(** ** The parts the repositories work on *)
Section parts.
Implicit Types (s : TestStores).

Definition with_accounts s accounts limiter : TestStores :=
  {| ts_accounts := accounts; ts_rate_limiter := limiter; ts_sessions := ts_sessions s; ts_devices := ts_devices s;
     ts_challenges := ts_challenges s; ts_linking_otps := ts_linking_otps s; ts_events := ts_events s;
     ts_ticket_records := ts_ticket_records s; ts_ticket_accounts := ts_ticket_accounts s;
     ts_ticket_hashes := ts_ticket_hashes s; ts_transfers := ts_transfers s |}.

Definition with_devices s sessions devices challenges linking_otps : TestStores :=
  {| ts_accounts := ts_accounts s; ts_rate_limiter := ts_rate_limiter s; ts_sessions := sessions; ts_devices := devices;
     ts_challenges := challenges; ts_linking_otps := linking_otps; ts_events := ts_events s;
     ts_ticket_records := ts_ticket_records s; ts_ticket_accounts := ts_ticket_accounts s;
     ts_ticket_hashes := ts_ticket_hashes s; ts_transfers := ts_transfers s |}.

Definition with_rest s events records accounts hashes transfers : TestStores :=
  {| ts_accounts := ts_accounts s; ts_rate_limiter := ts_rate_limiter s; ts_sessions := ts_sessions s;
     ts_devices := ts_devices s; ts_challenges := ts_challenges s; ts_linking_otps := ts_linking_otps s;
     ts_events := events; ts_ticket_records := records; ts_ticket_accounts := accounts; ts_ticket_hashes := hashes;
     ts_transfers := transfers |}.

Definition in_accounts {A} : M MemAccounts A → M TestStores A :=
  zoom ts_accounts (λ t s, with_accounts s t (ts_rate_limiter s)).
Definition in_rate_limiter {A} : M RateLimits.Mem.RateLimiter A → M TestStores A :=
  zoom ts_rate_limiter (λ t s, with_accounts s (ts_accounts s) t).
Definition in_sessions {A} : M MemSessions A → M TestStores A :=
  zoom ts_sessions (λ t s, with_devices s t (ts_devices s) (ts_challenges s) (ts_linking_otps s)).

(** [InMemoryDeviceRepository(session_repository)] *)
Definition device_repository s : MemDevices := {| md_records := ts_devices s; md_sessions := Some (ts_sessions s) |}.
Definition put_devices (t : MemDevices) s : TestStores :=
  with_devices s (default (ts_sessions s) (md_sessions t)) (md_records t) (ts_challenges s) (ts_linking_otps s).
Definition in_devices {A} : M MemDevices A → M TestStores A := zoom device_repository put_devices.

(** [InMemoryDeviceChallengeRepository(device_repository)] *)
Definition in_challenges {A} : M MemChallenges A → M TestStores A :=
  zoom (λ s, {| mc_records := ts_challenges s; mc_devices := device_repository s |})
    (λ t s, let s := put_devices (mc_devices t) s in
            with_devices s (ts_sessions s) (ts_devices s) (mc_records t) (ts_linking_otps s)).

(** [InMemoryDeviceLinkingOtpRepository(device_repository)] *)
Definition in_linking_otps {A} : M MemLinkingOtps A → M TestStores A :=
  zoom (λ s, {| mo_records := ts_linking_otps s; mo_devices := device_repository s |})
    (λ t s, let s := put_devices (mo_devices t) s in
            with_devices s (ts_sessions s) (ts_devices s) (ts_challenges s) (mo_records t)).

Definition in_events {A} : M (list SecurityEventRecord) A → M TestStores A :=
  zoom ts_events (λ t s, with_rest s t (ts_ticket_records s) (ts_ticket_accounts s) (ts_ticket_hashes s) (ts_transfers s)).

(** [InMemoryWebSocketTicketRepository(session_repository)], which only reads
    the sessions *)
Definition in_tickets {A} : M MemTickets A → M TestStores A :=
  zoom (λ s, {| mt_sessions := Some (ts_sessions s); Tickets.mt_records := ts_ticket_records s;
                mt_accounts := ts_ticket_accounts s; mt_by_token_hash := ts_ticket_hashes s |})
    (λ t s, with_rest s (ts_events s) (Tickets.mt_records t) (mt_accounts t) (mt_by_token_hash t) (ts_transfers s)).

(** [InMemoryTransferRequestRepository(device_repository)], which only reads
    the devices *)
Definition transfer_repository s : MemTransfers :=
  {| TransferMemory.mt_records := ts_transfers s; mt_device_repository := Some (ts_devices s) |}.
Definition in_transfers {A} : M MemTransfers A → M TestStores A :=
  zoom transfer_repository (λ t s, with_rest s (ts_events s) (ts_ticket_records s) (ts_ticket_accounts s)
    (ts_ticket_hashes s) (TransferMemory.mt_records t)).
End parts.

(** ** The stores of the services *)
#[export] Instance test_accounts : AccountStore TestStores := {|
  get_or_create now i identity email at_ := in_accounts (get_or_create now i identity email at_);
  account_by_id i := in_accounts (account_by_id i);
  account_by_email e := in_accounts (account_by_email e);
  mark_email_fallback i at_ := in_accounts (mark_email_fallback i at_) |}.

(** [RateLimiter(secret=b"test-rate-limit-secret")] *)
#[export] Instance test_limiter : LimiterStore TestStores := {|
  limit_many now requests := in_rate_limiter (RateLimits.Mem.allow_many now requests);
  limiter_secret s := RateLimits.Mem.rl_secret (ts_rate_limiter s) |}.

#[export] Instance test_sessions : SessionRepositoryPort TestStores := {|
  create_row now i a d th ch e idle absolute := in_sessions (create_row now i a d th ch e idle absolute);
  find_row now h s := find_row now h (ts_sessions s);
  touch_row now a i := in_sessions (touch_row now a i);
  replace_csrf_row now a i h := in_sessions (replace_csrf_row now a i h);
  revoke_row now a i reason := in_sessions (revoke_row now a i reason) |}.

#[export] Instance test_devices : DeviceStore TestStores := {|
  device_by_id a d := in_devices (device_by_id a d);
  devices_of a := in_devices (devices_of a);
  register_for_email now a e l k fp d := in_devices (register_for_email now a e l k fp d);
  touch_device now a d := in_devices (touch_device now a d);
  rename_device a d l := in_devices (rename_device a d l);
  revoke_device now a d reason := in_devices (revoke_device now a d reason);
  revoke_devices now a reason := in_devices (revoke_devices now a reason);
  logout_device now a d reason := in_devices (logout_device now a d reason) |}.

#[export] Instance test_challenges : ChallengeStore TestStores := {|
  challenge_by_id a i := in_challenges (challenge_by_id a i);
  create_challenge now i a d h o e := in_challenges (create_challenge now i a d h o e);
  consume_challenge now a i := in_challenges (consume_challenge now a i);
  fail_challenge now a i := in_challenges (fail_challenge now a i) |}.

#[export] Instance test_linking_otps : LinkingOtpStore TestStores := {|
  create_otp now i a d h e := in_linking_otps (create_otp now i a d h e);
  active_otp_by_hash now h := in_linking_otps (active_otp_by_hash now h);
  fail_otp now i := in_linking_otps (fail_otp now i);
  consume_and_register now i a d e n l k fp := in_linking_otps (consume_and_register now i a d e n l k fp) |}.

#[export] Instance test_events : SecurityEventStore TestStores := {|
  create_event now i t o e user d fp details := in_events (create_event now i t o e user d fp details) |}.

#[export] Instance test_tickets : TicketStore TestStores := {|
  create_ticket now i a s h e := in_tickets (create_ticket now i a s h e);
  consume_for_socket now h := in_tickets (consume_for_socket now h) |}.

#[export] Instance test_transfers : TransferRepository TestStores := {|
  transfer_rows s := transfer_rows (transfer_repository s);
  TransferPort.get_by_id a i s := TransferPort.get_by_id a i (transfer_repository s);
  TransferPort.list_for_account a s := TransferPort.list_for_account a (transfer_repository s);
  TransferPort.create at_ i a d1 d2 v e := in_transfers (TransferPort.create at_ i a d1 d2 v e);
  TransferPort.accept at_ a i d := in_transfers (TransferPort.accept at_ a i d);
  TransferPort.reject at_ a i d := in_transfers (TransferPort.reject at_ a i d);
  TransferPort.cancel at_ a i d := in_transfers (TransferPort.cancel at_ a i d);
  TransferPort.expire at_ a i := in_transfers (TransferPort.expire at_ a i);
  TransferPort.mark_negotiating at_ a i := in_transfers (TransferPort.mark_negotiating at_ a i);
  TransferPort.mark_relay_used at_ a i := in_transfers (TransferPort.mark_relay_used at_ a i) |}.

(** [PresenceManager(device_repository, session_repository, ...)] *)
#[export] Instance test_ports : PresencePorts TestStores := {|
  Socket.find_current_by_id at_ session_id :=
    in_sessions (gets (Sessions.Mem.find_current_by_id (at_wall (at_ 0%nat)) session_id));
  Socket.device_by_id account_id device_id s := (Devices.Mem.get_by_id account_id device_id (device_repository s)).1 |}.

(** ** The two applications, as they start *)

(** [BootstrapStateStore()] and [RegistrationChallengeStore()] *)
Definition empty_bootstrap : BootstrapStateStore := {| bss_lifetime := BOOTSTRAP_LIFETIME; bss_states := [] |}.
Definition empty_registrations : RegistrationChallengeStore := {| rcs_lifetime := REGISTRATION_CHALLENGE_LIFETIME; rcs_states := [] |}.

Definition test_rate_limit_secret : bytes := to_bytes (u "test-rate-limit-secret").

Definition test_application : ApplicationOn TestStores :=
  {| ap_presence := initial_presence;
     ap_database :=
       {| ts_accounts := {| ma_by_identity := []; ma_by_email := [] |};
          ts_rate_limiter := {| RateLimits.Mem.rl_secret := test_rate_limit_secret; RateLimits.Mem.rl_buckets := [] |};
          ts_sessions := {| ms_records := []; ms_by_token_hash := [] |};
          ts_devices := []; ts_challenges := []; ts_linking_otps := []; ts_events := []; ts_ticket_records := [];
          ts_ticket_accounts := []; ts_ticket_hashes := []; ts_transfers := [] |};
     ap_bootstrap := empty_bootstrap; ap_registrations := empty_registrations |}.

Section test_environment.
Context `{Cryptography} `{UnicodeDatabase} (app_origin : pystr).

Definition serve_test : Sender → request → M (ApplicationOn TestStores) (option cookie) :=
  serve_on (λ account_id s, Sessions.Mem.list_for_account account_id (ts_sessions s)) app_origin.
End test_environment.

(** Requests one after the other, with their answers. *)
Definition answers {S} (serve : Sender → request → M (ApplicationOn S) (option cookie))
    (requests : list (Sender * request)) (a : ApplicationOn S) : list (outcome (option cookie)) * ApplicationOn S :=
  foldl (λ '(os, a) '(s, r), let '(o, a') := serve s r a in (os ++ [o], a')) ([], a) requests.

(** ** A scenario in both environments

    Ada signs up by email on her laptop, which creates a linking code; her
    tablet redeems it. *)
#[local] Existing Instance toy_cryptography.
#[local] Existing Instance ascii_unicode.

Definition empty_database : Db := Build_Db [] [] [] [] [] [] [] [] [].
Definition production_application : Application :=
  {| ap_presence := initial_presence; ap_database := empty_database; ap_bootstrap := empty_bootstrap;
     ap_registrations := empty_registrations |}.
Definition serve_production : Sender → request → M Application (option cookie) := serve (λ _, true) test_rate_limit_secret site.

Definition ada_browser (cookie csrf : option pystr) : Sender :=
  {| sn_headers := ("origin", site) :: match csrf with Some secret => [("x-csrf-token", secret)] | None => [] end;
     sn_cookie := cookie; sn_host := Some (u "192.0.2.7"); sn_current := minutes 1; sn_db := λ _, minutes 1 |}.

Definition scenario_draws (device challenge session event : UUID) (token csrf : byte) : Draws :=
  {| dr_device_id := device; dr_challenge_id := challenge; dr_nonce := repeat x05 32; dr_session_id := session;
     dr_secrets := {| en_token := repeat token 32; en_csrf := repeat csrf 32 |}; dr_event_id := event |}.

Definition signup : list (Sender * request) :=
  [(ada_browser None None, VerifyOtp (minutes 1) (minutes 1) (minutes 1) 1 600 (repeat x06 32) (u "Ada@example.test") (u "123456")
      (Ok {| ai_user_id := uuid_str 1001; ai_email := u "ada@example.test" |}));
   (ada_browser None None, RegistrationChallenge_ (λ _, minutes 1) (scenario_draws 10 200 100 500 x03 x04)
      {| rr_bootstrap_token := encode_base64url (repeat x06 32); rr_public_key_spki := Some (encode_base64url laptop_key);
         rr_public_key := None; rr_label := u "laptop"; rr_device_id := None |})].

Definition redemption : list (Sender * request) :=
  [(ada_browser (Some (encode_base64url (repeat x03 32))) (Some (encode_base64url (repeat x04 32))),
      CreateLinkingOtp (minutes 1) (λ _, minutes 1) 246810 300 501);
   (ada_browser None None, LinkingChallenge (minutes 1) (minutes 1) (scenario_draws 12 201 101 502 x07 x08)
      {| lq_otp := Some (u "246810"); lq_linking_otp := None;
         lq_public_key_spki := Some (encode_base64url (to_bytes (u "tablet key"))); lq_public_key := None;
         lq_label := u "tablet"; lq_device_id := None |})].

(** The signature of the device over a challenge the process holds. *)
Definition held_signature {S} (key : bytes) (i : UUID) (a : ApplicationOn S) : bytes :=
  match dict_get i (rcs_states (ap_registrations a)) with
  | Some state =>
      match rc_payload (rs_challenge state) with
      | Ok p => match signed_message p with Ok m => toy_sign key m | Raise _ => [] end
      | Raise _ => []
      end
  | None => []
  end.

Definition completion {S} (key : bytes) (i : UUID) (d : Draws) (a : ApplicationOn S) : Sender * request :=
  (ada_browser None None, CompleteEnrollment (minutes 1) (λ _, minutes 1) d
     {| rq_challenge_id := i; rq_signature := encode_base64url (held_signature key i a) |}).

Definition scenario {S} (serve : Sender → request → M (ApplicationOn S) (option cookie)) (a : ApplicationOn S) :
    list (outcome (option cookie)) * ApplicationOn S :=
  let '(o1, a) := answers serve signup a in
  let '(o2, a) := answers serve [completion laptop_key 200 (scenario_draws 10 200 100 500 x03 x04) a] a in
  let '(o3, a) := answers serve redemption a in
  let '(o4, a) := answers serve [completion (to_bytes (u "tablet key")) 201 (scenario_draws 12 201 101 502 x07 x08) a] a in
  (o1 ++ o2 ++ o3 ++ o4, a).

Definition laptop_set : cookie := set_session_cookie (encode_base64url (repeat x03 32)).
Definition tablet_set : cookie := set_session_cookie (encode_base64url (repeat x07 32)).

(** In the test environment the tablet is linked: every request is answered. *)
Example linking_passes_in_tests :
  let run := scenario (serve_test site) test_application in
  run.1 = [Ok None; Ok None; Ok (Some laptop_set); Ok None; Ok None; Ok (Some tablet_set)] ∧
  map (λ d, (dev_id d, dev_status d, dev_linked_by_device_id d)) (dict_values (ts_devices (ap_database run.2))) =
    [(10%N, "active", None); (12%N, "active", Some 10%N)].
Proof. vm_compute. split; reflexivity. Qed.

(** The same requests outside it: the laptop signs up, and the lookup of the
    code fails in the database, so that no challenge is ever held. *)
Example linking_fails_in_production :
  let run := scenario serve_production production_application in
  run.1 = [Ok None; Ok None; Ok (Some laptop_set); Ok None; Raise BackendUnavailableError; Raise (HTTPException 422)] ∧
  map dev_id (devices (ap_database run.2)) = [10%N].
Proof. vm_compute. split; reflexivity. Qed.
