(* ===== verification/ConfigTheorems.v ===== *)
(** * ConfigTheorems: what the loaded settings guarantee

    Settings that load are valid, their origins are origins, and outside the
    test environment the application starts with no fake adapter or not at
    all. *)
From S2P Require Import Prelude PyDict Json JsonText Auth Adapters Config Fixtures.
From stdpp Require Import list strings.

(** ** Splitting *)
Lemma partition_spec c s before after :
  partition_at c s = (before, after) →
  s = before ++ match after with Some a => c :: a | None => [] end ∧ c ∉ before.
Proof.
  revert before after. induction s as [|x s IH]; intros before after; simpl.
  - intros [= <- <-]. split; [done|apply not_elem_of_nil].
  - destruct (N.eqb_spec x c) as [->|Hx].
    + intros [= <- <-]. split; [done|apply not_elem_of_nil].
    + destruct (partition_at c s) as [b a] eqn:Hp. intros [= <- <-]. destruct (IH _ _ eq_refl) as [-> Hn].
      split; [done|]. intros [->|?]%elem_of_cons; done.
Qed.

Lemma before_colon_spec s name rest : before_colon s = Some (name, rest) → s = name ++ 58%N :: rest.
Proof.
  revert name rest. induction s as [|c s IH]; intros name rest; simpl; [done|].
  destruct (N.eqb_spec c 58) as [->|]; [by intros [= <- <-]|].
  destruct (before_colon s) as [[a b]|]; [|done]. intros [= <- <-]. simpl. f_equal. by apply IH.
Qed.

Definition in_netloc (c : N) : Prop := c ≠ 47%N ∧ c ≠ 63%N ∧ c ≠ 35%N.

Lemma take_netloc_spec s : Forall in_netloc (take_netloc s) ∧ s = take_netloc s ++ drop (length (take_netloc s)) s.
Proof.
  induction s as [|c s [IH1 IH2]]; simpl; [split; [constructor|done]|].
  destruct (_ || _) eqn:Hc; simpl; [split; [constructor|done]|]. split; [|by f_equal].
  constructor; [|done]. rewrite !orb_false_iff, !N.eqb_neq in Hc. unfold in_netloc. tauto.
Qed.

Section settings.
Context `{UnicodeDatabase} `{UrlLibrary}.

(** A URL with an authority, cut where [urlsplit] cuts it. *)
Lemma urlsplit_spec value r :
  urlsplit value = Ok r → sr_scheme r ≠ [] → sr_netloc r ≠ [] →
  ∃ name query fragment, cleaned value = name ++ u "://" ++ sr_netloc r ++ sr_path r ++ query ++ fragment ∧
    map lower name = sr_scheme r ∧ Forall in_netloc (sr_netloc r) ∧ netloc_ok (sr_netloc r) = true ∧
    (query = [] ∧ sr_query r = [] ∨ query = 63%N :: sr_query r) ∧
    (fragment = [] ∧ sr_fragment r = [] ∨ fragment = 35%N :: sr_fragment r).
Proof.
  unfold urlsplit. destruct (split_scheme (cleaned value)) as [scheme url] eqn:Hs.
  destruct (split_netloc url) as [[netloc rest]|e] eqn:Hn; [|done].
  destruct (partition_at 35 rest) as [rest' fragment] eqn:Hf. destruct (partition_at 63 rest') as [path query] eqn:Hq.
  intros [= <-]. cbn [sr_scheme sr_netloc sr_path sr_query sr_fragment]. intros Hscheme Hnetloc.
  apply partition_spec in Hf as [-> _]. apply partition_spec in Hq as [-> _].
  assert (∃ name, cleaned value = name ++ 58%N :: url ∧ map lower name = scheme) as (name&->&Hname).
  { unfold split_scheme in Hs. destruct (before_colon (cleaned value)) as [[[|c name] after]|] eqn:Hb;
      try by injection Hs as <- _.
    destruct (_ && _); [|by injection Hs as <- _]. injection Hs as <- <-.
    exists (c :: name). split; [by apply before_colon_spec|done]. }
  unfold split_netloc in Hn.
  assert (∃ rest0, url = 47%N :: 47%N :: rest0 ∧ netloc = take_netloc rest0 ∧ netloc_ok netloc = true ∧
    path ++ (match query with Some a => 63%N :: a | None => [] end) ++
      (match fragment with Some a => 35%N :: a | None => [] end) = drop (length netloc) rest0) as (rest0&->&->&Hok&Hrest).
  { destruct url as [|c1 [|c2 rest0]]; try by injection Hn as <- _.
    all: repeat (match type of Hn with context [match ?x with _ => _ end] => destruct x eqn:? end); try congruence.
    all: injection Hn as <- Heq; eexists; split_and!; [done|done|done|by rewrite Heq, <- app_assoc]. }
  destruct (take_netloc_spec rest0) as [Hall Hcut].
  exists name, (match query with Some a => 63%N :: a | None => [] end), (match fragment with Some a => 35%N :: a | None => [] end).
  split_and!; [|done|done|done|destruct query; [by right|by left]|destruct fragment; [by right|by left]].
  rewrite Hcut at 1. rewrite <- Hrest. done.
Qed.

(** ** Reading *)
Lemma required_text_nonempty raw v : required_text raw = Ok v → v ≠ [].
Proof. unfold required_text. destruct (bool_decide _) eqn:Hb; [done|]. intros [= <-]. by to_prop. Qed.

Lemma choice_allowed env name d allowed b c : _choice env name d allowed b = Ok c → c ∈ allowed.
Proof.
  unfold _choice. destruct (_value env name d); [|done]. destruct (List.find _ allowed) as [x|] eqn:Hf; [|done].
  intros [= <-]. apply List.find_some in Hf as [Hin _]. by apply list_elem_of_In.
Qed.

Lemma optional_nonempty env name v : _optional_value env name = Ok (Some v) → v ≠ [].
Proof.
  unfold _optional_value. destruct (dict_get name env) as [raw|]; [|done].
  destruct (required_text raw) as [x|] eqn:Hr; [|done]. intros [= <-]. by eapply required_text_nonempty.
Qed.

Lemma turn_secret_spec env name b o :
  _turn_secret env name b = Ok o → (b = true → is_Some o) ∧ ∀ v, o = Some v → v ≠ [].
Proof.
  unfold _turn_secret. destruct (dict_get name env) as [raw|]; [|by destruct b; [|intros [= <-]]].
  destruct (required_text raw) as [x|] eqn:Hr; [|done]. intros [= <-]. split; [by eauto|].
  intros v [= <-]. by eapply required_text_nonempty.
Qed.

(** ** Origins and the database URL *)

(** A host, and a port in range if there is one. *)
Definition authority (netloc : pystr) : Prop :=
  Forall in_netloc netloc ∧ netloc_ok netloc = true ∧ fst (_hostinfo netloc) ≠ [] ∧
  ∃ port, url_port netloc = Ok port ∧ ∀ n, port = Some n → (0 <= n <= 65535)%Z.

(** A configured text with its trailing slashes removed that reads, tabs and
    line breaks aside, as an HTTP(S) scheme, an authority without user
    information, and nothing else but an empty path, query or fragment. *)
Definition is_origin (o : pystr) : Prop :=
  ∃ value name netloc tail, o = rstrip_slash value ∧ cleaned value = name ++ u "://" ++ netloc ++ tail ∧
    map lower name ∈ map u ["http"; "https"] ∧ authority netloc ∧ 64%N ∉ netloc ∧
    tail ∈ map u [""; "?"; "#"; "?#"; "/"; "/?"; "/#"; "/?#"].

Definition is_database_url (value : pystr) : Prop :=
  ∃ name netloc path, cleaned value = name ++ u "://" ++ netloc ++ path ∧
    map lower name ∈ map u ["postgres"; "postgresql"] ∧ authority netloc.

Lemma url_port_range netloc n : url_port netloc = Ok (Some n) → (0 <= n <= 65535)%Z.
Proof.
  unfold url_port. destruct (snd (_hostinfo netloc)) as [digits|]; [|done].
  destruct (forallb _ digits) eqn:Hd; [|done].
  assert (∀ acc, (0 <= acc)%Z → (0 <= fold_left (λ n c, n * 10 + Z.of_N (c - 48)) digits acc)%Z) as Hpos.
  { clear Hd. induction digits as [|c l IH]; intros acc Hacc; simpl; [done|]. apply IH. lia. }
  destruct (Z.leb_spec (fold_left (λ n c, n * 10 + Z.of_N (c - 48))%Z digits 0%Z) 65535); [|done].
  intros [= <-]. split; [by apply Hpos|done].
Qed.

Lemma check_authority_spec netloc x :
  Forall in_netloc netloc → netloc_ok netloc = true → check_authority netloc = Ok x → authority netloc.
Proof.
  unfold check_authority. intros Hall Hok. destruct (url_port netloc) as [port|] eqn:Hp; [|done].
  destruct (bool_decide _) eqn:Hh; [done|]. intros _. to_prop. split_and!; try done. exists port.
  split; [done|]. intros n ->. by eapply url_port_range.
Qed.

(** A text that reads as something with a colon is not slashes alone. *)
Lemma rstrip_slash_nonempty value : 58%N ∈ cleaned value → rstrip_slash value ≠ [].
Proof.
  intros Hin. assert (58%N ∈ value) as Hv.
  { unfold cleaned in Hin. apply list_elem_of_In, filter_In in Hin as [Hin _]. apply list_elem_of_In in Hin.
    revert Hin. induction value as [|c s IH]; simpl; [done|]. destruct (c <=? 32)%N; [right; by apply IH|done]. }
  unfold rstrip_slash. intros Hnil%(f_equal (@rev N)). rewrite rev_involutive in Hnil. simpl in Hnil.
  assert (∀ s : pystr, 58%N ∈ s → drop_while (λ c, c =? 47)%N s ≠ []) as Hdrop.
  { induction s as [|c s IH]; simpl; [by intros ?%not_elem_of_nil|]. intros [<-|?]%elem_of_cons; [done|].
    destruct (c =? 47)%N; [by apply IH|done]. }
  apply (Hdrop (rev value)); [|done]. apply list_elem_of_In. rewrite <- in_rev. by apply list_elem_of_In.
Qed.

Lemma scheme_some (l : list string) scheme : forallb (λ x, negb (bool_decide (x = ""%string))) l = true → scheme ∈ map u l → scheme ≠ [].
Proof.
  intros Hl (x&->&Hx)%list_elem_of_fmap. rewrite forallb_forall in Hl. apply list_elem_of_In, Hl in Hx. to_prop.
  by destruct x.
Qed.

Lemma origin_spec env name o : _origin env name = Ok o → is_origin o ∧ o ≠ [].
Proof.
  unfold _origin. destruct (_value env name "") as [value|]; [|done].
  destruct (urlsplit value) as [r|] eqn:Hu; [|done].
  destruct (_ || _) eqn:H1; [done|]. destruct (has_userinfo _) eqn:H2; [done|].
  destruct (_ || _) eqn:H3 in |- *; [done|]. destruct (check_authority _) as [x|] eqn:Hc; [|done].
  intros [= <-]. unfold has_userinfo in H2. to_prop. apply dec_stable in H1, H3.
  destruct (urlsplit_spec value r Hu) as (scheme&query&fragment&Hcut&Hname&Hall&Hok&Hq&Hf); [|done|].
  { by eapply scheme_some; [|exact H1]. }
  split.
  - exists value, scheme, (sr_netloc r), (sr_path r ++ query ++ fragment).
    split_and!; [done|done|by rewrite Hname|by eapply check_authority_spec|done|].
    rewrite H4, H5 in *. apply elem_of_cons in H3 as [->| ->%list_elem_of_singleton];
      destruct Hq as [[-> _]| ->], Hf as [[-> _]| ->]; by apply (bool_decide_unpack _).
  - apply rstrip_slash_nonempty. rewrite Hcut. apply elem_of_app. right. left.
Qed.

Lemma database_url_spec env v : _database_url env = Ok v → is_database_url v.
Proof.
  unfold _database_url. destruct (_value env "DATABASE_URL" "") as [value|]; [|done].
  destruct (urlsplit value) as [r|] eqn:Hu; [|done].
  destruct (_ || _) eqn:H1; [done|]. destruct (check_authority _) as [x|] eqn:Hc; [|done].
  destruct (bool_decide (sr_fragment r = [])) eqn:Hf; [|done]. intros [= <-]. to_prop. apply dec_stable in H1.
  destruct (urlsplit_spec value r Hu) as (scheme&query&fragment&Hcut&Hname&Hall&Hok&_&_); [|done|].
  { by eapply scheme_some; [|exact H1]. }
  exists scheme, (sr_netloc r), (sr_path r ++ query ++ fragment).
  split_and!; [done|by rewrite Hname|by eapply check_authority_spec].
Qed.

(** ** The settings *)

(** What [from_env] went through. *)
Lemma from_env_run env s :
  from_env env = Ok s →
  app_env s ∈ _APP_ENVIRONMENTS ∧ log_level s ∈ _LOG_LEVELS ∧ auth_adapter_name s ∈ _AUTH_ADAPTERS ∧
  turn_adapter_name s ∈ _TURN_ADAPTERS ∧
  (app_env s = "production" → auth_adapter_name s ≠ "fake" ∧ turn_adapter_name s ≠ "fake") ∧
  (auth_adapter_name s = "supabase" → ∃ url key, supabase_url s = Some url ∧ url ≠ [] ∧
     supabase_publishable_key s = Some key ∧ key ≠ []) ∧
  (turn_adapter_name s = "cloudflare" → ∃ id token, cloudflare_turn_key_id s = Some id ∧ id ≠ [] ∧
     cloudflare_turn_api_token s = Some token ∧ token ≠ []) ∧
  rate_limit_secret s ≠ [] ∧
  is_origin (app_origin s) ∧ is_origin (api_origin s) ∧ is_database_url (database_url s) ∧
  (∀ url, supabase_url s = Some url → is_origin url) ∧
  (∀ token, availability_probe_token s = Some token → token ≠ []).
Proof.
  unfold from_env. destruct (_choice env "APP_ENV" _ _ _) as [ae|] eqn:Hae; [|done].
  destruct (_choice env "LOG_LEVEL" _ _ _) as [ll|] eqn:Hll; [|done].
  destruct (_choice env "AUTH_ADAPTER" _ _ _) as [aa|] eqn:Haa; [|done].
  destruct (_choice env "TURN_ADAPTER" _ _ _) as [ta|] eqn:Hta; [|done].
  destruct (_value env "RATE_LIMIT_SECRET" _) as [rs|] eqn:Hrs; [|done].
  destruct (_optional_value env "SUPABASE_URL") as [su|] eqn:Hsu; [|done].
  destruct (_optional_value env "SUPABASE_PUBLISHABLE_KEY") as [sk|] eqn:Hsk; [|done].
  destruct (_optional_value env "AVAILABILITY_PROBE_TOKEN") as [ap|] eqn:Hap; [|done]. cbv zeta.
  destruct (_turn_secret env "CLOUDFLARE_TURN_KEY_ID" _) as [ck|] eqn:Hck; [|done].
  destruct (_turn_secret env "CLOUDFLARE_TURN_API_TOKEN" _) as [ct|] eqn:Hct; [|done].
  destruct (bool_decide (ae = "production") && _) eqn:Hprod; [done|].
  destruct (bool_decide (aa = "supabase") && _) eqn:Hsup; [done|].
  destruct (_origin env "APP_ORIGIN") as [ao|] eqn:Hao; [|done].
  destruct (_origin env "API_ORIGIN") as [po|] eqn:Hpo; [|done].
  destruct (_database_url env) as [du|] eqn:Hdu; [|done].
  match goal with |- (match ?x with _ => _ end) = _ → _ => destruct x as [su'|] eqn:Hsu'; [|done] end. intros [= <-]. simpl.
  apply turn_secret_spec in Hck as [Hck1 Hck2], Hct as [Hct1 Hct2]. rewrite !bool_decide_eq_true in *.
  assert (∀ url, su' = Some url → is_origin url ∧ url ≠ []) as Hurl.
  { intros url ->. destruct su; [|done]. destruct (_origin env "SUPABASE_URL") eqn:Ho; [|done].
    injection Hsu' as ->. by eapply origin_spec. }
  split_and!; try by eapply choice_allowed.
  - intros ->. rewrite bool_decide_true in Hprod by done. simpl in Hprod. by to_prop.
  - intros ->. rewrite bool_decide_true in Hsup by done. simpl in Hsup. to_prop. destruct su as [su|]; [|done].
    destruct sk as [sk|]; [|done]. destruct (_origin env "SUPABASE_URL") as [url|] eqn:Ho; [|done].
    injection Hsu' as <-. exists url, sk. split_and!; [done|by apply (Hurl url)|done|by eapply optional_nonempty].
  - intros ->. destruct (Hck1 eq_refl) as [id ->], (Hct1 eq_refl) as [token ->]. exists id, token. split_and!; eauto.
  - unfold _value in Hrs. destruct (dict_get _ env); [by eapply required_text_nonempty|]. by injection Hrs as <-.
  - by eapply origin_spec.
  - by eapply origin_spec.
  - by eapply database_url_spec.
  - intros url Hu. by apply Hurl.
  - intros token ->. by eapply optional_nonempty.
Qed.

Lemma cloudflare_raises id token ok e : cloudflare_provider id token ok = Raise e → e = ConfigurationError.
Proof.
  unfold cloudflare_provider, _required_turn_text.
  repeat match goal with |- context [if ?b then _ else _] => destruct b end; congruence.
Qed.

(** The two factories on settings that loaded. *)
Lemma auth_started s :
  auth_adapter_name s ∈ _AUTH_ADAPTERS →
  (auth_adapter_name s = "supabase" → ∃ url key, supabase_url s = Some url ∧ url ≠ [] ∧
     supabase_publishable_key s = Some key ∧ key ≠ []) →
  create_auth_gateway (app_env s) (auth_adapter_name s) (supabase_url s) (supabase_publishable_key s) =
    Raise ConfigurationError ∧ auth_adapter_name s = "fake" ∧ app_env s ≠ "test" ∨
  (∃ g, create_auth_gateway (app_env s) (auth_adapter_name s) (supabase_url s) (supabase_publishable_key s) = Ok g ∧
    auth_adapter_name s = "fake" ∧ app_env s = "test") ∨
  ∃ url key, create_auth_gateway (app_env s) (auth_adapter_name s) (supabase_url s) (supabase_publishable_key s) =
      Ok (UseSupabase (supabase_auth_gateway url key)) ∧
    supabase_url s = Some url ∧ supabase_publishable_key s = Some key ∧ key ≠ [] ∧ auth_adapter_name s = "supabase".
Proof.
  intros Ha Hsup. unfold create_auth_gateway, Fake.new, _require_test_environment.
  apply elem_of_cons in Ha as [Ha|Ha%list_elem_of_singleton]; rewrite Ha.
  - right. right. destruct (Hsup Ha) as (url&key&->&Hu&->&Hk). exists url, key. by destruct url, key.
  - destruct (decide (app_env s = "test")) as [Ht|Ht].
    + right. left. rewrite (bool_decide_false (app_env s ≠ "test")) by tauto. by eexists.
    + left. by rewrite (bool_decide_true (app_env s ≠ "test")).
Qed.

Lemma turn_started s :
  turn_adapter_name s ∈ _TURN_ADAPTERS →
  let built := create_turn_credential_provider (app_env s) (turn_adapter_name s) (cloudflare_turn_key_id s)
                 (cloudflare_turn_api_token s) in
  match built with
  | Ok turn => app_env s ≠ "test" → turn ≠ UseFakeTurn ∧ turn_adapter_name s ≠ "fake"
  | Raise e => e = ConfigurationError ∧
      (app_env s ≠ "test" ∧ turn_adapter_name s = "fake" ∨ turn_adapter_name s = "cloudflare")
  end.
Proof.
  intros Ht. unfold create_turn_credential_provider, fake_turn_provider, _require_test_environment.
  apply elem_of_cons in Ht as [Ht|[Ht|Ht%list_elem_of_singleton]%elem_of_cons]; rewrite Ht; simpl; [..|done].
  - destruct (cloudflare_turn_key_id s) as [id|]; [|by auto]. destruct (cloudflare_turn_api_token s) as [token|]; [|by auto].
    destruct (cloudflare_provider id token true) eqn:Hc; [done|]. split; [by eapply cloudflare_raises|by right].
  - destruct (bool_decide (app_env s ≠ "test")) eqn:Hb; to_prop; [by auto|done].
Qed.

(** C33: what the application starts with.  When the settings load, their
    names are among those allowed, the origins are HTTP(S) origins, the
    database URL a PostgreSQL URL, and the rate-limit secret is not empty.  If
    the adapters are then built outside the test environment, the Auth gateway
    is Supabase's, at the configured origin and with the configured key, and
    the TURN provider is no fake; with a fake selected there (the defaults) they
    are never built, and any failure is a [ConfigurationError] of a fake
    outside the test environment or of unusable Cloudflare secrets. *)
Theorem startup_never_fakes env s :
  from_env env = Ok s →
  (app_env s ∈ _APP_ENVIRONMENTS ∧ log_level s ∈ _LOG_LEVELS ∧ is_origin (app_origin s) ∧ is_origin (api_origin s) ∧
   is_database_url (database_url s) ∧ rate_limit_secret s ≠ []) ∧
  (app_env s = "production" → auth_adapter_name s = "supabase" ∧ turn_adapter_name s ≠ "fake") ∧
  match startup_adapters s with
  | Ok (auth, turn) =>
      app_env s ≠ "test" → turn ≠ UseFakeTurn ∧
        ∃ url key, supabase_url s = Some url ∧ is_origin url ∧ supabase_publishable_key s = Some key ∧ key ≠ [] ∧
          auth = UseSupabase (supabase_auth_gateway url key)
  | Raise e =>
      e = ConfigurationError ∧
      (app_env s ≠ "test" ∧ (auth_adapter_name s = "fake" ∨ turn_adapter_name s = "fake") ∨
       turn_adapter_name s = "cloudflare")
  end ∧
  (app_env s ≠ "test" → auth_adapter_name s = "fake" ∨ turn_adapter_name s = "fake" →
   startup_adapters s = Raise ConfigurationError).
Proof.
  intros (Hae&Hll&Haa&Hta&Hprod&Hsup&Hcf&Hrs&Hao&Hpo&Hdu&Hurl&_)%from_env_run.
  assert (auth_adapter_name s = "supabase" ∨ auth_adapter_name s = "fake") as Ha.
  { apply elem_of_cons in Haa as [?|?%list_elem_of_singleton]; auto. }
  split; [by split_and!|]. split.
  { intros Hp. destruct (Hprod Hp) as [? ?]. split; [|done]. by destruct Ha. }
  pose proof (turn_started s Hta) as Hturn. cbv zeta in Hturn. unfold startup_adapters.
  destruct (auth_started s Haa Hsup) as [(->&Hf&Hn)|[(g&->&Hf&Htest)|(url&key&->&Hu&Hk&Hkn&Hs)]].
  - split; [by auto|done].
  - destruct (create_turn_credential_provider _ _ _ _) as [turn|e]; [by split|]. destruct Hturn as [-> Hturn].
    split; [|done]. split; [done|]. tauto.
  - destruct (create_turn_credential_provider _ _ _ _) as [turn|e].
    + split; [|intros Hn [Hf|Hf]; [congruence|by destruct (Hturn Hn)]]. intros Hn. destruct (Hturn Hn) as [? _].
      split; [done|]. exists url, key. by split_and!; [|apply Hurl|..].
    + destruct Hturn as [-> Hturn]. split; [|done]. split; [done|]. tauto.
Qed.
End settings.

(** ** Witness *)
#[local] Existing Instance ascii_unicode.
#[local] Instance any_authority : UrlLibrary := {| netloc_ok _ := true |}.

Definition base_environ : environ :=
  [("APP_ORIGIN", u "https://relay.example.test/"); ("API_ORIGIN", u "https://api.example.test:8443");
   ("DATABASE_URL", u "postgresql://app@db.example.test:5432/relay")].
Definition production_environ : environ :=
  [("APP_ENV", u "Production"); ("AUTH_ADAPTER", u "supabase"); ("TURN_ADAPTER", u "disabled");
   ("SUPABASE_URL", u "https://p.supabase.example.test"); ("SUPABASE_PUBLISHABLE_KEY", u "key")] ++ base_environ.

(** Production starts with Supabase; the default settings load, and the
    application does not start with them. *)
Lemma startup_never_fakes_witness :
  (∃ s auth, from_env production_environ = Ok s ∧ startup_adapters s = Ok (auth, UseDisabledTurn) ∧
     app_origin s = u "https://relay.example.test" ∧ auth_adapter_name s = "supabase") ∧
  ∃ s, from_env base_environ = Ok s ∧ app_env s = "development" ∧ startup_adapters s = Raise ConfigurationError.
Proof.
  split.
  - destruct (from_env production_environ) as [s|e] eqn:Hs; [|exfalso; revert Hs; vm_compute; discriminate].
    destruct (startup_never_fakes _ _ Hs) as (_&Hprod&_&_).
    vm_compute in Hs. injection Hs as <-. do 2 eexists. split; [reflexivity|]. split; [vm_compute; reflexivity|].
    split; [reflexivity|]. exact (proj1 (Hprod eq_refl)).
  - destruct (from_env base_environ) as [s|e] eqn:Hs; [|exfalso; revert Hs; vm_compute; discriminate].
    destruct (startup_never_fakes _ _ Hs) as (_&_&_&Hfake).
    vm_compute in Hs. injection Hs as <-. eexists. split; [reflexivity|]. split; [reflexivity|].
    apply Hfake; [discriminate|by left].
Defined.
