(* ===== verification/RedactionTheorems.v ===== *)
(** * RedactionTheorems: what reaches the log

    A text passes four scans that leave no match of their pattern behind, and
    the line a record becomes holds no value of a sensitive key, at any depth. *)
From S2P Require Import Prelude PyDict Json Calendar Auth Regex Redaction Fixtures.
From stdpp Require Import list strings.

(** ** The passes over a text *)
Section passes.
Context `{RegexDatabase}.

(** [result] is reached from [value] by four scans of the declared patterns,
    sensitive assignments first, then the two headers, then bearer
    credentials: each keeps a character only where no match of its pattern
    begins, and puts in the place of a match nothing but its prefix, its quotes
    and the mark. *)
Definition passed (value result : pystr) : Prop :=
  ∃ assigned authorised uncookied,
    scanned _SENSITIVE_ASSIGNMENT_RE _replace_assignment [] value assigned ∧
    scanned _AUTH_HEADER_RE _replace_header [] assigned authorised ∧
    scanned _COOKIE_HEADER_RE _replace_header [] authorised uncookied ∧
    scanned _BEARER_RE _replace_header [] uncookied result.

Lemma redact_text_passed value : passed value (redact_text value).
Proof. do 3 eexists. split_and!; by apply sub_scanned. Qed.
End passes.

(** ** Values *)
Section values.
Context `{RegexDatabase} `{UnicodeDatabase}.

(** Induction on a value through its members and items. *)
Lemma loggable_rect' (P : loggable → Prop) :
  P LNone → (∀ b, P (LBool b)) → (∀ z, P (LInt z)) → (∀ r, P (LFloat r)) → (∀ s, P (LStr s)) → P LBytes →
  (∀ ms, Forall (λ m, P m.2) ms → P (LMapping ms)) → (∀ l, Forall P l → P (LSequence l)) →
  (∀ l, Forall P l → P (LSet l)) → (∀ s, P (LOther s)) → ∀ v, P v.
Proof.
  intros Hn Hb Hi Hf Hs Hy Hm Hl Ht Ho. fix IH 1. intros [|b|z|r|s| |ms|l|l|s];
    [exact Hn|apply Hb|apply Hi|apply Hf|apply Hs|exact Hy| | | |apply Ho].
  - apply Hm. induction ms as [|[k v] ms IHms]; constructor; [apply IH|exact IHms].
  - apply Hl. induction l as [|v l IHl]; constructor; [apply IH|exact IHl].
  - apply Ht. induction l as [|v l IHl]; constructor; [apply IH|exact IHl].
Qed.

(** Every member under a sensitive key is the mark, at any depth; no bytes, set
    or foreign object is left; and every text is one of [texts]. *)
Inductive masked (texts : pystr → Prop) : loggable → Prop :=
| mk_none : masked texts LNone
| mk_bool b : masked texts (LBool b)
| mk_int z : masked texts (LInt z)
| mk_float r : masked texts (LFloat r)
| mk_str s : texts s → masked texts (LStr s)
| mk_mapping ms : masked_members texts ms → masked texts (LMapping ms)
| mk_sequence l : masked_items texts l → masked texts (LSequence l)
with masked_members (texts : pystr → Prop) : list (pystr * loggable) → Prop :=
| mm_nil : masked_members texts []
| mm_cons k v ms : (_is_sensitive_key k = true → v = LStr REDACTED) → masked texts v →
    masked_members texts ms → masked_members texts ((k, v) :: ms)
with masked_items (texts : pystr → Prop) : list loggable → Prop :=
| mi_nil : masked_items texts []
| mi_cons v l : masked texts v → masked_items texts l → masked_items texts (v :: l).

Lemma members_set texts k v ms :
  (_is_sensitive_key k = true → v = LStr REDACTED) → masked texts v → masked_members texts ms →
  masked_members texts (dict_set k v ms).
Proof.
  intros Hk Hv Hms. induction Hms as [|k' v' ms Hk' Hv' Hms IH]; simpl; [by repeat constructor|].
  destruct (decide _) as [->|]; by constructor.
Qed.

Definition redacted (s : pystr) : Prop := s = REDACTED ∨ ∃ t, passed t s.

Lemma redact_text_redacted t : redacted (redact_text t).
Proof. right. exists t. apply redact_text_passed. Qed.
#[local] Hint Resolve redact_text_redacted : core.

Lemma redact_value_masked v : ∀ key,
  masked redacted (redact_value v key) ∧ ∀ k, key = Some k → _is_sensitive_key k = true → redact_value v key = LStr REDACTED.
Proof.
  assert (∀ v key, (∀ k, key = Some k → _is_sensitive_key k = true → redact_value v key = LStr REDACTED)) as Hsens.
  { intros v' key k -> Hk. destruct v'; simpl; by rewrite Hk. }
  assert (∀ v key, redact_value v key = LStr REDACTED ∨ redact_value v key = redact_value v None) as Hkey.
  { intros v' key. destruct key as [k|]; [|by right]. destruct (_is_sensitive_key k) eqn:Hk; [left; by apply (Hsens v' (Some k) k)|].
    right. destruct v'; simpl; by rewrite Hk. }
  assert (masked redacted (LStr REDACTED)) as Hmark by (constructor; by left).
  assert (∀ v, masked redacted (redact_value v None) → ∀ key, masked redacted (redact_value v key)) as Hany.
  { intros v' Hv key. by destruct (Hkey v' key) as [-> | ->]. }
  intros key. split; [|by apply Hsens]. apply Hany. clear key.
  induction v as [| | | |s| |ms IH|l IH|l IH|s] using loggable_rect'; simpl; try done; try constructor; auto.
  - assert (∀ d, masked_members redacted d → masked_members redacted (fold_left (λ d m, dict_set m.1 m.2 d)
      (map (λ m, (m.1, redact_value m.2 (Some m.1))) ms) d)) as Hfold; [|apply Hfold; constructor].
    induction IH as [|[k v] ms Hv _ IHms]; intros d Hd; simpl in *; [done|]. apply IHms, members_set; [|by apply Hany|done].
    by apply Hsens.
  - induction IH as [|v l Hv _ IHl]; simpl; constructor; auto.
  - induction IH as [|v l Hv _ IHl]; simpl; constructor; auto.
Qed.

(** What is left is what [json.dumps] writes. *)
Lemma masked_json texts v : masked texts v → ∃ j, to_json v = Ok j.
Proof.
  induction v as [| | | |s| |ms IH|l IH|l IH|s] using loggable_rect'; inversion 1; subst; simpl; eauto.
  - match goal with Hm : masked_members _ _ |- _ => revert Hm end. induction IH as [|[k v] ms Hv _ IHms]; [eauto|].
    inversion 1; subst. destruct Hv as [j Hj]; [done|]. destruct IHms as [js Hjs]; [by constructor|done|]. simpl in *.
    rewrite Hj. match type of Hjs with match ?x with _ => _ end = _ => destruct x end; [eauto|done].
  - match goal with Hm : masked_items _ _ |- _ => revert Hm end. induction IH as [|v l Hv _ IHl]; [eauto|].
    inversion 1; subst. destruct Hv as [j Hj]; [done|]. destruct IHl as [js Hjs]; [by constructor|done|]. simpl in *.
    rewrite Hj. match type of Hjs with match ?x with _ => _ end = _ => destruct x end; [eauto|done].
Qed.

Lemma masked_members_get texts ms k v :
  masked_members texts ms → dict_get k ms = Some v → _is_sensitive_key k = true → v = LStr REDACTED.
Proof.
  induction 1 as [|k' v' ms Hk _ _ IH]; simpl; [done|]. destruct (decide _) as [->|]; [|done].
  intros [= ->]. exact Hk.
Qed.

(** Adding attributes to an event, those named in [std] left out. *)
Definition with_attributes (std : list pystr) (attributes : list (pystr * loggable)) (event : dict pystr loggable) :=
  fold_left (λ event m, if bool_decide (m.1 ∈ std) then event else dict_set m.1 m.2 event) attributes event.

(** The keys of the event are kept as attributes are added. *)
Lemma event_kept texts (std : list pystr) (l : list (pystr * loggable)) ev :
  masked_members texts ev → (∀ m, m ∈ l → masked texts m.2 ∧ (_is_sensitive_key m.1 = true → m.2 = LStr REDACTED)) →
  let ev' := with_attributes std l ev in
  masked_members texts ev' ∧ (∀ k, dict_get k ev ≠ None → dict_get k ev' ≠ None) ∧
  ∀ m, m ∈ l → m.1 ∉ std → dict_get m.1 ev' ≠ None.
Proof.
  unfold with_attributes. revert ev. induction l as [|[k v] l IH]; intros ev Hev Hl; simpl.
  - split_and!; [exact Hev|done|by intros m ?%not_elem_of_nil].
  - destruct (Hl (k, v) ltac:(by left)) as [Hv Hk]. simpl in Hv, Hk.
    assert (masked_members texts (dict_set k v ev)) as Hset by (by apply members_set).
    destruct (bool_decide (k ∈ std)) eqn:Hstd; to_prop.
    + destruct (IH ev Hev) as (Hmask & Hkeep & Hnew); [by intros m Hm; apply Hl; right|].
      split_and!; [exact Hmask|exact Hkeep|].
      intros m [->|Hm]%elem_of_cons Hn; [by destruct (Hn Hstd)|by apply Hnew].
    + destruct (IH (dict_set k v ev) Hset) as (Hmask & Hkeep & Hnew); [by intros m Hm; apply Hl; right|].
      split_and!; [exact Hmask| |].
      * intros k' Hk'. apply Hkeep. rewrite dict_get_set. case_decide; [discriminate|exact Hk'].
      * intros m [->|Hm]%elem_of_cons Hn; [|by apply Hnew]. apply Hkeep. simpl. by rewrite dict_get_set_eq.
Qed.
End values.

(** ** Log lines *)
Section lines.
Context `{RegexDatabase} `{UnicodeDatabase}.

(** What the line of [record] may hold as text: its time, and texts that have
    passed the four scans. *)
Definition logged (record : LogRecord) (s : pystr) : Prop := s = isoformat (lr_created record) ∨ redacted s.

(** [str.casefold] leaves lower-case ASCII letters alone. *)
Definition folds_ascii : Prop := ∀ s, Forall (λ c, 97 ≤ c ≤ 122)%N s → casefold s = s.

Lemma plain_key k :
  folds_ascii → Forall (λ c, 97 ≤ c ≤ 122)%N k → existsb (λ marker, contains (u marker) k) _SENSITIVE_KEY_MARKERS = false →
  _is_sensitive_key k = false.
Proof.
  intros Hf Hk Hm. unfold _is_sensitive_key, _normalise_key. rewrite Hf by done.
  replace (List.filter _ k) with k; [done|]. symmetry. clear Hm. induction Hk as [|c k Hc _ IH]; simpl; [done|].
  rewrite IH. by rewrite (proj2 (N.leb_le _ _) (proj1 Hc)), (proj2 (N.leb_le _ _) (proj2 Hc)).
Qed.

Scheme masked_mut := Minimality for masked Sort Prop
with masked_members_mut := Minimality for masked_members Sort Prop
with masked_items_mut := Minimality for masked_items Sort Prop.

Lemma masked_weaken (texts texts' : pystr → Prop) v :
  (∀ s, texts s → texts' s) → masked texts v → masked texts' v.
Proof.
  intros Hw Hv. induction Hv using masked_mut with (P0 := masked_members texts') (P1 := masked_items texts');
    constructor; auto.
Qed.

Lemma with_attributes_map std (g : pystr * loggable → loggable) l ev :
  with_attributes std (map (λ m, (m.1, g m)) l) ev =
  fold_left (λ event m, if bool_decide (m.1 ∈ std) then event else dict_set m.1 (g m) event) l ev.
Proof. revert ev. induction l as [|m l IH]; intros ev; simpl; [done|apply IH]. Qed.

(** The event of a filtered record, before its exception is added. *)
Definition plain_event (record : LogRecord) : dict pystr loggable :=
  with_attributes (map u _STANDARD_RECORD_FIELDS)
    (map (λ m, (m.1, redact_value (redact_value m.2 (Some m.1)) (Some m.1))) (lr_attributes record))
    [(u "timestamp", LStr (isoformat (lr_created record))); (u "level", LStr (redact_text (lr_levelname record)));
     (u "logger", LStr (redact_text (lr_name record))); (u "message", LStr (redact_text (redact_text (lr_message record))))].

Lemma log_event_eq record :
  log_event (filter_record record) =
  match truthy (lr_exc_text (filter_record record)) with
  | Some text => dict_set (u "exception") (LStr (redact_text text)) (plain_event record)
  | None => plain_event record
  end.
Proof.
  unfold log_event, plain_event. rewrite <- (with_attributes_map _ (λ m, redact_value m.2 (Some m.1))).
  change (lr_attributes (filter_record record)) with
    (map (λ m, (m.1, redact_value m.2 (Some m.1))) (lr_attributes record)).
  rewrite map_map. reflexivity.
Qed.

Lemma plain_event_masked record :
  folds_ascii →
  masked_members (logged record) (plain_event record) ∧
  ∀ m, m ∈ lr_attributes record → m.1 ∉ map u _STANDARD_RECORD_FIELDS → dict_get m.1 (plain_event record) ≠ None.
Proof.
  intros Hfold.
  assert (∀ v key, masked (logged record) (redact_value v key)) as Hvalue.
  { intros v key. eapply masked_weaken; [|by apply redact_value_masked]. by right. }
  edestruct (event_kept (logged record) (map u _STANDARD_RECORD_FIELDS)) as (Hmasked & _ & Hnew); cycle 2.
  - split; [exact Hmasked|]. intros m Hm Hn.
    apply (Hnew (m.1, redact_value (redact_value m.2 (Some m.1)) (Some m.1))); [|done].
    apply list_elem_of_fmap. by exists m.
  - repeat (apply mm_cons || apply mm_nil); try (constructor; try (by left); right; apply redact_text_redacted);
      intros Hk; rewrite plain_key in Hk; first [done | by vm_compute | by repeat constructor].
  - intros m (m' & -> & _)%list_elem_of_fmap. split; [apply Hvalue|]. intros Hk. by eapply redact_value_masked.
Qed.

(** No log line shows a secret.  Every record has a line; it is the JSON
    of one object in which, at any depth, the value of a sensitive key is the
    mark, and every text has passed the four scans of [redact_text] unless it is
    the mark or the record's time.  No sensitive attribute is dropped on the way. *)
Theorem line_redacted record :
  folds_ascii →
  let event := log_event (filter_record record) in
  ∃ j, to_json (LMapping event) = Ok j ∧ emit record = Ok (dumps false j) ∧
  masked_members (logged record) event ∧
  ∀ m, m ∈ lr_attributes record → m.1 ∉ map u _STANDARD_RECORD_FIELDS → _is_sensitive_key m.1 = true →
    dict_get m.1 event = Some (LStr REDACTED).
Proof.
  intros Hfold event.
  destruct (plain_event_masked record Hfold) as [Hplain Hthere].
  assert (masked_members (logged record) event ∧ ∀ k, dict_get k (plain_event record) ≠ None → dict_get k event ≠ None)
    as [Hmask Hkeep].
  { unfold event. rewrite log_event_eq. destruct (truthy _) as [text|]; [|done]. split.
    - apply members_set; [|by constructor; right; apply redact_text_redacted|done].
      rewrite plain_key; [done|done|by repeat constructor|by vm_compute].
    - intros k Hk. rewrite dict_get_set. by case_decide. }
  destruct (masked_json (logged record) (LMapping event)) as [j Hj]; [by constructor|].
  exists j. split_and!; [exact Hj|by unfold emit, format_record; fold event; rewrite Hj|exact Hmask|].
  intros m Hm Hn Hs. specialize (Hkeep _ (Hthere m Hm Hn)). destruct (dict_get m.1 event) as [v|] eqn:Hv; [|done].
  f_equal. by eapply masked_members_get.
Qed.
End lines.

(** ** An instance *)
#[local] Existing Instance ascii_unicode.
#[local] Existing Instance ascii_regex.

(** A record that shows a password in its message and a token in an
    attribute. *)
Definition leaking : LogRecord := {|
  lr_created := 1700000000000000%Z;
  lr_levelname := u "WARNING"; lr_name := u "app.auth";
  lr_message := u "login failed password=hunter2 for ada";
  lr_exc_info := Some (u "Authorization: Bearer abc"); lr_exc_text := None; lr_stack_info := None;
  lr_attributes := [(u "session_token", LStr (u "abc")); (u "request", LMapping [(u "path", LStr (u "/login"));
    (u "Cookie", LBytes)]); (u "lineno", LInt 3)] |}.

Lemma ascii_folds : folds_ascii.
Proof.
  intros s Hs. simpl. induction Hs as [|c s Hc _ IH]; simpl; [done|]. rewrite IH. unfold ascii_lower.
  by rewrite (proj2 (N.leb_gt c 90)), Bool.andb_false_r by lia.
Qed.

Lemma leaking_line :
  emit leaking = Ok (map (λ c, if c =? 39 then 34 else c)%N (u "{'timestamp':'2023-11-14T22:13:20+00:00','level':'WARNING','logger':'app.auth','message':'login failed password=[REDACTED]] for ada','session_token':'[REDACTED]','request':{'path':'/login','Cookie':'[REDACTED]'},'exception':'Authorization: [REDACTED]'}")) ∧
  dict_get (u "session_token") (log_event (filter_record leaking)) = Some (LStr REDACTED).
Proof.
  destruct (line_redacted leaking ascii_folds) as (j & Hj & Hemit & Hmask & Hkept).
  split; [vm_compute; reflexivity|]. apply (Hkept (u "session_token", LStr (u "abc"))).
  - constructor.
  - apply (bool_decide_eq_true_1 _). vm_compute. reflexivity.
  - vm_compute. reflexivity.
Defined.
