(* ===== verification/Logging.v ===== *)
(** * Logging: [configure_logging] of [app/logging.py]

    The root logger's handlers as the application leaves them, and what they
    write: a record is one object that every handler's filters change in turn. *)
From S2P Require Import Prelude PyDict Json Calendar Auth Regex Redaction RedactionTheorems Fixtures.
From stdpp Require Import list strings.

(** [logging.getLevelNamesMapping()] *)
Definition level_names : dict pystr Z :=
  [(u "CRITICAL", 50%Z); (u "FATAL", 50%Z); (u "ERROR", 40%Z); (u "WARN", 30%Z); (u "WARNING", 30%Z); (u "INFO", 20%Z);
   (u "DEBUG", 10%Z); (u "NOTSET", 0%Z)].

Section logging.
Context `{RegexDatabase} `{UnicodeDatabase}.

Inductive level := LevelNumber (n : Z) | LevelName (name : pystr).

Definition _resolve_level (l : option level) : outcome Z :=
  match l with
  | None => Ok 20%Z
  | Some (LevelNumber n) => Ok n
  | Some (LevelName name) =>
      match dict_get (upper (strip name)) level_names with
      | Some resolved => Ok resolved
      | None => Raise ValueError
      end
  end.

(** A filter says whether the record goes on, and may change it. *)
Inductive log_filter := Redacting | Other (filter : LogRecord → bool * LogRecord).

Definition is_redacting (f : log_filter) : bool := match f with Redacting => true | Other _ => false end.

Record Handler := {
  h_filters : list log_filter;
  h_marked : bool;
  h_accepts : LogRecord → bool;
  h_format : LogRecord → outcome pystr }.

Record RootLogger := { root_level : Z; root_handlers : list Handler }.

Definition _add_redaction_filter (h : Handler) : Handler :=
  if existsb is_redacting (h_filters h) then h
  else {| h_filters := h_filters h ++ [Redacting]; h_marked := h_marked h; h_accepts := h_accepts h;
          h_format := h_format h |}.

(** [StreamHandler(stream or sys.stderr)] with the mark and the formatter *)
Definition stream_handler : Handler :=
  {| h_filters := []; h_marked := true; h_accepts _ := true; h_format := format_record |}.

Definition configure_logging (log_level : option pystr) (l : option level) : M RootLogger unit :=
  let! resolved := lift (_resolve_level (match l with Some l => Some l | None => option_map LevelName log_level end)) in
  do! modify (λ root, {| root_level := resolved; root_handlers := map _add_redaction_filter (root_handlers root) |}) in
  let! configured_handler := gets (λ root, find h_marked (root_handlers root)) in
  match configured_handler with
  | Some _ => ret tt
  | None => modify (λ root, {| root_level := root_level root;
                               root_handlers := root_handlers root ++ [_add_redaction_filter stream_handler] |})
  end.

(** ** A record at the root logger

    [Filterer.filter] and [Logger.callHandlers]: the filters run until one
    refuses; a handler that takes the record writes its line, and the next
    handler gets the record as it was left. *)
Definition apply_filter (f : log_filter) (record : LogRecord) : bool * LogRecord :=
  match f with Redacting => (true, filter_record record) | Other filter => filter record end.

Fixpoint run_filters (fs : list log_filter) (record : LogRecord) : bool * LogRecord :=
  match fs with
  | [] => (true, record)
  | f :: fs' => match apply_filter f record with
                | (true, record') => run_filters fs' record'
                | (false, record') => (false, record')
                end
  end.

Fixpoint call_handlers (hs : list Handler) (record : LogRecord) : list (Handler * outcome pystr) :=
  match hs with
  | [] => []
  | h :: hs' =>
      if h_accepts h record then
        match run_filters (h_filters h) record with
        | (true, record') => (h, h_format h record') :: call_handlers hs' record'
        | (false, record') => call_handlers hs' record'
        end
      else call_handlers hs' record
  end.

(** ** What is configured *)
Lemma redaction_added h : Redacting ∈ h_filters (_add_redaction_filter h).
Proof.
  unfold _add_redaction_filter. destruct (existsb is_redacting (h_filters h)) eqn:He.
  - apply existsb_exists in He as ([|f]&Hin&Hf); [by apply list_elem_of_In|done].
  - simpl. apply elem_of_app. right. by left.
Qed.

Lemma redaction_stays h : Redacting ∈ h_filters h → _add_redaction_filter h = h.
Proof.
  intros Hin. unfold _add_redaction_filter. destruct (existsb is_redacting (h_filters h)) eqn:He; [done|].
  exfalso. assert (existsb is_redacting (h_filters h) = true); [|congruence]. apply existsb_exists. exists Redacting.
  split; [by apply list_elem_of_In|done].
Qed.

Lemma configure_ok log_level l root root' :
  configure_logging log_level l root = (Ok tt, root') →
  (∀ h, h ∈ root_handlers root' → Redacting ∈ h_filters h) ∧ is_Some (find h_marked (root_handlers root')).
Proof.
  unfold configure_logging, bind, lift, modify, gets, ret. destruct (_resolve_level _) as [n|]; [|done]. simpl.
  assert (∀ h, h ∈ map _add_redaction_filter (root_handlers root) → Redacting ∈ h_filters h) as Hall.
  { intros h (h0&->&_)%list_elem_of_fmap. apply redaction_added. }
  destruct (find h_marked _) as [h|] eqn:Hf; intros [= <-]; simpl; [rewrite Hf; eauto|]. split.
  - intros h [Hh| ->%list_elem_of_singleton]%elem_of_app; [by apply Hall|apply redaction_added].
  - clear Hall. revert Hf. generalize (map _add_redaction_filter (root_handlers root)). intros hs.
    induction hs as [|h hs IH]; simpl; [eauto|]. destruct (h_marked h); [done|exact IH].
Qed.

(** A second call keeps the handlers. *)
Lemma configure_twice log_level l root root' log_level' l' root'' :
  configure_logging log_level l root = (Ok tt, root') → configure_logging log_level' l' root' = (Ok tt, root'') →
  root_handlers root'' = root_handlers root'.
Proof.
  intros [Hall [h Hh]]%configure_ok. unfold configure_logging, bind, lift, modify, gets, ret.
  destruct (_resolve_level _) as [n|]; [|done]. simpl.
  assert (map _add_redaction_filter (root_handlers root') = root_handlers root') as ->.
  { rewrite <- (map_id (root_handlers root')) at 2. apply map_ext_in. intros h0 Hin. apply redaction_stays, Hall.
    by apply list_elem_of_In. }
  rewrite Hh. by intros [= <-].
Qed.

(** A name that is no level changes nothing. *)
Lemma unknown_level_raises name root :
  dict_get (upper (strip name)) level_names = None →
  configure_logging None (Some (LevelName name)) root = (Raise ValueError, root).
Proof. intros Hn. unfold configure_logging, bind, lift, _resolve_level. by rewrite Hn. Qed.

(** What earlier handlers leave of a record. *)
Definition left_by (h : Handler) (record : LogRecord) : LogRecord :=
  if h_accepts h record then (run_filters (h_filters h) record).2 else record.

Lemma handler_line hs record h line :
  (h, line) ∈ call_handlers hs record → h_filters h = [Redacting] →
  ∃ earlier later, hs = earlier ++ h :: later ∧ line = h_format h (filter_record (foldl (λ r h, left_by h r) record earlier)).
Proof.
  intros Hin Hf. revert record Hin. induction hs as [|h0 hs IH]; simpl; intros record; [by intros ?%elem_of_nil|].
  assert (∀ r, (h, line) ∈ call_handlers hs r → r = left_by h0 record → ∃ earlier later, h0 :: hs = earlier ++ h :: later ∧
    line = h_format h (filter_record (foldl (λ r h, left_by h r) record earlier))) as Hlater.
  { intros r Hin ->. destruct (IH _ Hin) as (earlier&later&->&->). by exists (h0 :: earlier), later. }
  unfold left_by at 1 in Hlater. destruct (h_accepts h0 record); [|intros ?; by eapply Hlater].
  destruct (run_filters (h_filters h0) record) as [[|] record'] eqn:Hr; [|intros ?; by eapply Hlater].
  intros [[= -> ->]|?]%elem_of_cons; [|by eapply Hlater]. rewrite Hf in Hr. injection Hr as <-. by exists [], hs.
Qed.

(** C34: no line of the configured logger shows a secret.  Once
    [configure_logging] returned, every handler of the root logger redacts and
    one is the application's; the application's handler (and any other that
    only redacts and formats as it does) writes a line for every record it is
    handed, the JSON of one object in which, at any depth, the value of a
    sensitive key is the mark and every text has passed the four scans, unless
    it is the mark or the record's time; and no sensitive attribute is dropped
    on the way.  The record is the one logged, as earlier handlers left it. *)
Theorem configured_lines_redacted log_level l root root' :
  folds_ascii → configure_logging log_level l root = (Ok tt, root') →
  (∀ h, h ∈ root_handlers root' → Redacting ∈ h_filters h) ∧ is_Some (find h_marked (root_handlers root')) ∧
  ∀ record h line, (h, line) ∈ call_handlers (root_handlers root') record →
    h_filters h = [Redacting] → h_format h = format_record →
    ∃ earlier later, root_handlers root' = earlier ++ h :: later ∧
    let r := foldl (λ r h, left_by h r) record earlier in
    let event := log_event (filter_record r) in
    ∃ j, line = Ok (dumps false j) ∧ to_json (LMapping event) = Ok j ∧ masked_members (logged r) event ∧
    ∀ m, m ∈ lr_attributes r → m.1 ∉ map u _STANDARD_RECORD_FIELDS → _is_sensitive_key m.1 = true →
      dict_get m.1 event = Some (LStr REDACTED).
Proof.
  intros Hfold Hc. destruct (configure_ok _ _ _ _ Hc) as [Hall Hone]. split_and!; [done..|]. intros record h line Hin Hf Hfmt.
  destruct (handler_line _ _ _ _ Hin Hf) as (earlier&later&Heq&->). exists earlier, later. split; [done|]. intros r event.
  destruct (line_redacted r Hfold) as (j&Hj&Hemit&Hmask&Hkept). exists j. rewrite Hfmt. by split_and!.
Qed.
End logging.

(** ** Witness *)
#[local] Existing Instance ascii_unicode.
#[local] Existing Instance ascii_regex.

(** The process starts with no handler and [LOG_LEVEL=info]. *)
Definition configured : RootLogger := (configure_logging (Some (u "info ")) None {| root_level := 30; root_handlers := [] |}).2.

Lemma configured_calls r :
  call_handlers (root_handlers configured) r = [(_add_redaction_filter stream_handler, format_record (filter_record r))].
Proof. reflexivity. Qed.

Lemma configured_lines_redacted_witness :
  root_level configured = 20%Z ∧ length (call_handlers (root_handlers configured) leaking) = 1%nat ∧
  dict_get (u "session_token") (log_event (filter_record leaking)) = Some (LStr REDACTED).
Proof.
  split; [vm_compute; reflexivity|]. split; [by rewrite configured_calls|].
  assert (configure_logging (Some (u "info ")) None {| root_level := 30; root_handlers := [] |} = (Ok tt, configured)) as Hc
    by reflexivity.
  destruct (configured_lines_redacted _ _ _ _ ascii_folds Hc) as (_&_&Hlines).
  destruct (Hlines leaking (_add_redaction_filter stream_handler) (format_record (filter_record leaking)))
    as (earlier&later&Heq&j&_&_&_&Hkept); [rewrite configured_calls; left|reflexivity|reflexivity|].
  assert (earlier = []) as ->.
  { destruct earlier as [|h earlier]; [reflexivity|]. apply (f_equal length) in Heq. simpl in Heq. rewrite length_app in Heq.
    simpl in Heq. lia. }
  apply (Hkept (u "session_token", LStr (u "abc"))).
  - constructor.
  - apply (bool_decide_eq_true_1 _). vm_compute. reflexivity.
  - vm_compute. reflexivity.
Defined.
