(* ===== verification/Lifecycles.v ===== *)
(** * Lifecycles: what is final, and what works once

    Over any run of repository statements: a consumed challenge, a redeemed
    linking code and a used ticket are spent for good, and a revoked device
    stays out of every lookup. *)
From Stdlib.Strings Require Import Byte.
From S2P Require Import Prelude PyDict Json Models Sql Tables Schema Hashing Sessions SessionTheorems Integrity History.
From S2P Require Import TransferPort TransferRepository Socket Main.
From S2P Require Import Accounts Devices Challenges LinkingOtps Tickets Fixtures.
From stdpp Require Import list strings relations.

(** The row a method returned by [first_row] of an [UPDATE] in a transaction. *)
Lemma transaction_ok {A} (m : M Db A) db a db' : transaction m db = (Ok a, db') → m db = (Ok a, db').
Proof. unfold transaction. destruct (m db) as [[x|e] y]; congruence. Qed.

(** ** Challenges *)
Section challenges.
Implicit Types (cond : DeviceChallengeRecord → bool) (set : DeviceChallengeRecord → DeviceChallengeRecord).

(** What an update of an open challenge found: an open challenge of a current
    device of the account. *)
Lemma update_open_spec now a cond set db r db' :
  Challenges.Pg.update_open now a cond set db = (Ok (Some r), db') →
  ∃ old, old ∈ device_challenges db ∧ cond old = true ∧ Challenges.chl_open now old = true ∧
    Challenges.Pg.device_current db a old = true ∧ r = set old ∧ r ∈ device_challenges db'.
Proof.
  unfold Challenges.Pg.update_open, bind, gets, ret, on_device_challenges, zoom. simpl.
  destruct (update_returning _ _ _ _) as [[rows|e] t] eqn:Hu; [|done]. intros [= Hf <-].
  destruct (update_first_row _ _ _ _ _ _ _ Hu Hf) as (old&Hin&Hc&->&Hin'). to_prop. eauto 10.
Qed.

(** A challenge that was consumed is never open again. *)
Lemma consumed_for_good db db' r :
  well_formed db → rtc statement db db' → r ∈ device_challenges db → chl_consumed_at r ≠ None →
  ∀ now x, x ∈ device_challenges db' → chl_id x = chl_id r ∨ chl_nonce_hash x = chl_nonce_hash r →
  Challenges.chl_open now x = false.
Proof.
  intros Hwf Hrun Hr Hc now x Hx Hk. pose proof (run_step _ _ Hrun) as (_&_&_&Hstep&_).
  destruct Hwf as (_&_&_&Hs&_). destruct (Hstep Hs) as [Hs' Hrows]. destruct (Hrows r Hr) as (r'&Hr'&Hg).
  destruct Hg as (Hid&_&Hn&_&_&_&Hcons&_).
  assert (x = r') as -> by (apply (sound_unique _ _ _ Hs' Hx Hr'); simpl; intuition congruence).
  destruct (chl_consumed_at r) as [t|] eqn:Ht; [|done]. unfold Challenges.chl_open. by rewrite (Hcons t eq_refl).
Qed.
End challenges.

(** A challenge is answered once.  When consuming a challenge on
    PostgreSQL returns a record, that challenge was stored, unconsumed and
    ahead of its deadline, its device active in the epoch of its live account;
    and whatever the repositories run afterwards, no later consumption by
    identifier or by nonce, and no failure mark, finds that challenge. *)
Theorem challenge_consumed_once now a i db r db1 :
  well_formed db → Challenges.Pg.consume now a i db = (Ok (Some r), db1) →
  (∃ old, old ∈ device_challenges db ∧ chl_id old = i ∧ chl_consumed_at old = None ∧
     (now < chl_expires_at old)%Z ∧ r = Challenges.chl_consumed old now ∧
     ∃ d account, d ∈ devices db ∧ account ∈ app_users db ∧ dev_id d = chl_device_id old ∧
       dev_user_id d = a ∧ acc_id account = a ∧ acc_deleted_at account = None ∧ dev_status d = "active" ∧
       dev_epoch d = acc_device_epoch account) ∧
  ∀ db', rtc statement db1 db' → ∀ now' a' x db2,
    (∀ i', Challenges.Pg.consume now' a' i' db' = (Ok (Some x), db2) → chl_id x ≠ i) ∧
    (∀ h, Challenges.Pg.consume_by_nonce_hash now' a' h db' = (Ok (Some x), db2) → h ≠ chl_nonce_hash r) ∧
    (∀ i', Challenges.Pg.mark_failed now' a' i' db' = (Ok (Some x), db2) → chl_id x ≠ i).
Proof.
  intros Hwf Hc. pose proof (update_open_spec _ _ _ _ _ _ _ (transaction_ok _ _ _ _ Hc))
    as (old&Hin&Hk&Ho&Hd&->&Hin'). to_prop. split.
  - exists old. unfold Challenges.chl_open in Ho. to_prop. split_and!; try done; [by apply is_null_true|].
    unfold Challenges.Pg.device_current in Hd. apply existsb_exists in Hd as (d&Hd&Hd').
    to_prop. match goal with H : existsb _ _ = true |- _ => apply existsb_exists in H as (acc&Ha&Hac) end.
    unfold account_live in Hac. to_prop. exists d, acc.
    split_and!; try (by apply list_elem_of_In); try done; [congruence|by apply is_null_true].
  - intros db' Hrun now' a' x db2.
    assert (well_formed db1) as Hwf1.
    { eapply db_step_well_formed; [|exact Hwf]. apply run_step. eapply rtc_once.
      pose proof (st_challenge_consume db now a i) as Hst. by rewrite Hc in Hst. }
    pose proof (consumed_for_good db1 db' _ Hwf1 Hrun Hin' ltac:(done)) as Hspent. simpl in Hspent.
    assert (∀ cond set, (∀ y, cond y = true → chl_id y = i ∨ chl_nonce_hash y = chl_nonce_hash old) →
      Challenges.Pg.update_open now' a' cond set db' = (Ok (Some x), db2) → False) as Hnone.
    { intros cond set Hcond Hx. apply update_open_spec in Hx as (y&Hy&Hky&Hopen&_).
      rewrite (Hspent now' y Hy) in Hopen; [done|]. rewrite Hk. auto. }
    split_and!; intros k Hx; unfold Challenges.Pg.consume, Challenges.Pg.consume_by_nonce_hash in Hx;
      try apply transaction_ok in Hx; pose proof Hx as Hx'; apply update_open_spec in Hx' as (y&_&Hky&_&_&->&_);
      intros Heq; simpl in Heq; (eapply Hnone; [|exact Hx]); intros z Hz; cbn beta in Hz, Hky; to_prop; [left; congruence|right; congruence|].
    left. congruence.
Qed.

(** ** Linking codes *)

Lemma redeem_spec now i a d e n l k fp db dev db1 :
  LinkingOtps.Pg.consume_and_register now i a d e n l k fp db = (Ok (Some dev), db1) →
  ∃ otp, otp ∈ device_linking_otps db ∧ LinkingOtps.Pg.redeemable db now i a d e otp = true ∧
    LinkingOtps.otp_consumed otp now ∈ device_linking_otps db1 ∧
    dev = Devices.new_device n a e l k fp now (Some d) ∧ dev ∈ devices db1 ∧ device_check dev = true.
Proof.
  intros H%transaction_ok. apply bind_ok_inv in H as (db0&db0'&[= <- <-]&H).
  apply bind_ok_inv in H as (consumed&db2&Hu&H). unfold on_device_linking_otps, zoom in Hu.
  destruct (update_returning _ _ _ _) as [o t] eqn:Hup. injection Hu as -> <-.
  destruct consumed as [|c consumed]; [done|]. rewrite bool_decide_false in H by done.
  destruct (update_first_row _ _ _ _ _ _ c Hup eq_refl) as (otp&Hin&Hc&->&Hin').
  apply bind_ok_inv in H as (new&db3&[= <- <-]&H). apply bind_ok_inv in H as (rows&db4&Hi&H).
  unfold on_devices, zoom in Hi. destruct (insert_returning _ _ _) as [o t'] eqn:Hins. injection Hi as -> <-.
  apply bind_ok_inv in H as (dev'&db5&Hreq&[= -> <-]). unfold lift, required_row in Hreq.
  destruct (first_row rows) as [r|] eqn:Hf; [|done]. injection Hreq as -> <-.
  pose proof Hins as Hins'. apply insert_returning_app in Hins' as [-> ->]. simpl in *.
  assert (device_check dev = true) as Hck.
  { unfold first_row in Hf. destruct (map _ _) as [|r0 rest] eqn:Hm; [done|]. injection Hf as ->.
    simpl in Hins. unfold device_admits in Hins. by destruct (device_check dev). }
  apply first_row_elem in Hf. pose proof Hf as Hf'. apply list_elem_of_fmap in Hf as (acc&->&Hacc).
  exists otp. split_and!; try done; [|by apply elem_of_app; right].
  unfold Devices.Pg.current_account in Hacc. apply list_elem_of_In, filter_In in Hacc as [_ Hacc]. to_prop. congruence.
Qed.

(** Redeeming nothing changes nothing. *)
Lemma redeem_atomic now i a d e n l k fp db o db1 :
  LinkingOtps.Pg.consume_and_register now i a d e n l k fp db = (o, db1) →
  (∀ dev, o ≠ Ok (Some dev)) → db1 = db.
Proof.
  unfold LinkingOtps.Pg.consume_and_register, transaction.
  destruct (bind _ _ db) as [[x|x] db2] eqn:Hb; [|by intros [= <- <-]]. intros [= <- <-] Hno.
  apply bind_ok_inv in Hb as (db0&db0'&[= <- <-]&H). apply bind_ok_inv in H as (consumed&db3&Hu&H).
  unfold on_device_linking_otps, zoom in Hu. destruct (update_returning _ _ _ _) as [o t] eqn:Hup.
  injection Hu as -> <-. apply update_rows in Hup as [-> ->]. destruct (bool_decide _) eqn:Hd.
  - injection H as <- <-. to_prop. apply map_eq_nil in Hd. unfold update_set.
    assert (∀ t : list DeviceLinkingOtpRecord, List.filter (LinkingOtps.Pg.redeemable db now i a d e) t = [] →
      map (λ r, if LinkingOtps.Pg.redeemable db now i a d e r then LinkingOtps.otp_consumed r now else r) t = t) as Hid.
    { clear. induction t as [|r t IH]; simpl; [done|]. destruct (LinkingOtps.Pg.redeemable _ _ _ _ _ _ r); [done|].
      intros. f_equal. auto. }
    rewrite (Hid _ Hd). by destruct db.
  - apply bind_ok_inv in H as (new&db4&_&H). apply bind_ok_inv in H as (rows&db5&_&H).
    apply bind_ok_inv in H as (dev&db6&_&[= <- <-]). by destruct (Hno dev).
Qed.

(** C24: a linking code registers at most one device.  Redeeming a code on
    PostgreSQL either changes nothing, or found a stored code of exactly that
    account and issuing device, active, unexpired and with attempts left, whose
    issuer is active in the epoch of its live account; it then stored one new
    active device of that account and epoch, linked by the issuer, and marked
    the code.  Whatever the repositories run afterwards, that code is looked
    up, redeemed and marked by no later call. *)
Theorem linking_code_redeemed_once now i a d e n l k fp db o db1 :
  well_formed db → LinkingOtps.Pg.consume_and_register now i a d e n l k fp db = (o, db1) →
  match o with
  | Ok (Some dev) =>
      (∃ otp, otp ∈ device_linking_otps db ∧ otp_id otp = i ∧ otp_user_id otp = a ∧ otp_issuing_device_id otp = d ∧
         otp_status otp = "active" ∧ (now < otp_expires_at otp)%Z ∧ (otp_attempt_count otp < 10)%Z ∧
         LinkingOtps.Pg.issuer_current db e otp = true ∧
         (∀ db', rtc statement db1 db' → ∀ now',
            LinkingOtps.Pg.active_rows now' (otp_otp_hash otp) db' = [] ∧
            (LinkingOtps.Pg.mark_failed now' i db').1 = Ok None ∧
            ∀ a' d' e' n' l' k' fp',
              (LinkingOtps.Pg.consume_and_register now' i a' d' e' n' l' k' fp' db').1 = Ok None)) ∧
      dev = Devices.new_device n a e l k fp now (Some d) ∧ dev ∈ devices db1
  | _ => db1 = db
  end.
Proof.
  intros Hwf Hc. destruct o as [[dev|]|x]; try (by eapply redeem_atomic; [exact Hc|]).
  destruct (redeem_spec _ _ _ _ _ _ _ _ _ _ _ _ Hc) as (otp&Hin&Hr&Hin'&Hdev&Hind&_). split; [|done].
  exists otp. unfold LinkingOtps.Pg.redeemable, LinkingOtps.otp_open in Hr. to_prop. split_and!; try done.
  intros db' Hrun now'.
  assert (db_step db1 db') as (_&_&_&_&Hstep&_) by by apply run_step.
  assert (well_formed db1) as (_&_&_&_&Hs&_).
  { eapply db_step_well_formed; [|exact Hwf]. pose proof (otps_redeem_step (R := db_step) now i a d e n l k fp db) as Hst. by rewrite Hc in Hst. }
  destruct (Hstep Hs) as [Hs' Hrows]. destruct (Hrows _ Hin') as (r'&Hr'&Hid&_&_&Hh&_&_&Hsame&_).
  rewrite (Hsame ltac:(done)) in Hr', Hid, Hh. simpl in Hid, Hh.
  assert (∀ y, y ∈ device_linking_otps db' → otp_id y = i ∨ otp_otp_hash y = otp_otp_hash otp →
    LinkingOtps.otp_open now' y = false) as Hspent.
  { intros y Hy Hk. assert (y = LinkingOtps.otp_consumed otp now) as ->; [|done].
    apply (sound_unique _ _ _ Hs' Hy Hr'); simpl; intuition congruence. }
  assert (∀ cond set, (∀ y, cond y = true → otp_id y = i ∧ LinkingOtps.otp_open now' y = true) →
    update_returning linking_otp_check cond set (device_linking_otps db') = (Ok [], device_linking_otps db')) as Hnone.
  { intros cond set Hcond. apply update_no_match. intros y Hy. destruct (cond y) eqn:Hcy; [|done].
    destruct (Hcond y Hcy) as [Hyi Hyo]. rewrite Hspent in Hyo; auto. }
  split_and!.
  - unfold LinkingOtps.Pg.active_rows. destruct (List.filter _ (device_linking_otps db')) as [|y rest] eqn:Hf; [done|].
    assert (y ∈ y :: rest) as Hy by left. rewrite <- Hf in Hy. apply list_elem_of_In, filter_In in Hy as [Hy Hcy].
    apply list_elem_of_In in Hy. to_prop. rewrite Hspent in *; [done|done|]. by right.
  - unfold LinkingOtps.Pg.mark_failed, bind, on_device_linking_otps, zoom. rewrite Hnone; [done|]. intros y Hy. by to_prop.
  - intros. unfold LinkingOtps.Pg.consume_and_register, transaction, bind, gets, on_device_linking_otps, zoom.
    rewrite Hnone; [done|]. intros y Hy. unfold LinkingOtps.Pg.redeemable in Hy. by to_prop.
Qed.

(** ** Tickets and the socket handshake *)

Lemma consume_ticket_spec now key owner db r db1 :
  Tickets.Pg.consume_where now key owner db = (Ok (Some r), db1) →
  ∃ old, old ∈ websocket_tickets db ∧ key old = true ∧ Tickets.tkt_open now old = true ∧
    Tickets.Pg.session_current db now owner old = true ∧ r = tkt_with_consumed_at old now ∧
    r ∈ websocket_tickets db1.
Proof.
  intros H%transaction_ok. unfold bind, gets, ret, on_websocket_tickets, zoom in H. simpl in H.
  destruct (update_returning _ _ _ _) as [[rows|e] t] eqn:Hu; [|done]. injection H as Hf <-.
  destruct (update_first_row _ _ _ _ _ _ _ Hu Hf) as (old&Hin&Hc&->&Hin'). to_prop. eauto 10.
Qed.

Lemma ticket_spent db db' r :
  well_formed db → rtc statement db db' → r ∈ websocket_tickets db → tkt_consumed_at r ≠ None →
  ∀ now x, x ∈ websocket_tickets db' → tkt_id x = tkt_id r ∨ tkt_token_hash x = tkt_token_hash r →
  Tickets.tkt_open now x = false.
Proof.
  intros Hwf Hrun Hr Hc now x Hx Hk. pose proof (run_step _ _ Hrun) as (_&_&_&_&_&_&Hstep&_).
  destruct Hwf as (_&_&_&_&_&_&Hs&_). destruct (Hstep Hs) as [Hs' Hrows].
  destruct (Hrows r Hr) as (r'&Hr'&_&_&_&_&_&Hsame).
  destruct (tkt_consumed_at r) as [t|] eqn:Ht; [|done]. rewrite (Hsame t eq_refl) in Hr'.
  assert (x = r) as -> by (apply (sound_unique _ _ _ Hs' Hx Hr'); simpl; intuition congruence).
  unfold Tickets.tkt_open. by rewrite Ht.
Qed.

Lemma admitted_spec app_origin origin query configured now lookup db session db1 :
  Tickets.authenticate_socket (T := Db) app_origin origin query configured now lookup db = (Ok (inr session), db1) →
  ∃ value h ticket db0, query = [value] ∧ Tickets._ticket_hash (Some value) = Some h ∧
    (∃ o, app_origin = Some o ∧ origin = Some o) ∧
    Tickets.Pg.consume_for_socket (now 0%nat) h db = (Ok (Some ticket), db0) ∧ db1 = db0 ∧
    Sessions.Pg.find_current_by_id (at_clock (lookup 0%nat)) (tkt_session_id ticket) db0 = Some session.
Proof.
  unfold Tickets.authenticate_socket. destruct (Tickets._websocket_origin_allowed app_origin origin) eqn:Ho; [|done].
  cbn [negb]. destruct (Tickets._ticket_hash _) as [h|] eqn:Hh; [|done]. destruct (negb configured); [done|].
  intros H. apply bind_ok_inv in H as ([ticket|]&db0&Hc&H); [|done].
  apply bind_ok_inv in H as ([s|]&db2&Hf&H); [|done]. injection H as -> <-. injection Hf as Hf <-.
  unfold Tickets._query_ticket in Hh. destruct query as [|value [|]]; [done| |done].
  exists value, h, ticket, db0. split_and!; try done.
  unfold Tickets._websocket_origin_allowed in Ho. destruct app_origin as [o|]; [|done]. to_prop. eauto.
Qed.

(** C10: a ticket opens one socket.  When the handshake admits a socket on
    PostgreSQL, its Origin is the configured one, its query is one ticket whose
    digest was stored, unconsumed and unexpired, and the session it serves is
    the ticket's, live: unrevoked, unexpired, of a live account and an active
    device of its epoch.  Whatever the repositories run afterwards, no later
    handshake with that ticket is admitted. *)
Theorem ticket_admits_once app_origin origin query configured now lookup db session db1 :
  well_formed db →
  Tickets.authenticate_socket (T := Db) app_origin origin query configured now lookup db = (Ok (inr session), db1) →
  (∃ o, app_origin = Some o ∧ origin = Some o) ∧
  ∃ value h ticket, query = [value] ∧ hash_secret value = Ok h ∧
    ticket ∈ websocket_tickets db ∧ tkt_token_hash ticket = h ∧ tkt_consumed_at ticket = None ∧
    (now 0%nat < tkt_expires_at ticket)%Z ∧
    live_session db1 (at_clock (lookup 0%nat)) session ∧ ses_id session = tkt_session_id ticket ∧
    ∀ db', rtc statement db1 db' → ∀ app_origin' origin' configured' now' lookup' session',
      (Tickets.authenticate_socket (T := Db) app_origin' origin' query configured' now' lookup' db').1 ≠ Ok (inr session').
Proof.
  intros Hwf (value&h&ticket&db0&->&Hh&Ho&Hc&->&Hf)%admitted_spec. split; [done|].
  destruct (consume_ticket_spec _ _ _ _ _ _ Hc) as (old&Hin&Hk&Hopen&_&->&Hin'). unfold Tickets.tkt_open in Hopen.
  assert (well_formed db0) as Hwf0.
  { eapply db_step_well_formed; [|exact Hwf].
    pose proof (tickets_consume_step (R := db_step) (now 0%nat) (λ r, bool_decide (tkt_token_hash r = h)) (λ _, true) db) as Hst.
    unfold Tickets.Pg.consume_for_socket in Hc. by rewrite Hc in Hst. }
  to_prop. exists value, h, old. simpl in Hf.
  apply first_row_elem, joined_elem in Hf as (Hs&Hi&Hu). to_prop. split_and!; try done.
  - unfold Tickets._ticket_hash in Hh. destruct (negb _); [done|]. destruct (existsb _ _); [done|].
    destruct (hash_secret value); [congruence|done].
  - by apply is_null_true.
  - by apply usable_live.
  - intros db' Hrun ao o cfg n l s' Hs'.
    destruct (Tickets.authenticate_socket (T := Db) ao o [value] cfg n l db') as [x db2] eqn:Ha. simpl in Hs'. subst x.
    apply admitted_spec in Ha as (value'&h'&t'&db3&[= <-]&Hh'&_&Hc'&_). rewrite Hh in Hh'. injection Hh' as <-.
    apply consume_ticket_spec in Hc' as (x&Hx&Hkx&Hox&_). to_prop.
    rewrite (ticket_spent db0 db' _ Hwf0 Hrun Hin' ltac:(done) _ x Hx) in Hox; [done|].
    right. simpl. congruence.
Qed.

(** ** Devices *)

(** [INSERT ... SELECT] returns a row the [SELECT] produced. *)
Lemma insert_select_ok {Row} (get : Db → list Row) put admits f db (r : Row) db' :
  (let! new := gets f in let! rows := zoom get put (insert_returning admits new) in lift (required_row rows)) db =
  (Ok r, db') → r ∈ f db.
Proof.
  intros H. apply bind_ok_inv in H as (new&db0&[= <- <-]&H). apply bind_ok_inv in H as (rows&db1&Hi&H).
  unfold zoom in Hi. destruct (insert_returning _ _ _) as [o t] eqn:Hins. injection Hi as -> _.
  apply insert_returning_app in Hins as [-> _]. unfold lift, required_row in H.
  destruct (first_row _) as [r'|] eqn:Hf; [|done]. injection H as -> _. by apply first_row_elem.
Qed.

(** No active row of the device. *)
Definition inactive (db : Db) (d : UUID) : Prop := ∀ x, x ∈ devices db → dev_id x = d → dev_status x ≠ "active".

Section inactive.
Context (db : Db) (d : UUID) (Hno : inactive db d).

Lemma inactive_existsb (p : DeviceRecord → bool) :
  (∀ x, p x = true → dev_id x = d ∧ dev_status x = "active") → existsb p (devices db) = false.
Proof.
  intros Hp. destruct (existsb p (devices db)) eqn:He; [|done]. apply existsb_exists in He as (x&Hx&Hpx).
  destruct (Hp x Hpx) as [Hd Ha]. apply list_elem_of_In in Hx. by destruct (Hno x Hx Hd).
Qed.

Lemma inactive_session now s : live_session db now s → ses_device_id s ≠ d.
Proof. intros (_&_&_&_&_&(x&Hx&_&Hd&Ha&_)) Heq. apply (Hno x Hx); congruence. Qed.

Lemma inactive_challenge now a i nonce origin e r db' :
  Challenges.Pg.create now i a d nonce origin e db ≠ (Ok r, db').
Proof.
  intros H. apply insert_select_ok in H. unfold Challenges.Pg.create_rows in H.
  apply list_elem_of_bind in H as (x&_&Hx). apply list_elem_of_In, filter_In in Hx as [Hx Hc].
  apply list_elem_of_In in Hx. to_prop. by destruct (Hno x).
Qed.

Lemma inactive_answer now a cond set r db' :
  Challenges.Pg.update_open now a cond set db = (Ok (Some r), db') →
  (∀ x, chl_device_id (set x) = chl_device_id x) → chl_device_id r ≠ d.
Proof.
  intros H Hset. apply update_open_spec in H as (old&_&_&_&Hcur&->&_). rewrite Hset. intros Heq.
  unfold Challenges.Pg.device_current in Hcur. rewrite inactive_existsb in Hcur; [done|].
  intros x Hx. to_prop. split; [congruence|].
  match goal with H : existsb _ _ = true |- _ => apply existsb_exists in H as (acc&_&Hacc) end. by to_prop.
Qed.

Lemma inactive_code now a i h e r db' : LinkingOtps.Pg.create now i a d h e db ≠ (Ok r, db').
Proof.
  intros H. apply insert_select_ok in H. unfold LinkingOtps.Pg.create_rows in H.
  apply list_elem_of_bind in H as (acc&H&_). apply list_elem_of_bind in H as (x&_&Hx).
  apply list_elem_of_In, filter_In in Hx as [Hx Hc]. apply list_elem_of_In in Hx. to_prop. by destruct (Hno x).
Qed.

Lemma inactive_link now i a e n l k fp dev db' :
  LinkingOtps.Pg.consume_and_register now i a d e n l k fp db ≠ (Ok (Some dev), db').
Proof.
  intros H. apply redeem_spec in H as (otp&_&Hr&_). unfold LinkingOtps.Pg.redeemable in Hr. to_prop.
  match goal with H : LinkingOtps.Pg.issuer_current _ _ _ = true |- _ =>
    unfold LinkingOtps.Pg.issuer_current in H; apply existsb_exists in H as (acc&_&Hacc) end.
  apply andb_true_iff in Hacc as [_ Hacc]. rewrite inactive_existsb in Hacc; [done|]. intros x Hx. to_prop. split; congruence.
Qed.

Lemma inactive_transfer at_ i a s t v e r db' :
  TransferRepository.Pg.create at_ i a s t v e db = (Ok r, db') → s ≠ d ∧ t ≠ d.
Proof.
  intros H. apply insert_select_ok in H. unfold TransferRepository.Pg.create_rows in H.
  apply list_elem_of_bind in H as (acc&H&_). apply list_elem_of_bind in H as (x&H&Hx).
  apply list_elem_of_bind in H as (y&_&Hy). apply list_elem_of_In, filter_In in Hx as [Hx Hcx], Hy as [Hy Hcy].
  apply list_elem_of_In in Hx, Hy. to_prop. split; intros ->; [by destruct (Hno x)|by destruct (Hno y)].
Qed.
End inactive.

(** A device update that also revokes the device's sessions. *)
Lemma with_sessions_spec now a d reason set db r db1 :
  Devices.Pg.with_sessions now a d reason set db = (Ok (Some r), db1) →
  ∃ old, old ∈ devices db ∧ dev_user_id old = a ∧ dev_id old = d ∧ r = set old ∧ r ∈ devices db1 ∧
    ∀ s, s ∈ app_sessions db1 → ses_user_id s = a → ses_device_id s = d → ses_revoked_at s ≠ None.
Proof.
  intros H%transaction_ok. apply bind_ok_inv in H as (rows&db0&Hu&H). unfold Devices.Pg.update, on_devices, zoom in Hu.
  destruct (update_returning _ _ _ _) as [o t] eqn:Hup. injection Hu as -> <-.
  destruct (first_row rows) as [r'|] eqn:Hf; [|done].
  destruct (update_first_row _ _ _ _ _ _ _ Hup Hf) as (old&Hin&Ho&->&Hin'). unfold Devices.Pg.owned in Ho. to_prop.
  apply bind_ok_inv in H as (n&db2&Hrev&[= <- <-]). unfold Sessions.Pg.revoke_for_device in Hrev.
  apply bind_ok_inv in Hrev as (rows'&db3&Hrev&[= _ <-]).
  unfold Sessions.Pg.revoke_where, Sessions.Pg.update, on_app_sessions, zoom in Hrev.
  destruct (update_returning session_check _ _ _) as [o' t'] eqn:Hup'. injection Hrev as -> <-.
  apply update_rows in Hup' as [_ ->]. exists old. split_and!; try done. simpl.
  intros s Hs Hsu Hsd. apply list_elem_of_fmap in Hs as (s0&->&Hs0).
  destruct (_ && _) eqn:Hc; [done|]. apply andb_false_iff in Hc as [Hc|Hc]; [|by destruct (ses_revoked_at s0)].
  rewrite !bool_decide_true in Hc by done. done.
Qed.

Lemma revoke_spec now a d reason db r db1 :
  Devices.Pg.revoke_with_sessions now a d reason db = (Ok (Some r), db1) →
  ∃ old, old ∈ devices db ∧ dev_user_id old = a ∧ dev_id old = d ∧
    r = Devices.dev_revoked old (coalesce (dev_revoked_at old) now) ∧ r ∈ devices db1 ∧
    ∀ s, s ∈ app_sessions db1 → ses_user_id s = a → ses_device_id s = d → ses_revoked_at s ≠ None.
Proof. apply with_sessions_spec. Qed.

Lemma with_sessions_none now a d reason set db db1 :
  Devices.Pg.with_sessions now a d reason set db = (Ok None, db1) →
  ∀ x, x ∈ devices db → dev_user_id x = a → dev_id x ≠ d.
Proof.
  intros H%transaction_ok x Hx <- <-. apply bind_ok_inv in H as (rows&db0&Hu&H).
  unfold Devices.Pg.update, on_devices, zoom in Hu. destruct (update_returning _ _ _ _) as [o t] eqn:Hup.
  injection Hu as -> <-. apply update_rows in Hup as [-> _].
  destruct (first_row _) as [r|] eqn:Hf; [by apply bind_ok_inv in H as (?&?&_&?)|].
  assert (x ∈ List.filter (Devices.Pg.owned (dev_user_id x) (dev_id x)) (devices db)) as Hin.
  { apply list_elem_of_In, filter_In. split; [by apply list_elem_of_In|]. unfold Devices.Pg.owned. by rewrite !bool_decide_true. }
  destruct (List.filter _ _); [by apply not_elem_of_nil in Hin|done].
Qed.

(** C9: revocation is final.  When revoking a device on PostgreSQL returns a
    record, that row of the account is stored as revoked and every session of
    the device is revoked with it.  Whatever the repositories run afterwards
    (re-registration of its key included), the row keeps its first
    revocation, no session of the device is live, no challenge is created for
    it or answered by it, it issues no linking code and none it issued is
    redeemed, and it is party to no new transfer. *)
Theorem revocation_final now a d reason db r db1 :
  well_formed db → Devices.Pg.revoke_with_sessions now a d reason db = (Ok (Some r), db1) →
  (dev_id r = d ∧ dev_user_id r = a ∧ dev_status r = "revoked" ∧ r ∈ devices db1) ∧
  (∀ s, s ∈ app_sessions db1 → ses_user_id s = a → ses_device_id s = d → ses_revoked_at s ≠ None) ∧
  ∀ db', rtc statement db1 db' →
    (∃ r', r' ∈ devices db' ∧ device_grows r r' ∧ dev_status r' = "revoked") ∧
    (∀ now' s, live_session db' now' s → ses_device_id s ≠ d) ∧
    (∀ now' a' i nonce origin e x db2, Challenges.Pg.create now' i a' d nonce origin e db' ≠ (Ok x, db2)) ∧
    (∀ now' a' i x db2, Challenges.Pg.consume now' a' i db' = (Ok (Some x), db2) → chl_device_id x ≠ d) ∧
    (∀ now' a' i h e x db2, LinkingOtps.Pg.create now' i a' d h e db' ≠ (Ok x, db2)) ∧
    (∀ now' i a' e n l k fp x db2, LinkingOtps.Pg.consume_and_register now' i a' d e n l k fp db' ≠ (Ok (Some x), db2)) ∧
    (∀ at_ i a' s t v e x db2, TransferRepository.Pg.create at_ i a' s t v e db' = (Ok x, db2) → s ≠ d ∧ t ≠ d).
Proof.
  intros Hwf Hrev. destruct (revoke_spec _ _ _ _ _ _ _ Hrev) as (old&Hin&<-&<-&->&Hin1&Hses).
  split_and!; try done. intros db' Hrun.
  assert (well_formed db1) as (_&Hs&_).
  { eapply db_step_well_formed; [|exact Hwf].
    pose proof (devices_with_sessions_step (R := db_step) now (dev_user_id old) (dev_id old) reason _ (revoked_grows now) db) as Hst.
    unfold Devices.Pg.revoke_with_sessions in Hrev. by rewrite Hrev in Hst. }
  destruct (run_step _ _ Hrun) as (_&Hstep&_). destruct (Hstep Hs) as [Hs' Hrows].
  destruct (Hrows _ Hin1) as (r'&Hr'&Hg). pose proof Hg as (Hid&_&_&_&_&_&_&Hst&_). specialize (Hst eq_refl).
  assert (inactive db' (dev_id old)) as Hno.
  { intros x Hx Hxd. assert (x = r') as ->; [|by rewrite Hst].
    apply (sound_unique _ _ _ Hs' Hx Hr'); simpl in *; intuition congruence. }
  split_and!; [by exists r'|by eapply inactive_session|by eapply inactive_challenge| |by eapply inactive_code
    |by eapply inactive_link|by eapply inactive_transfer].
  intros now' a' i x db2 Hc%transaction_ok. by eapply inactive_answer.
Qed.

(** ** Witnesses *)

Lemma challenge_consumed_once_witness :
  ∃ r db1, Challenges.Pg.consume (minutes 1) 1 200 home = (Ok (Some r), db1) ∧
    ∀ x db2, Challenges.Pg.consume (minutes 2) 1 200 db1 = (Ok (Some x), db2) → chl_id x ≠ 200%N.
Proof.
  destruct (Challenges.Pg.consume (minutes 1) 1 200 home) as [[[r|]|e] db1] eqn:Hr;
    [|vm_compute in Hr; discriminate Hr..].
  destruct (challenge_consumed_once _ _ _ _ _ _ home_well_formed Hr) as [_ Hlater].
  exists r, db1. split; [reflexivity|]. intros x db2. apply (Hlater db1 (rtc_refl _ _)).
Defined.

Lemma linking_code_redeemed_once_witness :
  ∃ dev db1, LinkingOtps.Pg.consume_and_register (minutes 1) 300 1 10 0 12 (u "tablet") (repeat x05 3) (repeat x06 32) home =
      (Ok (Some dev), db1) ∧
    (LinkingOtps.Pg.mark_failed (minutes 2) 300 db1).1 = Ok None.
Proof.
  destruct (LinkingOtps.Pg.consume_and_register (minutes 1) 300 1 10 0 12 (u "tablet") (repeat x05 3) (repeat x06 32) home)
    as [[[dev|]|e] db1] eqn:Hr; [|vm_compute in Hr; discriminate Hr..].
  destruct (linking_code_redeemed_once _ _ _ _ _ _ _ _ _ _ _ _ home_well_formed Hr)
    as [(otp&_&_&_&_&_&_&_&_&Hlater) _].
  exists dev, db1. split; [reflexivity|]. exact (proj1 (proj2 (Hlater db1 (rtc_refl _ _) (minutes 2)))).
Defined.

Definition minute_readings : readings := λ _, {| at_clock := seconds 30; at_wall := seconds 30 |}.

Lemma ticket_admits_once_witness :
  ∃ session db1,
    Tickets.authenticate_socket (T := Db) (Some site) (Some site) [ticket_value] true (λ _, seconds 30) minute_readings home =
      (Ok (inr session), db1) ∧ live_session db1 (seconds 30) session ∧
    (Tickets.authenticate_socket (T := Db) (Some site) (Some site) [ticket_value] true (λ _, seconds 40) minute_readings db1).1
      ≠ Ok (inr session).
Proof.
  destruct (Tickets.authenticate_socket (T := Db) (Some site) (Some site) [ticket_value] true (λ _, seconds 30)
    minute_readings home) as [[[c|session]|e] db1] eqn:Hr; [vm_compute in Hr; discriminate Hr| |vm_compute in Hr; discriminate Hr].
  destruct (ticket_admits_once _ _ _ _ _ _ _ _ _ home_well_formed Hr)
    as [_ (value&h&ticket&_&_&_&_&_&_&Hlive&_&Hlater)].
  exists session, db1. split; [reflexivity|]. split; [exact Hlive|]. apply (Hlater db1 (rtc_refl _ _)).
Defined.

Lemma revocation_final_witness :
  ∃ r db1, Devices.Pg.revoke_with_sessions (minutes 1) 1 10 "device_revoked" home = (Ok (Some r), db1) ∧
    dev_status r = "revoked" ∧ ∀ s, live_session db1 (minutes 2) s → ses_device_id s ≠ 10%N.
Proof.
  destruct (Devices.Pg.revoke_with_sessions (minutes 1) 1 10 "device_revoked" home) as [[[r|]|e] db1] eqn:Hr;
    [|vm_compute in Hr; discriminate Hr..].
  destruct (revocation_final _ _ _ _ _ _ _ home_well_formed Hr) as ((_&_&Hst&_)&_&Hlater).
  exists r, db1. split; [reflexivity|]. split; [exact Hst|]. intros s.
  exact (proj1 (proj2 (Hlater db1 (rtc_refl _ _))) (minutes 2) s).
Defined.
