(* ===== verification/CleanupTheorems.v ===== *)
(** * CleanupTheorems: what the retention job deletes, and that it ends

    One batch deletes the oldest finished rows and nothing else; repeating it
    drains every table; and, among any run of statements, it leaves the database
    well-formed and its references whole. *)
From S2P Require Import Prelude PyDict Json Models Sql Tables Schema Integrity History Cleanup Fixtures.
From stdpp Require Import list strings relations sorting.

(** ** One batch of one table *)
Section batch.
Context {Row : Type} (cond : Row → bool) (key : Row → Z).
Implicit Types (t : list Row).

Lemma imap_pair_snd t n : map snd (imap (λ i r, (n + i, r)) t) = t.
Proof.
  revert n. induction t as [|r t IH]; intros n; simpl; [done|]. f_equal.
  rewrite <- (IH (S n)) at 2. f_equal. apply imap_ext. intros i x _. simpl. f_equal. lia.
Qed.

Lemma numbered_snd t : map snd (imap pair t) = t.
Proof. exact (imap_pair_snd t 0). Qed.

Lemma numbered_fst t : NoDup (map fst (imap pair t)).
Proof.
  assert (map fst (imap pair t) = seq 0 (length t)) as ->; [|apply NoDup_seq].
  assert (∀ n, map fst (imap (λ i r, (n + i, r)) t) = seq n (length t)) as H; [|exact (H 0)].
  induction t as [|r t IH]; intros n; simpl; [done|]. f_equal; [lia|].
  rewrite <- (IH (S n)). f_equal. apply imap_ext. intros i x _. simpl. f_equal. lia.
Qed.

Lemma insert_asc_perm r (l : list (nat * Row)) : insert_asc key r l ≡ₚ r :: l.
Proof.
  induction l as [|r' l IH]; simpl; [done|]. case_match_goal; [done|]. rewrite IH. apply Permutation_swap.
Qed.

Lemma candidates_perm t : candidates cond key t ≡ₚ List.filter (λ r, cond r.2) (imap pair t).
Proof.
  unfold candidates. induction (List.filter _ _) as [|r l IH]; simpl; [done|]. by rewrite insert_asc_perm, IH.
Qed.

Definition older (a b : nat * Row) : Prop := (key a.2 <= key b.2)%Z.

Lemma insert_asc_sorted r l : StronglySorted older l → StronglySorted older (insert_asc key r l).
Proof.
  induction 1 as [|r' l Hl IH Hall]; simpl; [repeat constructor|].
  destruct (key r.2 <=? key r'.2)%Z eqn:Hk; to_prop.
  - constructor; [by constructor|]. constructor; [done|]. eapply Forall_impl; [exact Hall|].
    unfold older. simpl. lia.
  - constructor; [done|]. rewrite insert_asc_perm. constructor; [unfold older; lia|done].
Qed.

Lemma candidates_sorted t : StronglySorted older (candidates cond key t).
Proof.
  unfold candidates. induction (List.filter _ _) as [|r l IH]; simpl; [constructor|by apply insert_asc_sorted].
Qed.

Lemma StronglySorted_app_le l1 l2 a b :
  StronglySorted older (l1 ++ l2) → a ∈ l1 → b ∈ l2 → older a b.
Proof.
  induction l1 as [|x l1 IH]; simpl; [by intros _ ?%not_elem_of_nil|].
  intros [Hs Hall]%StronglySorted_inv Ha Hb. apply elem_of_cons in Ha as [->|Ha]; [|by apply IH].
  rewrite Forall_forall in Hall. apply Hall, elem_of_app. by right.
Qed.

Lemma NoDup_fst_eq (l : list (nat * Row)) a b : NoDup (map fst l) → a ∈ l → b ∈ l → a.1 = b.1 → a = b.
Proof.
  induction l as [|x l IH]; simpl; [by intros _ ?%not_elem_of_nil|]. intros [Hx Hnd]%NoDup_cons Ha Hb He.
  apply elem_of_cons in Ha as [->|Ha], Hb as [->|Hb]; [done| | |by apply IH]; exfalso; apply Hx.
  - rewrite He. by apply list_elem_of_fmap_2.
  - rewrite <- He. by apply list_elem_of_fmap_2.
Qed.

Lemma filter_partition {A} (p : A → bool) l : List.filter p l ++ List.filter (λ x, negb (p x)) l ≡ₚ l.
Proof.
  induction l as [|x l IH]; simpl; [done|]. destruct (p x); simpl; [by rewrite IH|].
  by rewrite <- Permutation_middle, IH.
Qed.

Lemma filter_map_snd (p : Row → bool) (l : list (nat * Row)) :
  map snd (List.filter (λ r, p r.2) l) = List.filter p (map snd l).
Proof. induction l as [|x l IH]; simpl; [done|]. destruct (p x.2); simpl; by rewrite IH. Qed.

(** The rows of the chosen positions are the first candidates. *)
Lemma chosen_perm n t :
  List.filter (λ r, bool_decide (r.1 ∈ victims cond key n t)) (imap pair t) ≡ₚ
  firstn (Z.to_nat n) (candidates cond key t).
Proof.
  assert (∀ x, x ∈ firstn (Z.to_nat n) (candidates cond key t) → x ∈ imap pair t) as Hsub.
  { intros x Hx. assert (x ∈ candidates cond key t) as Hc.
    { rewrite <- (take_drop (Z.to_nat n) (candidates cond key t)). apply elem_of_app. by left. }
    rewrite candidates_perm in Hc. apply list_elem_of_In, filter_In in Hc as [Hc _]. by apply list_elem_of_In. }
  pose proof (numbered_fst t) as Hnd. apply NoDup_Permutation.
  - apply NoDup_ListNoDup, List.NoDup_filter, NoDup_ListNoDup. by eapply NoDup_fmap_1.
  - assert (NoDup (candidates cond key t)) as Hc.
    { rewrite candidates_perm. apply NoDup_ListNoDup, List.NoDup_filter, NoDup_ListNoDup. by eapply NoDup_fmap_1. }
    rewrite <- (take_drop (Z.to_nat n) (candidates cond key t)) in Hc. by apply NoDup_app in Hc as [? _].
  - intros x. rewrite list_elem_of_In, filter_In, <- list_elem_of_In, bool_decide_eq_true. split.
    + intros [Hx Hv]. unfold victims in Hv. apply list_elem_of_fmap in Hv as (y&Hy&Hyin).
      by rewrite (NoDup_fst_eq _ x y Hnd Hx (Hsub y Hyin) Hy).
    + intros Hx. split; [by apply Hsub|]. by apply list_elem_of_fmap_2.
Qed.

Definition due t : nat := length (List.filter cond t).

Lemma filter_sublist_list {A} (p : A → bool) l : List.filter p l `sublist_of` l.
Proof. induction l as [|x l IH]; simpl; [done|]. destruct (p x); by constructor. Qed.

Lemma sublist_map {A B} (f : A → B) l l' : l `sublist_of` l' → map f l `sublist_of` map f l'.
Proof. induction 1; simpl; by constructor. Qed.

Lemma due_partition rows t t' :
  Forall (λ r, cond r = true) rows → rows ++ t' ≡ₚ t → due t' = (due t - length rows)%nat.
Proof.
  intros Hall Hp. unfold due.
  assert (length (List.filter cond (rows ++ t')) = length (List.filter cond t)) as Hl.
  { clear Hall. induction Hp as [|x l l' _ IH|x y l|l1 l2 l3 _ IH1 _ IH2]; simpl; [done| | |congruence].
    - destruct (cond x); simpl; congruence.
    - by destruct (cond x), (cond y). }
  rewrite <- Hl, List.filter_app, length_app. clear Hl Hp.
  assert (List.filter cond rows = rows) as ->; [|lia].
  induction Hall as [|r rows Hr _ IH]; simpl; [done|]. by rewrite Hr, IH.
Qed.

(** A due row that is left is no older than one that goes. *)
Lemma delete_oldest n t gone left :
  gone ∈ map snd (firstn (Z.to_nat n) (candidates cond key t)) →
  left ∈ map snd (List.filter (λ r, negb (bool_decide (r.1 ∈ victims cond key n t))) (imap pair t)) →
  cond left = true → (key gone <= key left)%Z.
Proof.
  intros (g&->&Hg)%list_elem_of_fmap (x&->&Hx)%list_elem_of_fmap Hc.
  apply list_elem_of_In, filter_In in Hx as [Hx Hv]. to_prop.
  assert (x ∈ candidates cond key t) as Hin.
  { rewrite candidates_perm. by apply list_elem_of_In, filter_In. }
  pose proof (candidates_sorted t) as Hs. rewrite <- (take_drop (Z.to_nat n) (candidates cond key t)) in Hin, Hs.
  apply elem_of_app in Hin as [Hin|Hin].
  - exfalso. apply Hv. unfold victims. by apply list_elem_of_fmap_2.
  - exact (StronglySorted_app_le _ _ _ _ Hs Hg Hin).
Qed.

(** What one batch does: it deletes rows that are due, as many as the batch
    allows, none younger than a due row it leaves; and it keeps every other
    row, in order. *)
Lemma delete_batch_spec n t rows t' :
  _delete_batch cond key n t = (Ok rows, t') →
  rows ++ t' ≡ₚ t ∧ t' `sublist_of` t ∧ Forall (λ r, cond r = true) rows ∧
  length rows = Nat.min (Z.to_nat n) (due t) ∧ due t' = (due t - length rows)%nat ∧
  ∀ gone left, gone ∈ rows → left ∈ t' → cond left = true → (key gone <= key left)%Z.
Proof.
  intros [= <- <-]. pose proof (chosen_perm n t) as HD. remember (candidates cond key t) as C eqn:HC.
  assert (Forall (λ r, cond r = true) (map snd (List.filter (λ r, bool_decide (r.1 ∈ victims cond key n t)) (imap pair t))))
    as Hgone.
  { rewrite HD. apply Forall_forall. intros r (x&->&Hx)%list_elem_of_fmap.
    assert (x ∈ C) as Hc by (rewrite <- (take_drop (Z.to_nat n) C); apply elem_of_app; by left).
    rewrite HC, candidates_perm in Hc. by apply list_elem_of_In, filter_In in Hc as [_ ?]. }
  assert (length (map snd (List.filter (λ r, bool_decide (r.1 ∈ victims cond key n t)) (imap pair t))) =
    Nat.min (Z.to_nat n) (due t)) as Hlen.
  { rewrite length_map, HD, length_take, HC, candidates_perm. unfold due.
    by rewrite <- (numbered_snd t) at 2; rewrite <- filter_map_snd, length_map. }
  split_and!; [..|done|exact Hlen| |].
  - rewrite <- map_app, filter_partition. by rewrite numbered_snd.
  - rewrite <- (numbered_snd t) at 2. apply sublist_map, filter_sublist_list.
  - apply due_partition; [done|]. by rewrite <- map_app, filter_partition, numbered_snd.
  - intros gone left Hg Hl Hc. apply (delete_oldest n t gone left); [|exact Hl|exact Hc]. by rewrite <- HC, <- HD.
Qed.
End batch.

(** ** The job over the database *)

(** [t'] is what one batch of [n] leaves of [t], having deleted [count] rows:
    due ones, as many as the batch allows, oldest first; the others stay. *)
Definition batch_of {Row} (cond : Row → bool) (key : Row → Z) (n : Z) (t t' : list Row) (count : nat) : Prop :=
  ∃ rows, count = length rows ∧ rows ++ t' ≡ₚ t ∧ t' `sublist_of` t ∧ Forall (λ r, cond r = true) rows ∧
    length rows = Nat.min (Z.to_nat n) (due cond t) ∧
    ∀ gone left, gone ∈ rows → left ∈ t' → cond left = true → (key gone <= key left)%Z.

Section run.
Context {Row : Type} (cond : Row → bool) (key : Row → Z) (n : Z) (t : list Row).

Definition gone : list Row :=
  map snd (List.filter (λ r, bool_decide (r.1 ∈ victims cond key n t)) (imap pair t)).
Definition kept : list Row :=
  map snd (List.filter (λ r, negb (bool_decide (r.1 ∈ victims cond key n t))) (imap pair t)).

Lemma delete_batch_run : _delete_batch cond key n t = (Ok gone, kept).
Proof. reflexivity. Qed.
End run.

Lemma batch_of_run {Row} (cond : Row → bool) key n t :
  batch_of cond key n t (kept cond key n t) (length (gone cond key n t)).
Proof.
  edestruct (delete_batch_spec cond key n t) as (Hp&Hs&Hall&Hlen&_&Hord); [apply delete_batch_run|].
  eexists. split_and!; [reflexivity|exact Hp|exact Hs|exact Hall|exact Hlen|exact Hord].
Qed.

(** The tickets the deletion of a batch of sessions leaves. *)
Definition tickets_left (now : timestamp) (n : Z) (db : Db) : list WebSocketTicketRecord :=
  List.filter (λ r, negb (bool_decide (tkt_session_id r ∈
    map ses_id (gone (session_retained now) session_age n (app_sessions db))))) (websocket_tickets db).

Definition cleaned (now : timestamp) (n : Z) (db : Db) : Db :=
  {| app_users := app_users db; devices := devices db;
     app_sessions := kept (session_retained now) session_age n (app_sessions db);
     device_challenges := kept (challenge_done now) challenge_age n (device_challenges db);
     device_linking_otps := kept (linking_otp_done now) linking_otp_age n (device_linking_otps db);
     transfer_requests := kept (transfer_done now) transfer_age n (transfer_requests db);
     websocket_tickets := kept (ticket_done now) ticket_age n (tickets_left now n db);
     security_events := kept (event_done now) ev_expires_at n (security_events db);
     rate_limit_buckets := kept (bucket_done now) rlb_window_expires_at n (rate_limit_buckets db) |}.

Definition valid_batch (n : Z) : Prop := (0 < n <= MAX_CLEANUP_BATCH_SIZE)%Z.

Lemma cleanup_run now n db :
  valid_batch n → cleanup_expired now n db =
    (Ok [("app_sessions", length (gone (session_retained now) session_age n (app_sessions db)));
         ("device_challenges", length (gone (challenge_done now) challenge_age n (device_challenges db)));
         ("device_linking_otps", length (gone (linking_otp_done now) linking_otp_age n (device_linking_otps db)));
         ("transfer_requests", length (gone (transfer_done now) transfer_age n (transfer_requests db)));
         ("websocket_tickets", length (gone (ticket_done now) ticket_age n (tickets_left now n db)));
         ("security_events", length (gone (event_done now) ev_expires_at n (security_events db)));
         ("rate_limit_buckets", length (gone (bucket_done now) rlb_window_expires_at n (rate_limit_buckets db)))],
     cleaned now n db).
Proof.
  intros [Hlo Hhi]. unfold cleanup_expired, lift, _validate_batch_size.
  rewrite (proj2 (Z.ltb_lt _ _) Hlo), (proj2 (Z.leb_le _ _) Hhi).
  unfold transaction, delete_sessions, delete_challenges, delete_linking_otps, delete_transfers, delete_tickets,
    delete_events, delete_buckets, counted, on_app_sessions, on_device_challenges, on_device_linking_otps,
    on_transfer_requests, on_websocket_tickets, on_security_events, on_rate_limit_buckets, bind, ret, zoom.
  cbn beta iota delta [andb app_users devices app_sessions device_challenges device_linking_otps transfer_requests
    websocket_tickets security_events rate_limit_buckets].
  repeat (rewrite delete_batch_run; cbn beta iota delta [app_users devices app_sessions device_challenges
    device_linking_otps transfer_requests websocket_tickets security_events rate_limit_buckets delete_returning]).
  reflexivity.
Qed.

(** C36: what a run of the retention job deletes.  With a valid batch size the
    run succeeds.  Of sessions, challenges, linking codes, transfers, events and
    buckets it deletes rows their queries select, as many as the batch allows,
    the oldest first, reports their number, and keeps every other row in place.
    A socket ticket goes in one of two ways: with its session, by the foreign
    key's cascade, whatever its own state, beyond the batch and uncounted; and,
    of the tickets whose sessions stay, a batch of finished ones as above, and
    counted.  Accounts and devices are not touched, and the database stays
    well-formed.  Any other batch size is refused, and changes nothing. *)
Theorem cleanup_deletes_due now n db :
  (valid_batch n →
   ∃ db' c1 c2 c3 c4 c5 c6 c7,
     cleanup_expired now n db =
       (Ok [("app_sessions", c1); ("device_challenges", c2); ("device_linking_otps", c3); ("transfer_requests", c4);
            ("websocket_tickets", c5); ("security_events", c6); ("rate_limit_buckets", c7)], db') ∧
     app_users db' = app_users db ∧ devices db' = devices db ∧
     batch_of (session_retained now) session_age n (app_sessions db) (app_sessions db') c1 ∧
     batch_of (challenge_done now) challenge_age n (device_challenges db) (device_challenges db') c2 ∧
     batch_of (linking_otp_done now) linking_otp_age n (device_linking_otps db) (device_linking_otps db') c3 ∧
     batch_of (transfer_done now) transfer_age n (transfer_requests db) (transfer_requests db') c4 ∧
     (∃ gone, gone ++ app_sessions db' ≡ₚ app_sessions db ∧ c1 = length gone ∧
        Forall (λ r, session_retained now r = true) gone ∧
        batch_of (ticket_done now) ticket_age n
          (List.filter (λ r, negb (bool_decide (tkt_session_id r ∈ map ses_id gone))) (websocket_tickets db))
          (websocket_tickets db') c5) ∧
     batch_of (event_done now) ev_expires_at n (security_events db) (security_events db') c6 ∧
     batch_of (bucket_done now) rlb_window_expires_at n (rate_limit_buckets db) (rate_limit_buckets db') c7 ∧
     (well_formed db → well_formed db')) ∧
  (¬ valid_batch n → cleanup_expired now n db = (Raise ValueError, db)).
Proof.
  split.
  - intros Hn. exists (cleaned now n db). do 7 eexists. split; [by apply cleanup_run|].
    split_and!; [done|done|apply batch_of_run..| | | |]; [|apply batch_of_run..|].
    + edestruct (delete_batch_spec (session_retained now) session_age n (app_sessions db)) as (Hp&_&Hall&_); [apply delete_batch_run|].
      eexists. split_and!; [exact Hp|reflexivity|exact Hall|apply batch_of_run].
    + unfold well_formed. cbn [app_users devices app_sessions device_challenges device_linking_otps transfer_requests
        websocket_tickets security_events rate_limit_buckets cleaned]. intros. destruct_and?.
      split_and!; try done; (eapply sound_sublist; [eapply delete_batch_spec, delete_batch_run|]); try done.
      unfold tickets_left. by apply sound_filter.
  - intros Hbad. unfold cleanup_expired, bind at 1, lift, _validate_batch_size.
    destruct ((0 <? n) && (n <=? MAX_CLEANUP_BATCH_SIZE))%Z eqn:Hn; [|done]. exfalso. apply Hbad.
    unfold valid_batch. to_prop. lia.
Qed.

(** ** Draining *)
Definition backlog (now : timestamp) (db : Db) : list nat :=
  [due (session_retained now) (app_sessions db); due (challenge_done now) (device_challenges db);
   due (linking_otp_done now) (device_linking_otps db); due (transfer_done now) (transfer_requests db);
   due (ticket_done now) (websocket_tickets db); due (event_done now) (security_events db);
   due (bucket_done now) (rate_limit_buckets db)].

Lemma due_after {Row} (cond : Row → bool) key n t :
  due cond (kept cond key n t) = (due cond t - Z.to_nat n)%nat.
Proof.
  edestruct (delete_batch_spec cond key n t) as (_&_&_&Hlen&Hdue&_); [apply delete_batch_run|]. rewrite Hdue, Hlen. lia.
Qed.

Lemma due_filter {Row} (cond p : Row → bool) t : (due cond (List.filter p t) <= due cond t)%nat.
Proof.
  unfold due. induction t as [|r t IH]; simpl; [lia|]. destruct (p r); simpl; destruct (cond r); simpl; lia.
Qed.

Lemma backlog_after now n db :
  valid_batch n →
  Forall2 (λ b' b, (b' <= b - Z.to_nat n)%nat) (backlog now (cleanup_expired now n db).2) (backlog now db).
Proof.
  intros Hn. rewrite cleanup_run by done. unfold backlog. cbn [snd cleaned app_sessions device_challenges
    device_linking_otps transfer_requests websocket_tickets security_events rate_limit_buckets].
  rewrite !due_after. repeat constructor; try lia. unfold tickets_left.
  match goal with |- context [due ?c (List.filter ?p ?t)] => pose proof (due_filter c p t) end. lia.
Qed.

(** C35: the retention job ends.  With the clock held, [k] runs of a batch of
    [n] leave nothing to delete in any table as soon as no table holds more
    than [k * n] finished rows; each run before that deletes a full batch of
    what is left. *)
Theorem cleanup_drains now n k db :
  valid_batch n → Forall (λ b, b <= k * Z.to_nat n)%nat (backlog now db) →
  backlog now (Nat.iter k (λ db, (cleanup_expired now n db).2) db) = repeat 0%nat 7.
Proof.
  intros Hn. revert db. induction k as [|k IH]; intros db Hb.
  - simpl Nat.iter. unfold backlog in *. repeat (apply Forall_cons in Hb as [? Hb]). simpl. repeat f_equal; lia.
  - rewrite Nat.iter_succ_r. apply IH. pose proof (backlog_after now n db Hn) as Ha. clear IH.
    induction Ha as [|b' b l' l Hle _ IH]; [constructor|]. apply Forall_cons in Hb as [? Hb].
    constructor; [simpl in *; lia|by apply IH].
Qed.

(** ** The database stays well-formed

    Every deletion leaves a sub-list of each table. *)
Definition db_shrinks (db db' : Db) : Prop :=
  app_users db' `sublist_of` app_users db ∧ devices db' `sublist_of` devices db ∧
  app_sessions db' `sublist_of` app_sessions db ∧ device_challenges db' `sublist_of` device_challenges db ∧
  device_linking_otps db' `sublist_of` device_linking_otps db ∧
  transfer_requests db' `sublist_of` transfer_requests db ∧
  websocket_tickets db' `sublist_of` websocket_tickets db ∧ security_events db' `sublist_of` security_events db ∧
  rate_limit_buckets db' `sublist_of` rate_limit_buckets db.

#[export] Instance db_shrinks_preorder : PreOrder db_shrinks.
Proof.
  split; unfold db_shrinks; [intros db|intros x y z Hxy Hyz; destruct_and?]; split_and!; solve [reflexivity|by etrans].
Qed.

Lemma db_shrinks_well_formed db db' : db_shrinks db db' → well_formed db → well_formed db'.
Proof.
  unfold db_shrinks, well_formed. intros. destruct_and?. split_and!; by eapply sound_sublist.
Qed.

Definition shrinks {Row} (t t' : list Row) : Prop := t' `sublist_of` t.

Lemma delete_batch_shrinks {Row} (cond : Row → bool) key n : respects shrinks (_delete_batch cond key n).
Proof. intros t. by edestruct (delete_batch_spec cond key n t) as (_&Hs&_); [apply delete_batch_run|]. Qed.

Lemma delete_shrinks {Row} (cond : Row → bool) : respects shrinks (delete_returning cond).
Proof. intros t. apply filter_sublist_list. Qed.

Lemma delete_expired_shrinks now limit : respects shrinks (RateLimits.Pg.delete_expired now limit).
Proof.
  intros t. unfold RateLimits.Pg.delete_expired, shrinks. destruct (limit <=? 0)%Z; simpl; [done|].
  rewrite <- (numbered_snd t) at 2. apply sublist_map, filter_sublist_list.
Qed.

Ltac shrinks_tac := intros Hm db;
  unfold on_app_sessions, on_device_challenges, on_device_linking_otps, on_transfer_requests,
    on_websocket_tickets, on_security_events, on_rate_limit_buckets; rewrite zoom_snd; unfold db_shrinks; cbn;
  split_and!; solve [reflexivity|apply Hm].

Section shrinking.
Context {A : Type}.
Lemma shrinks_sessions (m : M _ A) : respects shrinks m → respects db_shrinks (on_app_sessions m).
Proof. shrinks_tac. Qed.
Lemma shrinks_challenges (m : M _ A) : respects shrinks m → respects db_shrinks (on_device_challenges m).
Proof. shrinks_tac. Qed.
Lemma shrinks_otps (m : M _ A) : respects shrinks m → respects db_shrinks (on_device_linking_otps m).
Proof. shrinks_tac. Qed.
Lemma shrinks_transfers (m : M _ A) : respects shrinks m → respects db_shrinks (on_transfer_requests m).
Proof. shrinks_tac. Qed.
Lemma shrinks_tickets (m : M _ A) : respects shrinks m → respects db_shrinks (on_websocket_tickets m).
Proof. shrinks_tac. Qed.
Lemma shrinks_events (m : M _ A) : respects shrinks m → respects db_shrinks (on_security_events m).
Proof. shrinks_tac. Qed.
Lemma shrinks_buckets (m : M _ A) : respects shrinks m → respects db_shrinks (on_rate_limit_buckets m).
Proof. shrinks_tac. Qed.
Lemma shrinks_transaction (m : M Db A) : respects db_shrinks m → respects db_shrinks (transaction m).
Proof.
  intros Hm db. specialize (Hm db). unfold transaction. destruct (m db) as [[a|e] db']; [exact Hm|reflexivity].
Qed.
End shrinking.

#[export] Hint Resolve delete_batch_shrinks delete_shrinks delete_expired_shrinks shrinks_sessions shrinks_challenges
  shrinks_otps shrinks_transfers shrinks_tickets shrinks_events shrinks_buckets shrinks_transaction : respects.

(** The deletions of the retention job, whole or of one table, and of the
    bucket repository. *)
Inductive retention (db : Db) : Db → Prop :=
| rt_expired now n : retention db (cleanup_expired now n db).2
| rt_sessions now n : retention db (cleanup_sessions now n db).2
| rt_challenges now n : retention db (cleanup_challenges now n db).2
| rt_linking_otps now n : retention db (cleanup_device_linking_otps now n db).2
| rt_transfers now n : retention db (cleanup_transfers now n db).2
| rt_tickets now n : retention db (cleanup_tickets now n db).2
| rt_events now n : retention db (cleanup_security_events now n db).2
| rt_rate_limits now n : retention db (cleanup_rate_limits now n db).2
| rt_bucket scope key : retention db (on_rate_limit_buckets (RateLimits.Pg.delete scope key) db).2
| rt_buckets now limit : retention db (on_rate_limit_buckets (RateLimits.Pg.delete_expired now limit) db).2.

Ltac deletions :=
  repeat match goal with
  | |- respects _ (bind _ _) => apply respects_bind; [apply _| |intros ?]
  | |- respects _ (transaction _) => apply shrinks_transaction
  | |- respects _ (lift _) => apply respects_lift; apply _
  | |- respects _ (ret _) => apply respects_ret; apply _
  | _ => solve [eauto 4 with respects]
  end.

Lemma one_shrinks delete n : (∀ n, respects db_shrinks (delete n)) → respects db_shrinks (_cleanup_one delete n).
Proof. intros H. unfold _cleanup_one. deletions. Qed.

Lemma retention_shrinks db db' : retention db db' → db_shrinks db db'.
Proof.
  destruct 1; match goal with |- db_shrinks _ (?m _).2 => revert db; change (respects db_shrinks m) end.
  all: try (apply one_shrinks; intros k); unfold cleanup_expired, delete_sessions, delete_challenges,
    delete_linking_otps, delete_transfers, delete_tickets, delete_events, delete_buckets, counted; deletions.
  apply shrinks_buckets. intros t. unfold RateLimits.Pg.delete, bind. cbn. apply filter_sublist_list.
Qed.

(** ** Witnesses *)

(** The fixture a month later: the session, the challenge, the code and the
    ticket are all due. *)
Lemma cleanup_deletes_due_witness :
  ∃ db' c1 c2 c3 c4 c5 c6 c7, cleanup_expired (days 60) 10 home =
    (Ok [("app_sessions", c1); ("device_challenges", c2); ("device_linking_otps", c3); ("transfer_requests", c4);
         ("websocket_tickets", c5); ("security_events", c6); ("rate_limit_buckets", c7)], db') ∧ well_formed db'.
Proof.
  destruct (cleanup_deletes_due (days 60) 10 home) as [Hok _].
  destruct (Hok ltac:(split; [reflexivity|discriminate])) as (db'&c1&c2&c3&c4&c5&c6&c7&Hrun&_&_&_&_&_&_&_&_&_&Hwf).
  exists db', c1, c2, c3, c4, c5, c6, c7. split; [exact Hrun|exact (Hwf home_well_formed)].
Defined.

Lemma cleanup_drains_witness :
  backlog (days 60) home ≠ repeat 0%nat 7 ∧
  backlog (days 60) (Nat.iter 1 (λ db, (cleanup_expired (days 60) 1 db).2) home) = repeat 0%nat 7.
Proof.
  split; [vm_compute; discriminate|]. apply (cleanup_drains (days 60) 1 1 home).
  - split; [reflexivity|discriminate].
  - repeat (apply Forall_cons; split; [vm_compute; repeat constructor|]). apply Forall_nil. exact I.
Defined.

(** ** References and deletions *)
Definition keeps_references : Db → Db → Prop := keeps (λ db, consistent db = true).

Lemma forallb_sublist {A} (p : A → bool) t t' : t' `sublist_of` t → forallb p t = true → forallb p t' = true.
Proof. rewrite !forallb_forall. setoid_rewrite <- list_elem_of_In. intros Hs Ht x Hx. apply Ht. by eapply elem_of_sublist. Qed.

#[local] Ltac prune_tac := intros Hm db; unfold on_device_challenges, on_device_linking_otps, on_transfer_requests,
    on_websocket_tickets, on_security_events, on_rate_limit_buckets; rewrite zoom_snd; unfold keeps_references, keeps, consistent; cbn;
  rewrite !andb_true_iff; intros Hc; destruct_and?; split_and!; try assumption;
  try (eapply forallb_sublist; [apply Hm|assumption]).

(** No foreign key points at these tables. *)
Section pruning.
Context {A : Type}.
Lemma prunes_challenges (m : M _ A) : respects shrinks m → respects keeps_references (on_device_challenges m).
Proof. prune_tac. Qed.
Lemma prunes_otps (m : M _ A) : respects shrinks m → respects keeps_references (on_device_linking_otps m).
Proof. prune_tac. Qed.
Lemma prunes_transfers (m : M _ A) : respects shrinks m → respects keeps_references (on_transfer_requests m).
Proof. prune_tac. Qed.
Lemma prunes_tickets (m : M _ A) : respects shrinks m → respects keeps_references (on_websocket_tickets m).
Proof. prune_tac. Qed.
Lemma prunes_events (m : M _ A) : respects shrinks m → respects keeps_references (on_security_events m).
Proof. prune_tac. Qed.
Lemma prunes_buckets (m : M _ A) : respects shrinks m → respects keeps_references (on_rate_limit_buckets m).
Proof. prune_tac. Qed.
End pruning.

(** A session is deleted with its tickets. *)
Lemma prunes_sessions now n : respects keeps_references (delete_sessions now n).
Proof.
  intros db. unfold delete_sessions, bind, on_app_sessions, on_websocket_tickets, zoom. rewrite delete_batch_run. cbn.
  edestruct (delete_batch_spec (session_retained now) session_age n (app_sessions db)) as (Hsplit&Hsub&_);
    [apply delete_batch_run|].
  unfold keeps_references, keeps, consistent. cbn. rewrite !andb_true_iff.
  intros [[[[[[? ?] ?] ?] ?] Ht] ?]. split_and!; try assumption; [by eapply forallb_sublist|].
  rewrite forallb_forall in Ht |- *. intros r [Hr Hkept]%filter_In. specialize (Ht r Hr).
  apply negb_true_iff, bool_decide_eq_false in Hkept. apply existsb_elem in Ht as (s&Hs&Hid). apply existsb_elem.
  exists s. split; [|exact Hid]. apply bool_decide_eq_true in Hid. simpl.
  rewrite <- Hsplit in Hs. apply elem_of_app in Hs as [Hs|Hs]; [|exact Hs].
  exfalso. apply Hkept. rewrite <- Hid. by apply list_elem_of_fmap_2.
Qed.

#[local] Hint Resolve prunes_sessions prunes_challenges prunes_otps prunes_transfers prunes_tickets prunes_events
  prunes_buckets : respects.

#[local] Ltac prunings :=
  repeat match goal with
  | |- respects _ (bind _ _) => apply respects_bind; [apply _| |intros ?]
  | |- respects _ (transaction _) => apply transaction_step; [apply _|]
  | |- respects _ (lift _) => apply respects_lift; apply _
  | |- respects _ (ret _) => apply respects_ret; apply _
  | _ => solve [eauto 4 with respects]
  end.

Lemma retention_prunes db db' : retention db db' → keeps_references db db'.
Proof.
  destruct 1; match goal with |- keeps_references _ (?m _).2 => revert db; change (respects keeps_references m) end.
  all: unfold cleanup_expired, cleanup_sessions, cleanup_challenges, cleanup_device_linking_otps, cleanup_transfers,
    cleanup_tickets, cleanup_security_events, cleanup_rate_limits, _cleanup_one, delete_challenges,
    delete_linking_otps, delete_transfers, delete_tickets, delete_events, delete_buckets, counted; prunings.
  apply prunes_buckets. intros t. unfold RateLimits.Pg.delete, bind. cbn. apply filter_sublist_list.
Qed.

(** C16: no reference dangles.  From a well-formed database whose references
    all name stored rows, every run of repository statements and deletions, in
    any order, leads to such references: no statement leaves a foreign key
    PostgreSQL would refuse, a device is linked by a device of its account, and
    a deleted session takes its tickets along. *)
Theorem references_hold db db' :
  well_formed db → consistent db = true → rtc (λ x y, statement x y ∨ retention x y) db db' →
  consistent db' = true ∧ foreign_keys db' = true.
Proof.
  intros Hwf Hc Hrun. assert (consistent db' = true) as Hc'; [|by split; [|apply consistent_foreign_keys]].
  induction Hrun as [|x y z [Hs|Hr] _ IH]; [done| |]; apply IH.
  - eapply db_step_well_formed; [by apply statement_step|done].
  - by apply (proj2 (statement_respects linked_step _ _ Hs)).
  - eapply db_shrinks_well_formed; [by apply retention_shrinks|done].
  - by apply (retention_prunes _ _ Hr).
Qed.

(** A tablet linked by the laptop, then the retention job a month later. *)
Lemma references_hold_witness :
  let db' := (cleanup_expired (days 60) 10 (Devices.Pg.create 5 77 1 0 (u "tablet") phone_key nonce7_hash
    (Some 10%N) None home).2).2 in
  (consistent db' = true ∧ foreign_keys db' = true) ∧ length (devices db') = 3 ∧ length (websocket_tickets db') = 0.
Proof.
  split; [|split; vm_compute; reflexivity].
  eapply (references_hold home); [exact home_well_formed|vm_compute; reflexivity|].
  eapply rtc_l; [left; apply st_device_create|]. apply rtc_once. right. apply rt_expired.
Defined.
