(* ===== verification/DatabaseTheorems.v ===== *)
(** * DatabaseTheorems: the database when the driver fails

    Wherever a failure strikes, a transaction happens whole or not at all, so
    the private database only ever moves by the statements of [History]; what
    the callers see of a failure; and the pool. *)
From S2P Require Import Prelude Models Sql Schema Integrity History Sessions Transactions CleanupTheorems Lifecycles Fixtures.
From S2P Require Import Main.
From S2P Require Import Database.
From stdpp Require Import list strings relations.

(** ** Where a failure can come from *)
Definition of_outcome (o : outcome unit) : list exn := match o with Ok _ => [] | Raise e => [e] end.
Definition of_course (c : course) : list exn := match c with Answered => [] | Lost e | Refused e => [e] end.

Definition failures (j : journey) : list exn :=
  of_outcome (acquired j) ++ of_outcome (begun j) ++ (courses j ≫= of_course) ++ of_course (committed j) ++
  of_outcome (rolled_back j) ++ of_outcome (released j).

(** A statement met by a failure raises it; otherwise the body goes on as if
    there were none. *)
Lemma perform_cases {T A} (s : script T A) cs t :
  perform s cs t = perform s [] t ∨ ∃ e, (perform s cs t).1 = Raise e ∧ e ∈ cs ≫= of_course.
Proof.
  revert cs t. induction s as [a|e|B statement k IH]; intros cs t; [by left..|]. destruct cs as [|c cs]; [by left|].
  cbn [perform]. unfold bind. destruct c as [|e|e]; cbn [run_statement id default head tail mbind list_bind of_course].
  - destruct (statement t) as [[b|e] t']; [|by left]. exact (IH b cs t').
  - destruct (statement t) as [o t']. right. exists e. split; [done|]. apply elem_of_app. left. by left.
  - right. exists e. split; [done|]. apply elem_of_app. left. by left.
Qed.

Lemma failures_elem j e :
  e ∈ failures j ↔ e ∈ of_outcome (acquired j) ∨ e ∈ of_outcome (begun j) ∨ e ∈ courses j ≫= of_course ∨
    e ∈ of_course (committed j) ∨ e ∈ of_outcome (rolled_back j) ∨ e ∈ of_outcome (released j).
Proof. unfold failures. by rewrite !elem_of_app. Qed.

Lemma of_outcome_elem o e : e ∈ of_outcome o ↔ o = Raise e.
Proof. destruct o as [[]|e']; simpl; rewrite ?list_elem_of_singleton; [by split; [intros ?%elem_of_nil|]|naive_solver]. Qed.

(** ** One transaction *)

(** What a call on the tables may come to: the whole block, its own exception
    or a failure's, and a failure never leaves half of the block. *)
Definition whole {A} (m : M Db A) (failed : list exn) (t : Db) (o : outcome A) (t' : Db) : Prop :=
  (t' = t ∨ ∃ a, m t = (Ok a, t')) ∧
  match o with Ok _ => m t = (o, t') | Raise e => e ∈ failed ∨ m t = (Raise e, t) end ∧
  (failed = [] → (o, t') = m t).

Lemma in_transaction_whole {A} (body : script Db A) j t o t' :
  in_transaction j body t = (o, t') → whole (Schema.transaction (perform body [])) (failures j) t o t'.
Proof.
  unfold in_transaction, whole, Schema.transaction.
  assert (∀ e', e' ∈ failures j → failures j = [] → False) as Hno.
  { intros e' Hin Hn. rewrite Hn in Hin. by apply elem_of_nil in Hin. }
  assert (∀ e', rolled_back j = Raise e' → e' ∈ failures j) as Hrb.
  { intros e' He. apply failures_elem. do 4 right. left. by apply of_outcome_elem. }
  destruct (perform_cases body (courses j) t) as [->|(e&He&Hin)].
  - destruct (perform body [] t) as [[a|e] t1].
    + assert (∀ e', e' ∈ of_course (committed j) → e' ∈ failures j) as Hc by (intros e' ?; apply failures_elem; auto).
      destruct (committed j) as [|e|e]; simpl in *; intros [= <- <-]; [by split_and!; eauto|..];
        (assert (e ∈ failures j) as Hf by (apply Hc; left)); split_and!; eauto; intros; by edestruct Hno.
    + intros [= <- <-]. split_and!; [by left|..]; destruct (rolled_back j) as [[]|e'] eqn:Hr; auto.
      intros Hn. by edestruct Hno; [by apply Hrb|].
  - destruct (perform body (courses j) t) as [o' t1]. simpl in He. subst o'. intros [= <- <-].
    assert (e ∈ failures j) as Hf by (apply failures_elem; auto).
    split_and!; [by left|..]; destruct (rolled_back j) as [[]|e'] eqn:Hr; auto; intros; by edestruct Hno; eauto.
Qed.

Lemma connection_whole {A} (body : script Db A) j t o t' :
  with_connection j (do! lift (begun j) in in_transaction j body) t = (o, t') →
  whole (Schema.transaction (perform body [])) (failures j) t o t'.
Proof.
  assert (∀ e', e' ∈ failures j → whole (Schema.transaction (perform body [])) (failures j) t (Raise e') t) as Hno.
  { intros e' Hin. split_and!; [by left|by left|]. intros Hn. rewrite Hn in Hin. by apply elem_of_nil in Hin. }
  unfold with_connection, bind, lift.
  destruct (acquired j) as [[]|e] eqn:Ha; [|intros [= <- <-]; apply Hno, failures_elem; rewrite !of_outcome_elem; auto].
  assert (∀ o' t1, whole (Schema.transaction (perform body [])) (failures j) t o' t1 →
    whole (Schema.transaction (perform body [])) (failures j) t (match released j with Ok _ => o' | Raise e => Raise e end) t1) as Hrel.
  { intros o' t1 (Ht&Ho&Hn). destruct (released j) as [[]|e] eqn:Hr; [done|].
    assert (e ∈ failures j) as Hin by (apply failures_elem; do 5 right; by apply of_outcome_elem).
    split_and!; [done|by left|]. intros Hf. rewrite Hf in Hin. by apply elem_of_nil in Hin. }
  destruct (begun j) as [[]|e] eqn:Hb.
  - destruct (in_transaction j body t) as [o1 t1] eqn:Hin. intros [= <- <-]. by apply Hrel, in_transaction_whole.
  - intros [= <- <-]. apply Hrel, Hno, failures_elem. rewrite !of_outcome_elem. auto.
Qed.

(** What the object adds: the pool is needed, and most failures are
    translated. *)
Lemma transaction_run {A} (body : script Db A) j (d : Database Db) o d' :
  Database.transaction j body d = (o, d') →
  match _pool d with
  | None => o = Raise BackendUnavailableError ∧ d' = d
  | Some _ => ∃ o' t', whole (Schema.transaction (perform body [])) (failures j) (tables d) o' t' ∧
      d' = Build_Database (_pool d) (opened d) t' ∧
      o = match o' with Raise e => if transaction_error e then Raise BackendUnavailableError else o' | Ok _ => o' end
  end.
Proof.
  unfold Database.transaction, try_except, bind at 1, pool. destruct (_pool d) as [p|] eqn:Hp; [|by intros [= <- <-]].
  unfold on_tables, zoom. destruct (with_connection j _ (tables d)) as [o' t'] eqn:Hw. apply connection_whole in Hw.
  intros Hr. exists o', t'. split; [done|]. rewrite Hp in Hr. destruct o' as [a|e]; [by injection Hr as <- <-|].
  by destruct (transaction_error e); injection Hr as <- <-.
Qed.

(** C8: a transaction happens whole or not at all.  Wherever the driver
    fails (taking a connection, beginning, at any statement, committing before
    or after the server did, rolling back, giving the connection back), a method
    that is one transaction leaves the tables as they were or as the method
    leaves them; when it returns, it did what the method does; when it raises,
    that is the method's own exception, the backend error, or a failure that
    [transaction] does not translate; and when nothing fails it answers what
    the method answers. *)
Theorem transactions_atomic {A} (m : M Db A) `{!Transactional m} j (d : Database Db) o d' :
  Database.transaction j (body_of m) d = (o, d') →
  (_pool d' = _pool d ∧ opened d' = opened d) ∧
  (tables d' = tables d ∨ ∃ a, m (tables d) = (Ok a, tables d')) ∧
  match o with
  | Ok a => m (tables d) = (Ok a, tables d')
  | Raise e => e = BackendUnavailableError ∨ (e ∈ failures j ∧ transaction_error e = false) ∨
      m (tables d) = (Raise e, tables d)
  end ∧
  (is_connected d = true → failures j = [] → ∀ a t, m (tables d) = (Ok a, t) → o = Ok a ∧ tables d' = t).
Proof.
  intros Hr%transaction_run. rewrite !body_runs. unfold is_connected. destruct (_pool d) as [p|] eqn:Hp.
  2: { destruct Hr as [-> ->]. split_and!; [done|done|by left|by left|done]. }
  destruct Hr as (o'&t'&(Ht&Ho&Hn)&->&->). rewrite <- Hp. cbn [_pool opened tables]. split_and!; [done..| |].
  - destruct o' as [a|e]; [done|]. destruct (transaction_error e) eqn:He; [by left|]. right. destruct Ho; [left|right]; done.
  - intros _ Hf a t Ha. rewrite <- (Hn Hf) in Ha. by injection Ha as -> ->.
Qed.

(** ** Everything the application asks of the database *)

(** One call, under any failure.  A fetch outside a transaction is one of the
    repositories' statements, a transaction one of their methods. *)
Inductive call (d : Database Db) : Database Db → Prop :=
| call_connect created : call d (connect created d).2
| call_close closed : call d (close closed d).2
| call_fetch {A} c (m : M Db A) :
    (∀ db, statement db (m db).2 ∨ retention db (m db).2) → call d (fetch c m d).2
| call_transaction {A} j (m : M Db A) `{!Transactional m} :
    (∀ db, statement db (m db).2 ∨ retention db (m db).2) → call d (Database.transaction j (body_of m) d).2.

(** The one open pool is the one held. *)
Definition pool_held {T} (d : Database T) : Prop := opened d = option_list (_pool d).

Lemma connect_held {T} created (d : Database T) : pool_held d → pool_held (connect created d).2 ∧ tables (connect created d).2 = tables d.
Proof.
  unfold pool_held, connect, connect_creates, translating, try_except, bind, lift. destruct d as [[p|] open t]; simpl; [done|].
  intros ->. destruct created as [p|e]; simpl; [done|]. by destruct (provider_error e).
Qed.

Lemma close_held {T} closed (d : Database T) : pool_held d → pool_held (close closed d).2 ∧ tables (close closed d).2 = tables d.
Proof.
  unfold pool_held, close. destruct d as [[p|] open t]; simpl; [|done]. intros ->. destruct closed; simpl; [|done].
  by rewrite bool_decide_eq_true_2.
Qed.

(** A fetch runs the statement or does not. *)
Lemma fetch_run {T A} c (m : M T A) (d : Database T) :
  (fetch c m d).2 = d ∨ (fetch c m d).2 = Build_Database (_pool d) (opened d) (m (tables d)).2.
Proof.
  unfold fetch, translating, try_except, bind, pool, on_tables, zoom. destruct d as [[p|] open t]; simpl; [|by left].
  destruct c as [|e|e]; simpl; [|destruct (m t) as [o t']|left; by destruct (provider_error e)].
  - right. destruct (m t) as [[a|e] t']; [done|]. by destruct (provider_error e).
  - right. simpl. by destruct (provider_error e).
Qed.

(** C7: whatever fails, the database moves by whole statements.  Any
    sequence of connections, closings, fetches and transactions, each meeting
    any failures of the driver, leads to tables that a sequence of the
    repositories' statements and deletions leads to, each of them whole; and the
    pool that is open is exactly the one the object holds. *)
Theorem failures_keep_statements d d' :
  rtc call d d' → pool_held d →
  rtc (λ x y, statement x y ∨ retention x y) (tables d) (tables d') ∧ pool_held d'.
Proof.
  induction 1 as [|x y z Hc _ IH]; intros Hp; [by split|].
  assert (rtc (λ x y, statement x y ∨ retention x y) (tables x) (tables y) ∧ pool_held y) as [Hxy Hy].
  { destruct Hc as [created|closed|A c m Hm|A j m Hm0 Hm].
    - destruct (connect_held created x Hp) as [Hh ->]. by split.
    - destruct (close_held closed x Hp) as [Hh ->]. by split.
    - destruct (fetch_run c m x) as [-> | ->]; [by split|]. split; [|exact Hp]. apply rtc_once, Hm.
    - destruct (Database.transaction j (body_of m) x) as [o d1] eqn:Hr. apply transaction_run in Hr.
      destruct (_pool x) as [p|] eqn:Hpool; [|by destruct Hr as [_ ->]].
      destruct Hr as (o'&t'&([->|[a Ha]]&_)&->&_); (split; [|unfold pool_held in *; simpl; by rewrite Hp, Hpool]); [done|].
      simpl. apply rtc_once. rewrite <- body_runs in Ha. specialize (Hm (tables x)). by rewrite Ha in Hm. }
  destruct (IH Hy) as [Hyz Hz]. split; [by etrans|done].
Qed.

(** ** What a caller sees *)

(** Outside a transaction every failure of the driver is translated. *)
Lemma fetch_translates {T A} c (m : M T A) (d : Database T) e d' :
  fetch c m d = (Raise e, d') → e = BackendUnavailableError ∨ (provider_error e = false ∧ (of_course c = [e] ∨ (m (tables d)).1 = Raise e)).
Proof.
  unfold fetch, translating, try_except, bind, pool, on_tables, zoom. destruct d as [[p|] open t]; simpl; [|by intros [= <- _]; left].
  destruct c as [|e'|e']; simpl; [|destruct (m t) as [o t']|];
    [destruct (m t) as [[a|e'] t']; [done|]|..]; destruct (provider_error e') eqn:He; intros [= <- _]; auto.
Qed.

(** An [OSError] leaves [transaction], where [fetch] and [connect] translate
    it: a connection refused to the pool is no backend error. *)
Theorem transaction_leaks_oserror {A} (s : script Db A) d :
  is_connected d = true →
  Database.transaction {| acquired := Raise OSError; begun := Ok tt; courses := []; committed := Answered;
                 rolled_back := Ok tt; released := Ok tt |} s d = (Raise OSError, d) ∧
  (∀ B (m : M Db B), (fetch (Refused OSError) m d).1 = Raise BackendUnavailableError).
Proof. destruct d as [[p|] open t]; [|done]. intros _. by split. Qed.

(** Two coroutines that both found no pool create two: the first is kept by
    nobody, and closing leaves it open. *)
Theorem connect_race_leaks {T} (d : Database T) p q :
  _pool d = None → opened d = [] → p ≠ q →
  connect_checks d = (Ok true, d) ∧
  let d2 := (connect_creates (Ok q) (connect_creates (Ok p) d).2).2 in
  _pool d2 = Some q ∧ _pool (close (Ok tt) d2).2 = None ∧ opened (close (Ok tt) d2).2 = [p].
Proof.
  destruct d as [? ? t]. simpl. intros -> -> Hne. split; [done|]. split_and!; [done|done|]. simpl.
  rewrite bool_decide_eq_true_2 by done. simpl. by rewrite bool_decide_eq_false_2.
Qed.

(** ** An outage, and its end *)

(** The readiness probe answers, whatever happens: 200 exactly when there is a
    pool, or one can be made, and the query is answered. *)
Theorem readiness_reports {T} created c (d : Database T) :
  (readiness true created c d).1 =
    Ok (if (is_connected d || match created with Ok _ => true | Raise _ => false end) && bool_decide (of_course c = [])
        then 200%Z else 503%Z).
Proof.
  unfold readiness, _database_is_available, try_except, connect, connect_creates, fetch, translating, try_except, bind, pool,
    on_tables, zoom, lift. destruct d as [[p|] open t], created as [q|e], c as [|f|f]; simpl;
    repeat match goal with |- context [provider_error ?e] => destruct (provider_error e) end; done.
Qed.

(** While there is no pool every call ends in the backend error and changes
    nothing; the health check retries, and once it has a pool the calls run. *)
Theorem outage_recovers {A} (m : M Db A) `{!Transactional m} created (d : Database Db) a t :
  _pool d = None →
  (∀ j, Database.transaction j (body_of m) d = (Raise BackendUnavailableError, d)) ∧
  (∀ e, provider_error e = true → health true (Raise e) d = (Ok 503%Z, d)) ∧
  (health true (Ok created) d).1 = Ok 200%Z ∧
  (m (tables d) = (Ok a, t) →
   (Database.transaction smooth (body_of m) (health true (Ok created) d).2).1 = Ok a ∧
   tables (Database.transaction smooth (body_of m) (health true (Ok created) d).2).2 = t).
Proof.
  intros Hp. destruct d as [pl open tb]. simpl in Hp. subst pl. split_and!.
  - done.
  - intros e He. unfold health, is_connected, try_except, connect, connect_creates, translating, try_except, bind, lift. simpl.
    by rewrite He.
  - done.
  - intros Hm. simpl in Hm.
    destruct (Database.transaction smooth (body_of m) _) as [o d'] eqn:Hr. apply transaction_run in Hr. simpl in Hr.
    destruct Hr as (o'&t'&(_&_&Hn)&->&->). specialize (Hn eq_refl). rewrite <- body_runs, Hm in Hn. by injection Hn as -> ->.
Qed.

(** ** Witnesses *)
Definition connected_home : Database Db := Build_Database (Some 7%N) [7%N] home.

(** The reply to the [COMMIT] of a logout is lost: the phone is signed out,
    and the caller is told the backend is unavailable. *)
Definition commit_lost : journey :=
  {| acquired := Ok tt; begun := Ok tt; courses := []; committed := Lost TimeoutError; rolled_back := Ok tt; released := Ok tt |}.

(** The connection drops between the two statements of a logout. *)
Definition dropped : journey :=
  {| acquired := Ok tt; begun := Ok tt; courses := [Answered; Refused PostgresError]; committed := Answered;
     rolled_back := Raise InterfaceError; released := Ok tt |}.

Lemma transactions_atomic_witness :
  (Database.transaction dropped (body_of (Devices.Pg.logout_with_sessions (minutes 1) 1 10 "logout")) connected_home).1 =
    Raise BackendUnavailableError ∧
  tables (Database.transaction dropped (body_of (Devices.Pg.logout_with_sessions (minutes 1) 1 10 "logout")) connected_home).2 =
    home.
Proof.
  assert ((Database.transaction dropped (body_of (Devices.Pg.logout_with_sessions (minutes 1) 1 10 "logout")) connected_home).1 =
    Raise BackendUnavailableError) as Ho by (vm_compute; reflexivity).
  assert (map ses_revoked_at (app_sessions (tables
    (Database.transaction dropped (body_of (Devices.Pg.logout_with_sessions (minutes 1) 1 10 "logout")) connected_home).2)) = [None]) as Hs
    by (vm_compute; reflexivity).
  split; [exact Ho|].
  destruct (Database.transaction dropped _ connected_home) as [o d'] eqn:Hr. cbn [fst snd] in Ho, Hs.
  destruct (transactions_atomic _ _ _ _ _ Hr) as (_&[Ht|[a Ha]]&_); [exact Ht|].
  exfalso. revert Ha Hs. unfold connected_home. simpl tables at 1. intros Ha.
  replace (tables d') with (Devices.Pg.logout_with_sessions (minutes 1) 1 10 "logout" home).2 by (rewrite Ha; reflexivity).
  vm_compute. discriminate.
Defined.

Lemma failures_keep_statements_witness :
  let logout := Devices.Pg.logout_with_sessions (minutes 1) 1 10 "logout" in
  let d1 := (close (Ok tt) (Database.transaction commit_lost (body_of logout) connected_home).2).2 in
  rtc (λ x y, statement x y ∨ retention x y) home (tables d1) ∧
  map ses_revoked_at (app_sessions (tables d1)) = [Some (minutes 1)] ∧ opened d1 = [].
Proof.
  intros logout d1.
  assert (rtc call connected_home d1) as Hrun.
  { eapply rtc_l; [apply (call_transaction _ commit_lost logout); intros db; left; apply st_device_logout|].
    apply rtc_once, call_close. }
  destruct (failures_keep_statements _ _ Hrun eq_refl) as [Hst Hpool]. split_and!.
  - exact Hst.
  - vm_compute. reflexivity.
  - exact Hpool.
Defined.
