(* ===== verification/CryptoTheorems.v ===== *)
(** * CryptoTheorems: what a device's signature commits to

    The base64url decoder inverts the encoder, and the message a device signs
    determines every field of the challenge it was built from. *)
From Stdlib.Strings Require Import Byte.
From S2P Require Import Prelude PyDict Json Calendar JsonText Models Hashing Signaling SignalingTheorems DeviceCrypto Fixtures.
From stdpp Require Import list strings.

(** ** Bytes *)
Lemma byte_of_to_N b : byte_of (Byte.to_N b) = b.
Proof. by destruct b. Qed.

Lemma to_N_byte_of n : (n < 256)%N → Byte.to_N (byte_of n) = n.
Proof.
  intros Hn. unfold byte_of. rewrite N.mod_small by done.
  destruct (Byte.of_N n) as [b|] eqn:Hb; [by apply Byte.to_of_N|]. apply Byte.of_N_None_iff in Hb. lia.
Qed.

Lemma byte_of_mod n : byte_of n = byte_of (n mod 256).
Proof. unfold byte_of. by rewrite N.Div0.mod_mod. Qed.

Lemma to_N_lt b : (Byte.to_N b < 256)%N.
Proof. pose proof (Byte.to_N_bounded b). lia. Qed.

Lemma to_bytes_inj l l' :
  Forall (λ n, n < 256)%N l → Forall (λ n, n < 256)%N l' → to_bytes l = to_bytes l' → l = l'.
Proof.
  intros Hl. revert l'. induction Hl as [|n l Hn _ IH]; intros [|n' l'] Hl' Heq; try done.
  apply Forall_cons in Hl' as [Hn' Hl']. injection Heq as Hb Heq. f_equal; [|by apply IH].
  by rewrite <- (to_N_byte_of n), <- (to_N_byte_of n'), Hb.
Qed.

Lemma encode_utf8_inj s s' m : encode_utf8 s = Ok m → encode_utf8 s' = Ok m → s = s'.
Proof.
  unfold encode_utf8. destruct (utf8 s) as [l|] eqn:Hs; [|done]. destruct (utf8 s') as [l'|] eqn:Hs'; [|done].
  intros [= <-] [= Heq]. apply to_bytes_inj in Heq as ->; [|by eapply utf8_bytes..]. by eapply utf8_inj.
Qed.

(** ** base64url *)
Lemma sextet_char n : (n < 64)%N → sextet (base64url_char n) = Some n.
Proof.
  intros Hn. assert (n ∈ map N.of_nat (seq 0 64)) as Hin by by apply below_elem.
  assert (forallb (λ n, bool_decide (sextet (base64url_char n) = Some n)) (map N.of_nat (seq 0 64)) = true) as Hall
    by by vm_compute.
  rewrite forallb_forall in Hall. apply list_elem_of_In, Hall in Hin. by to_prop.
Qed.

(** Four digits of a 24-bit number, and its three bytes. *)
Lemma digits64 n : (n < 16777216)%N →
  (((n / 262144 * 64 + n / 4096 mod 64) * 64 + n / 64 mod 64) * 64 + n mod 64 = n)%N ∧
  (n / 262144 < 64)%N.
Proof.
  intros Hn. assert (n / 4096 = n / 64 / 64 ∧ n / 262144 = n / 64 / 64 / 64)%N as [-> ->].
  { rewrite !N.Div0.div_div. split; reflexivity. }
  pose proof (N.div_mod n 64 ltac:(done)). pose proof (N.div_mod (n / 64) 64 ltac:(done)).
  pose proof (N.div_mod (n / 64 / 64) 64 ltac:(done)).
  split; [lia|]. rewrite !N.Div0.div_div. by apply N.Div0.div_lt_upper_bound.
Qed.

Lemma byte_of_low n b : byte_of (n * 256 + Byte.to_N b) = b.
Proof.
  rewrite byte_of_mod, N.add_comm, N.Div0.mod_add, N.mod_small by apply to_N_lt. apply byte_of_to_N.
Qed.

Lemma shift_byte n b : ((n * 256 + Byte.to_N b) / 256 = n)%N.
Proof. pose proof (to_N_lt b). rewrite N.div_add_l, N.div_small by lia. lia. Qed.

Lemma mod64 n : (n mod 64 < 64)%N.
Proof. by apply N.mod_lt. Qed.

Ltac decoded := eexists; split; [cbn [mapM option_bind mbind]; rewrite !sextet_char by first [apply mod64|lia]; reflexivity|].

Lemma encode_decodes m : ∃ l, mapM sextet (encode_base64url m) = Some l ∧ a2b l = Some m.
Proof.
  revert m. fix IH 1. intros [|a [|b [|c m]]]; cbn [encode_base64url]; cbv zeta.
  - by exists [].
  - pose proof (to_N_lt a). set (n := (Byte.to_N a * 16)%N).
    assert (n / 64 < 64)%N by (apply N.Div0.div_lt_upper_bound; lia). decoded.
    cbn [a2b]. do 2 f_equal. rewrite (N.mul_comm (n / 64)), <- N.div_mod by done.
    unfold n. rewrite N.div_mul by done. apply byte_of_to_N.
  - pose proof (to_N_lt a). pose proof (to_N_lt b). set (w := (Byte.to_N a * 256 + Byte.to_N b)%N). set (n := (w * 4)%N).
    destruct (digits64 n) as [Hn _]; [lia|]. assert (n / 4096 < 64)%N by (apply N.Div0.div_lt_upper_bound; lia). decoded.
    assert (n / 4096 * 64 + n / 64 mod 64 = n / 64)%N as Hhi.
    { assert (n / 4096 = n / 64 / 64)%N as -> by by rewrite N.Div0.div_div. pose proof (N.div_mod (n / 64) 64 ltac:(done)). lia. }
    cbn [a2b]. cbv zeta. rewrite Hhi, (N.mul_comm (n / 64)), <- N.div_mod by done.
    assert (n / 4 = w)%N as Hw by (unfold n; by rewrite N.div_mul).
    assert (n / 1024 = w / 256)%N as -> by (rewrite <- Hw, N.Div0.div_div; reflexivity).
    rewrite Hw. unfold w. by rewrite shift_byte, byte_of_to_N, byte_of_low.
  - pose proof (to_N_lt a). pose proof (to_N_lt b). pose proof (to_N_lt c). destruct (IH m) as (l&Hl&Ha).
    set (n := ((Byte.to_N a * 256 + Byte.to_N b) * 256 + Byte.to_N c)%N).
    destruct (digits64 n) as [Hn Hlt]; [lia|].
    eexists. split; [cbn [mapM option_bind mbind]; rewrite !sextet_char by first [apply mod64|lia];
      cbn [option_bind]; rewrite Hl; reflexivity|].
    cbn [a2b]. rewrite Ha. cbv zeta. rewrite Hn.
    assert (n / 65536 = n / 256 / 256)%N as -> by by rewrite N.Div0.div_div.
    unfold n. by rewrite !shift_byte, byte_of_to_N, !byte_of_low.
Qed.

Lemma encode_length m : (length (encode_base64url m) <= 2 * length m)%nat.
Proof.
  revert m. fix IH 1. intros [|a [|b [|c m]]]; cbn [encode_base64url length]; cbv zeta; cbn [length]; [lia..|].
  specialize (IH m). lia.
Qed.

(** Base64url texts decode to what was encoded.  The strict decoder
    accepts the encoding of every non-empty value within its size limit and
    returns that value; it raises [DeviceCryptoError] on an empty text, a text
    with a character outside the alphabet (padding and whitespace included) or
    a value over the limit, and never raises anything else. *)
Theorem base64url_roundtrip maximum :
  (∀ m, m ≠ [] → (length m <= maximum)%nat → decode_base64url (encode_base64url m) maximum = Ok m) ∧
  (∀ value b, decode_base64url value maximum = Ok b →
     (0 < length b <= maximum)%nat ∧ Forall (λ c, is_Some (sextet c)) value) ∧
  (∀ value e, decode_base64url value maximum = Raise e → e = DeviceCryptoError).
Proof.
  split_and!.
  - intros m Hm Hlen. unfold decode_base64url. destruct (encode_decodes m) as (l&Hl&Ha).
    assert (encode_base64url m ≠ []) as Hne by (by destruct m as [|? [|? [|? ?]]]).
    rewrite (bool_decide_false (_ = [])) by done. pose proof (encode_length m).
    assert ((maximum * 2 <? length (encode_base64url m))%nat = false) as -> by (apply Nat.ltb_ge; lia).
    cbn [orb]. rewrite Hl, Ha. rewrite (bool_decide_false (m = [])) by done.
    by assert ((maximum <? length m)%nat = false) as -> by (apply Nat.ltb_ge; lia).
  - intros value b. unfold decode_base64url. destruct (_ || _); [done|].
    destruct (mapM sextet value) as [l|] eqn:Hm; [|done]. destruct (a2b l) as [d|]; [|done].
    destruct (_ || _) eqn:Hd; [done|]. intros [= ->]. to_prop. split.
    + destruct b; [done|]. simpl in *. lia.
    + apply mapM_Some_1 in Hm. clear -Hm. induction Hm; constructor; eauto.
  - intros value e. unfold decode_base64url. repeat case_match; congruence.
Qed.

Lemma encode_base64url_inj m m' : encode_base64url m = encode_base64url m' → m = m'.
Proof.
  intros Heq. destruct (encode_decodes m) as (l&Hl&Ha). destruct (encode_decodes m') as (l'&Hl'&Ha').
  rewrite Heq in Hl. congruence.
Qed.

(** ** Signed messages *)
Lemma uuid_str_inj id id' : (id < 2 ^ 128)%N → (id' < 2 ^ 128)%N → uuid_str id = uuid_str id' → id = id'.
Proof.
  intros Hid Hid' Heq. rewrite <- sixteen_digits in Hid, Hid'.
  apply canonical_uuid_str in Hid, Hid'. rewrite Heq in Hid. congruence.
Qed.

Lemma normalize_atom j : atom j = true → normalize j = Ok j.
Proof. by destruct j. Qed.

Lemma normalize_flat ms :
  forallb (λ m, atom m.2) ms = true → normalize (JObj ms) = Ok (JObj (sort_keys ms)).
Proof.
  intros Hms. cbn [normalize].
  match goal with |- match ?members with _ => _ end = _ => assert (members = Ok ms) as ->; [|done] end.
  induction ms as [|[k v] ms IH]; [done|]. cbn [forallb snd] in Hms. apply andb_true_iff in Hms as [Hv Hms].
  rewrite normalize_atom by done. by rewrite IH.
Qed.

Lemma insert_by_key_atoms m l :
  atom m.2 = true → forallb (λ m, atom m.2) l = true → forallb (λ m, atom m.2) (insert_by_key m l) = true.
Proof.
  intros Hm. induction l as [|m' l IH]; cbn [insert_by_key forallb]; [by rewrite Hm|].
  intros [Hm' Hl]%andb_true_iff. destruct (pystr_leb _ _); cbn [forallb]; rewrite ?Hm, ?Hm'; [done|by apply IH].
Qed.

Lemma sort_keys_atoms ms : forallb (λ m, atom m.2) ms = true → forallb (λ m, atom m.2) (sort_keys ms) = true.
Proof.
  induction ms as [|m ms IH]; cbn [sort_keys foldr forallb]; [done|]. intros [Hm Hms]%andb_true_iff.
  apply insert_by_key_atoms; [done|by apply IH].
Qed.

(** One message, one set of members. *)
Lemma signed_message_inj ms ms' m :
  forallb (λ m, atom m.2) ms = true → forallb (λ m, atom m.2) ms' = true →
  signed_message (JObj ms) = Ok m → signed_message (JObj ms') = Ok m → sort_keys ms = sort_keys ms'.
Proof.
  intros Hms Hms'. unfold signed_message, canonical_json_bytes. rewrite !normalize_flat by done.
  destruct (encode_utf8 (dumps false (JObj (sort_keys ms)))) as [t|] eqn:Ht; [|done].
  destruct (encode_utf8 (dumps false (JObj (sort_keys ms')))) as [t'|] eqn:Ht'; [|done].
  intros [= <-] [= ->].
  pose proof (encode_utf8_inj _ _ _ Ht Ht') as Hd. apply dumps_flat_inj in Hd; [done|by apply sort_keys_atoms..].
Qed.

(** The members of the two payloads, in the order they are signed. *)
Lemma challenge_members c a d n p :
  challenge_payload c a d n = Ok p →
  chl_device_id c = dev_id d ∧ ∃ ms, p = JObj ms ∧ forallb (λ m, atom m.2) ms = true ∧ sort_keys ms =
    [(u "account_device_epoch", JInt (acc_device_epoch a)); (u "account_id", JStr (uuid_str (acc_id a)));
     (u "challenge_id", JStr (uuid_str (chl_id c))); (u "challenge_version", JInt DEVICE_CHALLENGE_VERSION);
     (u "device_id", JStr (uuid_str (dev_id d)));
     (u "expires_at", JStr (normalize_timestamp (chl_expires_at c)));
     (u "issued_at", JStr (normalize_timestamp (chl_created_at c))); (u "nonce", JStr (encode_base64url n));
     (u "origin", JStr (chl_origin c)); (u "protocol_version", JInt DEVICE_PROTOCOL_VERSION)].
Proof.
  unfold challenge_payload. destruct (bool_decide (chl_device_id c ≠ _)) eqn:Hd; [done|].
  destruct (bool_decide (length n ≠ 32)); [done|]. intros [= <-]. to_prop. split; [by destruct (decide (chl_device_id c = dev_id d))|]. eexists. split_and!; reflexivity.
Qed.

Lemma registration_members ci ai di e n o i x f fb em p :
  registration_payload ci ai di e n o i x f fb em = Ok p →
  ∃ ms, p = JObj ms ∧ forallb (λ m, atom m.2) ms = true ∧ sort_keys ms =
    [(u "account_device_epoch", JInt e); (u "account_id", JStr ai); (u "challenge_id", JStr ci);
     (u "challenge_version", JInt DEVICE_CHALLENGE_VERSION); (u "device_fingerprint", JStr (encode_base64url f));
     (u "device_id", JStr di); (u "enrollment_method", JStr (u em)); (u "expires_at", JStr (normalize_timestamp x));
     (u "fallback", JBool fb); (u "issued_at", JStr (normalize_timestamp i)); (u "nonce", JStr (encode_base64url n));
     (u "origin", JStr o); (u "protocol_version", JInt DEVICE_PROTOCOL_VERSION)].
Proof.
  unfold registration_payload. destruct (bool_decide (length n ≠ 32)); [done|]. destruct (bool_decide (length f ≠ SHA256_BYTES)); [done|]. intros [= <-].
  eexists. split_and!; reflexivity.
Qed.

(** The identifiers and instants of a challenge are values Python has. *)
Definition challenge_ranged (c : DeviceChallengeRecord) (a : AccountRecord) : Prop :=
  (chl_id c < 2 ^ 128)%N ∧ (chl_device_id c < 2 ^ 128)%N ∧ (acc_id a < 2 ^ 128)%N ∧
  datetime_range (chl_created_at c) ∧ datetime_range (chl_expires_at c).

(** C22: a login signature commits to its challenge.  Two login challenges
    whose signed messages are the same bytes agree on the account and its
    epoch, the challenge, the device, both instants, the nonce and the origin;
    two registration challenges agree likewise, key fingerprint, enrolment
    method and fallback flag included; and no message is both, so a signature
    of one purpose is never one of the other. *)
Theorem signed_message_commits :
  (∀ c a d n p c' a' d' n' p' m,
     challenge_payload c a d n = Ok p → challenge_payload c' a' d' n' = Ok p' →
     challenge_ranged c a → challenge_ranged c' a' → signed_message p = Ok m → signed_message p' = Ok m →
     acc_id a = acc_id a' ∧ acc_device_epoch a = acc_device_epoch a' ∧ chl_id c = chl_id c' ∧
     chl_device_id c = chl_device_id c' ∧ chl_created_at c = chl_created_at c' ∧
     chl_expires_at c = chl_expires_at c' ∧ chl_origin c = chl_origin c' ∧ n = n') ∧
  (∀ ci ai di e n o i x f fb em p ci' ai' di' e' n' o' i' x' f' fb' em' p' m,
     registration_payload ci ai di e n o i x f fb em = Ok p →
     registration_payload ci' ai' di' e' n' o' i' x' f' fb' em' = Ok p' →
     datetime_range i → datetime_range x → datetime_range i' → datetime_range x' →
     signed_message p = Ok m → signed_message p' = Ok m →
     (ci, ai, di, e, n, o) = (ci', ai', di', e', n', o') ∧ (i, x, f, fb, em) = (i', x', f', fb', em')) ∧
  (∀ c a d n p ci ai di e n' o i x f fb em p' m,
     challenge_payload c a d n = Ok p → registration_payload ci ai di e n' o i x f fb em = Ok p' →
     signed_message p = Ok m → signed_message p' ≠ Ok m).
Proof.
  split_and!.
  - intros c a d n p c' a' d' n' p' m (Hd&ms&->&Ha&Hs)%challenge_members (Hd'&ms'&->&Ha'&Hs')%challenge_members
      (?&?&?&?&?) (?&?&?&?&?) Hm Hm'.
    pose proof (signed_message_inj _ _ _ Ha Ha' Hm Hm') as Heq. rewrite Hs, Hs' in Heq.
    assert (uuid_str (acc_id a) = uuid_str (acc_id a')) as Hac by congruence.
    assert (uuid_str (chl_id c) = uuid_str (chl_id c')) as Hc by congruence.
    assert (uuid_str (dev_id d) = uuid_str (dev_id d')) as Hdev by congruence.
    assert (isoformat_z (chl_created_at c) = isoformat_z (chl_created_at c')) as Hi by (unfold normalize_timestamp in *; congruence).
    assert (isoformat_z (chl_expires_at c) = isoformat_z (chl_expires_at c')) as Hx by (unfold normalize_timestamp in *; congruence).
    assert (encode_base64url n = encode_base64url n') as Hn by congruence.
    assert (acc_device_epoch a = acc_device_epoch a') as He by congruence.
    assert (chl_origin c = chl_origin c') as Ho by congruence. clear Heq Hs Hs' Ha Ha' Hm Hm'.
    rewrite Hd, Hd' in *.
    split_and!; [by apply uuid_str_inj|done|by apply uuid_str_inj|by apply uuid_str_inj|by apply isoformat_z_inj
      |by apply isoformat_z_inj|done|by apply encode_base64url_inj].
  - intros ci ai di e n o i x f fb em p ci' ai' di' e' n' o' i' x' f' fb' em' p' m
      (ms&->&Ha&Hs)%registration_members (ms'&->&Ha'&Hs')%registration_members ? ? ? ? Hm Hm'.
    pose proof (signed_message_inj _ _ _ Ha Ha' Hm Hm') as Heq. rewrite Hs, Hs' in Heq.
    assert (u em = u em') as Hem by congruence.
    assert (isoformat_z i = isoformat_z i') as Hi by (unfold normalize_timestamp in *; congruence).
    assert (isoformat_z x = isoformat_z x') as Hx by (unfold normalize_timestamp in *; congruence).
    assert (encode_base64url n = encode_base64url n') as Hn by congruence.
    assert (encode_base64url f = encode_base64url f') as Hf by congruence.
    apply u_inj in Hem. apply isoformat_z_inj in Hi, Hx; [|done..]. apply encode_base64url_inj in Hn, Hf.
    split; congruence.
  - intros c a d n p ci ai di e n' o i x f fb em p' m (_&ms&->&Ha&Hs)%challenge_members
      (ms'&->&Ha'&Hs')%registration_members Hm Hm'.
    pose proof (signed_message_inj _ _ _ Ha Ha' Hm Hm') as Heq. rewrite Hs, Hs' in Heq.
    discriminate Heq.
Qed.

(** ** Witnesses *)

Lemma base64url_roundtrip_witness :
  decode_base64url (encode_base64url nonce7) 32 = Ok nonce7 ∧ (0 < length nonce7 <= 32)%nat.
Proof.
  destruct (base64url_roundtrip 32) as (Hrt&Hlen&_).
  assert (decode_base64url (encode_base64url nonce7) 32 = Ok nonce7) as H by (apply Hrt; [discriminate|vm_compute; repeat constructor]).
  split; [exact H|]. exact (proj1 (Hlen _ _ H)).
Defined.

Definition laptop_payload : json := Eval vm_compute in
  match challenge_payload laptop_challenge ada laptop nonce7 with Ok p => p | _ => JNull end.
Definition laptop_message : bytes := Eval vm_compute in
  match signed_message laptop_payload with Ok m => m | _ => [] end.

(** Whatever login challenge signs as the laptop's is the laptop's. *)
Lemma signed_message_commits_witness :
  signed_message laptop_payload = Ok laptop_message ∧
  ∀ d n p, challenge_payload laptop_challenge ada d n = Ok p → signed_message p = Ok laptop_message → nonce7 = n.
Proof.
  split; [vm_compute; reflexivity|]. intros d n p Hp Hm.
  assert (challenge_ranged laptop_challenge ada) as Hr by (vm_compute; repeat split; discriminate).
  destruct signed_message_commits as [Hc _].
  assert (challenge_payload laptop_challenge ada laptop nonce7 = Ok laptop_payload) as Hl by (vm_compute; reflexivity).
  assert (signed_message laptop_payload = Ok laptop_message) as Hs by (vm_compute; reflexivity).
  exact (proj2 (proj2 (proj2 (proj2 (proj2 (proj2 (proj2 (Hc _ _ _ _ _ _ _ _ _ _ _ Hl Hp Hr Hr Hs Hm)))))))).
Defined.
