(* ===== verification/DeviceAuthTheorems.v ===== *)
(** * DeviceAuthTheorems: who gets a session

    The login and registration protocols of [app/device_auth.py] over the
    private database: what a completed one has proved, that an honest one
    completes, and what becomes of a linking code. *)
From Stdlib.Strings Require Import Byte.
From S2P Require Import Prelude PyDict Json Models Sql Tables Schema Hashing Signaling Security Sessions SessionTheorems.
From S2P Require Import RateLimits Integrity History SocketInvariant RouteCalls.
From S2P Require Import Accounts Devices Challenges LinkingOtps Events DeviceCrypto Auth DeviceAuth Main Keys Lifecycles CryptoTheorems Fixtures.
From stdpp Require Import list strings relations.

(** ** Sessions *)
Lemma create_session_spec now id e a d ep issued absolute db (c : CreatedSession) db' :
  create_session (R := Db) now id e a d ep issued absolute db = (Ok c, db') →
  cs_record c ∈ app_sessions db' ∧ ses_id (cs_record c) = id ∧ ses_user_id (cs_record c) = a ∧
  ses_device_id (cs_record c) = d ∧ ses_epoch (cs_record c) = ep ∧ ses_revoked_at (cs_record c) = None ∧
  hash_secret (ss_token (cs_secrets c)) = Ok (ses_token_hash (cs_record c)) ∧
  hash_secret (ss_csrf_secret (cs_secrets c)) = Ok (ses_csrf_hash (cs_record c)) ∧
  ss_token (cs_secrets c) = encode_base64url (en_token e).
Proof.
  intros H. apply bind_ok_inv in H as ([[secrets idle] absolute']&db1&Hp&H).
  unfold lift in Hp. injection Hp as Hp <-. apply bind_ok_inv in H as (r&db2&Hc&[= <- <-]).
  apply create_result in Hc as (->&Hin&_). cbn [cs_record cs_secrets ses_id ses_user_id ses_device_id ses_epoch
    ses_revoked_at ses_token_hash ses_csrf_hash].
  unfold prepare in Hp. destruct (session_expiry issued) as [i0 a0]. destruct (_ <=? _)%Z; [done|].
  destruct (_ <=? _)%Z; [done|]. destruct (_session_secrets e) as [s|] eqn:Hsec; [|done]. injection Hp as -> _ _.
  assert (ss_token secrets = encode_base64url (en_token e) ∧
    hash_secret (ss_token secrets) = Ok (ss_token_hash secrets) ∧
    hash_secret (ss_csrf_secret secrets) = Ok (ss_csrf_hash secrets)) as (?&?&?).
  { unfold _session_secrets in Hsec.
    destruct (new_opaque_token _ (en_token e)) as [tok|] eqn:Htok; [|done].
    destruct (new_opaque_token _ (en_csrf e)) as [csrf|]; [|done]. destruct (hash_secret tok) eqn:Ht; [|done].
    destruct (hash_secret csrf) eqn:Hcs; [|done]. injection Hsec as <-. simpl. split_and!; try done.
    unfold new_opaque_token in Htok. destruct (_ <? _)%nat; congruence. }
  split_and!; done.
Qed.

(** ** The service over the private database *)
Section production.
Context `{Cryptography} `{UnicodeDatabase} (auth_user : UUID → bool) (rate_limit_secret : bytes).
#[local] Instance accounts : AccountStore Db := pg_accounts auth_user.
#[local] Instance limiter : LimiterStore Db := persistent_limiter rate_limit_secret.
Implicit Types (w : DeviceWorld Db).

Lemma stores_ok {A} (m : M Db A) w a w' :
  stores m w = (Ok a, w') → m (dw_stores w) = (Ok a, dw_stores w') ∧ dw_bootstrap w' = dw_bootstrap w ∧
    dw_registrations w' = dw_registrations w.
Proof. unfold stores, zoom. destruct (m (dw_stores w)) as [o t]. by intros [= -> <-]. Qed.

Lemma lift_ok {S A} (o : outcome A) (s : S) a s' : lift o s = (Ok a, s') → o = Ok a ∧ s' = s.
Proof. by intros [= -> <-]. Qed.

(** A read of the store. *)
Lemma stores_gets {A} (f : Db → A) w a w' :
  stores (gets f) w = (Ok a, w') → a = f (dw_stores w) ∧ w' = w.
Proof. intros [= <- <-]. split; [done|]. by destruct w. Qed.

Lemma account_found a db acc :
  Accounts.Pg.get_by_id a db = (Ok (Some acc), db) →
  acc ∈ app_users db ∧ acc_id acc = a ∧ acc_deleted_at acc = None.
Proof.
  intros [= Hf]. unfold Accounts.Pg.lookup in Hf. apply first_row_elem, select_elem in Hf as [Hin Hc].
  unfold account_live in Hc. to_prop. split_and!; [done|done|by apply is_null_true].
Qed.

Lemma device_found a d db dev :
  Devices.Pg.get_by_id a d db = (Ok (Some dev), db) → dev ∈ devices db ∧ dev_user_id dev = a ∧ dev_id dev = d.
Proof.
  intros [= Hf]. apply first_row_elem, select_elem in Hf as [Hin Hc]. unfold Devices.Pg.owned in Hc. by to_prop.
Qed.

Lemma challenge_found a i db c :
  Challenges.Pg.get_by_id a i db = (Ok (Some c), db) → c ∈ device_challenges db ∧ chl_id c = i.
Proof.
  intros [= Hf]. apply first_row_elem in Hf. unfold Challenges.Pg.joined in Hf.
  apply list_elem_of_bind in Hf as (x&Hf&Hx). apply list_elem_of_bind in Hf as (y&Hf&_).
  apply list_elem_of_bind in Hf as (z&Hf&_). apply list_elem_of_singleton in Hf as ->.
  apply list_elem_of_In, filter_In in Hx as [Hx Hk]. apply list_elem_of_In in Hx. by to_prop.
Qed.

(** The signature over the payload verifies under the key. *)
Definition proved (spki signature : bytes) (payload : outcome json) : Prop :=
  ∃ p m, payload = Ok p ∧ signed_message p = Ok m ∧ verify_p1363_signature spki signature m = Ok true.

Lemma proof_holds_spec spki signature payload :
  proof_holds spki signature payload = Ok true ↔ proved spki signature payload.
Proof.
  unfold proof_holds, proved. split.
  - destruct payload as [p|]; [|done]. destruct (signed_message p) as [m|] eqn:Hm; [|done]. eauto.
  - intros (p&m&->&->&Hv). done.
Qed.
(** ** Login *)

Lemma create_session_step now id e a d ep issued absolute :
  respects db_step (create_session (R := Db) now id e a d ep issued absolute).
Proof.
  unfold create_session. apply respects_bind; [apply _|apply respects_lift; apply _|]. intros [[secrets idle] ab].
  apply respects_bind; [apply _|apply sessions_create_step|]. intros r. apply respects_ret. apply _.
Qed.

Lemma login_accepted current nonce account device challenge :
  login_refused current nonce (Some account) (Some device) challenge = Ok false →
  dev_status device = "active" ∧ dev_epoch device = acc_device_epoch account ∧
  (current < chl_expires_at challenge)%Z ∧ chl_consumed_at challenge = None ∧ length nonce = 32 ∧
  chl_nonce_hash challenge = sha256 nonce.
Proof.
  unfold login_refused, unavailable, _hash_nonce. destruct (_ || _) eqn:Hr; [done|].
  destruct (bool_decide (length nonce ≠ 32)) eqn:Hl; [done|]. intros [= Hh]. to_prop.
  split_and!; try by apply dec_stable. - done. - by apply is_null_true.
Qed.

(** What completing a login ran. *)
Lemma login_run current db_now d a i nonce signature origin w r w' :
  complete_login_challenge current db_now d a i nonce signature origin w = (Ok r, w') →
  ∃ challenge account device db1 x db2 touched,
    Challenges.Pg.get_by_id a i (dw_stores w) = (Ok (Some challenge), dw_stores w) ∧
    Accounts.Pg.get_by_id a (dw_stores w) = (Ok (Some account), dw_stores w) ∧
    Devices.Pg.get_by_id a (chl_device_id challenge) (dw_stores w) = (Ok (Some device), dw_stores w) ∧
    chl_origin challenge = origin ∧
    login_refused current nonce (Some account) (Some device) challenge = Ok false ∧
    proved (dev_signing_public_key_spki device) signature (challenge_payload challenge account device nonce) ∧
    Challenges.Pg.consume (db_now 0%nat) a i (dw_stores w) = (Ok (Some x), db1) ∧
    Devices.Pg.touch_last_seen (db_now 1%nat) a (dev_id device) db1 = (Ok touched, db2) ∧
    create_session (R := Db) (λ n, db_now (2 + n)%nat) (dr_session_id d) (dr_secrets d) a (dev_id device)
      (acc_device_epoch account) current None db2 = (Ok (dr_session r), dw_stores w') ∧
    dr_account r = account ∧ dr_device r = default device touched ∧
    dw_bootstrap w' = dw_bootstrap w ∧ dw_registrations w' = dw_registrations w.
Proof.
  unfold complete_login_challenge. intros H1. apply bind_ok_inv in H1 as ([challenge|]&w1&Hc&H1); [|done].
  apply stores_ok in Hc as (Hc&Hb1&Hr1). pose proof Hc as [= _ Hw1]. rewrite <- Hw1 in Hc.
  destruct (bool_decide (chl_origin challenge ≠ origin)) eqn:Ho; [done|].
  apply bind_ok_inv in H1 as (acc&w2&Ha&H1). apply stores_ok in Ha as (Ha&Hb2&Hr2). pose proof Ha as [= _ Hw2].
  apply bind_ok_inv in H1 as (dev&w3&Hd&H1). apply stores_ok in Hd as (Hd&Hb3&Hr3). pose proof Hd as [= _ Hw3].
  apply bind_ok_inv in H1 as (refused&w4&Href&H1). apply lift_ok in Href as [Href ->].
  destruct acc as [account|]; [|by destruct dev; apply bind_ok_inv in H1 as (?&?&_&?)].
  destruct dev as [device|]; [|by apply bind_ok_inv in H1 as (?&?&_&?)].
  destruct refused; [by apply bind_ok_inv in H1 as (?&?&_&?)|].
  apply bind_ok_inv in H1 as (valid&w5&Hv&H1). apply lift_ok in Hv as [Hv ->].
  destruct valid; cbn [negb] in H1; [|by apply bind_ok_inv in H1 as (?&?&_&?)].
  apply proof_holds_spec in Hv. apply bind_ok_inv in H1 as ([x|]&w6&Hcons&H1); [|done].
  apply stores_ok in Hcons as (Hcons&Hb6&Hr6).
  apply bind_ok_inv in H1 as (touched&w7&Ht&H1). apply stores_ok in Ht as (Ht&Hb7&Hr7).
  apply bind_ok_inv in H1 as (session&w8&Hs&[= <- <-]). apply stores_ok in Hs as (Hs&Hb8&Hr8).
  to_prop. exists challenge, account, device, (dw_stores w6), x, (dw_stores w7), touched.
  simpl in Ha, Hd, Hcons, Ht. rewrite Hw1, Hw2, Hw3 in *.
  split_and!; try done; try congruence. by apply dec_stable.
Qed.

(** C1: a login proves possession of the device's key.  When completing a
    challenge on PostgreSQL yields a session, the challenge was stored under
    that identifier for a device of the account, unconsumed and ahead of its
    deadline on both clocks, issued to that origin and for that nonce; the
    account was live and the device active in its epoch; and the signature
    verifies, under the device's stored key, over the message that binds all
    of these.  The challenge is stored as consumed, and the session is a new
    row of exactly that account, device and epoch whose digests are those of
    the returned secrets. *)
Theorem login_authenticates current db_now d a i nonce signature origin w r w' :
  well_formed (dw_stores w) →
  complete_login_challenge current db_now d a i nonce signature origin w = (Ok r, w') →
  let db := dw_stores w in
  ∃ challenge device,
    challenge ∈ device_challenges db ∧ chl_id challenge = i ∧ chl_device_id challenge = dev_id device ∧
    chl_origin challenge = origin ∧ chl_consumed_at challenge = None ∧
    (current < chl_expires_at challenge)%Z ∧ (db_now 0%nat < chl_expires_at challenge)%Z ∧
    length nonce = 32 ∧ chl_nonce_hash challenge = sha256 nonce ∧
    dr_account r ∈ app_users db ∧ acc_id (dr_account r) = a ∧ acc_deleted_at (dr_account r) = None ∧
    device ∈ devices db ∧ dev_user_id device = a ∧ dev_status device = "active" ∧
    dev_epoch device = acc_device_epoch (dr_account r) ∧
    proved (dev_signing_public_key_spki device) signature (challenge_payload challenge (dr_account r) device nonce) ∧
    (∃ spent, spent ∈ device_challenges (dw_stores w') ∧ challenge_grows challenge spent ∧
       chl_consumed_at spent = Some (db_now 0%nat)) ∧
    let session := cs_record (dr_session r) in
    session ∈ app_sessions (dw_stores w') ∧ ses_user_id session = a ∧ ses_device_id session = dev_id device ∧
    ses_epoch session = acc_device_epoch (dr_account r) ∧ ses_revoked_at session = None ∧
    hash_secret (ss_token (cs_secrets (dr_session r))) = Ok (ses_token_hash session) ∧
    hash_secret (ss_csrf_secret (cs_secrets (dr_session r))) = Ok (ses_csrf_hash session).
Proof.
  intros Hwf (challenge&account&device&db1&x&db2&touched&Hc&Ha&Hd&Ho&Href&Hp&Hcons&Ht&Hs&Hacc&_&_&_)%login_run.
  apply challenge_found in Hc as [Hcin Hci]. apply account_found in Ha as (Hain&Hai&Hadel).
  apply device_found in Hd as (Hdin&Hdu&Hdi). apply login_accepted in Href as (Hact&Hep&Hcur&Hnone&Hlen&Hh).
  pose proof (create_session_spec _ _ _ _ _ _ _ _ _ _ _ Hs) as (Hsin&_&Hsu&Hsd&Hse&Hsr&Hst&Hsc&_).
  pose proof (transaction_ok _ _ _ _ Hcons) as Hcons'.
  apply update_open_spec in Hcons' as (old&Hoin&Hoi&Hopen&_&->&Hxin). to_prop.
  assert (old = challenge) as ->.
  { destruct Hwf as (_&_&_&Hsound&_). apply (sound_unique _ _ _ Hsound); simpl; intuition congruence. }
  unfold Challenges.chl_open in Hopen. to_prop.
  assert (well_formed db1) as Hwf1.
  { eapply db_step_well_formed; [|exact Hwf].
    pose proof (statement_step _ _ (st_challenge_consume (dw_stores w) (db_now 0%nat) a i)) as Hst1. by rewrite Hcons in Hst1. }
  assert (db_step db1 (dw_stores w')) as (_&_&_&Hch&_).
  { pose proof (devices_touch_step (R := db_step) (db_now 1%nat) a (dev_id device) db1) as Hto. rewrite Ht in Hto.
    match type of Hs with ?m ?s = _ => assert (db_step s (m s).2) as Hcr by apply create_session_step; rewrite Hs in Hcr end.
    by etrans. }
  destruct Hwf1 as (_&_&_&Hs1&_). destruct (Hch Hs1) as [_ Hrows]. destruct (Hrows _ Hxin) as (spent&Hspent&Hg).
  exists challenge, device. rewrite Hacc. split_and!; try done; try congruence. exists spent.
  split_and!; [done| |by apply Hg]. change (grows challenge spent). etrans; [|exact Hg]. change (challenge_grows challenge (Challenges.chl_consumed challenge (db_now 0%nat))).
  unfold challenge_grows. simpl. split_and!; try done. intros t Hnt. congruence.
Qed.

(** ** Linking *)

Lemma linking_code_ascii code : is_linking_code code = true → ∃ raw, encode_ascii code = Ok raw.
Proof.
  intros [_ Hdig]%andb_true_iff. unfold encode_ascii.
  assert (forallb (λ c, (c <? 128)%N) code = true) as ->; [|eauto].
  rewrite forallb_forall in *. intros c Hc. specialize (Hdig c Hc). apply andb_true_iff in Hdig as [_ Hle].
  apply N.leb_le in Hle. apply N.ltb_lt. lia.
Qed.

(** C40: linking is unavailable on PostgreSQL.  Looking a code up selects
    columns that both joined tables have, so the statement always fails.  No
    code ever yields a registration challenge, and none is stored.  A
    well-formed code is first put to the limiter, where one is configured: a
    refusal is [DeviceLinkingRateLimited], the limiter's failure is passed on,
    and a code it lets through ends in [BackendUnavailableError]; the limiter's
    buckets are all that changes. *)
Theorem linking_lookup_unavailable :
  (∀ now h db, LinkingOtps.Pg.get_active_by_hash now h db = (Raise BackendUnavailableError, db)) ∧
  ∀ cfg now db_now d code spki label origin device_id network w o w',
    issue_linking_challenge cfg now db_now d code spki label origin device_id network w = (o, w') →
    (∀ c, o ≠ Ok c) ∧ dw_registrations w' = dw_registrations w ∧
    (is_linking_code (Auth.strip code) = true → ∃ raw allowed,
       encode_ascii (Auth.strip code) = Ok raw ∧
       stores (_allow cfg (redemption_buckets network (sha256 raw)) now) w = (allowed, w') ∧
       o = match allowed with
           | Ok true => Raise BackendUnavailableError
           | Ok false => Raise DeviceLinkingRateLimited
           | Raise e => Raise e
           end).
Proof.
  assert (∀ now h db, LinkingOtps.Pg.get_active_by_hash now h db = (Raise BackendUnavailableError, db)) as Hno
    by done.
  split; [exact Hno|]. intros cfg now db_now d code spki label origin device_id network w o w'.
  unfold issue_linking_challenge. destruct (is_linking_code _) eqn:Hcode; cbn [negb]; [|by intros [= <- <-]].
  destruct (linking_code_ascii _ Hcode) as [raw ->]. unfold bind at 1, lift at 1. cbv zeta. unfold bind at 1.
  destruct (stores (_allow cfg (redemption_buckets network (sha256 raw)) now) w) as [allowed w1] eqn:Ha.
  assert (dw_registrations w1 = dw_registrations w) as Hreg.
  { unfold stores, zoom in Ha. destruct (_allow _ _ _ _) as [x t]. by injection Ha as _ <-. }
  intros H1. assert (o = match allowed with
      | Ok true => Raise BackendUnavailableError | Ok false => Raise DeviceLinkingRateLimited | Raise e => Raise e end ∧ w' = w1)
    as [-> ->].
  { destruct allowed as [[]|e]; cbn [negb] in H1; [|by injection H1 as <- <-..].
    unfold bind, stores, zoom in H1. cbn [active_otp_by_hash pg_linking_otps] in H1. rewrite Hno in H1.
    injection H1 as <- <-. split; [done|by destruct w1]. }
  split_and!; [by intros c; destruct allowed as [[]|]|done|]. intros _. by exists raw, allowed.
Qed.

(** ** Registration *)

(** The device was stored before, with the key and fingerprint it has. *)
Definition stored_before (db : Db) (r : DeviceRecord) : Prop :=
  ∃ old, old ∈ devices db ∧ dev_id old = dev_id r ∧ dev_signing_public_key_spki old = dev_signing_public_key_spki r ∧
    dev_fingerprint old = dev_fingerprint r.

Lemma registered_spec now a e l k fp d db r db' :
  Devices.Pg.register_for_email now a e l k fp d db = (Ok r, db') →
  r ∈ devices db' ∧ dev_user_id r = a ∧ dev_fingerprint r = fp ∧ dev_epoch r = e ∧ dev_status r = "active" ∧
  (dev_signing_public_key_spki r = k ∨ stored_before db r).
Proof.
  intros Hreg%transaction_ok. apply bind_ok_inv in Hreg as (existing&db1&[= <- <-]&Hreg).
  destruct (first_row _) as [r0|].
  - destruct (bool_decide _); [done|]. apply bind_ok_inv in Hreg as (rows&db2&Hu&Hreq).
    unfold Devices.Pg.update, on_devices, zoom in Hu. destruct (update_returning _ _ _ _) as [o t] eqn:Hup.
    injection Hu as -> <-. unfold lift, required_row in Hreq. destruct (first_row rows) as [r'|] eqn:Hf; [|done].
    injection Hreq as -> <-. destruct (update_first_row _ _ _ _ _ _ _ Hup Hf) as (old&Hold&Hc&->&Hin).
    unfold Devices.Pg.keyed_by in Hc. to_prop. split_and!; try done. right. by exists old.
  - apply bind_ok_inv in Hreg as (new&db2&[= <- <-]&Hreg). apply bind_ok_inv in Hreg as (rows&db3&Hi&Hreq).
    unfold on_devices, zoom in Hi. destruct (insert_returning _ _ _) as [o t] eqn:Hins. injection Hi as -> <-.
    apply insert_returning_app in Hins as [-> ->]. unfold lift, required_row in Hreq.
    destruct (first_row _) as [r'|] eqn:Hf; [|done]. injection Hreq as -> <-. apply first_row_elem in Hf.
    split; [simpl; apply elem_of_app; by right|]. apply list_elem_of_fmap in Hf as (acc&->&Hacc).
    unfold Devices.Pg.current_account in Hacc. apply list_elem_of_In, filter_In in Hacc as [_ Hacc]. to_prop.
    split_and!; try done. by left.
Qed.

(** *** What follows the registration touches no device *)
Definition same_devices (db db' : Db) : Prop := devices db' = devices db.

#[local] Instance same_devices_preorder : PreOrder same_devices.
Proof. split; unfold same_devices; [by intros db|intros x y z ? ?; congruence]. Qed.

Lemma same_accounts_mark a at_ : respects same_devices (Accounts.Pg.mark_email_fallback a at_).
Proof. unfold Accounts.Pg.mark_email_fallback. walk. intros db. unfold same_devices, on_app_users. by rewrite zoom_snd. Qed.

Lemma same_session_create now id e a d ep issued absolute :
  respects same_devices (create_session (R := Db) now id e a d ep issued absolute).
Proof.
  assert (∀ now i a d th ch e idle ab, respects same_devices (create_row (R := Db) now i a d th ch e idle ab)) as Hc.
  { intros. simpl. unfold Sessions.Pg.create. walk. intros db. unfold same_devices, on_app_sessions. by rewrite zoom_snd. }
  unfold create_session. walk.
Qed.

Lemma same_audit cfg db_now i ty o now a d n details :
  respects same_devices (_audit_device_event (S := Db) cfg db_now i ty o now a d n details).
Proof.
  assert (∀ now i t o e user d fp details, respects same_devices (create_event (S := Db) now i t o e user d fp details)) as Hc.
  { intros. simpl. unfold Events.Pg.create. walk. intros db. unfold same_devices, on_security_events. by rewrite zoom_snd. }
  unfold _audit_device_event. walk.
Qed.

Lemma registrations_ok {A} (m : M RegistrationChallengeStore A) w a w' :
  registrations m w = (Ok a, w') →
  m (dw_registrations w) = (Ok a, dw_registrations w') ∧ dw_stores w' = dw_stores w.
Proof. unfold registrations, zoom. destruct (m (dw_registrations w)) as [o t]. by intros [= -> <-]. Qed.

Lemma stores_registrations {A} (m : M Db A) w : dw_registrations (stores m w).2 = dw_registrations w.
Proof. unfold stores, zoom. by destruct (m (dw_stores w)). Qed.

(** What [get] returns is stored and unexpired, and stays. *)
Lemma get_spec i now s state s' :
  Registration.get i now s = (Ok (Some state), s') →
  s' = s ∧ dict_get i (rcs_states s) = Some state ∧ (now < rc_expires_at (rs_challenge state))%Z.
Proof.
  unfold Registration.get, bind, gets. simpl. destruct (dict_get i (rcs_states s)) as [state'|]; [|done].
  destruct (Registration.expired now state') eqn:He; [done|]. intros [= -> <-]. unfold Registration.expired in He. by to_prop.
Qed.

Lemma consume_spec i now s state s' :
  Registration.consume i now s = (Ok (Some state), s') →
  dict_get i (rcs_states s) = Some state ∧ (dict_ok (rcs_states s) → dict_get i (rcs_states s') = None).
Proof.
  unfold Registration.consume, bind, gets, modify. simpl.
  destruct (dict_get i (rcs_states s)) as [state'|]; [|done]. destruct (Registration.expired now state'); [done|].
  intros [= -> <-]. split; [done|]. intros Hok. simpl. by rewrite dict_get_del_eq.
Qed.

(** The device a claimed challenge registers. *)
Lemma register_claimed_spec now db_now account claimed db dev fallback event db' :
  register_claimed now db_now account claimed db = (Ok (dev, fallback, event), db') →
  dev_user_id dev = acc_id account ∧ dev_fingerprint dev = rc_fingerprint (rs_challenge claimed) ∧
  dev_epoch dev = acc_device_epoch account ∧ dev_status dev = "active" ∧
  (dev_signing_public_key_spki dev = rs_public_key_spki claimed ∨ stored_before db dev) ∧
  dev ∈ devices db' ∧ db_step db db'.
Proof.
  unfold register_claimed. destruct (rc_linking_otp_id _) as [otp|].
  - intros Hr. apply bind_ok_inv in Hr as ([dev'|]&db1&Hc&Hr); [|done]. injection Hr as -> _ _ <-.
    pose proof Hc as Hst. cbn [LinkingOtps.consume_and_register pg_linking_otps] in Hst.
    pose proof (redeem_spec _ _ _ _ _ _ _ _ _ _ _ _ Hst) as (_&_&_&_&->&Hin&_). split_and!; try done; [by left|].
    match type of Hst with LinkingOtps.Pg.consume_and_register ?now ?i ?a ?d ?e ?n ?l ?k ?fp _ = _ =>
      pose proof (otps_redeem_step (R := db_step) now i a d e n l k fp db) as Hstep end. by rewrite Hst in Hstep.
  - intros Hr. apply bind_ok_inv in Hr as (dev'&db1&Hc&Hr). cbn [Devices.register_for_email pg_devices] in Hc.
    pose proof Hc as (Hin&Hu&Hfp&He&Hs&Hk)%registered_spec.
    match type of Hc with Devices.Pg.register_for_email ?now ?a ?e ?l ?k ?fp ?d _ = _ =>
      pose proof (devices_register_step (R := db_step) now a e l k fp d db) as Hstep end. rewrite Hc in Hstep. simpl in Hstep.
    destruct (rc_fallback _).
    + apply bind_ok_inv in Hr as (x&db2&Hm&[= -> _ _ <-]). cbn [mark_email_fallback accounts pg_accounts] in Hm.
      pose proof (accounts_mark_step (R := db_step) (acc_id account) now db1) as Hmark.
      pose proof (same_accounts_mark (acc_id account) now db1) as Hsame. rewrite Hm in Hmark, Hsame.
      split_and!; try done; [by unfold same_devices in Hsame; simpl in Hsame; rewrite Hsame|by etrans].
    + injection Hr as -> _ _ <-. by split_and!.
Qed.

Lemma audit_step cfg db_now id ty out now user dev network details :
  respects db_step (_audit_device_event (S := Db) cfg db_now id ty out now user dev network details).
Proof.
  unfold _audit_device_event. destruct (negb _); [steps|].
  apply respects_bind; [apply _|apply respects_gets; apply _|]. intros secret.
  apply respects_try; [apply _| |intros; apply respects_ret; apply _].
  apply respects_bind; [apply _|apply events_create_step|intros; apply respects_ret; apply _].
Qed.

Lemma stores_step {A} (m : M Db A) w : respects db_step m → db_step (dw_stores w) (dw_stores (stores m w).2).
Proof. intros Hm. unfold stores. rewrite zoom_snd. apply Hm. Qed.

(** What completing a registration ran. *)
Lemma registration_run cfg now db_now d i signature origin w r w' :
  complete_registration cfg now db_now d i signature origin w = (Ok r, w') →
  ∃ state fallback event db1 db2,
    dict_get i (rcs_states (dw_registrations w)) = Some state ∧ (now < rc_expires_at (rs_challenge state))%Z ∧
    rc_origin (rs_challenge state) = origin ∧ (rs_attempts state < 10)%Z ∧
    proved (rs_public_key_spki state) signature (rc_payload (rs_challenge state)) ∧
    (dict_ok (rcs_states (dw_registrations w)) → dict_get i (rcs_states (dw_registrations w')) = None) ∧
    Accounts.Pg.get_by_id (rc_account_id (rs_challenge state)) (dw_stores w) = (Ok (Some (dr_account r)), dw_stores w) ∧
    acc_device_epoch (dr_account r) = rc_epoch (rs_challenge state) ∧
    register_claimed now db_now (dr_account r) state (dw_stores w) = (Ok (dr_device r, fallback, event), db1) ∧
    create_session (R := Db) (λ n, db_now (1 + n)%nat) (dr_session_id d) (dr_secrets d) (acc_id (dr_account r))
      (dev_id (dr_device r)) (acc_device_epoch (dr_account r)) now None db1 = (Ok (dr_session r), db2) ∧
    db_step db2 (dw_stores w') ∧ devices (dw_stores w') = devices db1.
Proof.
  unfold complete_registration. intros Hr. apply bind_ok_inv in Hr as ([state|]&w1&Hg&Hr); [|done].
  apply registrations_ok in Hg as [Hg Hs1]. apply get_spec in Hg as (Hw1&Hst&Hexp).
  destruct (_ || _) eqn:Hbad; [done|]. to_prop.
  apply bind_ok_inv in Hr as (valid&w2&Hv&Hr). apply lift_ok in Hv as [Hv ->].
  destruct valid; cbn [negb] in Hr.
  2: { apply bind_ok_inv in Hr as (?&?&_&Hr). by apply bind_ok_inv in Hr as (?&?&_&?). }
  apply proof_holds_spec in Hv. apply bind_ok_inv in Hr as ([claimed|]&w3&Hc&Hr); [|done].
  apply registrations_ok in Hc as [Hc Hs3]. rewrite Hw1 in Hc. apply consume_spec in Hc as [Hcl Hgone].
  assert (claimed = state) as -> by congruence.
  apply bind_ok_inv in Hr as ([account|]&w4&Ha&Hr); [|done]. apply stores_ok in Ha as (Ha&_&Hr4).
  pose proof Ha as [= _ Hw4]. simpl in Ha. rewrite Hs3, Hs1 in *.
  destruct (bool_decide _) eqn:Hep; [done|]. to_prop.
  apply bind_ok_inv in Hr as ([[dev fallback] event]&w5&Hreg&Hr). apply stores_ok in Hreg as (Hreg&_&Hr5).
  apply bind_ok_inv in Hr as (session&w6&Hses&Hr). apply stores_ok in Hses as (Hses&_&Hr6).
  apply bind_ok_inv in Hr as (x&w7&Haud&[= <- <-]).
  assert (db_step (dw_stores w6) (dw_stores w7)) as Hstep.
  { match type of Haud with stores ?m _ = _ => pose proof (stores_step m w6) as Hst6 end. rewrite Haud in Hst6.
    apply Hst6, audit_step. }
  apply stores_ok in Haud as (Haud&_&Hr7).
  assert (devices (dw_stores w7) = devices (dw_stores w5)) as Hdevs.
  { match type of Hses with ?m ?s = _ => assert (same_devices s (m s).2) as Hd1 by apply same_session_create end.
    match type of Haud with ?m ?s = _ => assert (same_devices s (m s).2) as Hd2 by apply same_audit end.
    rewrite Hses in Hd1. rewrite Haud in Hd2. unfold same_devices in *. simpl in *. congruence. }
  exists state, fallback, event, (dw_stores w5), (dw_stores w6). simpl. rewrite <- Hw4 in *.
  split_and!; try done; try by apply dec_stable. by rewrite Hr7, Hr6, Hr5, Hr4.
Qed.

(** C17: a registration proves possession of the new key, and works once.
    Let every stored device and every held challenge have the digest of its key
    for fingerprint, as the service keeps them (C15).  When completing a
    registration on PostgreSQL yields a session, its challenge was held under
    that identifier, unexpired, for that origin, with attempts left, and the
    signature verifies, under the key held with the challenge, over the
    registration message; the account is live in the challenge's epoch.  The
    device is stored, active, under that account and epoch, and with that very
    key; or it was stored before with a key of the same SHA-256, which is then
    kept.  The session is stored for it.  The challenge is gone: completing it
    again, whatever happened to the stores meanwhile, fails and changes
    nothing. *)
Theorem registration_proves_key cfg now db_now d i signature origin w r w' :
  bound_world w → dict_ok (rcs_states (dw_registrations w)) →
  complete_registration cfg now db_now d i signature origin w = (Ok r, w') →
  (∃ state, dict_get i (rcs_states (dw_registrations w)) = Some state ∧
     let challenge := rs_challenge state in
     (now < rc_expires_at challenge)%Z ∧ rc_origin challenge = origin ∧ (rs_attempts state < 10)%Z ∧
     proved (rs_public_key_spki state) signature (rc_payload challenge) ∧
     dr_account r ∈ app_users (dw_stores w) ∧ acc_id (dr_account r) = rc_account_id challenge ∧
     acc_deleted_at (dr_account r) = None ∧ acc_device_epoch (dr_account r) = rc_epoch challenge ∧
     dev_user_id (dr_device r) = rc_account_id challenge ∧
     dev_epoch (dr_device r) = rc_epoch challenge ∧ dev_status (dr_device r) = "active" ∧
     dev_fingerprint (dr_device r) = rc_fingerprint challenge ∧
     rc_fingerprint challenge = sha256 (rs_public_key_spki state) ∧
     sha256 (dev_signing_public_key_spki (dr_device r)) = sha256 (rs_public_key_spki state) ∧
     (dev_signing_public_key_spki (dr_device r) = rs_public_key_spki state ∨ stored_before (dw_stores w) (dr_device r))) ∧
  dr_device r ∈ devices (dw_stores w') ∧
  (∃ stored, stored ∈ app_sessions (dw_stores w') ∧ session_evolves (cs_record (dr_session r)) stored) ∧
  ses_user_id (cs_record (dr_session r)) = acc_id (dr_account r) ∧
  ses_device_id (cs_record (dr_session r)) = dev_id (dr_device r) ∧
  hash_secret (ss_token (cs_secrets (dr_session r))) = Ok (ses_token_hash (cs_record (dr_session r))) ∧
  ∀ cfg' now' db_now' d' signature' origin' w'', dw_registrations w'' = dw_registrations w' →
    complete_registration cfg' now' db_now' d' i signature' origin' w'' = (Raise DeviceAuthFailure, w'').
Proof.
  intros [[Hwf Hrows] Hheld] Hok (state&fallback&event&db1&db2&Hst&Hexp&Ho&Hatt&Hp&Hgone&Ha&Hep&Hreg&Hses&Hlast&Hdevs)%registration_run.
  specialize (Hgone Hok). apply account_found in Ha as (Hain&Hai&Hadel).
  apply register_claimed_spec in Hreg as (Hu&Hfp&He&Hact&Hkey&Hin&Hs1).
  pose proof (create_session_spec _ _ _ _ _ _ _ _ _ _ _ Hses) as (Hsin&_&Hsu&Hsd&_&_&Hth&_).
  assert (well_formed db2) as Hwf2.
  { match type of Hses with ?m ?s = _ => assert (db_step s (m s).2) as Hcr by apply create_session_step; rewrite Hses in Hcr end.
    eapply db_step_well_formed; [|exact Hwf]. by etrans. }
  pose proof (held_get_state _ _ _ Hheld Hst) as Hsk. unfold keyed_state in Hsk.
  split_and!; [|by rewrite Hdevs|..|done|done|done|].
  - exists state. cbv zeta. split_and!; try first [done|congruence].
    destruct Hkey as [->|(old&Hold&_&Hk&Hf)]; [done|]. specialize (Hrows old Hold). unfold keyed_row in Hrows. congruence.
  - destruct Hlast as (_&_&Hd&_). destruct Hwf2 as (_&_&Hss&_). by apply (Hd Hss).
  - intros cfg' now' db_now' d' signature' origin' w'' Hw''. unfold complete_registration, bind at 1, registrations, zoom.
    unfold Registration.get, bind, gets. rewrite Hw'', Hgone. simpl. rewrite <- Hw''. by destruct w''.
Qed.

(** *** An honest login completes *)

(** The rows of a well-formed table a key selects. *)
Lemma filter_one {Row} `{!Table Row} (p : Row → bool) t r :
  sound t → ¬ apart r r → r ∈ t → p r = true →
  (∀ x, x ∈ t → p x = true → ¬ apart x r ∧ ¬ apart r x) → List.filter p t = [r].
Proof.
  intros Hs Hrr. induction t as [|x t IH]; [by intros ?%not_elem_of_nil|]. intros Hr Hp Huniq.
  destruct Hs as (_&Hall&Hs). rewrite Forall_forall in Hall. simpl.
  destruct (p x) eqn:Hpx.
  - destruct (Huniq x ltac:(left) Hpx) as [Hxr Hrx]. apply elem_of_cons in Hr as [->|Hr]; [|by destruct Hxr; apply Hall].
    f_equal. destruct (List.filter p t) as [|y l] eqn:Hf; [done|].
    assert (y ∈ y :: l) as Hy by left. rewrite <- Hf in Hy. apply list_elem_of_In, filter_In in Hy as [Hy Hpy].
    apply list_elem_of_In in Hy. destruct (Huniq y ltac:(by right) Hpy) as [_ Hn]. by destruct Hn; apply Hall.
  - apply elem_of_cons in Hr as [->|Hr]; [congruence|]. apply IH; try done. intros y Hy. apply Huniq. by right.
Qed.

Lemma update_one {Row} check (p : Row → bool) set t r :
  List.filter p t = [r] → check (set r) = true →
  update_returning check p set t = (Ok [set r], update_set p set t).
Proof. intros Hf Hc. unfold update_returning. rewrite Hf. simpl. by rewrite Hc. Qed.

Section honest.
Context (db : Db) (Hwf : well_formed db) (account : AccountRecord) (device : DeviceRecord)
  (challenge : DeviceChallengeRecord).
Context (Ha : account ∈ app_users db) (Hd : device ∈ devices db) (Hc : challenge ∈ device_challenges db)
  (Hdel : acc_deleted_at account = None) (Hown : dev_user_id device = acc_id account)
  (Hdev : chl_device_id challenge = dev_id device) (Hact : dev_status device = "active")
  (Hep : dev_epoch device = acc_device_epoch account).

Lemma one_account (p : AccountRecord → bool) :
  p account = true → (∀ x, p x = true → acc_id x = acc_id account) → List.filter p (app_users db) = [account].
Proof using Hwf Ha.
  clear -Hwf Ha.
  intros Hp Hx. destruct Hwf as (Hs&_). apply filter_one; simpl; [done| |done|done|]; [intuition|].
  intros x _ Hpx. specialize (Hx x Hpx). split; intuition congruence.
Qed.

Lemma one_device (p : DeviceRecord → bool) :
  p device = true → (∀ x, p x = true → dev_id x = dev_id device) → List.filter p (devices db) = [device].
Proof using Hwf Hd.
  clear -Hwf Hd.
  intros Hp Hx. destruct Hwf as (_&Hs&_). apply filter_one; simpl; [done| |done|done|]; [intuition|].
  intros x _ Hpx. specialize (Hx x Hpx). split; intuition congruence.
Qed.

Lemma one_challenge (p : DeviceChallengeRecord → bool) :
  p challenge = true → (∀ x, p x = true → chl_id x = chl_id challenge) →
  List.filter p (device_challenges db) = [challenge].
Proof using Hwf Hc.
  clear -Hwf Hc.
  intros Hp Hx. destruct Hwf as (_&_&_&Hs&_). apply filter_one; simpl; [done| |done|done|]; [intuition|].
  intros x _ Hpx. specialize (Hx x Hpx). split; intuition congruence.
Qed.

Lemma account_reads : Accounts.Pg.get_by_id (acc_id account) db = (Ok (Some account), db).
Proof.
  unfold Accounts.Pg.get_by_id, gets, Accounts.Pg.lookup, select.
  rewrite one_account; [done| |by intros x Hx; to_prop]. unfold account_live. by rewrite bool_decide_true, Hdel.
Qed.

Lemma device_reads : Devices.Pg.get_by_id (acc_id account) (dev_id device) db = (Ok (Some device), db).
Proof.
  unfold Devices.Pg.get_by_id, gets, select, Devices.Pg.owned.
  rewrite one_device; [done| |by intros x Hx; to_prop]. by rewrite !bool_decide_true.
Qed.

Lemma challenge_reads : Challenges.Pg.get_by_id (acc_id account) (chl_id challenge) db = (Ok (Some challenge), db).
Proof.
  unfold Challenges.Pg.get_by_id, gets, Challenges.Pg.joined, first_row.
  rewrite one_challenge by (rewrite ?bool_decide_true; by intros; to_prop). simpl.
  rewrite one_device by (rewrite ?bool_decide_true; intros; to_prop; congruence). simpl.
  rewrite one_account; [done| |by intros x Hx; to_prop; congruence].
  unfold account_live. by rewrite !bool_decide_true, Hdel by congruence.
Qed.

Lemma device_is_current : Challenges.Pg.device_current db (acc_id account) challenge = true.
Proof.
  unfold Challenges.Pg.device_current. apply existsb_exists. exists device. split; [by apply list_elem_of_In|].
  rewrite bool_decide_true by done. apply existsb_exists. exists account. split; [by apply list_elem_of_In|].
  unfold account_live. by rewrite !bool_decide_true, Hdel by congruence.
Qed.

Lemma consume_completes now :
  chl_consumed_at challenge = None → (now < chl_expires_at challenge)%Z → (chl_created_at challenge <= now)%Z →
  ∃ db1, Challenges.Pg.consume now (acc_id account) (chl_id challenge) db =
      (Ok (Some (Challenges.chl_consumed challenge now)), db1) ∧
    app_users db1 = app_users db ∧ devices db1 = devices db ∧ app_sessions db1 = app_sessions db.
Proof.
  intros Hnone Hexp Hcre. assert (row_check challenge = true) as Hck.
  { destruct Hwf as (_&_&_&Hs&_). by eapply sound_check. }
  unfold Challenges.Pg.consume, transaction, Challenges.Pg.update_open, bind, gets, ret, on_device_challenges, zoom.
  cbv beta. cbn [id device_challenges].
  rewrite (update_one _ _ _ _ challenge).
  - eexists. split; [reflexivity|done].
  - apply one_challenge; [|by intros x Hx; to_prop]. unfold id. rewrite device_is_current. unfold Challenges.chl_open.
    rewrite Hnone, bool_decide_true by done. simpl. rewrite andb_true_r. by apply Z.ltb_lt.
  - simpl in *. unfold challenge_check in *. simpl. rewrite Hnone in Hck. to_prop. repeat (apply andb_true_iff; split);
      first [by apply bool_decide_eq_true|by apply Z.ltb_lt|by apply Z.leb_le].
Qed.

Lemma touch_completes now : (dev_created_at device <= now)%Z →
  ∃ db1, Devices.Pg.touch_last_seen now (acc_id account) (dev_id device) db =
      (Ok (Some (Devices.dev_touched device now)), db1) ∧
    app_users db1 = app_users db ∧ Devices.dev_touched device now ∈ devices db1 ∧ app_sessions db1 = app_sessions db.
Proof.
  intros Hcre. assert (row_check device = true) as Hck.
  { destruct Hwf as (_&Hs&_). by eapply sound_check. }
  assert (Devices.Pg.owned (acc_id account) (dev_id device) device && bool_decide (dev_status device = "active") = true)
    as Hcond by by (unfold Devices.Pg.owned; rewrite !bool_decide_true).
  unfold Devices.Pg.touch_last_seen, Devices.Pg.update, bind, ret, on_devices, zoom.
  rewrite (update_one _ _ _ _ device).
  - eexists. split; [reflexivity|]. split_and!; [done| |done]. simpl. apply list_elem_of_fmap. exists device.
    by rewrite Hcond.
  - apply one_device; [done|]. intros x Hx. unfold Devices.Pg.owned in Hx. by to_prop.
  - simpl in *. unfold device_check in *. simpl. to_prop. repeat (apply andb_true_iff; split);
      first [by apply bool_decide_eq_true|by apply Z.ltb_lt|by apply Z.leb_le|done].
Qed.

Lemma session_completes now id th ch idle absolute :
  length th = 32 → length ch = 32 → (now < idle)%Z → (idle <= absolute)%Z →
  id ∉ map ses_id (app_sessions db) → th ∉ map ses_token_hash (app_sessions db) →
  ∃ r db1, Sessions.Pg.create now id (acc_id account) (dev_id device) th ch (acc_device_epoch account) idle absolute db =
    (Ok r, db1).
Proof using Hwf Ha Hd Hdel Hown Hact Hep.
  clear Hdev Hc.
  intros Hth Hch Hidle Habs Hid Hfresh. assert (row_check account = true) as Hck.
  { destruct Hwf as (Hs&_). by eapply sound_check. }
  unfold Sessions.Pg.create, bind, gets, lift, on_app_sessions, zoom.
  unfold Sessions.Pg.create_rows.
  rewrite one_account; [| |by intros x Hx; to_prop].
  2: { unfold account_live. by rewrite !bool_decide_true, Hdel. }
  simpl. rewrite one_device; [| |by intros x Hx; to_prop].
  2: { by rewrite !bool_decide_true. }
  simpl. assert (session_admits (app_sessions db) (Build_SessionRecord id (acc_id account) (dev_id device) th ch
    (acc_device_epoch account) now now idle absolute None None) = true) as ->; [|do 2 eexists; reflexivity].
  simpl in Hck. unfold account_check in Hck. to_prop. unfold session_admits, session_check. simpl.
  rewrite !bool_decide_true by done. simpl. rewrite !andb_true_r. repeat (apply andb_true_iff; split);
    first [by apply Z.ltb_lt|apply Z.leb_le; lia|apply Z.ltb_lt; lia|done].
Qed.
End honest.

Definition token_digest (e : entropy) : bytes := sha256 (to_bytes (encode_base64url (en_token e))).

Lemma secrets_total e : ∃ s, _session_secrets e = Ok s ∧ ss_token_hash s = token_digest e ∧
  length (ss_token_hash s) = 32 ∧ length (ss_csrf_hash s) = 32.
Proof.
  unfold _session_secrets, new_opaque_token. simpl. unfold hash_secret, encode_ascii.
  rewrite !encode_base64url_ascii. eexists. split_and!; [reflexivity|done|apply sha256_length..].
Qed.

Lemma prepare_total e issued : ∃ s idle absolute, prepare e issued None = Ok (s, idle, absolute) ∧
  ss_token_hash s = token_digest e ∧ length (ss_token_hash s) = 32 ∧ length (ss_csrf_hash s) = 32 ∧
  idle = (issued + SESSION_IDLE_LIFETIME)%Z ∧ (idle <= absolute)%Z.
Proof.
  destruct (secrets_total e) as (s&Hs&Hh&Hl&Hl').
  assert (0 < SESSION_IDLE_LIFETIME <= SESSION_ABSOLUTE_LIFETIME)%Z as [Hidle Habs] by by compute.
  unfold prepare, session_expiry. rewrite Hs. cbn [default].
  destruct (Z.leb_spec (issued + SESSION_ABSOLUTE_LIFETIME) issued); [lia|].
  rewrite Z.min_l by lia. destruct (Z.leb_spec (issued + SESSION_IDLE_LIFETIME) issued); [lia|].
  do 3 eexists. split_and!; [reflexivity|done..|lia].
Qed.

Lemma stores_run {A} (m : M Db A) db b g o db' :
  m db = (o, db') → stores m (Build_DeviceWorld db b g) = (o, Build_DeviceWorld db' b g).
Proof. intros Hm. unfold stores, zoom. simpl. by rewrite Hm. Qed.

Lemma login_refused_not current nonce account device challenge :
  dev_status device = "active" → dev_epoch device = acc_device_epoch account →
  (current < chl_expires_at challenge)%Z → chl_consumed_at challenge = None → length nonce = 32 →
  chl_nonce_hash challenge = sha256 nonce →
  login_refused current nonce (Some account) (Some device) challenge = Ok false.
Proof.
  intros Hact Hep Hcur Hnone Hlen Hh. unfold login_refused, unavailable, _hash_nonce. rewrite Hact, Hep, Hnone, Hlen, Hh.
  rewrite !bool_decide_false by (intros Hn; by apply Hn). cbn [orb is_null negb].
  by assert ((chl_expires_at challenge <=? current)%Z = false) as -> by (apply Z.leb_gt; lia).
Qed.

(** The token of a new session authenticates as it. *)
Lemma created_session_found now id a d th ch e idle absolute db r db' :
  well_formed db → Sessions.Pg.create now id a d th ch e idle absolute db = (Ok r, db') →
  (now < idle <= absolute)%Z → Sessions.Pg.find_by_token_hash now th db' = Some r.
Proof.
  intros Hwf Hcr Hidle. assert (well_formed db') as (_&_&Hs&_).
  { eapply db_step_well_formed; [|exact Hwf]. pose proof (sessions_create_step (R := db_step) now id a d th ch e idle absolute db) as Hst.
    by rewrite Hcr in Hst. }
  apply create_result in Hcr as (Hr&Hin&_&_&Hacc&Hdev).
  assert (Sessions.Pg.usable db' now r = true) as Hu.
  { unfold Sessions.Pg.usable. rewrite Hacc, Hdev, !andb_true_r. subst r. unfold Sessions.Pg.unexpired. simpl.
    apply andb_true_iff. rewrite !Z.ltb_lt. lia. }
  apply (first_row_unique _ (λ x, x ∈ app_sessions db' ∧ ses_token_hash x = th ∧ Sessions.Pg.usable db' now x = true)).
  - intros x. by rewrite joined_elem, bool_decide_eq_true.
  - intros x y (Hx&Hxt&_) (Hy&Hyt&_). apply (sound_unique _ _ _ Hs Hx Hy); simpl; intuition congruence.
  - split_and!; [done|by subst r|done].
Qed.

(** C25: an honest login completes.  Over a well-formed database, a challenge
    that is unconsumed and ahead of its deadline, answered for its origin and
    nonce with a signature that verifies under the key of its device, active
    in the epoch of its live account, always yields a session, given a fresh
    session identifier and token and a database clock that is not before the
    rows it updates nor past the new session's idle deadline; and the returned
    cookie authenticates as exactly that session. *)
Theorem login_completes current db_now d nonce signature db b g account device challenge :
  well_formed db → account ∈ app_users db → device ∈ devices db → challenge ∈ device_challenges db →
  acc_deleted_at account = None → dev_user_id device = acc_id account → chl_device_id challenge = dev_id device →
  dev_status device = "active" → dev_epoch device = acc_device_epoch account →
  chl_consumed_at challenge = None → (current < chl_expires_at challenge)%Z →
  (chl_created_at challenge <= db_now 0%nat < chl_expires_at challenge)%Z →
  length nonce = 32 → chl_nonce_hash challenge = sha256 nonce →
  proved (dev_signing_public_key_spki device) signature (challenge_payload challenge account device nonce) →
  (dev_created_at device <= db_now 1%nat)%Z → (db_now 2%nat < current + SESSION_IDLE_LIFETIME)%Z →
  dr_session_id d ∉ map ses_id (app_sessions db) →
  token_digest (dr_secrets d) ∉ map ses_token_hash (app_sessions db) →
  ∃ r db', complete_login_challenge current db_now d (acc_id account) (chl_id challenge) nonce signature
      (chl_origin challenge) (Build_DeviceWorld db b g) = (Ok r, Build_DeviceWorld db' b g) ∧
    dr_account r = account ∧ ses_device_id (cs_record (dr_session r)) = dev_id device ∧
    Sessions.Pg.find_by_token_hash (db_now 2%nat) (token_digest (dr_secrets d)) db' =
      Some (cs_record (dr_session r)).
Proof.
  intros Hwf Ha Hd Hc Hdel Hown Hdev Hact Hep Hnone Hcur [Hcre Hexp] Hlen Hh Hp Hdc Hidle Hid Hfresh.
  destruct (consume_completes db Hwf account device challenge Ha Hd Hc Hdel Hown Hdev Hact Hep (db_now 0%nat))
    as (db1&Hcons&Hu1&Hd1&Hs1); [done..|].
  assert (well_formed db1) as Hwf1.
  { eapply db_step_well_formed; [|exact Hwf].
    pose proof (statement_step _ _ (st_challenge_consume db (db_now 0%nat) (acc_id account) (chl_id challenge))) as Hst.
    by rewrite Hcons in Hst. }
  assert (account ∈ app_users db1) as Ha1 by by rewrite Hu1. assert (device ∈ devices db1) as Hdin1 by by rewrite Hd1.
  destruct (touch_completes db1 Hwf1 account device Hdin1 Hown Hact (db_now 1%nat)) as (db2&Ht&Hu2&Hd2&Hs2); [done|].
  assert (well_formed db2) as Hwf2.
  { eapply db_step_well_formed; [|exact Hwf1].
    pose proof (devices_touch_step (R := db_step) (db_now 1%nat) (acc_id account) (dev_id device) db1) as Hst. by rewrite Ht in Hst. }
  destruct (prepare_total (dr_secrets d) current) as (s&idle&absolute&Hprep&Htok&Hl&Hl'&Hidle'&Hle).
  destruct (session_completes db2 Hwf2 account (Devices.dev_touched device (db_now 1%nat))) with
    (now := db_now 2%nat) (id := dr_session_id d) (th := ss_token_hash s) (ch := ss_csrf_hash s) (idle := idle)
    (absolute := absolute) as (r0&db3&Hcr); try done; [by rewrite Hu2|lia|by rewrite Hs2, Hs1|by rewrite Hs2, Hs1, Htok|].
  exists {| dr_account := account; dr_device := Devices.dev_touched device (db_now 1%nat);
            dr_session := {| cs_record := r0; cs_secrets := s |}; dr_fallback := false |}, db3.
  split_and!; [|done|..].
  - unfold complete_login_challenge, bind.
    rewrite (stores_run _ _ _ _ _ _ (challenge_reads db Hwf account device challenge Ha Hd Hc Hdel Hown Hdev)).
    rewrite bool_decide_false by (intros Hn; by apply Hn).
    rewrite (stores_run _ _ _ _ _ _ (account_reads db Hwf account Ha Hdel)), Hdev.
    rewrite (stores_run _ _ _ _ _ _ (device_reads db Hwf account device Hd Hown)).
    rewrite login_refused_not by done. cbn [lift]. apply proof_holds_spec in Hp. unfold lift. rewrite Hp. cbn [negb].
    rewrite (stores_run _ _ _ _ _ _ Hcons), (stores_run _ _ _ _ _ _ Ht).
    assert (create_session (R := Db) (λ n, db_now (2 + n)%nat) (dr_session_id d) (dr_secrets d) (acc_id account)
      (dev_id device) (acc_device_epoch account) current None db2 = (Ok {| cs_record := r0; cs_secrets := s |}, db3)) as Hcs.
    { unfold create_session, bind, lift. rewrite Hprep. cbn [create_row pg_sessions Nat.add]. simpl in Hcr. by rewrite Hcr. }
    by rewrite (stores_run _ _ _ _ _ _ Hcs).
  - apply create_result in Hcr as (->&_). done.
  - rewrite <- Htok. eapply created_session_found; [exact Hwf2|exact Hcr|lia].
Qed.
End production.

(** ** Witnesses *)
#[local] Existing Instance toy_cryptography.
#[local] Existing Instance ascii_unicode.
#[local] Instance fixture_accounts : AccountStore Db := pg_accounts (λ _, true).
#[local] Instance fixture_limiter : LimiterStore Db := persistent_limiter [].

Definition login_signature : bytes := Eval vm_compute in
  match challenge_payload laptop_challenge ada laptop nonce7 with
  | Ok p => match signed_message p with Ok m => toy_sign laptop_key m | _ => [] end
  | _ => []
  end.

Lemma login_authenticates_witness :
  ∃ r w', complete_login_challenge (minutes 1) at_minute draws 1 200 nonce7 login_signature site world0 = (Ok r, w') ∧
    ses_device_id (cs_record (dr_session r)) = 10%N.
Proof.
  destruct (complete_login_challenge (minutes 1) at_minute draws 1 200 nonce7 login_signature site world0)
    as [[r|e] w'] eqn:Hr; [|exfalso; revert Hr; vm_compute; discriminate].
  destruct (login_authenticates (λ _, true) _ _ _ _ _ _ _ _ world0 _ _ home_well_formed Hr)
    as (c&d&Hc&_&Hd&_&_&_&_&_&_&_&_&_&_&_&_&_&_&_&_&_&Hs&_).
  exists r, w'. split; [reflexivity|]. apply list_elem_of_singleton in Hc. subst c. rewrite Hs. symmetry. exact Hd.
Defined.

(** With the production limiter, which grants the first code. *)
Lemma linking_lookup_unavailable_witness :
  let cfg := {| dc_bootstrap_consumer := true; dc_bootstrap_peeker := true; dc_rate_limiter := true;
                dc_security_event_store := false |} in
  (issue_linking_challenge cfg (minutes 1) (minutes 1) draws (u "123456") phone_key (u "tablet") site None (u "net") world0).1 =
    Raise BackendUnavailableError.
Proof.
  intros cfg. destruct (issue_linking_challenge cfg (minutes 1) (minutes 1) draws (u "123456") phone_key (u "tablet") site
    None (u "net") world0) as [o w'] eqn:Hr.
  destruct (linking_lookup_unavailable (λ _, true) []) as [_ Hno].
  destruct (Hno _ _ _ _ _ _ _ _ _ _ _ _ _ Hr) as (_&_&Hraise).
  destruct (Hraise eq_refl) as (raw&allowed&Hraw&Hallowed&->).
  assert (raw = to_bytes (u "123456")) as -> by (vm_compute in Hraw; injection Hraw as <-; reflexivity).
  assert (allowed = Ok true) as ->; [|reflexivity].
  change allowed with ((allowed, w').1). rewrite <- Hallowed. vm_compute. reflexivity.
Defined.

Definition tablet_key : bytes := to_bytes (u "tablet key").

(** A registration by email, its challenge issued and answered. *)
Definition tablet_issue : M RegistrationChallengeStore RegistrationChallenge :=
  Registration.issue 201 nonce7 ada 12 tablet_key (u "tablet") site true "email" None None (minutes 1).
Definition tablet_store : RegistrationChallengeStore := Eval vm_compute in (tablet_issue (dw_registrations world0)).2.
Definition tablet_world : DeviceWorld Db := Build_DeviceWorld home (dw_bootstrap world0) tablet_store.
Definition tablet_signature : bytes := Eval vm_compute in
  match tablet_issue (dw_registrations world0) with
  | (Ok c, _) => match rc_payload c with
                 | Ok p => match signed_message p with Ok m => toy_sign tablet_key m | _ => [] end
                 | _ => []
                 end
  | _ => []
  end.

Lemma home_keyed : rows_keyed home.
Proof.
  intros r Hr. apply elem_of_cons in Hr as [->|Hr%list_elem_of_singleton]; [|subst r]; vm_compute; reflexivity.
Qed.

Lemma tablet_bound : bound_world tablet_world.
Proof.
  split; [split; [exact home_well_formed|exact home_keyed]|]. intros i state Hin.
  apply list_elem_of_singleton in Hin. injection Hin as _ ->. vm_compute. reflexivity.
Qed.

Lemma registration_proves_key_witness :
  let cfg := {| dc_bootstrap_consumer := true; dc_bootstrap_peeker := true; dc_rate_limiter := false;
                dc_security_event_store := true |} in
  ∃ r w', complete_registration cfg (minutes 2) at_minute draws 201 tablet_signature site tablet_world = (Ok r, w') ∧
    ses_device_id (cs_record (dr_session r)) = dev_id (dr_device r) ∧
    complete_registration cfg (minutes 2) at_minute draws 201 tablet_signature site w' = (Raise DeviceAuthFailure, w').
Proof.
  intros cfg. destruct (complete_registration cfg (minutes 2) at_minute draws 201 tablet_signature site tablet_world)
    as [[r|e] w'] eqn:Hr; [|exfalso; revert Hr; vm_compute; discriminate].
  assert (dict_ok (rcs_states (dw_registrations tablet_world))) as Hok by apply NoDup_singleton.
  destruct (registration_proves_key (λ _, true) [] _ _ _ _ _ _ _ tablet_world _ _ tablet_bound Hok Hr)
    as (_&_&_&_&Hd&_&Hagain).
  exists r, w'. split; [reflexivity|]. split; [exact Hd|]. apply Hagain. reflexivity.
Defined.

Lemma login_completes_witness :
  ∃ r db', complete_login_challenge (minutes 1) at_minute draws 1 200 nonce7 login_signature site world0 =
      (Ok r, Build_DeviceWorld db' (dw_bootstrap world0) (dw_registrations world0)) ∧
    ses_device_id (cs_record (dr_session r)) = 10%N.
Proof.
  assert (proved laptop_key login_signature (challenge_payload laptop_challenge ada laptop nonce7)) as Hp.
  { exists laptop_payload, laptop_message. split_and!; vm_compute; reflexivity. }
  assert (chl_nonce_hash laptop_challenge = sha256 nonce7) as Hn by (vm_compute; reflexivity).
  assert (101%N ∉ map ses_id (app_sessions home)) as Hid by (apply (bool_decide_unpack _); vm_compute; exact I).
  assert (token_digest (dr_secrets draws) ∉ map ses_token_hash (app_sessions home)) as Htok
    by (apply (bool_decide_unpack _); vm_compute; exact I).
  destruct (login_completes (λ _, true) (minutes 1) at_minute draws nonce7 login_signature home (dw_bootstrap world0)
    (dw_registrations world0) ada laptop laptop_challenge home_well_formed ltac:(left) ltac:(left) ltac:(left) eq_refl
    eq_refl eq_refl eq_refl eq_refl eq_refl eq_refl ltac:(split; [discriminate|reflexivity]) eq_refl Hn Hp
    ltac:(discriminate) eq_refl Hid Htok) as (r&db'&Hr&_&Hd&_).
  exists r, db'. split; [exact Hr|exact Hd].
Defined.
