(* ===== verification/Interleaving.v ===== *)
(** * Interleaving: a handler between the statements of others

    A handler gives up the event loop at every repository call, and other
    instances of the service use the same database: between two of its calls
    any statements of others run.  A call may also fail, before it reached the
    database or after it was committed.  [Shared] is the database with a
    schedule of what happens before each coming call, and an instance of every
    store interface the device service uses, so the service of [DeviceAuth]
    runs on it as it is.  The stores of the process itself need no schedule:
    both operations below touch them before their first call only. *)
From Stdlib.Strings Require Import Byte.
From S2P Require Import Prelude PyDict Json Models Sql Tables Schema Hashing Signaling Security Sessions SessionTheorems.
From S2P Require Import RateLimits Integrity History.
From S2P Require Import Accounts Devices Challenges LinkingOtps Events DeviceCrypto Auth DeviceAuth Main Lifecycles.
From S2P Require Import CryptoTheorems DeviceAuthTheorems Fixtures.
From stdpp Require Import list strings relations.

(** ** The schedule *)

(** What becomes of a call: answered, lost before the database saw it, or
    executed and its answer lost (a method is one transaction or one statement:
    [DatabaseTheorems.transactions_atomic]). *)
Inductive fate := Answered | Unreached (e : exn) | AnswerLost (e : exn).

(** The statements others ran since the last call, and the coming call's
    fate. *)
Record Turn := { tn_others : Db → Db; tn_fate : fate }.

Record Shared := { sh_db : Db; sh_turns : list Turn }.

(** A repository call under the schedule; past its end the call is alone. *)
Definition shared {A} (m : M Db A) : M Shared A := λ s,
  match sh_turns s with
  | [] => let '(o, db) := m (sh_db s) in (o, Build_Shared db [])
  | turn :: turns =>
      let db := tn_others turn (sh_db s) in
      match tn_fate turn with
      | Answered => let '(o, db') := m db in (o, Build_Shared db' turns)
      | Unreached e => (Raise e, Build_Shared db turns)
      | AnswerLost e => (Raise e, Build_Shared (m db).2 turns)
      end
  end.

(** The others run repository statements. *)
Definition obeys (s : Shared) : Prop := Forall (λ turn, ∀ db, rtc statement db (tn_others turn db)) (sh_turns s).

(** ** The stores *)
Section stores.
Context (auth_user : UUID → bool) (rate_limit_secret : bytes).

#[local] Instance db_accounts : AccountStore Db := pg_accounts auth_user.
#[local] Instance db_limiter : LimiterStore Db := persistent_limiter rate_limit_secret.

Definition shared_accounts : AccountStore Shared := {|
  get_or_create now id identity email at_ := shared (get_or_create (S := Db) now id identity email at_);
  account_by_id i := shared (account_by_id (S := Db) i);
  account_by_email e := shared (account_by_email (S := Db) e);
  mark_email_fallback i at_ := shared (mark_email_fallback (S := Db) i at_) |}.

Definition shared_limiter : LimiterStore Shared := {|
  limit_many now requests := shared (limit_many (S := Db) now requests);
  limiter_secret s := limiter_secret (S := Db) (sh_db s) |}.

Definition shared_devices : DeviceStore Shared := {|
  device_by_id a d := shared (device_by_id (S := Db) a d);
  devices_of a := shared (devices_of (S := Db) a);
  register_for_email now a e l k fp d := shared (register_for_email (S := Db) now a e l k fp d);
  touch_device now a d := shared (touch_device (S := Db) now a d);
  rename_device a d l := shared (rename_device (S := Db) a d l);
  revoke_device now a d reason := shared (revoke_device (S := Db) now a d reason);
  revoke_devices now a reason := shared (revoke_devices (S := Db) now a reason);
  logout_device now a d reason := shared (logout_device (S := Db) now a d reason) |}.

Definition shared_challenges : ChallengeStore Shared := {|
  challenge_by_id a i := shared (challenge_by_id (S := Db) a i);
  create_challenge now i a d h o e := shared (create_challenge (S := Db) now i a d h o e);
  consume_challenge now a i := shared (consume_challenge (S := Db) now a i);
  fail_challenge now a i := shared (fail_challenge (S := Db) now a i) |}.

Definition shared_linking_otps : LinkingOtpStore Shared := {|
  create_otp now i a d h e := shared (create_otp (S := Db) now i a d h e);
  active_otp_by_hash now h := shared (active_otp_by_hash (S := Db) now h);
  fail_otp now i := shared (fail_otp (S := Db) now i);
  consume_and_register now i a d e n l k fp := shared (consume_and_register (S := Db) now i a d e n l k fp) |}.

Definition shared_events : SecurityEventStore Shared := {|
  create_event now i t o e user d fp details := shared (create_event (S := Db) now i t o e user d fp details) |}.

(** [find_row] is for the session checks, which are not run here. *)
Definition shared_sessions : SessionRepositoryPort Shared := {|
  create_row now i a d th ch e idle absolute := shared (create_row (R := Db) now i a d th ch e idle absolute);
  find_row now h s := find_row (R := Db) now h (sh_db s);
  touch_row now a i := shared (touch_row (R := Db) now a i);
  replace_csrf_row now a i h := shared (replace_csrf_row (R := Db) now a i h);
  revoke_row now a i reason := shared (revoke_row (R := Db) now a i reason) |}.
End stores.

(** ** One call *)

(** An answered call ran on a database the others led to. *)
Lemma shared_ok {A} (m : M Db A) s a s' :
  obeys s → shared m s = (Ok a, s') →
  ∃ db, rtc statement (sh_db s) db ∧ m db = (Ok a, sh_db s') ∧ obeys s'.
Proof.
  unfold obeys, shared. destruct (sh_turns s) as [|turn turns].
  - intros _. destruct (m (sh_db s)) as [o db] eqn:Hm. intros [= -> <-]. exists (sh_db s). by split_and!; [apply rtc_refl| |].
  - intros [Ho Hos]%Forall_cons. destruct (tn_fate turn); [|done..].
    destruct (m (tn_others turn (sh_db s))) as [o db] eqn:Hm. intros [= -> <-]. exists (tn_others turn (sh_db s)). by split_and!.
Qed.

Lemma stores_shared_ok {A} (m : M Db A) (w : DeviceWorld Shared) a w' :
  obeys (dw_stores w) → stores (shared m) w = (Ok a, w') →
  ∃ db, rtc statement (sh_db (dw_stores w)) db ∧ m db = (Ok a, sh_db (dw_stores w')) ∧ obeys (dw_stores w').
Proof.
  intros Ho. unfold stores, zoom. destruct (shared m (dw_stores w)) as [o t] eqn:Hm. intros [= -> <-]. by apply (shared_ok m _ a).
Qed.

(** A read leaves the database as it found it. *)
Lemma shared_read {A} (f : Db → A) (w : DeviceWorld Shared) a w' :
  obeys (dw_stores w) → stores (shared (gets f)) w = (Ok a, w') →
  rtc statement (sh_db (dw_stores w)) (sh_db (dw_stores w')) ∧ f (sh_db (dw_stores w')) = a ∧ obeys (dw_stores w').
Proof. intros Ho H. apply (stores_shared_ok _ _ _ _ Ho) in H as (db&?&[= <- <-]&?). done. Qed.

(** Whatever becomes of a call of statements, the history stays one. *)
Definition shared_run (s s' : Shared) : Prop := obeys s → rtc statement (sh_db s) (sh_db s') ∧ obeys s'.

#[export] Instance shared_run_preorder : PreOrder shared_run.
Proof.
  split; unfold shared_run; [intros s Hs; split; [apply rtc_refl|done]|].
  intros x y z Hxy Hyz Hx. destruct (Hxy Hx) as [? Hy], (Hyz Hy) as [? ?]. split; [by etrans|done].
Qed.

Lemma shared_respects {A} (m : M Db A) : respects (rtc statement) m → respects shared_run (shared m).
Proof.
  intros Hm s. unfold shared_run, obeys, shared. destruct (sh_turns s) as [|turn turns].
  - intros _. specialize (Hm (sh_db s)). destruct (m (sh_db s)). by split.
  - intros [Ho Hos]%Forall_cons. specialize (Ho (sh_db s)). specialize (Hm (tn_others turn (sh_db s))).
    destruct (tn_fate turn); simpl; [|by split|split; [by etrans|done]].
    destruct (m (tn_others turn (sh_db s))). split; [by etrans|done].
Qed.

(** ** Rows over a run *)
Lemma run_keeps_devices db db' r :
  well_formed db → rtc statement db db' → r ∈ devices db → ∃ r', r' ∈ devices db' ∧ device_grows r r'.
Proof. intros (_&Hs&_) (_&Hd&_)%run_step Hr. by apply (Hd Hs). Qed.

Lemma run_keeps_challenges db db' r :
  well_formed db → rtc statement db db' → r ∈ device_challenges db →
  ∃ r', r' ∈ device_challenges db' ∧ challenge_grows r r'.
Proof. intros (_&_&_&Hs&_) (_&_&_&Hd&_)%run_step Hr. by apply (Hd Hs). Qed.

Lemma run_keeps_accounts db db' r :
  well_formed db → rtc statement db db' → r ∈ app_users db → ∃ r', r' ∈ app_users db' ∧ account_grows r r'.
Proof. intros (Hs&_) (Hd&_)%run_step Hr. by apply (Hd Hs). Qed.

Lemma run_keeps_sessions db db' r :
  well_formed db → rtc statement db db' → r ∈ app_sessions db → ∃ r', r' ∈ app_sessions db' ∧ session_evolves r r'.
Proof. intros (_&_&Hs&_) (_&_&Hd&_)%run_step Hr. by apply (Hd Hs). Qed.

Lemma run_well_formed db db' : well_formed db → rtc statement db db' → well_formed db'.
Proof. intros Hwf Hrun. eapply db_step_well_formed; [by apply run_step|done]. Qed.

Lemma account_unique db r r' : well_formed db → r ∈ app_users db → r' ∈ app_users db → acc_id r = acc_id r' → r = r'.
Proof. intros (Hs&_) Hr Hr' He. apply (sound_unique _ _ _ Hs Hr Hr'); simpl; intuition congruence. Qed.
Lemma device_unique db r r' : well_formed db → r ∈ devices db → r' ∈ devices db → dev_id r = dev_id r' → r = r'.
Proof. intros (_&Hs&_) Hr Hr' He. apply (sound_unique _ _ _ Hs Hr Hr'); simpl; intuition congruence. Qed.
Lemma challenge_unique db r r' :
  well_formed db → r ∈ device_challenges db → r' ∈ device_challenges db → chl_id r = chl_id r' → r = r'.
Proof. intros (_&_&_&Hs&_) Hr Hr' He. apply (sound_unique _ _ _ Hs Hr Hr'); simpl; intuition congruence. Qed.

(** ** Sessions *)

(** The session is stored, unrevoked, for a live account and an active device
    of its epoch, as they are in the same database. *)
Definition opened_for (db : Db) (account : AccountRecord) (device : DeviceRecord) (x : SessionRecord) : Prop :=
  account ∈ app_users db ∧ acc_deleted_at account = None ∧ device ∈ devices db ∧
  dev_user_id device = acc_id account ∧ dev_status device = "active" ∧ dev_epoch device = acc_device_epoch account ∧
  x ∈ app_sessions db ∧ ses_user_id x = acc_id account ∧ ses_device_id x = dev_id device ∧
  ses_epoch x = acc_device_epoch account ∧ ses_revoked_at x = None.

(** The digests stored are those of the secrets returned. *)
Definition secrets_match (c : CreatedSession) : Prop :=
  hash_secret (ss_token (cs_secrets c)) = Ok (ses_token_hash (cs_record c)) ∧
  hash_secret (ss_csrf_secret (cs_secrets c)) = Ok (ses_csrf_hash (cs_record c)).

(** Creating a session checks the account and the device in its own
    statement, whatever was read of them before. *)
Lemma created_session_opens now id e a d ep issued db (c : CreatedSession) db' :
  create_session (R := Db) now id e a d ep issued None db = (Ok c, db') →
  statement db db' ∧ secrets_match c ∧
  ∃ account device, opened_for db' account device (cs_record c) ∧ acc_id account = a ∧ dev_id device = d ∧
    acc_device_epoch account = ep.
Proof.
  intros H. pose proof (create_session_spec _ _ _ _ _ _ _ _ _ _ _ H) as (Hin&_&Hu&Hd&He&Hr&Ht&Hc&_).
  apply bind_ok_inv in H as ([[secrets idle] absolute]&db1&Hp&H). unfold lift in Hp. injection Hp as _ <-.
  apply bind_ok_inv in H as (r&db2&Hcr&[= <- <-]). simpl in *.
  split_and!; [|by split|].
  { pose proof (st_session db (now 0%nat) (OpCreate id a d (ss_token_hash secrets) (ss_csrf_hash secrets) ep idle absolute)) as Hst.
    simpl in Hst. by rewrite Hcr in Hst. }
  apply create_result in Hcr as (_&_&_&_&Hacc&Hdev).
  unfold Sessions.Pg.account_current in Hacc. unfold Sessions.Pg.device_current in Hdev.
  apply existsb_elem in Hacc as (account&Hain&Hacc). apply existsb_elem in Hdev as (device&Hdin&Hdev).
  unfold account_live in Hacc. to_prop. exists account, device. unfold opened_for.
  split_and!; try done; try congruence. by apply is_null_true.
Qed.

(** ** The service on the shared database *)
Section service.
Context `{Cryptography} `{UnicodeDatabase} (auth_user : UUID → bool) (rate_limit_secret : bytes).
#[local] Instance sh_accounts : AccountStore Shared := shared_accounts auth_user.
#[local] Instance sh_limiter : LimiterStore Shared := shared_limiter rate_limit_secret.
#[local] Existing Instances shared_devices shared_challenges shared_linking_otps shared_events shared_sessions.
Implicit Types (w : DeviceWorld Shared).

Abbreviation database w := (sh_db (dw_stores w)).

Lemma shared_session now id e a d ep issued w c w' :
  obeys (dw_stores w) → stores (create_session (R := Shared) now id e a d ep issued None) w = (Ok c, w') →
  ∃ db, rtc statement (database w) db ∧ obeys (dw_stores w') ∧
    create_session (R := Db) now id e a d ep issued None db = (Ok c, database w').
Proof.
  intros Ho. unfold stores, zoom. destruct (create_session _ _ _ _ _ _ _ _ _) as [o t] eqn:Hc. intros [= -> <-].
  unfold create_session in Hc. apply bind_ok_inv in Hc as (p&s1&Hp&Hc). unfold lift in Hp. injection Hp as Hp <-.
  destruct p as [[secrets idle] absolute]. apply bind_ok_inv in Hc as (r&s2&Hr&[= <- <-]).
  apply shared_ok in Hr as (db&Hrun&Hr&Ho'); [|done]. exists db. split_and!; [done..|]. simpl.
  unfold create_session, bind at 1, lift. rewrite Hp. unfold bind. simpl in Hr. simpl. by rewrite Hr.
Qed.

Lemma shared_login_run current db_now d a i nonce signature origin w r w' :
  obeys (dw_stores w) →
  complete_login_challenge (S := Shared) current db_now d a i nonce signature origin w = (Ok r, w') →
  ∃ challenge account device db1 db2 db3 opened x spent ready,
    rtc statement (database w) db1 ∧ Challenges.Pg.get_by_id a i db1 = (Ok (Some challenge), db1) ∧
    rtc statement db1 db2 ∧ Accounts.Pg.get_by_id a db2 = (Ok (Some account), db2) ∧
    rtc statement db2 db3 ∧ Devices.Pg.get_by_id a (chl_device_id challenge) db3 = (Ok (Some device), db3) ∧
    chl_origin challenge = origin ∧
    login_refused current nonce (Some account) (Some device) challenge = Ok false ∧
    proved (dev_signing_public_key_spki device) signature (challenge_payload challenge account device nonce) ∧
    rtc statement db3 opened ∧ Challenges.Pg.consume (db_now 0%nat) a i opened = (Ok (Some x), spent) ∧
    rtc statement spent ready ∧
    create_session (R := Db) (λ n, db_now (2 + n)%nat) (dr_session_id d) (dr_secrets d) a (dev_id device)
      (acc_device_epoch account) current None ready = (Ok (dr_session r), database w') ∧
    dr_account r = account.
Proof.
  intros Ho H1. unfold complete_login_challenge in H1. apply bind_ok_inv in H1 as ([challenge|]&w1&Hc&H1); [|done].
  cbn [challenge_by_id shared_challenges pg_challenges] in Hc. apply stores_shared_ok in Hc as (db1&Hr1&Hc&Ho1); [|done].
  destruct (bool_decide (chl_origin challenge ≠ origin)) eqn:Horig; [done|].
  apply bind_ok_inv in H1 as (acc&w2&Ha&H1).
  cbn [account_by_id sh_accounts shared_accounts pg_accounts] in Ha. apply stores_shared_ok in Ha as (db2&Hr2&Ha&Ho2); [|done].
  apply bind_ok_inv in H1 as (dev&w3&Hd&H1).
  cbn [device_by_id shared_devices pg_devices] in Hd. apply stores_shared_ok in Hd as (db3&Hr3&Hd&Ho3); [|done].
  apply bind_ok_inv in H1 as (refused&w4&Href&H1). apply lift_ok in Href as [Href ->].
  destruct acc as [account|]; [|by destruct dev; apply bind_ok_inv in H1 as (?&?&_&?)].
  destruct dev as [device|]; [|by apply bind_ok_inv in H1 as (?&?&_&?)].
  destruct refused; [by apply bind_ok_inv in H1 as (?&?&_&?)|].
  apply bind_ok_inv in H1 as (valid&w5&Hv&H1). apply lift_ok in Hv as [Hv ->].
  destruct valid; cbn [negb] in H1; [|by apply bind_ok_inv in H1 as (?&?&_&?)].
  apply proof_holds_spec in Hv. apply bind_ok_inv in H1 as ([x|]&w6&Hcons&H1); [|done].
  cbn [consume_challenge shared_challenges pg_challenges] in Hcons.
  apply stores_shared_ok in Hcons as (opened&Hr4&Hcons&Ho4); [|done].
  apply bind_ok_inv in H1 as (touched&w7&Ht&H1). cbn [touch_device shared_devices pg_devices] in Ht.
  apply stores_shared_ok in Ht as (db5&Hr5&Ht&Ho5); [|done].
  apply bind_ok_inv in H1 as (session&w8&Hs&[= <- <-]). apply shared_session in Hs as (ready&Hr6&_&Hs); [|done].
  pose proof Hc as [= _ Hw1]. pose proof Ha as [= _ Hw2]. pose proof Hd as [= _ Hw3]. to_prop.
  assert (rtc statement (database w6) ready) as Hlast.
  { etrans; [exact Hr5|]. eapply rtc_l; [|exact Hr6].
    pose proof (st_device_touch db5 (db_now 1%nat) a (dev_id device)) as Hst. by rewrite Ht in Hst. }
  rewrite Hw1, Hw2, Hw3 in *.
  exists challenge, account, device, (database w1), (database w2), (database w3), opened, x, (database w6), ready.
  split_and!; try done. by apply dec_stable.
Qed.

(** C23: a login holds up between the calls of others.  Let any repository
    statements run before each of its calls, and let any of them fail.  If it
    answers, then on some database of that history the challenge was stored,
    unconsumed, ahead of its deadline, for that origin and nonce; this login
    consumed it there, and no database from then on has it open; and on the
    database the answer leaves, the account is live, the device active in the
    account's epoch and the challenge's own, the signature verifies under the
    key stored for it over the message these rows determine, and the session is
    stored for exactly them, under the secrets returned.  What was revoked,
    consumed or changed meanwhile ends in an exception. *)
Theorem login_under_interleaving current db_now d a i nonce signature origin w r w' :
  well_formed (database w) → obeys (dw_stores w) →
  complete_login_challenge (S := Shared) current db_now d a i nonce signature origin w = (Ok r, w') →
  ∃ opened spent challenge x account device,
    rtc statement (database w) opened ∧ rtc statement spent (database w') ∧
    Challenges.Pg.consume (db_now 0%nat) a i opened = (Ok (Some x), spent) ∧
    challenge ∈ device_challenges opened ∧ chl_id challenge = i ∧ chl_origin challenge = origin ∧
    chl_consumed_at challenge = None ∧ (current < chl_expires_at challenge)%Z ∧
    (db_now 0%nat < chl_expires_at challenge)%Z ∧ chl_nonce_hash challenge = sha256 nonce ∧
    (∀ later now y, rtc statement spent later → y ∈ device_challenges later → chl_id y = i →
       Challenges.chl_open now y = false) ∧
    opened_for (database w') account device (cs_record (dr_session r)) ∧ acc_id account = a ∧
    dev_id device = chl_device_id challenge ∧
    proved (dev_signing_public_key_spki device) signature (challenge_payload challenge account device nonce) ∧
    secrets_match (dr_session r).
Proof.
  intros Hwf Ho Hrun. apply shared_login_run in Hrun
    as (read&acc&dev&db1&db2&db3&opened&x&spent&ready&Hr1&Hc&Hr2&Ha&Hr3&Hd&Horig&Href&Hp&Hr4&Hcons&Hr5&Hs&_); [|done].
  apply challenge_found in Hc as [Hcin Hci]. apply account_found in Ha as (Hain&Hai&_).
  apply device_found in Hd as (Hdin&_&Hdi). apply login_accepted in Href as (_&_&Hcur&_&_&Hh).
  apply created_session_opens in Hs as (Hst&Hsec&account&device&Hopen&Haid&Hdid&Hep).
  pose proof (update_open_spec _ _ _ _ _ _ _ (transaction_ok _ _ _ _ Hcons)) as (old&Hoin&Hoi&Hop&_&->&Hxin).
  pose proof (st_challenge_consume opened (db_now 0%nat) a i) as Hst4. rewrite Hcons in Hst4. simpl in Hst4.
  assert (well_formed db1) as Hwf1 by by eapply run_well_formed.
  assert (well_formed db2) as Hwf2 by by eapply run_well_formed.
  assert (well_formed db3) as Hwf3 by by eapply run_well_formed.
  assert (rtc statement db1 opened) as Hr14 by (etrans; [exact Hr2|]; by etrans).
  assert (well_formed opened) as Hwfo by by eapply run_well_formed.
  assert (well_formed spent) as Hwfs by (eapply run_well_formed; [exact Hwfo|by apply rtc_once]).
  assert (rtc statement spent (database w')) as Hrs by (etrans; [exact Hr5|by apply rtc_once]).
  assert (well_formed (database w')) as Hwf' by by eapply run_well_formed.
  (* The challenge consumed is the one read, and so are account and device. *)
  destruct (run_keeps_challenges _ _ _ Hwf1 Hr14 Hcin) as (old'&Hold&Hg). cbn beta in Hoi. to_prop.
  destruct Hg as (Hgi&Hgd&Hgn&Hgo&Hgc&Hge&_).
  assert (old' = old) as -> by (apply (challenge_unique opened); [done..|congruence]).
  destruct Hopen as (Hoa&Hodel&Hod&Hodu&Hact&Hode&Hosess).
  destruct (run_keeps_devices db3 (database w') dev Hwf3) as (dev'&Hdev'&Hgdev); [|done|].
  { etrans; [exact Hr4|]. by eapply rtc_l. }
  destruct Hgdev as (Hgdi&_&_&Hgk&_).
  assert (dev' = device) as -> by (apply (device_unique (database w')); [done..|congruence]).
  unfold Challenges.chl_open in Hop. to_prop.
  exists opened, spent, old, (Challenges.chl_consumed old (db_now 0%nat)), account, device.
  split_and!; try done; try congruence.
  - etrans; [exact Hr1|exact Hr14].
  - by apply is_null_true.
  - intros later now y Hl Hy Hyi. eapply consumed_for_good; [exact Hwfs|exact Hl|exact Hxin|done|exact Hy|]. left. simpl. congruence.
  - rewrite Hgk. unfold challenge_payload in *. rewrite Hgd, Hgi, Hge, Hgc, Hgo, Hgdi, Hep, Haid, <- Hai. done.
Qed.

(** *** Registration *)
Lemma shared_register_claimed now db_now account claimed s dev fallback event s' :
  obeys s → register_claimed (S := Shared) now db_now account claimed s = (Ok (dev, fallback, event), s') →
  dev_user_id dev = acc_id account ∧ dev_fingerprint dev = rc_fingerprint (rs_challenge claimed) ∧
  ∃ db, rtc statement (sh_db s) db ∧ dev ∈ devices db ∧ rtc statement db (sh_db s') ∧ obeys s'.
Proof.
  intros Ho. unfold register_claimed. destruct (rc_linking_otp_id _) as [otp|].
  - intros Hr. apply bind_ok_inv in Hr as ([dev'|]&s1&Hc&Hr); [|done]. injection Hr as -> _ _ <-.
    cbn [LinkingOtps.consume_and_register shared_linking_otps pg_linking_otps] in Hc.
    apply shared_ok in Hc as (db&Hrun&Hc&Ho'); [|done].
    pose proof (redeem_spec _ _ _ _ _ _ _ _ _ _ _ _ Hc) as (_&_&_&_&->&Hin&_). split_and!; try done.
    exists (sh_db s1). split_and!; try done. etrans; [exact Hrun|]. apply rtc_once.
    match type of Hc with LinkingOtps.Pg.consume_and_register ?now ?i ?a ?d ?e ?n ?l ?k ?fp ?db = _ =>
      pose proof (st_otp_redeem db now i a d e n l k fp) as Hst end. by rewrite Hc in Hst.
  - intros Hr. apply bind_ok_inv in Hr as (dev'&s1&Hc&Hr).
    cbn [Devices.register_for_email shared_devices pg_devices] in Hc.
    apply shared_ok in Hc as (db&Hrun&Hc&Ho'); [|done]. pose proof Hc as (Hin&Hu&Hfp&_&_)%registered_spec.
    assert (rtc statement (sh_db s) (sh_db s1)) as Hrun1.
    { etrans; [exact Hrun|]. apply rtc_once.
      match type of Hc with Devices.Pg.register_for_email ?now ?a ?e ?l ?k ?fp ?d ?db = _ =>
        pose proof (st_device_register db now a e l k fp d) as Hst end. by rewrite Hc in Hst. }
    destruct (rc_fallback _).
    + apply bind_ok_inv in Hr as (x&s2&Hm&[= -> _ _ <-]). split_and!; try done. exists (sh_db s1).
      assert (shared_run s1 s2) as Hmark.
      { change (shared (Accounts.Pg.mark_email_fallback (acc_id account) now) s1 = (Ok x, s2)) in Hm.
        pose proof (shared_respects (Accounts.Pg.mark_email_fallback (acc_id account) now)
          (λ db, rtc_once _ _ (st_account_fallback db _ _)) s1) as Hmark. by rewrite Hm in Hmark. }
      destruct (Hmark Ho') as [? ?]. by split_and!.
    + injection Hr as -> _ _ <-. split_and!; try done. exists (sh_db s1). split_and!; [done..|apply rtc_refl|done].
Qed.

Lemma shared_audit cfg db_now id ty out now user dev network details :
  respects shared_run (_audit_device_event (S := Shared) cfg db_now id ty out now user dev network details).
Proof.
  unfold _audit_device_event. destruct (negb _); [apply respects_ret; apply _|].
  apply respects_bind; [apply _|apply respects_gets; apply _|]. intros secret.
  apply respects_try; [apply _| |intros; apply respects_ret; apply _].
  apply respects_bind; [apply _| |intros; apply respects_ret; apply _].
  apply shared_respects. intros db. apply rtc_once, st_event.
Qed.

(** The stages of a registration that answers. *)
Lemma shared_registration_run cfg now db_now d i signature origin w r w' :
  obeys (dw_stores w) →
  complete_registration (S := Shared) cfg now db_now d i signature origin w = (Ok r, w') →
  ∃ state account registered ready created,
    dict_get i (rcs_states (dw_registrations w)) = Some state ∧ (now < rc_expires_at (rs_challenge state))%Z ∧
    rc_origin (rs_challenge state) = origin ∧ (rs_attempts state < 10)%Z ∧
    proved (rs_public_key_spki state) signature (rc_payload (rs_challenge state)) ∧
    acc_id account = rc_account_id (rs_challenge state) ∧ acc_device_epoch account = rc_epoch (rs_challenge state) ∧
    rtc statement (database w) registered ∧ dr_device r ∈ devices registered ∧ dev_user_id (dr_device r) = acc_id account ∧
    dev_fingerprint (dr_device r) = rc_fingerprint (rs_challenge state) ∧
    rtc statement registered ready ∧
    create_session (R := Db) (λ n, db_now (1 + n)%nat) (dr_session_id d) (dr_secrets d) (acc_id account)
      (dev_id (dr_device r)) (acc_device_epoch account) now None ready = (Ok (dr_session r), created) ∧
    rtc statement created (database w').
Proof.
  intros Ho. unfold complete_registration. intros Hr. apply bind_ok_inv in Hr as ([state|]&w1&Hg&Hr); [|done].
  unfold registrations at 1, zoom in Hg. destruct (Registration.get _ _ _) as [o s] eqn:Hget. injection Hg as -> <-.
  apply get_spec in Hget as (->&Hst&Hexp).
  destruct (_ || _) eqn:Hbad; [done|]. to_prop.
  apply bind_ok_inv in Hr as (valid&w2&Hv&Hr). apply lift_ok in Hv as [Hv ->].
  destruct valid; cbn [negb] in Hr.
  2: { apply bind_ok_inv in Hr as (?&?&_&Hr). by apply bind_ok_inv in Hr as (?&?&_&?). }
  apply proof_holds_spec in Hv. apply bind_ok_inv in Hr as ([claimed|]&w3&Hc&Hr); [|done].
  unfold registrations at 1, zoom in Hc. cbn [dw_registrations] in Hc.
  destruct (Registration.consume _ _ _) as [o s] eqn:Hcons. injection Hc as -> <-. apply consume_spec in Hcons as [Hcl _].
  assert (claimed = state) as -> by congruence.
  apply bind_ok_inv in Hr as ([account|]&w4&Ha&Hr); [|done].
  cbn [account_by_id sh_accounts shared_accounts pg_accounts] in Ha. apply stores_shared_ok in Ha as (db1&Hr1&Ha&Ho1); [|done].
  pose proof Ha as [= _ Hw4]. rewrite <- Hw4 in Ha. apply account_found in Ha as (_&Hai&_).
  destruct (bool_decide _) eqn:Hep; [done|]. to_prop.
  apply bind_ok_inv in Hr as ([[dev fallback] event]&w5&Hreg&Hr).
  unfold stores at 1, zoom in Hreg. destruct (register_claimed _ _ _ _ _) as [o t] eqn:Hclaim. injection Hreg as -> <-.
  apply shared_register_claimed in Hclaim as (Hu&Hfp&registered&Hr2&Hin&Hr3&Ho2); [|done].
  apply bind_ok_inv in Hr as (session&w6&Hses&Hr). apply shared_session in Hses as (ready&Hr4&Ho3&Hses); [|done].
  apply bind_ok_inv in Hr as (y&w7&Haud&[= <- <-]).
  assert (shared_run (dw_stores w6) (dw_stores w7)) as Hlast.
  { match type of Haud with stores ?m ?w6 = _ =>
      assert (respects shared_run m) as Hm by apply shared_audit; specialize (Hm (dw_stores w6));
      unfold stores, zoom in Haud; destruct (m (dw_stores w6)) as [o t'] end. by injection Haud as _ <-. }
  destruct (Hlast Ho3) as [Hr5 _]. simpl in *.
  exists state, account, registered, ready, (database w6). split_and!; try done; try by apply dec_stable.
  - etrans; [exact Hr1|]. rewrite Hw4. exact Hr2.
  - by etrans.
Qed.

(** So does a registration.  Under the same schedules, an answered
    registration held its challenge, unexpired, for that origin, with attempts
    left, and its signature verifies under the key held with it; and on
    some database of the history, at or after the registration, the session was
    stored for the challenge's account, live and still in the challenge's
    epoch, and for an active device with the fingerprint of the challenge. *)
Theorem registration_under_interleaving cfg now db_now d i signature origin w r w' :
  well_formed (database w) → obeys (dw_stores w) →
  complete_registration (S := Shared) cfg now db_now d i signature origin w = (Ok r, w') →
  ∃ state created account device,
    dict_get i (rcs_states (dw_registrations w)) = Some state ∧
    let challenge := rs_challenge state in
    (now < rc_expires_at challenge)%Z ∧ rc_origin challenge = origin ∧ (rs_attempts state < 10)%Z ∧
    proved (rs_public_key_spki state) signature (rc_payload challenge) ∧
    rtc statement (database w) created ∧ rtc statement created (database w') ∧
    opened_for created account device (cs_record (dr_session r)) ∧
    acc_id account = rc_account_id challenge ∧ acc_device_epoch account = rc_epoch challenge ∧
    dev_id device = dev_id (dr_device r) ∧ dev_fingerprint device = rc_fingerprint challenge ∧
    secrets_match (dr_session r).
Proof.
  intros Hwf Ho Hrun. apply shared_registration_run in Hrun
    as (state&acc&registered&ready&created&Hst&Hexp&Horig&Hatt&Hp&Hai&Hae&Hr1&Hin&Hu&Hfp&Hr2&Hs&Hr3); [|done].
  apply created_session_opens in Hs as (Hstep&Hsec&account&device&Hopen&Haid&Hdid&Hep).
  assert (well_formed registered) as Hwf1 by by eapply run_well_formed.
  assert (rtc statement registered created) as Hrc by (etrans; [exact Hr2|by apply rtc_once]).
  assert (well_formed created) as Hwf2 by by eapply run_well_formed.
  destruct (run_keeps_devices _ _ _ Hwf1 Hrc Hin) as (dev'&Hdev'&Hgi&_&_&_&Hgf&_).
  pose proof Hopen as (_&_&Hod&_).
  assert (dev' = device) as -> by (apply (device_unique created); [done..|congruence]).
  exists state, created, account, device. cbv zeta. split_and!; try done; try congruence. by etrans.
Qed.
End service.

(** ** Witnesses *)
#[local] Existing Instance toy_cryptography.
#[local] Existing Instance ascii_unicode.
#[local] Existing Instances shared_devices shared_challenges shared_linking_otps shared_events shared_sessions.

Definition idle : Turn := {| tn_others := λ db, db; tn_fate := Answered |}.
Definition meanwhile (others : Db → Db) : Turn := {| tn_others := others; tn_fate := Answered |}.

(** The phone is renamed, another login begins, the phone is logged out. *)
Definition busy : list Turn :=
  [meanwhile (λ db, (Devices.Pg.rename 1 11 (u "mobile") db).2); idle;
   meanwhile (λ db, (Challenges.Pg.create (minutes 1) 205 1 11 (repeat x08 32) site (minutes 6) db).2);
   meanwhile (λ db, (Devices.Pg.logout_with_sessions (minutes 1) 1 11 "device_revoked" db).2)].

Definition shared_world (turns : list Turn) : DeviceWorld Shared :=
  Build_DeviceWorld (Build_Shared home turns) (dw_bootstrap world0) tablet_store.

Lemma busy_obeys : obeys (dw_stores (shared_world busy)).
Proof.
  repeat apply Forall_cons_2; try apply Forall_nil_2; intros db; simpl;
    [apply rtc_once, st_device_rename|apply rtc_refl|apply rtc_once, st_challenge_create|apply rtc_once, st_device_logout].
Qed.

Definition login_on (turns : list Turn) : outcome DeviceAuthResult * DeviceWorld Shared :=
  complete_login_challenge (S := Shared) (H := shared_accounts (λ _, true)) (minutes 1) at_minute draws 1 200 nonce7
    login_signature site (shared_world turns).

Lemma login_under_interleaving_witness :
  ∃ r w', login_on busy = (Ok r, w') ∧ ses_user_id (cs_record (dr_session r)) = 1%N.
Proof.
  unfold login_on.
  destruct (complete_login_challenge (S := Shared) (minutes 1) at_minute draws 1 200 nonce7 login_signature site
    (shared_world busy)) as [[r|e] w'] eqn:Hr; [|exfalso; revert Hr; vm_compute; discriminate].
  destruct (login_under_interleaving (λ _, true) _ _ _ _ _ _ _ _ (shared_world busy) _ _ home_well_formed busy_obeys Hr)
    as (_&_&_&_&account&device&_&_&_&_&_&_&_&_&_&_&_&(_&_&_&_&_&_&_&Hu&_)&Ha&_).
  exists r, w'. split; [reflexivity|]. rewrite Hu. exact Ha.
Defined.

Definition all_events : DeviceAuthConfig :=
  {| dc_bootstrap_consumer := true; dc_bootstrap_peeker := true; dc_rate_limiter := false; dc_security_event_store := true |}.

Lemma registration_under_interleaving_witness :
  ∃ r w', complete_registration (S := Shared) (H := shared_accounts (λ _, true)) (H5 := shared_limiter []) all_events (minutes 2) at_minute draws 201
      tablet_signature site (shared_world busy) = (Ok r, w') ∧
    ses_user_id (cs_record (dr_session r)) = 1%N.
Proof.
  destruct (complete_registration (S := Shared) (H := shared_accounts (λ _, true)) (H5 := shared_limiter []) all_events (minutes 2) at_minute
    draws 201 tablet_signature site (shared_world busy)) as [[r|e] w'] eqn:Hr; [|exfalso; revert Hr; vm_compute; discriminate].
  destruct (registration_under_interleaving (λ _, true) [] _ _ _ _ _ _ _ (shared_world busy) _ _ home_well_formed busy_obeys Hr)
    as (state&_&account&_&Hs&_&_&_&_&_&_&(_&_&_&_&_&_&_&Hu&_)&Ha&_).
  exists r, w'. split; [reflexivity|]. rewrite Hu, Ha. vm_compute in Hs. injection Hs as <-. reflexivity.
Defined.

(** *** Races a login loses *)

(** Another login answered the same challenge first. *)
Example challenge_taken :
  (login_on [idle; idle; idle; meanwhile (λ db, (Challenges.Pg.consume (minutes 1) 1 200 db).2)]).1 = Raise DeviceAuthFailure.
Proof. vm_compute. reflexivity. Qed.

(** The device is revoked between its proof and its session: the challenge is
    spent and no session is stored. *)
Example revoked_meanwhile :
  let run := login_on [idle; idle; idle; idle; idle;
    meanwhile (λ db, (Devices.Pg.revoke_with_sessions (minutes 1) 1 10 "device_revoked" db).2)] in
  run.1 = Raise RuntimeError ∧ map ses_id (app_sessions (sh_db (dw_stores run.2))) = [100]%N.
Proof. vm_compute. split; reflexivity. Qed.

(** The answer to the last statement is lost: the session is stored, and its
    token was told to nobody. *)
Example answer_lost :
  let run := login_on [idle; idle; idle; idle; idle; {| tn_others := λ db, db; tn_fate := AnswerLost BackendUnavailableError |}] in
  run.1 = Raise BackendUnavailableError ∧ map ses_id (app_sessions (sh_db (dw_stores run.2))) = [100; 101]%N.
Proof. vm_compute. split; reflexivity. Qed.
