(* ===== verification/AuthTheorems.v ===== *)
(** * AuthTheorems: from an email code to a bootstrap token

    Which account [verify_otp] vouches for, and the life of the bootstrap
    token it hands out. *)
From Stdlib.Strings Require Import Byte.
From S2P Require Import Prelude PyDict Json Models Sql Tables Schema Hashing Security Sessions RateLimits.
From S2P Require Import Signaling Integrity History Accounts Auth Main Fixtures.
From stdpp Require Import list strings.

(** ** The bootstrap store *)
Inductive BootstrapOp :=
| BootIssue (id : UUID) (raw : bytes) (account : AccountRecord) (issued_at : timestamp)
| BootConsume (now : timestamp) (token : pystr)
| BootPeek (now : timestamp) (token : pystr).

Definition boot (op : BootstrapOp) (s : BootstrapStateStore) : BootstrapStateStore :=
  match op with
  | BootIssue id raw account at_ => (Bootstrap.issue id raw account at_ s).2
  | BootConsume now token => (Bootstrap.consume now token s).2
  | BootPeek now token => (Bootstrap.peek now token s).2
  end.

Definition boots (ops : list BootstrapOp) (s : BootstrapStateStore) : BootstrapStateStore :=
  fold_left (λ s op, boot op s) ops s.

(** The operation issues, or consumes, a token of this digest. *)
Definition issues (h : bytes) (op : BootstrapOp) : bool :=
  match op with BootIssue _ raw _ _ => bool_decide (hash_secret (encode_base64url raw) = Ok h) | _ => false end.
Definition consumes (h : bytes) (op : BootstrapOp) : bool :=
  match op with BootConsume _ token => bool_decide (hash_secret token = Ok h) | _ => false end.

(** What is held under a digest stays while no operation issues or consumes
    it; once nothing is held, only an issue changes that. *)
Lemma boot_frame h op s :
  dict_ok (bss_states s) → issues h op = false → consumes h op = false →
  dict_ok (bss_states (boot op s)) ∧ dict_get h (bss_states (boot op s)) = dict_get h (bss_states s) ∧
  bss_lifetime (boot op s) = bss_lifetime s.
Proof.
  intros Hok Hi Hc. destruct op as [id raw account at_|now token|now token]; simpl in *.
  - unfold Bootstrap.issue, bind, lift, gets, modify, ret, new_opaque_token. simpl.
    destruct (hash_secret (encode_base64url raw)) as [k|] eqn:Hk; simpl; [|done]. to_prop.
    split_and!; [by apply dict_ok_set| |done]. apply dict_get_set_ne. congruence.
  - unfold Bootstrap.consume, bind, lift, gets, modify, ret. simpl.
    destruct (hash_secret token) as [k|]; simpl; [|done]. to_prop.
    split_and!; [by apply dict_ok_del| |done]. apply dict_get_del_ne. congruence.
  - unfold Bootstrap.peek, bind, lift, gets, ret. simpl. by destruct (hash_secret token).
Qed.

Lemma boot_gone h op s :
  dict_ok (bss_states s) → issues h op = false → dict_get h (bss_states s) = None →
  dict_ok (bss_states (boot op s)) ∧ dict_get h (bss_states (boot op s)) = None.
Proof.
  intros Hok Hi Hnone. destruct (consumes h op) eqn:Hc.
  - destruct op as [|now token|]; try discriminate Hc. simpl in *. to_prop.
    unfold Bootstrap.consume, bind, lift, gets, modify, ret. rewrite Hc. simpl.
    split; [by apply dict_ok_del|by apply dict_get_del_eq].
  - destruct (boot_frame h op s Hok Hi Hc) as (?&->&_). done.
Qed.

(** C29: a bootstrap token is good once.  A token [issue] returned is found,
    with the account and epoch it was issued for, by a peek or a consumption
    before its deadline, whatever operations on other tokens (and peeks of any)
    ran in between; after its deadline by neither; and after one consumption,
    expired or not, by nothing ever again, whatever runs, unless the same
    token is drawn a second time. *)
Theorem bootstrap_token_once id raw account issued_at s credentials s1 :
  dict_ok (bss_states s) → Bootstrap.issue id raw account issued_at s = (Ok credentials, s1) →
  bc_account_id credentials = acc_id account ∧ bc_device_epoch credentials = acc_device_epoch account ∧
  bc_expires_at credentials = (issued_at + bss_lifetime s)%Z ∧
  ∃ h, hash_secret (bc_token credentials) = Ok h ∧
  ∀ ops, forallb (λ op, negb (issues h op || consumes h op)) ops = true → ∀ now,
    let s2 := boots ops s1 in
    let found := if (bc_expires_at credentials <=? now)%Z then None else Some credentials in
    (Bootstrap.peek now (bc_token credentials) s2).1 = Ok found ∧
    (Bootstrap.consume now (bc_token credentials) s2).1 = Ok found ∧
    ∀ ops', forallb (λ op, negb (issues h op)) ops' = true → ∀ now',
      let s3 := boots ops' (Bootstrap.consume now (bc_token credentials) s2).2 in
      (Bootstrap.peek now' (bc_token credentials) s3).1 = Ok None ∧
      (Bootstrap.consume now' (bc_token credentials) s3).1 = Ok None.
Proof.
  intros Hok Hi. unfold Bootstrap.issue, bind, lift, gets, modify, ret, new_opaque_token in Hi. simpl in Hi.
  destruct (hash_secret (encode_base64url raw)) as [h|] eqn:Hh; simpl in Hi; [|done]. injection Hi as <- <-.
  cbn [credentials_of bc_account_id bc_device_epoch bc_expires_at bc_token bs_account_id bs_device_epoch bs_expires_at].
  split_and!; try done. exists h. split; [done|]. intros ops Hops now. cbv zeta.
  match goal with |- context [boots ops ?s1] => set (s1' := s1) end.
  match goal with |- context [bs_expires_at ?x] => idtac | _ => idtac end.
  set (state := {| bs_bootstrap_id := id; bs_token_hash := h; bs_account_id := acc_id account;
    bs_email_normalized := acc_email_normalized account; bs_device_epoch := acc_device_epoch account;
    bs_expires_at := (issued_at + bss_lifetime s)%Z |}) in *.
  assert (dict_ok (bss_states (boots ops s1')) ∧ dict_get h (bss_states (boots ops s1')) = Some state) as [Hok2 Hget2].
  { assert (dict_ok (bss_states s1') ∧ dict_get h (bss_states s1') = Some state) as Hstart.
    { split; [by apply dict_ok_set|apply dict_get_set_eq]. }
    revert Hops Hstart. generalize s1'. clear. unfold boots. induction ops as [|op ops IH]; intros s0; simpl; [done|].
    intros [Hop Hops]%andb_true_iff [Hok Hget]. to_prop. apply IH; [done|].
    destruct (boot_frame h op s0) as (?&->&_); done. }
  assert (∀ t s0, dict_get h (bss_states s0) = None →
    (Bootstrap.peek t (encode_base64url raw) s0).1 = Ok None ∧ (Bootstrap.consume t (encode_base64url raw) s0).1 = Ok None)
    as Hnone.
  { intros t s0 Hg. unfold Bootstrap.peek, Bootstrap.consume, bind, lift, gets, modify, ret. rewrite Hh. simpl. by rewrite Hg. }
  unfold Bootstrap.peek at 1, Bootstrap.consume at 1, bind, lift, gets, modify, ret. rewrite Hh. simpl. rewrite Hget2. simpl.
  split_and!; [by destruct (_ <=? _)%Z..|]. intros ops' Hops' now'. apply Hnone.
  assert (dict_ok (bss_states (Bootstrap.consume now (encode_base64url raw) (boots ops s1')).2) ∧
    dict_get h (bss_states (Bootstrap.consume now (encode_base64url raw) (boots ops s1')).2) = None) as Hstart.
  { unfold Bootstrap.consume, bind, lift, gets, modify, ret. rewrite Hh. simpl.
    split; [by apply dict_ok_del|by apply dict_get_del_eq]. }
  revert Hops' Hstart. generalize (Bootstrap.consume now (encode_base64url raw) (boots ops s1')).2. clear. unfold boots.
  induction ops' as [|op ops' IH]; intros s0; simpl; [by intros _ [_ ?]|].
  intros [Hop Hops]%andb_true_iff [Hok Hget]. to_prop. apply IH; [done|]. by apply boot_gone.
Qed.

(** ** [verify_otp] *)
Section verify.
Context `{UnicodeDatabase} `{AuthGateway Db} (auth_user : UUID → bool) (rate_limit_secret : bytes).
#[local] Instance accounts : AccountStore Db := pg_accounts auth_user.
#[local] Instance limiter : LimiterStore Db := persistent_limiter rate_limit_secret.

Lemma on_stores_ok {A} (m : M Db A) w a w' :
  on_stores m w = (Ok a, w') → m (aw_stores w) = (Ok a, aw_stores w') ∧ aw_bootstrap w' = aw_bootstrap w.
Proof. unfold on_stores, zoom. destruct (m (aw_stores w)) as [o t]. by intros [= -> <-]. Qed.

Lemma get_or_create_spec now i identity email at_ db account db' :
  Accounts.Pg.get_or_create auth_user now i identity email at_ db = (Ok account, db') →
  account ∈ app_users db' ∧ acc_supabase_user_id account = identity ∧ acc_email_normalized account = email ∧
  acc_deleted_at account = None.
Proof.
  intros Hg. unfold Accounts.Pg.get_or_create, Accounts.Pg.get_by_supabase_user_id, Accounts.Pg.get_by_email in Hg.
  apply bind_ok_inv in Hg as (a1&db1&Hl&Hg). injection Hl as Hl <-.
  assert (∀ cond a, Accounts.Pg.lookup cond db = Some a → a ∈ app_users db ∧ cond a = true ∧ acc_deleted_at a = None) as Hfound.
  { intros cond a Hf. apply first_row_elem, select_elem in Hf as [Hin Hc]. to_prop. split_and!; try done.
    unfold account_live, is_null in *. by destruct (acc_deleted_at a). }
  destruct a1 as [a1|].
  - apply Hfound in Hl as (Hin&Hc&Hd). unfold lift, same_email in Hg.
    destruct (bool_decide (acc_email_normalized a1 ≠ email)) eqn:He; [done|].
    injection Hg as <- <-. to_prop. split_and!; try done. by apply dec_stable.
  - apply bind_ok_inv in Hg as (a2&db2&Hl2&Hg). injection Hl2 as Hl2 <-. destruct a2 as [a2|].
    + apply Hfound in Hl2 as (Hin&Hc&Hd). unfold lift, same_identity in Hg.
      destruct (bool_decide (acc_supabase_user_id a2 ≠ identity)) eqn:He; [done|].
      injection Hg as <- <-. to_prop. split_and!; try done. by apply dec_stable.
    + apply bind_ok_inv in Hg as (rows&db3&Hi&Hreq). unfold on_app_users, zoom in Hi.
      destruct (insert_returning _ _ _) as [o t] eqn:Hins. injection Hi as -> <-.
      apply insert_returning_app in Hins as [-> ->]. injection Hreq as <- <-. split; [|done].
      simpl. apply elem_of_app. right. by left.
Qed.
Lemma verified_identity_spec normalized otp db id db' :
  verified_identity normalized otp db = (Ok id, db') →
  ∃ identity, gateway_verify_otp normalized (Auth.strip otp) db = (Ok identity, db') ∧
    python_uuid (ai_user_id identity) = Ok id ∧ normalize_email (ai_email identity) = Ok normalized.
Proof.
  unfold verified_identity, try_except. destruct (bind _ _ db) as [[x|e] db1] eqn:Hb; [|by destruct (_ || _)].
  intros [= -> <-]. apply bind_ok_inv in Hb as (identity&db2&Hg&Hb). apply bind_ok_inv in Hb as (id'&db3&Hu&Hb).
  injection Hu as Hu <-. apply bind_ok_inv in Hb as (email&db4&He&Hb). injection He as He <-.
  destruct (bool_decide (email ≠ normalized)) eqn:Hne; [done|]. injection Hb as -> <-. to_prop.
  exists identity. split_and!; [done..|]. destruct (decide (email = normalized)) as [->|]; done.
Qed.

(** C28: a code is exchanged for the account of the address it was sent to.
    When [verify_otp] returns a bootstrap token, the limiter had granted the
    attempt to this address and network; the provider vouched, for the
    normalised address and the code, for an identity whose own address
    normalises to the same; and the token is for the stored, undeleted account
    with that identity and address, in its epoch, for the store's lifetime
    from the verification. *)
Theorem otp_bootstraps_own_account now verified_at db_now i bootstrap_id raw email otp network w c w' :
  verify_otp now verified_at db_now i bootstrap_id raw email otp network w = (Ok c, w') →
  ∃ normalized identity account db1 db2,
    normalize_email email = Ok normalized ∧ 1 ≤ length (Auth.strip otp) ≤ 64 ∧
    RateLimits.Pg.allow_many rate_limit_secret now (otp_buckets normalized network true) (aw_stores w) = (Ok true, db1) ∧
    gateway_verify_otp normalized (Auth.strip otp) db1 = (Ok identity, db2) ∧
    python_uuid (ai_user_id identity) = Ok (acc_supabase_user_id account) ∧
    normalize_email (ai_email identity) = Ok normalized ∧
    account ∈ app_users (aw_stores w') ∧ acc_email_normalized account = normalized ∧ acc_deleted_at account = None ∧
    bc_account_id c = acc_id account ∧ bc_email_normalized c = normalized ∧
    bc_device_epoch c = acc_device_epoch account ∧
    bc_expires_at c = (verified_at + bss_lifetime (aw_bootstrap w))%Z.
Proof.
  unfold verify_otp. intros Hv. apply bind_ok_inv in Hv as (normalized&w1&Hn&Hv). injection Hn as Hn <-.
  destruct (bool_decide (1 ≤ length (Auth.strip otp) ≤ 64)) eqn:Hlen; cbn [negb] in Hv; [|done].
  apply bind_ok_inv in Hv as ([|]&w2&Hl&Hv); [|done]. apply on_stores_ok in Hl as [Hl Hb2]. cbn [negb] in Hv.
  apply bind_ok_inv in Hv as (id&w3&Hid&Hv). apply on_stores_ok in Hid as [Hid Hb3].
  apply verified_identity_spec in Hid as (identity&Hg&Hu&He).
  apply bind_ok_inv in Hv as (account&w4&Ha&Hv). apply on_stores_ok in Ha as [Ha Hb4].
  apply (get_or_create_spec _ _ _ _ verified_at) in Ha as (Hin&Hs&Hem&Hdel).
  unfold on_bootstrap, zoom in Hv. destruct (Bootstrap.issue _ _ _ _ _) as [o b] eqn:Hi. injection Hv as -> <-.
  unfold Bootstrap.issue, bind, lift, gets, modify, ret, new_opaque_token in Hi. simpl in Hi.
  destruct (hash_secret (encode_base64url raw)) as [h|]; simpl in Hi; [|done]. injection Hi as <- _.
  to_prop. exists normalized, identity, account, (aw_stores w2), (aw_stores w3). simpl. rewrite Hb4, Hb3, Hb2, Hs.
  split_and!; try done; lia.
Qed.
End verify.

(** ** Witnesses *)
#[local] Existing Instance ascii_unicode.

(** A provider that knows Ada. *)
#[local] Instance ada_gateway : AuthGateway Db := {|
  gateway_start_otp _ := ret tt;
  gateway_verify_otp _ _ := ret {| ai_user_id := uuid_str 1001; ai_email := u "Ada@Example.test" |} |}.

Definition tokens0 : BootstrapStateStore := {| bss_lifetime := minutes 10; bss_states := [] |}.

Lemma bootstrap_token_once_witness :
  ∃ credentials s1, Bootstrap.issue 7 (repeat x08 32) ada 0 tokens0 = (Ok credentials, s1) ∧
    (Bootstrap.consume (minutes 1) (bc_token credentials) s1).1 = Ok (Some credentials) ∧
    (Bootstrap.consume (minutes 2) (bc_token credentials)
      (Bootstrap.consume (minutes 1) (bc_token credentials) s1).2).1 = Ok None.
Proof.
  destruct (Bootstrap.issue 7 (repeat x08 32) ada 0 tokens0) as [[credentials|e] s1] eqn:Hi;
    [|exfalso; revert Hi; vm_compute; discriminate].
  destruct (bootstrap_token_once 7 (repeat x08 32) ada 0 tokens0 credentials s1 (NoDup_nil_2) Hi)
    as (_&_&Hexp&h&_&Hrun).
  destruct (Hrun [] eq_refl (minutes 1)) as (_&Hc&Hlater). destruct (Hlater [] eq_refl (minutes 2)) as [_ Hagain].
  exists credentials, s1. split; [reflexivity|]. split; [|exact Hagain].
  rewrite Hexp in Hc. exact Hc.
Defined.

Lemma otp_bootstraps_own_account_witness :
  ∃ c w', verify_otp (S := Db) (H0 := pg_accounts (λ _, true)) (H1 := persistent_limiter []) (minutes 1) (minutes 1)
      (minutes 1) 2 7 (repeat x08 32) (u " ADA@example.test") (u "123456") (u "203.0.113.9") (Build_AuthWorld home tokens0)
      = (Ok c, w') ∧ bc_email_normalized c = u "ada@example.test".
Proof.
  destruct (verify_otp (S := Db) (H0 := pg_accounts (λ _, true)) (H1 := persistent_limiter []) (minutes 1) (minutes 1)
      (minutes 1) 2 7 (repeat x08 32) (u " ADA@example.test") (u "123456") (u "203.0.113.9") (Build_AuthWorld home tokens0))
    as [[c|e] w'] eqn:Hv; [|exfalso; revert Hv; vm_compute; discriminate].
  destruct (otp_bootstraps_own_account (λ _, true) [] _ _ _ _ _ _ _ _ _ _ _ _ Hv)
    as (n&i&acc&db1&db2&Hn&_&_&_&_&_&_&_&_&_&He&_).
  exists c, w'. split; [reflexivity|]. rewrite He. vm_compute in Hn. injection Hn as <-. reflexivity.
Defined.
