(* ===== verification/TurnTheorems.v ===== *)
(** * TurnTheorems: who is issued relay credentials

    What holds of the transfer, the device, its peer and the limits when
    [TurnCredentialService.issue] hands out credentials. *)
From S2P Require Import Prelude PyDict Json Models Sql TransferPort TransferMemory TransferTheorems.
From S2P Require Import Signaling Presence Socket PresenceInvariant SocketInvariant PresenceTheorems Security.
From S2P Require Import RateLimits TransferService TransferServiceTheorems Auth Adapters DeviceRoutes Turn Fixtures.
From stdpp Require Import list strings sets.

Section turn.
Context {T : Type} `{PresencePortsLaws T} `{LimiterStore T} `{TurnCredentialProvider T} `{UnicodeDatabase}
  (cfg : TransferServiceConfig).

Lemma denied_fails {A} (w : World T) (a : A) w' : denied w ≠ (Ok a, w').
Proof. done. Qed.

Lemma turn_get_spec c at_ a i (w w' : World T) r :
  world_ok w →
  try_except (TransferService.get cfg c at_ a i) is_transfer_error (λ _, denied) w = (Ok r, w') →
  r ∈ transfer_rows (w_store w') ∧ tr_id r = i ∧ tr_user_id r = a.
Proof.
  intros Hok Ht. unfold try_except in Ht. destruct (TransferService.get cfg c at_ a i w) as [[r'|e] w1] eqn:Hg.
  - injection Ht as -> <-. apply bind_ok_inv in Hg as ([r'|]&w2&Hc&Hg); [|done]. injection Hg as -> <-.
    by eapply current_owned.
  - by destruct (is_transfer_error e).
Qed.

Lemma device_of_spec a d (w w' : World T) o :
  device_of a d w = (Ok o, w') → device_by_id a d (w_store w) = Ok o ∧ w' = w.
Proof.
  unfold device_of, on_store, zoom. intros Hd. injection Hd as Hd <-. split; [done|by destruct w].
Qed.

(** C30: who is issued TURN credentials.  Credentials are issued only for a
    stored transfer of the session's own account that is active and ahead of
    its deadline, to a session whose device is one of its two parties, active,
    and of the session's epoch, while the other party is an active device of
    the same account and epoch; only when the limiter granted the account, the
    device, the transfer and the network at once; and they are what the
    provider returned for exactly that account, device and transfer, for five
    minutes. *)
Theorem turn_authorised current c at_ session i network (w w' : World T) credentials :
  world_ok w → Turn.issue cfg current c at_ session i network w = (Ok credentials, w') →
  ∃ r actor peer p (w1 : World T) store,
    r ∈ transfer_rows (w_store w1) ∧ tr_id r = i ∧ tr_user_id r = ses_user_id session ∧
    tr_status r ∈ TURN_CREDENTIAL_ELIGIBLE_STATUSES ∧ (current < tr_expires_at r)%Z ∧
    (ses_device_id session = tr_sender_device_id r ∧ p = tr_recipient_device_id r ∨
     ses_device_id session = tr_recipient_device_id r ∧ p = tr_sender_device_id r) ∧
    device_by_id (ses_user_id session) (ses_device_id session) (w_store w1) = Ok (Some actor) ∧
    device_by_id (ses_user_id session) p (w_store w1) = Ok (Some peer) ∧
    dev_user_id actor = ses_user_id session ∧ dev_status actor = "active" ∧ dev_epoch actor = ses_epoch session ∧
    dev_user_id peer = ses_user_id session ∧ dev_status peer = "active" ∧ dev_epoch peer = ses_epoch session ∧
    limit_many current (issue_buckets session r network) (w_store w1) = (Ok true, store) ∧
    issue_credentials {| tq_account_id := uuid_str (ses_user_id session); tq_device_id := uuid_str (ses_device_id session);
                         tq_transfer_id := uuid_str i; tq_ttl_seconds := 300 |} store = (Ok credentials, w_store w').
Proof.
  intros Hok Hi. unfold Turn.issue in Hi. apply bind_ok_inv in Hi as (r&w1&Hg&Hi).
  apply turn_get_spec in Hg as (Hin&Hid&Hu); [|done].
  destruct (_transfer_is_eligible r current (ses_device_id session)) eqn:Hel; cbn [negb] in Hi; [|done].
  apply bind_ok_inv in Hi as (actor&w2&Ha&Hi). apply device_of_spec in Ha as [Ha ->].
  apply bind_ok_inv in Hi as (peer&w3&Hp&Hi). apply device_of_spec in Hp as [Hp ->].
  destruct (_ || _) eqn:Hdev; [done|]. apply orb_false_iff in Hdev as [Hda Hdp].
  destruct actor as [actor|]; [|done]. destruct peer as [peer|]; [|done]. simpl in Hda, Hdp.
  apply negb_false_iff in Hda, Hdp. unfold _transfer_is_eligible, status_in in Hel. to_prop.
  apply bind_ok_inv in Hi as ([]&w4&Hl&Hi); [|done]. apply on_store_inv in Hl as [Hl Hpr4]. cbn [negb] in Hi.
  apply bind_ok_inv in Hi as (creds&w5&Hc&Hi). apply bind_ok_inv in Hi as (x&w6&Hm&[= -> <-]).
  unfold try_except in Hc. destruct (on_store _ w4) as [[cr|e] w7] eqn:Hiss; [|by destruct (bool_decide _)].
  injection Hc as -> <-. apply on_store_inv in Hiss as [Hiss _].
  assert (w_store w6 = w_store w7) as -> by by injection Hm as _ <-.
  exists r, actor, peer, (if decide (tr_sender_device_id r = ses_device_id session) then tr_recipient_device_id r
                          else tr_sender_device_id r), w1, (w_store w4).
  split_and!; try done; try congruence.
  - case_decide; [by left|right]. split; [set_solver|done].
  - rewrite <- Hid. exact Hiss.
Qed.
End turn.

(** ** Witness *)
#[local] Existing Instance ascii_unicode.

(** A limiter that grants, and a provider that issues to whom it is asked. *)
#[local] Instance granting : LimiterStore MemTransfers := {| limit_many _ _ := ret true; limiter_secret _ := [] |}.
#[local] Instance relay : TurnCredentialProvider MemTransfers := {|
  issue_credentials request := ret {| tc_urls := [u "turn:relay.example.test"]; tc_username := tq_transfer_id request;
                                      tc_credential := tq_device_id request; tc_expires_at := 300 |} |}.

Lemma turn_authorised_witness :
  ∃ credentials w', Turn.issue service1 20 (still 20) (at_time 20) laptop_session 100 (u "203.0.113.9")
      (accept_offer service1 (still 10) (at_time 10) 1 100 11 world2).2 = (Ok credentials, w') ∧
    ∃ r, tr_id r = 100%N ∧ tr_user_id r = 1%N ∧ tr_status r ∈ TURN_CREDENTIAL_ELIGIBLE_STATUSES.
Proof.
  destruct (Turn.issue service1 20 (still 20) (at_time 20) laptop_session 100 (u "203.0.113.9")
    (accept_offer service1 (still 10) (at_time 10) 1 100 11 world2).2) as [[credentials|e] w'] eqn:Hi;
    [|exfalso; revert Hi; vm_compute; discriminate].
  assert (world_ok (accept_offer service1 (still 10) (at_time 10) 1 100 11 world2).2) as Hok.
  { eapply wsteps_ok; [apply r_accept, world2_ok|apply world2_ok]. }
  destruct (turn_authorised service1 20 (still 20) (at_time 20) laptop_session 100 (u "203.0.113.9") _ _ _ Hok Hi)
    as (r&_&_&_&_&_&_&Hid&Hu&Hs&_).
  exists credentials, w'. split; [reflexivity|]. exists r. split_and!; [exact Hid|exact Hu|exact Hs].
Defined.
