(* ===== verification/ChallengeTheorems.v ===== *)
(** * ChallengeTheorems: the two challenge repositories are one

    From stores that hold the same devices and challenges, the operations of
    [InMemoryDeviceChallengeRepository] and of [DeviceChallengeRepository]
    answer alike and leave such stores. *)
From Stdlib.Strings Require Import Byte.
From S2P Require Import Prelude PyDict Json Models Sql KeyedTable Tables Schema Hashing Integrity History.
From S2P Require Import TransferTheorems Devices Challenges Fixtures.
From stdpp Require Import list strings.

(** The stores agree, and every device belongs to a live account of its epoch
    (the in-memory application has no others). *)
Record coherent (db : Db) (m : MemChallenges) : Prop := {
  co_wf : well_formed db;
  co_keyed : keyed chl_id (mc_records m);
  co_rows : dict_values (mc_records m) = device_challenges db;
  co_device_keyed : keyed dev_id (md_records (mc_devices m));
  co_devices : dict_values (md_records (mc_devices m)) = devices db;
  co_owned : ∀ d, d ∈ devices db → ∃ a, a ∈ app_users db ∧ acc_id a = dev_user_id d ∧
    acc_deleted_at a = None ∧ acc_device_epoch a = dev_epoch d }.

Section agreement.
Context (db : Db) (m : MemChallenges) (Hco : coherent db m).
Implicit Types (r : DeviceChallengeRecord).

(** The device of a challenge, if the account owns it. *)
Definition owner_device (a d : UUID) : option DeviceRecord :=
  match dict_get d (md_records (mc_devices m)) with
  | Some x => if bool_decide (dev_user_id x = a) then Some x else None
  | None => None
  end.

Lemma mem_device a d : Mem.device a d m = (Ok (owner_device a d), m).
Proof. unfold Mem.device, zoom, Devices.Mem.get_by_id, gets, owner_device. by destruct m. Qed.

Lemma device_rows d :
  List.filter (λ x, bool_decide (dev_id x = d)) (devices db) =
  match dict_get d (md_records (mc_devices m)) with Some x => [x] | None => [] end.
Proof.
  rewrite <- (co_devices _ _ Hco), <- (keyed_first_match dev_id d) by apply Hco.
  pose proof (filter_keyed dev_id (λ _, true) d (dict_values (md_records (mc_devices m)))
    (keyed_unique _ _ (co_device_keyed _ _ Hco))) as Hf. simpl in Hf. rewrite <- Hf. apply List.filter_ext.
  intros x. by rewrite andb_true_r.
Qed.

Lemma account_row d : d ∈ devices db → ∃ acc, acc_deleted_at acc = None ∧ acc_device_epoch acc = dev_epoch d ∧
  acc_id acc = dev_user_id d ∧
  ∀ p, (∀ x, p x = true → acc_id x = dev_user_id d) →
    List.filter p (app_users db) = if p acc then [acc] else [].
Proof.
  intros Hd. destruct (co_owned _ _ Hco d Hd) as (acc&Hin&Hid&Hdel&Hep). exists acc. split_and!; try done.
  intros p Hp. destruct (co_wf _ _ Hco) as (Hs&_). revert Hs Hin. induction (app_users db) as [|x t IH]; simpl;
    [by intros _ ?%not_elem_of_nil|]. intros (_&Hall&Hs) Hin. rewrite Forall_forall in Hall.
  apply elem_of_cons in Hin as [->|Hin].
  - assert (List.filter p t = []) as ->; [|by destruct (p x)].
    destruct (List.filter p t) as [|y l] eqn:Hf; [done|]. assert (y ∈ y :: l) as Hy by left.
    rewrite <- Hf in Hy. apply list_elem_of_In, filter_In in Hy as [Hy Hpy]. apply list_elem_of_In in Hy.
    destruct (Hall y Hy) as [Hne _]. by rewrite (Hp y Hpy), Hid in Hne.
  - rewrite IH by done. destruct (p x) eqn:Hpx; [|done]. exfalso. destruct (Hall acc Hin) as [Hne _].
    by rewrite (Hp x Hpx), Hid in Hne.
Qed.

Lemma device_stored d x : dict_get d (md_records (mc_devices m)) = Some x → x ∈ devices db ∧ dev_id x = d.
Proof.
  intros Hg. split.
  - rewrite <- (co_devices _ _ Hco). apply dict_get_Some_In in Hg. unfold dict_values.
    apply list_elem_of_fmap. by exists (d, x).
  - by eapply keyed_get; [apply Hco|].
Qed.

(** The joins with [devices] and [app_users] keep a challenge exactly when its
    device is one of the account's. *)
Lemma joined_rows a key :
  Pg.joined a key db =
  List.filter (λ r, key r && negb (is_null (owner_device a (chl_device_id r)))) (device_challenges db).
Proof.
  unfold Pg.joined. induction (device_challenges db) as [|r t IH]; cbn [List.filter]; [done|].
  destruct (key r); cbn [andb]; [|exact IH]. rewrite bind_cons, IH, device_rows. unfold owner_device.
  destruct (dict_get _ _) as [x|] eqn:Hg; [|done]. rewrite bind_singleton. destruct (device_stored _ _ Hg) as [Hx _].
  destruct (account_row x Hx) as (acc&Hdel&Hep&Hid&Hone). rewrite Hone by (intros y Hy; by to_prop).
  unfold account_live. rewrite Hdel, Hid, (bool_decide_true (dev_user_id x = dev_user_id x)) by done. simpl.
  rewrite andb_true_r. by destruct (bool_decide (dev_user_id x = a)).
Qed.

(** The device check of an update. *)
Lemma current_device a r :
  Pg.device_current db a r = Mem.active (owner_device a (chl_device_id r)).
Proof.
  unfold Pg.device_current, owner_device. apply Bool.eq_iff_eq_true. rewrite existsb_exists. split.
  - intros (x&Hx&Hc). apply list_elem_of_In in Hx. to_prop.
    match goal with He : existsb _ _ = true |- _ => apply existsb_exists in He as (acc&_&Hacc) end. to_prop.
    assert (dict_get (chl_device_id r) (md_records (mc_devices m)) = Some x) as ->.
    { rewrite <- (keyed_first_match dev_id) by apply Hco. rewrite (co_devices _ _ Hco).
      rewrite first_match_filter, device_rows. destruct (dict_get _ _) as [y|] eqn:Hy; simpl.
      - f_equal. destruct (device_stored _ _ Hy) as [Hyin Hyid]. destruct (co_wf _ _ Hco) as (_&Hs&_).
        apply (sound_unique _ _ _ Hs); simpl; [done..| |]; intuition congruence.
      - pose proof (device_rows (chl_device_id r)) as Hrows. rewrite Hy in Hrows.
        assert (x ∈ List.filter (λ x, bool_decide (dev_id x = chl_device_id r)) (devices db)) as Hin.
        { apply list_elem_of_In, filter_In. split; [by apply list_elem_of_In|]. by apply bool_decide_eq_true. }
        rewrite Hrows in Hin. by apply not_elem_of_nil in Hin. }
    rewrite bool_decide_true by congruence. simpl. by apply bool_decide_eq_true.
  - destruct (dict_get _ _) as [x|] eqn:Hg; [|done]. destruct (device_stored _ _ Hg) as [Hx Hxid].
    destruct (bool_decide (dev_user_id x = a)) eqn:Hu; [|done]. simpl. intros Hact. to_prop.
    exists x. split; [by apply list_elem_of_In|]. rewrite bool_decide_true by done.
    destruct (co_owned _ _ Hco x Hx) as (acc&Hin&Hid&Hdel&Hep). apply existsb_exists. exists acc.
    split; [by apply list_elem_of_In|]. unfold account_live. by rewrite Hdel, !bool_decide_true by congruence.
Qed.
Lemma first_of_key a i :
  first_row (Pg.joined a (λ r, bool_decide (chl_id r = i)) db) =
  match dict_get i (mc_records m) with
  | Some r => if is_null (owner_device a (chl_device_id r)) then None else Some r
  | None => None
  end.
Proof.
  rewrite joined_rows, <- (co_rows _ _ Hco). unfold first_row.
  rewrite (filter_keyed chl_id) by (apply keyed_unique, Hco). rewrite keyed_first_match by apply Hco.
  destruct (dict_get i (mc_records m)) as [r|]; [|done]. by destruct (is_null _).
Qed.

Lemma mem_get a i :
  Mem.get_by_id a i m = (Ok (match dict_get i (mc_records m) with
    | Some r => if is_null (owner_device a (chl_device_id r)) then None else Some r
    | None => None
    end), m).
Proof.
  unfold Mem.get_by_id, Mem.of_account, bind, gets. destruct (dict_get i (mc_records m)) as [r|]; [|done].
  by rewrite mem_device.
Qed.

Lemma update_ext {Row} check (c c' : Row → bool) set t :
  (∀ x : Row, c x = c' x) → update_returning check c set t = update_returning check c' set t.
Proof.
  intros Hc. unfold update_returning, update_set. rewrite (List.filter_ext c c') by exact Hc.
  destruct (forallb _ _); [|done]. f_equal. apply map_ext. intros x. by rewrite Hc.
Qed.

Lemma mem_consume now a i :
  Mem.consume now a i m =
  match dict_get i (mc_records m) with
  | Some r =>
      if chl_open now r && Mem.active (owner_device a (chl_device_id r))
      then (Ok (Some (chl_consumed r now)), Mem.store (chl_consumed r now) m) else (Ok None, m)
  | None => (Ok None, m)
  end.
Proof.
  unfold Mem.consume, Mem.change_open, bind, gets, modify, ret. rewrite mem_get.
  destruct (dict_get i (mc_records m)) as [r|] eqn:Hg; [|done].
  destruct (owner_device a (chl_device_id r)) as [d|] eqn:Hd; cbn [is_null Mem.active]; [|by rewrite andb_false_r].
  destruct (chl_open now r) eqn:Hop; cbn [negb andb]; [|done]. rewrite mem_device, Hd. cbn [Mem.active].
  destruct (bool_decide _); cbn [negb]; [|done]. by rewrite Hg, Hop.
Qed.

Lemma consume_agrees now a i :
  (∀ r, r ∈ device_challenges db → chl_created_at r <= now)%Z →
  same_result (Pg.consume now a i db).1 (Mem.consume now a i m).1 ∧
  coherent (Pg.consume now a i db).2 (Mem.consume now a i m).2.
Proof.
  intros Hclock. pose proof (statement_step _ _ (st_challenge_consume db now a i)) as Hstep.
  assert (well_formed (Pg.consume now a i db).2) as Hwf by (eapply db_step_well_formed; [exact Hstep|apply Hco]).
  clear Hstep. revert Hwf. unfold Pg.consume, transaction, Pg.update_open, bind, gets, ret, on_device_challenges, zoom.
  cbn [id]. rewrite (update_ext _ _ (λ r, bool_decide (chl_id r = i) &&
    (chl_open now r && Mem.active (owner_device a (chl_device_id r))))).
  2: { intros r. unfold id. by rewrite current_device, andb_assoc. }
  rewrite <- (co_rows _ _ Hco), (update_returning_keyed chl_id) by apply Hco.
  rewrite mem_consume. destruct (dict_get i (mc_records m)) as [r|] eqn:Hg; simpl.
  2: { intros _. split; [done|]. rewrite (co_rows _ _ Hco). by destruct db. }
  destruct (chl_open now r && Mem.active (owner_device a (chl_device_id r))) eqn:Hop; simpl.
  2: { intros _. split; [done|]. rewrite (co_rows _ _ Hco). by destruct db. }
  assert (r ∈ device_challenges db) as Hr.
  { rewrite <- (co_rows _ _ Hco). apply list_elem_of_fmap. exists (i, r). split; [done|]. by apply dict_get_Some_In. }
  assert (challenge_check (chl_consumed r now) = true) as ->.
  { destruct (co_wf _ _ Hco) as (_&_&_&Hs&_). pose proof (sound_check _ _ Hs Hr) as Hck. simpl in Hck.
    specialize (Hclock r Hr). unfold chl_open in Hop. simpl in *. unfold challenge_check in *. simpl. to_prop.
    repeat (apply andb_true_iff; split); first [by apply bool_decide_eq_true|by apply Z.ltb_lt|by apply Z.leb_le]. }
  intros Hwf. split; [done|].
  assert (chl_id r = i) as Hid by (eapply keyed_get; [apply Hco|done]).
  split; simpl; [exact Hwf| |by rewrite Hid|apply Hco..]. rewrite Hid. apply keyed_set; [apply Hco|done].
Qed.

Lemma mem_create now i a d h o e :
  Mem.create now i a d h o e m =
  if Mem.active (owner_device a d) then
    if existsb (λ r, bool_decide (chl_nonce_hash r = h)) (dict_values (mc_records m))
    then (Raise ValueError, m)
    else (Ok (new_challenge i d h o now e), Mem.store (new_challenge i d h o now e) m)
  else (Raise ValueError, m).
Proof.
  unfold Mem.create, bind, gets, modify, ret, raise. rewrite mem_device.
  destruct (Mem.active _); cbn [negb]; [|done]. by destruct (existsb _ _).
Qed.

(** The devices the [INSERT ... SELECT] finds: the active device of the account,
    if there is one. *)
Lemma created_rows now i a d h o e :
  Pg.create_rows now i a d h o e db =
  if Mem.active (owner_device a d) then [new_challenge i d h o now e] else [].
Proof.
  unfold Pg.create_rows.
  pose proof (filter_keyed dev_id (λ x, bool_decide (dev_status x = "active")) d (devices db)) as Hf.
  rewrite Hf by (rewrite <- (co_devices _ _ Hco); apply keyed_unique, Hco).
  rewrite <- (co_devices _ _ Hco), keyed_first_match by apply Hco. unfold owner_device.
  destruct (dict_get d _) as [x|] eqn:Hg; [|done]. destruct (device_stored _ _ Hg) as [Hx Hxd].
  destruct (account_row x Hx) as (acc&Hdel&Hep&Hid&Hone).
  destruct (bool_decide (dev_status x = "active")) eqn:Hact.
  - rewrite bind_singleton, Hone by (intros y Hy; by to_prop). unfold account_live.
    rewrite Hdel, Hid, Hep, !(bool_decide_true (_ = _)) by done. simpl.
    destruct (bool_decide (dev_user_id x = a)) eqn:Hu; simpl; [by rewrite Hact, Hxd, bool_decide_true by done|done].
  - destruct (bool_decide (dev_user_id x = a)); simpl; [by rewrite Hact|done].
Qed.

Lemma create_agrees now i a d h o e :
  dict_get i (mc_records m) = None → challenge_check (new_challenge i d h o now e) = true →
  same_result (Pg.create now i a d h o e db).1 (Mem.create now i a d h o e m).1 ∧
  coherent (Pg.create now i a d h o e db).2 (Mem.create now i a d h o e m).2.
Proof.
  intros Hi Hck. pose proof (statement_step _ _ (st_challenge_create db now i a d h o e)) as Hstep.
  assert (well_formed (Pg.create now i a d h o e db).2) as Hwf by (eapply db_step_well_formed; [exact Hstep|apply Hco]).
  clear Hstep. revert Hwf. unfold Pg.create, bind, gets, lift, on_device_challenges, zoom. rewrite created_rows, mem_create.
  destruct (Mem.active (owner_device a d)); simpl.
  2: { intros _. split; [done|]. by destruct db. }
  assert (challenge_admits (device_challenges db) (new_challenge i d h o now e) =
    negb (existsb (λ r, bool_decide (chl_nonce_hash r = h)) (dict_values (mc_records m)))) as ->.
  { unfold challenge_admits. rewrite Hck, <- (co_rows _ _ Hco), (keyed_values_keys chl_id) by apply Hco. simpl.
    rewrite bool_decide_true by by apply dict_get_None. simpl. apply Bool.eq_iff_eq_true.
    rewrite negb_true_iff, <- not_true_iff_false, existsb_exists, bool_decide_eq_true. split.
    - intros Hn (r&Hr&He). to_prop. apply Hn. subst h. apply list_elem_of_In, in_map, Hr.
    - intros Hn (r&->&Hr)%list_elem_of_fmap. apply Hn. exists r. split; [by apply list_elem_of_In|].
      by apply bool_decide_eq_true. }
  destruct (existsb _ _); simpl.
  - intros _. split; [done|]. by destruct db.
  - intros Hwf. split; [done|]. split; simpl; [exact Hwf| | |apply Hco..].
    + apply keyed_set; [apply Hco|done].
    + rewrite dict_set_fresh by by apply dict_get_None. unfold dict_values. rewrite map_app. simpl. f_equal. apply Hco.
Qed.
End agreement.

(** ** Sequences of calls *)
Inductive challenge_call :=
| CallGet (a i : UUID)
| CallCreate (i a d : UUID) (h : bytes) (o : pystr) (e : timestamp)
| CallConsume (a i : UUID).

Section calls.
Context {St : Type} `{!ChallengeStore St}.

Definition challenge_op (now : timestamp) (c : challenge_call) : M St (option DeviceChallengeRecord) :=
  match c with
  | CallGet a i => challenge_by_id a i
  | CallCreate i a d h o e => let! r := create_challenge now i a d h o e in ret (Some r)
  | CallConsume a i => consume_challenge now a i
  end.

(** The outcomes of the calls made at the given times, and the final store. *)
Fixpoint challenge_run (calls : list (timestamp * challenge_call)) (s : St) :
    list (outcome (option DeviceChallengeRecord)) * St :=
  match calls with
  | [] => ([], s)
  | (now, c) :: calls' =>
      let '(o, s1) := challenge_op now c s in
      let '(os, s2) := challenge_run calls' s1 in (o :: os, s2)
  end.
End calls.

(** The clock does not go back, new ids are new, and the rows created respect
    the constraints of the table. *)
Fixpoint admissible_calls (t : timestamp) (calls : list (timestamp * challenge_call)) (m : MemChallenges) : Prop :=
  match calls with
  | [] => True
  | (now, c) :: calls' =>
      (t <= now)%Z ∧
      match c with
      | CallCreate i a d h o e =>
          dict_get i (mc_records m) = None ∧ challenge_check (new_challenge i d h o now e) = true
      | _ => True
      end ∧
      admissible_calls now calls' (challenge_op now c m).2
  end.

Definition created_by (t : timestamp) (db : Db) : Prop :=
  ∀ r, r ∈ device_challenges db → (chl_created_at r <= t)%Z.

Lemma op_agrees db m now c :
  coherent db m → created_by now db →
  match c with
  | CallCreate i a d h o e =>
      dict_get i (mc_records m) = None ∧ challenge_check (new_challenge i d h o now e) = true
  | _ => True
  end →
  same_result (challenge_op now c db).1 (challenge_op now c m).1 ∧
  coherent (challenge_op now c db).2 (challenge_op now c m).2.
Proof.
  intros Hco Hp Hc. destruct c as [a i|i a d h o e|a i]; simpl.
  - rewrite (mem_get db) by done. unfold Pg.get_by_id, gets. simpl. by rewrite (first_of_key db m).
  - destruct Hc as [Hi Hck]. destruct (create_agrees db m Hco now i a d h o e Hi Hck) as [Hs Hc'].
    unfold bind, ret. destruct (Pg.create _ _ _ _ _ _ _ db) as [[x|ex] db'], (Mem.create _ _ _ _ _ _ _ m) as [[y|ey] m'];
      simpl in *; by simplify_eq.
  - by apply consume_agrees.
Qed.

Lemma op_created now c m db :
  coherent db m → created_by now db → coherent (challenge_op now c db).2 (challenge_op now c m).2 →
  created_by now (challenge_op now c db).2.
Proof.
  intros Hco Hp Hco' r Hr. rewrite <- (co_rows _ _ Hco') in Hr.
  assert (∀ x, x ∈ dict_values (mc_records m) → (chl_created_at x <= now)%Z) as Hm
    by (intros x Hx; apply Hp; by rewrite <- (co_rows _ _ Hco)).
  assert (∀ x, (chl_created_at x <= now)%Z → r ∈ dict_values (mc_records (Mem.store x m)) → (chl_created_at r <= now)%Z)
    as Hst.
  { intros x Hx Hin. apply list_elem_of_fmap in Hin as ([k v]&->&Hin). simpl in *.
    apply (dict_set_elem) in Hin as [[_ ->]|Hin]; [done|]. apply Hm, list_elem_of_fmap. by exists (k, v). }
  revert Hr. destruct c as [a i|i a d h o e|a i]; simpl.
  - rewrite (mem_get db) by done. simpl. apply Hm.
  - unfold bind, ret. rewrite (mem_create db) by done. destruct (Mem.active _); simpl; [|apply Hm].
    destruct (existsb _ _); simpl; [apply Hm|].
    apply (Hst (new_challenge i d h o now e)). simpl. lia.
  - rewrite (mem_consume db) by done. destruct (dict_get _ _) as [x|] eqn:Hg; [|apply Hm].
    destruct (_ && _); simpl; [|apply Hm].
    apply (Hst (chl_consumed x now)). simpl. apply Hm, list_elem_of_fmap.
    exists (i, x). split; [done|]. by apply dict_get_Some_In.
Qed.

(** C32: the challenge repositories agree on what the table can hold.  Let the
    stores be coherent (the same challenges and devices, and every device of a
    live account and in its epoch) and the calls admissible: the clock does not
    go back, and a challenge is created under a new identifier and inside the
    table's CHECK constraints.  Then a sequence of lookups, creations and
    consumptions gives, call by call, the same result on the PostgreSQL
    repository as on the in-memory one, or an exception on both, and the two
    stores hold the same challenges at the end.  (Outside, a deadline already
    past or a digest of another length is refused by the table and stored in
    memory.) *)
Theorem challenge_stores_agree t calls db m :
  coherent db m → created_by t db → admissible_calls t calls m →
  Forall2 same_result (challenge_run calls db).1 (challenge_run calls m).1 ∧
  dict_values (mc_records (challenge_run calls m).2) = device_challenges (challenge_run calls db).2 ∧
  coherent (challenge_run calls db).2 (challenge_run calls m).2.
Proof.
  revert t db m. induction calls as [|[now c] calls IH]; intros t db m Hco Hp; cbn [challenge_run admissible_calls].
  - intros _. split_and!; [constructor|apply Hco|done].
  - intros (Ht&Hc&Hcalls).
    assert (created_by now db) as Hp' by (intros r Hr; specialize (Hp r Hr); lia).
    destruct (op_agrees db m now c Hco Hp' Hc) as [Hs Hco'].
    specialize (IH now _ _ Hco' (op_created _ _ _ _ Hco Hp' Hco') Hcalls).
    destruct (challenge_op now c db) as [o1 db1], (challenge_op now c m) as [o2 m1]. simpl in *.
    destruct (challenge_run calls db1) as [os1 db2], (challenge_run calls m1) as [os2 m2]. simpl in *.
    destruct IH as (Hall&Hrows&Hco2). split_and!; [by constructor|done|done].
Qed.

(** ** Witness *)
Definition home_devices : MemDevices := {| md_records := [(10%N, laptop); (11%N, phone)]; md_sessions := None |}.
Definition home_challenges : MemChallenges :=
  {| mc_records := [(200%N, laptop_challenge)]; mc_devices := home_devices |}.

Lemma home_coherent : coherent home home_challenges.
Proof.
  split; [exact home_well_formed|..|reflexivity| | |].
  - split; [apply NoDup_singleton|]. intros k r Hin%list_elem_of_singleton. by simplify_eq.
  - split; [apply NoDup_cons; split; [by intros ?%list_elem_of_singleton|apply NoDup_singleton]|].
    intros k r Hin. apply elem_of_cons in Hin as [?|Hin%list_elem_of_singleton]; by simplify_eq.
  - reflexivity.
  - intros d Hd. exists ada. split; [left|]. apply elem_of_cons in Hd as [->|Hd%list_elem_of_singleton]; [done|by subst].
Qed.

(** A challenge for the phone is created, the laptop's is answered, then read. *)
Definition phone_calls : list (timestamp * challenge_call) :=
  [(minutes 1, CallCreate 201 1 11 (repeat x05 32) site (minutes 6)); (minutes 2, CallConsume 1 200);
   (minutes 3, CallConsume 1 200); (minutes 3, CallGet 1 201)].

Lemma challenge_stores_agree_witness :
  Forall2 same_result (challenge_run phone_calls home).1 (challenge_run phone_calls home_challenges).1 ∧
  length (device_challenges (challenge_run phone_calls home).2) = 2.
Proof.
  assert (created_by 0 home) as Hp by (intros r Hr; apply list_elem_of_singleton in Hr; by subst).
  assert (admissible_calls 0 phone_calls home_challenges) as Hadm by (repeat split; vm_compute; done).
  destruct (challenge_stores_agree 0 phone_calls home home_challenges home_coherent Hp Hadm) as (H&_&_).
  split; [exact H|]. vm_compute. reflexivity.
Defined.
