(* ===== verification/ApplicationTheorems.v ===== *)
(** * ApplicationTheorems: the routes and the database

    Every request is a run of repository statements, so what holds of runs of
    statements holds of the application; and a session is opened by a
    completed enrolment or login, and by nothing else. *)
From Stdlib.Strings Require Import Byte.
From S2P Require Import Prelude PyDict Json Models Sql Tables Schema Hashing Security Sessions SessionTheorems RateLimits.
From S2P Require Import TransferPort TransferRepository TransferTheorems Integrity History Signaling Presence Socket Fixtures.
From S2P Require Import SocketInvariant TransferService RouteCalls.
From S2P Require Import Accounts Devices Challenges LinkingOtps Tickets Events.
From S2P Require Import Auth DeviceCrypto DeviceAuth DeviceRoutes TransferRoutes Adapters Turn Main Application Keys DeviceAuthTheorems.
From stdpp Require Import list strings relations.

(** ** What opens a session

    [opens just m]: [m] runs statements; each session it leaves descends from
    an earlier one, or [m] has returned and [just] relates the state it began
    in, its result and the state it left to the session. *)
Definition opens {S A} (database : S → Db) (just : S → A → S → SessionRecord → Prop) (m : M S A) : Prop :=
  ∀ s, rtc statement (database s) (database (m s).2) ∧
  (well_formed (database s) → ∀ x', x' ∈ app_sessions (database (m s).2) →
    (∃ x, x ∈ app_sessions (database s) ∧ session_evolves x x') ∨
    ∃ a, (m s).1 = Ok a ∧ just s a (m s).2 x').

(** A justification by the result alone. *)
Definition by_result {S A} (just : A → SessionRecord → Prop) : S → A → S → SessionRecord → Prop := λ _ a _ x, just a x.

Section opens.
Context {S : Type} (database : S → Db).

Definition quietly (s s' : S) : Prop := rtc quiet (database s) (database s').

#[export] Instance quietly_preorder : PreOrder quietly.
Proof. split; unfold quietly; [intros s; reflexivity|intros x y z ? ?; by etrans]. Qed.

Lemma opens_quiet {A} (just : S → A → S → SessionRecord → Prop) m : respects quietly m → opens database just m.
Proof.
  intros Hm s. split; [by apply quiet_statements, Hm|]. intros Hwf x' Hx. left.
  by apply (proj2 (quiet_descend _ _ (Hm s)) Hwf).
Qed.

Lemma opens_after {A B} (just : B → SessionRecord → Prop) (m : M S A) k :
  respects quietly m → (∀ a, opens database (by_result just) (k a)) → opens database (by_result just) (bind m k).
Proof.
  intros Hm Hk s. specialize (Hm s). unfold bind. destruct (m s) as [[a|e] s1]; simpl in *.
  - destruct (Hk a s1) as [Hst Hx]. split; [etrans; [by apply quiet_statements|exact Hst]|].
    intros Hwf x' Hx'. destruct (quiet_descend _ _ Hm) as [Hstep Hd].
    destruct (Hx (db_step_well_formed _ _ Hstep Hwf) x' Hx') as [(x1&Hx1&He)|Hj]; [|by right].
    left. destruct (Hd Hwf x1 Hx1) as (x&?&?). exists x. split; [done|by etrans].
  - split; [by apply quiet_statements|]. intros Hwf x' Hx'. left. by apply (proj2 (quiet_descend _ _ Hm) Hwf).
Qed.

(** What follows an opening and neither opens another session nor fails. *)
Lemma opens_before {A B} (just : A → SessionRecord → Prop) (just' : B → SessionRecord → Prop) (m : M S A) k :
  opens database (by_result just) m → (∀ a, respects quietly (k a)) →
  (∀ a s, ∃ b, (k a s).1 = Ok b ∧ ∀ x x', just a x → session_evolves x x' → just' b x') →
  opens database (by_result just') (bind m k).
Proof.
  intros Hm Hk Htotal s. destruct (Hm s) as [Hst Hx]. unfold bind. destruct (m s) as [[a|e] s1]; simpl in *.
  - specialize (Hk a s1). destruct (Htotal a s1) as (b&Hb&Hj). split; [etrans; [exact Hst|by apply quiet_statements]|].
    intros Hwf x' Hx'. destruct (quiet_descend _ _ Hk) as [_ Hd].
    destruct (Hd (db_step_well_formed _ _ (run_step _ _ Hst) Hwf) x' Hx') as (x1&Hx1&He).
    destruct (Hx Hwf x1 Hx1) as [(x&?&?)|(a'&[= <-]&?)]; [left; exists x; split; [done|by etrans]|].
    right. exists b. split; [done|by eapply Hj].
  - split; [done|]. intros Hwf x' Hx'. destruct (Hx Hwf x' Hx') as [?|(?&?&_)]; [by left|done].
Qed.

Lemma opens_lift {A B} (just : S → B → S → SessionRecord → Prop) (o : outcome A) k :
  (∀ a, o = Ok a → opens database just (k a)) → opens database just (bind (lift o) k).
Proof.
  intros Hk. destruct o as [a|e]; [apply (Hk a eq_refl)|]. apply opens_quiet. intros s. unfold quietly. reflexivity.
Qed.

Lemma opens_raise {A} (just : S → A → S → SessionRecord → Prop) e : opens database just (raise e).
Proof. apply opens_quiet. intros s. unfold quietly. reflexivity. Qed.

Lemma opens_map {A B} (just : S → A → S → SessionRecord → Prop) (just' : S → B → S → SessionRecord → Prop) m (f : A → B) :
  opens database just m → (∀ s a s' x, just s a s' x → just' s (f a) s' x) →
  opens database just' (bind m (λ a, ret (f a))).
Proof.
  intros Hm Hf s. destruct (Hm s) as [Hst Hx]. unfold bind. destruct (m s) as [[a|e] s1]; simpl in *; (split; [done|]);
    intros Hwf x' Hx'; (destruct (Hx Hwf x' Hx') as [?|(a'&Ha&?)]; [by left|]); simplify_eq. right. eauto.
Qed.

(** What is known of a run that returned adds to the justification. *)
Lemma opens_known {A} (just just' : S → A → S → SessionRecord → Prop) m :
  opens database just m →
  (∀ s a s' x, well_formed (database s) → well_formed (database s') → m s = (Ok a, s') →
     x ∈ app_sessions (database s') → just s a s' x → just' s a s' x) →
  opens database just' m.
Proof.
  intros Hm Hj s. destruct (Hm s) as [Hst Hx]. split; [done|]. intros Hwf x' Hx'.
  destruct (Hx Hwf x' Hx') as [?|(a&Ha&?)]; [by left|]. right. exists a. split; [done|].
  apply Hj; try done.
  - by eapply db_step_well_formed; [apply run_step|].
  - destruct (m s). simpl in *. by subst.
Qed.

Lemma opens_try {A} (just : S → A → S → SessionRecord → Prop) (m : M S A) c h :
  opens database just m → (∀ e, respects quietly (h e)) → opens database just (try_except m c h).
Proof.
  intros Hm Hh s. destruct (Hm s) as [Hst Hx]. unfold try_except. destruct (m s) as [[a|e] s1]; simpl in *; [by split|].
  destruct (c e); simpl; [|by split]. specialize (Hh e s1). split; [etrans; [exact Hst|by apply quiet_statements]|].
  intros Hwf x' Hx'. left.
  destruct (proj2 (quiet_descend _ _ Hh) (db_step_well_formed _ _ (run_step _ _ Hst) Hwf) x' Hx') as (x1&Hx1&He).
  destruct (Hx Hwf x1 Hx1) as [(x&?&?)|(?&?&_)]; [|done]. exists x. split; [done|by etrans].
Qed.

(** A part of the state that holds the database. *)
Lemma opens_zoom {T A} (part : S → T) (back : T → S → S) (database' : T → Db)
    (just : T → A → T → SessionRecord → Prop) (just' : S → A → S → SessionRecord → Prop) m :
  (∀ s, database' (part s) = database s) → (∀ t s, database (back t s) = database' t) →
  (∀ s a t x, just (part s) a t x → just' s a (back t s) x) →
  opens database' just m → opens database just' (zoom part back m).
Proof.
  intros Hp Hb Hj Hm s. specialize (Hm (part s)). rewrite Hp in Hm. unfold zoom.
  destruct (m (part s)) as [o t]. simpl in *. rewrite Hb. destruct Hm as [? Hx]. split; [done|]. intros Hwf x' Hx'.
  destruct (Hx Hwf x' Hx') as [?|(a&?&?)]; [by left|]. right. eauto.
Qed.
End opens.

(** The session was opened for the bearer of [token]. *)
Definition bears (token : pystr) (x : SessionRecord) : Prop := hash_secret token = Ok (ses_token_hash x).

Lemma bears_evolves token x x' : bears token x → session_evolves x x' → bears token x'.
Proof. unfold bears, session_evolves. intros -> (?&?&?&->&_). done. Qed.

Lemma prepare_token e issued absolute secrets idle absolute' :
  prepare e issued absolute = Ok (secrets, idle, absolute') → hash_secret (ss_token secrets) = Ok (ss_token_hash secrets).
Proof.
  unfold prepare. destruct (session_expiry issued). destruct (_ <=? _)%Z; [done|]. destruct (_ <=? _)%Z; [done|].
  unfold _session_secrets. destruct (new_opaque_token _ _) as [t|]; [|done]. destruct (new_opaque_token _ _) as [c|]; [|done].
  destruct (hash_secret t) eqn:Ht; [|done]. destruct (hash_secret c); [|done]. by intros [= <- _ _].
Qed.

Lemma session_rows now i a d th ch e idle ab db x :
  x ∈ Sessions.Pg.create_rows now i a d th ch e idle ab db → ses_token_hash x = th.
Proof.
  unfold Sessions.Pg.create_rows. intros H. apply list_elem_of_bind in H as (acc&H&_).
  apply list_elem_of_bind in H as (dev&H&_). by apply list_elem_of_singleton in H as ->.
Qed.

Lemma session_created now i a d th ch e idle ab db :
  let m := Sessions.Pg.create now i a d th ch e idle ab db in
  ∀ x', x' ∈ app_sessions m.2 → x' ∈ app_sessions db ∨ (∃ r, m.1 = Ok r) ∧ ses_token_hash x' = th.
Proof.
  intros m x'. unfold m, Sessions.Pg.create, bind, gets, on_app_sessions, zoom, lift.
  destruct (insert_returning _ _ _) as [[rows|e'] t] eqn:Hi; simpl.
  - apply insert_returning_app in Hi as [-> ->]. intros [?|Hx]%elem_of_app; [by left|]. right.
    pose proof (session_rows _ _ _ _ _ _ _ _ _ _ _ Hx) as Hth. split; [|done].
    destruct (Sessions.Pg.create_rows now i a d th ch e idle ab db) as [|r rest] eqn:Hr; [by apply not_elem_of_nil in Hx|].
    by exists r.
  - apply insert_returning_raise in Hi as ->. by left.
Qed.

Lemma create_session_opens now id e a d ep issued absolute :
  opens (λ db, db) (by_result (λ c x, bears (ss_token (cs_secrets c)) x)) (create_session (R := Db) now id e a d ep issued absolute).
Proof.
  intros db. unfold create_session, bind, lift. simpl.
  destruct (prepare e issued absolute) as [[[secrets idle] absolute']|ex] eqn:Hp; simpl.
  2: { split; [apply rtc_refl|]. intros _ x' Hx. left. exists x'. split; [done|reflexivity]. }
  apply prepare_token in Hp.
  pose proof (session_created (now 0%nat) id a d (ss_token_hash secrets) (ss_csrf_hash secrets) ep idle absolute' db) as Hc.
  pose proof (st_session db (now 0%nat) (SessionTheorems.OpCreate id a d (ss_token_hash secrets) (ss_csrf_hash secrets) ep idle absolute')) as Hst.
  simpl in Hst. destruct (Sessions.Pg.create _ _ _ _ _ _ _ _ _ db) as [[r|ex] db1]; simpl in *;
    (split; [by apply rtc_once|]; intros _ x' Hx'; destruct (Hc x' Hx') as [?|[[r' Hr] Hth]];
     [left; exists x'; split; [done|reflexivity]|]); [|done].
  right. eexists. split; [reflexivity|]. unfold by_result, bears. simpl. by rewrite Hp, Hth.
Qed.

(** *** Login and enrolment *)
Section complete.
Context `{Cryptography} `{UnicodeDatabase} (auth_user : UUID → bool) (secret : bytes).
#[local] Instance accounts' : AccountStore Db := pg_accounts auth_user.
#[local] Instance limiter' : LimiterStore Db := persistent_limiter secret.
Context (cfg : DeviceAuthConfig).

Definition session_token (r : DeviceAuthResult) : pystr := ss_token (cs_secrets (dr_session r)).

#[local] Hint Resolve q_account q_device q_audit : respects.

Lemma z_stores {A} (m : M Db A) : respects (rtc quiet) m → respects (quietly dw_stores) (stores m).
Proof. apply d_stores. Qed.
Lemma z_registrations {A} (m : M RegistrationChallengeStore A) : respects (quietly dw_stores) (registrations (S := Db) m).
Proof. apply d_registrations. Qed.
#[local] Hint Resolve z_stores z_registrations : respects.

Lemma opens_stores {A} (just : A → SessionRecord → Prop) m :
  opens (λ db, db) (by_result just) m → opens dw_stores (by_result just) (stores m).
Proof. intros Hm. by eapply opens_zoom; [..|exact Hm]. Qed.

Lemma login_opens current db_now d a i nonce signature origin :
  opens dw_stores (by_result (λ r, bears (session_token r)))
    (complete_login_challenge (S := Db) current db_now d a i nonce signature origin).
Proof.
  unfold complete_login_challenge.
  apply opens_after; [simpl; unfold Challenges.Pg.get_by_id; walk|]. intros [challenge|]; [|apply opens_raise].
  destruct (bool_decide _); [apply opens_raise|].
  apply opens_after; [walk|]. intros account. apply opens_after; [walk|]. intros device. apply opens_lift. intros refused _.
  destruct account as [account|]; [|apply opens_quiet; destruct device; simpl; walk].
  destruct device as [device|]; [|apply opens_quiet; simpl; walk].
  destruct refused; [apply opens_quiet; simpl; walk|]. apply opens_lift. intros valid _.
  destruct valid; [|apply opens_quiet; simpl; walk]. cbn [negb].
  apply opens_after; [simpl; walk|]. intros [x|]; [|apply opens_raise].
  apply opens_after; [simpl; walk|]. intros touched.
  eapply opens_map; [apply opens_stores, create_session_opens|]. done.
Qed.

Lemma q_claimed now db_now account claimed :
  respects (rtc quiet) (register_claimed (S := Db) now db_now account claimed).
Proof. unfold register_claimed. simpl. walk. Qed.
#[local] Hint Resolve q_claimed : respects.

(** The audit of a registration never fails. *)
Lemma audit_ok db_now i ty o now a d n details (db : Db) :
  (_audit_device_event (S := Db) cfg db_now i ty o now a d n details db).1 = Ok tt.
Proof.
  unfold _audit_device_event. destruct (negb _); [done|]. unfold bind at 1, gets, try_except. simpl.
  by destruct (bind _ _ db) as [[[]|e] db'].
Qed.

Lemma registration_opens now db_now d i signature origin :
  opens dw_stores (by_result (λ r, bears (session_token r)))
    (complete_registration (S := Db) cfg now db_now d i signature origin).
Proof.
  unfold complete_registration. apply opens_after; [walk|]. intros [state|]; [|apply opens_raise].
  destruct (_ || _); [apply opens_raise|]. apply opens_lift. intros valid _.
  destruct valid; [|apply opens_quiet; simpl; walk]. cbn [negb].
  apply opens_after; [walk|]. intros [claimed|]; [|apply opens_raise].
  apply opens_after; [walk|]. intros [account|]; [|apply opens_raise]. destruct (bool_decide _); [apply opens_raise|].
  apply opens_after; [walk|]. intros [[device fallback] event].
  eapply opens_before; [apply opens_stores, create_session_opens|intros session; walk|].
  intros session w. unfold bind. pose proof (audit_ok (db_now 2%nat) (dr_event_id d) event "success" now
    (Some (acc_id account)) (Some (dev_id device)) None [] (dw_stores w)) as Hok.
  unfold stores, zoom. destruct (_audit_device_event _ _ _ _ _ _ _ _ _ _ _) as [o db]. simpl in *. subst o.
  eexists. split; [reflexivity|]. intros x x'. apply bears_evolves.
Qed.

(** A session with the token a call returned is the one it created. *)
Lemma bearer_unique db token x y :
  well_formed db → x ∈ app_sessions db → y ∈ app_sessions db → bears token x → bears token y → x = y.
Proof.
  intros (_&_&Hs&_) Hx Hy Hbx Hby. unfold bears in *. rewrite Hbx in Hby. injection Hby as Heq.
  apply (sound_unique _ _ _ Hs Hx Hy); simpl; intros [_ Hn]; by apply Hn.
Qed.

(** The session is of a live account and an active device of it, whose stored
    key verifies the signature over an open challenge. *)
Definition login_proof (i : UUID) (nonce signature : bytes) (db : Db) (x : SessionRecord) : Prop :=
  ∃ challenge account device,
    challenge ∈ device_challenges db ∧ chl_id challenge = i ∧ chl_consumed_at challenge = None ∧
    account ∈ app_users db ∧ acc_id account = ses_user_id x ∧ acc_deleted_at account = None ∧
    device ∈ devices db ∧ dev_id device = ses_device_id x ∧ dev_user_id device = ses_user_id x ∧
    dev_status device = "active" ∧
    proved (dev_signing_public_key_spki device) signature (challenge_payload challenge account device nonce).

(** The key the device of an enrolment has: the one held with the challenge,
    or the one it was stored with before under the challenge's fingerprint. *)
Definition enrolled_key (db : Db) (device : DeviceRecord) (state : _RegistrationState) : Prop :=
  dev_fingerprint device = rc_fingerprint (rs_challenge state) ∧
  (dev_signing_public_key_spki device = rs_public_key_spki state ∨ stored_before db device).

(** It is the key held with the challenge, or one with its SHA-256 digest with
    which the device was stored before. *)
Definition own_key (db : Db) (device : DeviceRecord) (state : _RegistrationState) : Prop :=
  dev_fingerprint device = sha256 (rs_public_key_spki state) ∧
  sha256 (dev_signing_public_key_spki device) = sha256 (rs_public_key_spki state) ∧
  (dev_signing_public_key_spki device = rs_public_key_spki state ∨ stored_before db device).

(** Where fingerprints are digests, the one is the other. *)
Lemma enrolled_own_key db device i state s :
  rows_keyed db → held_keyed s → dict_get i (rcs_states s) = Some state →
  enrolled_key db device state → own_key db device state.
Proof.
  intros Hk Hh Hst [Hf Hkey]. pose proof (held_get_state _ _ _ Hh Hst) as Hs. unfold keyed_state in Hs.
  split_and!; [congruence| |done]. destruct Hkey as [->|(old&Hold&_&Hkold&Hfold)]; [done|].
  specialize (Hk old Hold). unfold keyed_row in Hk. congruence.
Qed.

(** The session is of the account of a held registration challenge and of an
    active device of it, whose key [keys] relates to the challenge's; that key
    verifies the signature. *)
Definition enrolment_proof (keys : Db → DeviceRecord → _RegistrationState → Prop) (i : UUID) (signature : bytes)
    (held : RegistrationChallengeStore) (db db' : Db) (x : SessionRecord) : Prop :=
  ∃ state device,
    dict_get i (rcs_states held) = Some state ∧ rc_account_id (rs_challenge state) = ses_user_id x ∧
    device ∈ devices db' ∧ dev_id device = ses_device_id x ∧ dev_user_id device = ses_user_id x ∧
    dev_status device = "active" ∧ keys db device state ∧
    proved (rs_public_key_spki state) signature (rc_payload (rs_challenge state)).

Lemma login_opens_proved current db_now d a i nonce signature origin :
  opens dw_stores (λ w r _ x, bears (session_token r) x ∧ login_proof i nonce signature (dw_stores w) x)
    (complete_login_challenge (S := Db) current db_now d a i nonce signature origin).
Proof.
  eapply opens_known; [apply login_opens|]. intros w r w' x Hwf Hwf' Hrun Hx Hb. split; [done|].
  apply login_run in Hrun as (challenge&account&device&db1&y&db2&touched&Hc&Ha&Hd&_&Href&Hp&_&_&Hs&_).
  apply challenge_found in Hc as [Hcin Hci]. apply account_found in Ha as (Hain&Hai&Hadel).
  apply device_found in Hd as (Hdin&Hdu&Hdi). apply login_accepted in Href as (Hact&_&_&Hnone&_).
  apply create_session_spec in Hs as (Hsin&_&Hsu&Hsd&_&_&Hst&_).
  rewrite (bearer_unique _ _ _ _ Hwf' Hx Hsin Hb Hst). exists challenge, account, device. split_and!; first [done|congruence].
Qed.

Lemma registration_opens_proved now db_now d i signature origin :
  opens dw_stores (λ w r w' x, bears (session_token r) x ∧
      enrolment_proof enrolled_key i signature (dw_registrations w) (dw_stores w) (dw_stores w') x)
    (complete_registration (S := Db) cfg now db_now d i signature origin).
Proof.
  eapply opens_known; [apply registration_opens|]. intros w r w' x Hwf Hwf' Hrun Hx Hb. split; [done|].
  apply registration_run in Hrun as (state&fallback&event&db1&db2&Hst&_&_&_&Hp&_&Ha&_&Hreg&Hses&Hlast&Hdevs).
  apply account_found in Ha as (_&Hai&_). apply register_claimed_spec in Hreg as (Hu&Hfp&_&Hact&Hkey&Hin&Hs1).
  assert (db_step db1 db2) as Hs2.
  { match type of Hses with ?m ?s = _ => assert (db_step s (m s).2) as Hcr by apply create_session_step; by rewrite Hses in Hcr end. }
  apply create_session_spec in Hses as (Hsin&_&Hsu&Hsd&_&_&Hth&_).
  assert (well_formed db2) as Hwf2 by (eapply db_step_well_formed; [|exact Hwf]; by etrans).
  destruct Hlast as (_&_&Hse&_), Hwf2 as (_&_&Hss&_), (Hse Hss) as [_ Hkept'], (Hkept' _ Hsin) as (y&Hy&Hev).
  assert (x = y) as ->.
  { apply (bearer_unique (dw_stores w') (session_token r)); try done. by apply (bears_evolves _ _ _ Hth Hev). }
  destruct Hev as (_&Hyu&Hyd&_). exists state, (dr_device r). rewrite Hdevs. split_and!; first [done|congruence].
Qed.
End complete.

(** ** The routes *)
Section routes.
Context `{Cryptography} `{UnicodeDatabase} (auth_user : UUID → bool) (secret : bytes) (app_origin : pystr).
#[local] Instance accounts'' : AccountStore Db := pg_accounts auth_user.
#[local] Instance limiter'' : LimiterStore Db := persistent_limiter secret.

(** The answer sets a cookie whose token the session bears, and the request
    carried a signature that [proof] accepts. *)
Definition answered_by (proof : bytes → Prop) (text : pystr) (answer : option cookie) (x : SessionRecord) : Prop :=
  ∃ token signature, answer = Some (set_session_cookie token) ∧ bears token x ∧
    _decode_signature text = Ok signature ∧ proof signature.

Lemma opens_admitted {A} hs valid (just : DeviceWorld Db → A → DeviceWorld Db → SessionRecord → Prop) m :
  opens dw_stores just m → opens dw_stores just (admitted_body app_origin hs valid m).
Proof.
  intros Hm. unfold admitted_body. apply opens_lift. intros _ _. by destruct valid; [|apply opens_raise].
Qed.

Lemma opens_refused {A} status (just : DeviceWorld Db → A → DeviceWorld Db → SessionRecord → Prop) m :
  opens dw_stores just m → opens dw_stores just (refused_as status m).
Proof. intros Hm. apply opens_try; [done|]. intros e w. unfold quietly. reflexivity. Qed.

Lemma enrolment_opens cfg hs now db_now d payload :
  opens dw_stores (λ w answer w' x,
      answered_by (λ signature, enrolment_proof enrolled_key (rq_challenge_id payload) signature (dw_registrations w)
          (dw_stores w) (dw_stores w') x)
        (rq_signature payload) (Some answer.2) x)
    (complete_enrollment (S := Db) cfg app_origin hs now db_now d payload).
Proof.
  apply opens_admitted. eapply opens_map.
  - apply opens_refused, opens_lift. intros signature Hs. apply opens_lift. intros origin _.
    eapply opens_known; [apply registration_opens_proved|]. intros w r w' x _ _ _ _ Hj.
    instantiate (1 := λ w r w' x, ∃ signature, _decode_signature (rq_signature payload) = Ok signature ∧
      bears (session_token r) x ∧
      enrolment_proof enrolled_key (rq_challenge_id payload) signature (dw_registrations w) (dw_stores w) (dw_stores w') x).
    exists signature. split; [done|exact Hj].
  - intros w r w' x (signature&?&?&?). by exists (session_token r), signature.
Qed.

Lemma login_route_opens hs current db_now d payload :
  opens dw_stores (λ w answer w' x,
      answered_by (λ signature, ∃ nonce, decode_base64url (cq_nonce payload) 64 = Ok nonce ∧
          login_proof (cq_challenge_id payload) nonce signature (dw_stores w) x)
        (cq_signature payload) (Some answer.2) x)
    (complete_login_challenge_route (S := Db) app_origin hs current db_now d payload).
Proof.
  apply opens_admitted. eapply opens_map.
  - apply opens_refused, opens_lift. intros nonce Hn. apply opens_lift. intros signature Hs. apply opens_lift. intros origin _.
    eapply opens_known; [apply login_opens_proved|]. intros w r w' x _ _ _ _ Hj.
    instantiate (1 := λ w r w' x, ∃ nonce signature, decode_base64url (cq_nonce payload) 64 = Ok nonce ∧
      _decode_signature (cq_signature payload) = Ok signature ∧
      bears (session_token r) x ∧ login_proof (cq_challenge_id payload) nonce signature (dw_stores w) x).
    exists nonce, signature. destruct Hj. by split_and!.
  - intros w r w' x (nonce&signature&?&?&?&?). exists (session_token r), signature. split_and!; [done..|]. by exists nonce.
Qed.

(** *** The other routes open none *)
#[local] Hint Resolve o_start o_verify d_registration_challenge d_linking_otp d_linking_challenge d_login_challenge
  d_list_devices d_rename : respects.

#[local] Ltac route := unfold no_cookie, sets_cookie, with_csrf, with_session; walk.

Definition completes (r : request) : bool :=
  match r with CompleteEnrollment _ _ _ _ | CompleteLogin _ _ _ _ => true | _ => false end.

Lemma serve_quietly s r :
  completes r = false → respects (app_calls (rtc quiet)) (serve auth_user secret app_origin s r).
Proof. destruct r; try done; intros _; unfold serve, serve_on; route. Qed.

(** *** What the routes open *)

(** The request completed an enrolment or a login: its answer sets the cookie
    of the session, and its signature proved the device's key. *)
Definition opened_by (keys : Db → DeviceRecord → _RegistrationState → Prop) (r : request) (before : Application)
    (answer : option cookie) (after : Application) (x : SessionRecord) : Prop :=
  match r with
  | CompleteEnrollment _ _ _ payload =>
      answered_by (λ signature,
          enrolment_proof keys (rq_challenge_id payload) signature (ap_registrations before) (ap_database before)
            (ap_database after) x)
        (rq_signature payload) answer x
  | CompleteLogin _ _ _ payload =>
      answered_by (λ signature, ∃ nonce, decode_base64url (cq_nonce payload) 64 = Ok nonce ∧
          login_proof (cq_challenge_id payload) nonce signature (ap_database before) x)
        (cq_signature payload) answer x
  | _ => False
  end.

Lemma serve_opens s r : opens ap_database (opened_by enrolled_key r) (serve auth_user secret app_origin s r).
Proof.
  destruct (completes r) eqn:Hc; [|by apply opens_quiet, serve_quietly]. destruct r; try done; unfold serve, serve_on.
  - apply (opens_map _ (λ a answer a', opened_by enrolled_key (CompleteEnrollment now db_now d payload) a (Some answer.2) a')); [|done].
    eapply (opens_zoom ap_database _ _ dw_stores); [done|done| |apply enrolment_opens]. done.
  - apply (opens_map _ (λ a answer a', opened_by enrolled_key (CompleteLogin current db_now d payload) a (Some answer.2) a')); [|done].
    eapply (opens_zoom ap_database _ _ dw_stores); [done|done| |apply login_route_opens]. done.
Qed.

Lemma opened_by_own_key r before answer after x :
  bound before → opened_by enrolled_key r before answer after x → opened_by own_key r before answer after x.
Proof.
  intros (_&Hk&Hh). destruct r; try done. simpl.
  intros (token&signature&Hans&Hb&Hs&(state&device&Hst&Hu&Hin&Hid&Hdu&Hact&Hkey&Hp)).
  exists token, signature. split_and!; try done. exists state, device. split_and!; try done. by eapply enrolled_own_key.
Qed.

(** Requests served one after the other. *)
Definition handle (requests : list (Sender * request)) (a : Application) : Application :=
  foldl (λ a '(s, r), (serve auth_user secret app_origin s r a).2) a requests.

Lemma handle_statements requests a : rtc statement (ap_database a) (ap_database (handle requests a)).
Proof.
  revert a. induction requests as [|[s r] requests IH]; intros a; simpl; [apply rtc_refl|].
  etrans; [apply (serve_opens s r a)|apply IH].
Qed.

(** C5: the database is only ever reached through the repositories.  Any
    requests, one after the other, run a sequence of repository statements on
    it, whichever routes they name and however they end: what holds of every
    such sequence holds of the application.  So a well-formed database whose
    references all name stored rows stays well-formed, and its references, the
    foreign keys of the schema among them, keep naming stored rows. *)
Theorem requests_keep_database requests a :
  rtc statement (ap_database a) (ap_database (handle requests a)) ∧
  (well_formed (ap_database a) → consistent (ap_database a) = true →
   well_formed (ap_database (handle requests a)) ∧ consistent (ap_database (handle requests a)) = true ∧
   foreign_keys (ap_database (handle requests a)) = true).
Proof.
  pose proof (handle_statements requests a) as Hst. split; [done|]. intros Hwf Hc.
  assert (consistent (ap_database (handle requests a)) = true) as Hc'.
  { by apply (run_respects linked_step _ _ Hst). }
  split_and!; [by eapply db_step_well_formed; [apply run_step|]|done|by apply consistent_foreign_keys].
Qed.

Lemma handle_bound requests a : bound a → bound (handle requests a).
Proof.
  revert a. induction requests as [|[s r] requests IH]; intros a Ha; simpl; [done|].
  by apply IH, serve_bound.
Qed.

(** C15: a fingerprint is the digest of the key it is stored with.  The schema
    does not relate the two columns of a device, nor the process those of a
    held registration challenge.  But after any requests on an application in
    which each stored device and each held challenge has the SHA-256 of its
    key for fingerprint, each has: a challenge is held under the digest of a
    key in canonical form, an enrolment stores a challenge's key under its own
    fingerprint or takes the stored row of that fingerprint, and no other
    request adds a device or changes either column of one. *)
Theorem fingerprints_of_keys requests a :
  well_formed (ap_database a) → rows_keyed (ap_database a) → held_keyed (ap_registrations a) →
  (∀ device, device ∈ devices (ap_database (handle requests a)) →
     dev_fingerprint device = sha256 (dev_signing_public_key_spki device)) ∧
  ∀ i state, dict_get i (rcs_states (ap_registrations (handle requests a))) = Some state →
    rc_fingerprint (rs_challenge state) = sha256 (rs_public_key_spki state).
Proof.
  intros Hwf Hk Hh. destruct (handle_bound requests a) as (_&Hk'&Hh'); [by split_and!|].
  split; [exact Hk'|]. intros i state. by apply held_get_state.
Qed.

(** C2: a session is opened by proof of a device key and by nothing else.
    Start from a well-formed database in which every fingerprint, of stored
    devices and held challenges, is the digest of its key ([bound], which C15
    says requests keep).  After any requests, a stored session descends from
    one stored before them, or from one that a request completing an enrolment
    or a login opened.  That request was answered with the cookie whose token
    the session is stored under, and its signature verifies: for a login, over
    an open challenge, under the stored key of an active device that is the
    session's, of a live account that is the session's; for an enrolment, over
    a held registration challenge of the session's account, under the key held
    with it, and the session's device is stored, active, with that very key,
    or was stored before the request with a key of the same SHA-256. *)
Theorem sessions_opened_by_proof requests a x :
  bound a → x ∈ app_sessions (ap_database (handle requests a)) →
  (∃ x0, x0 ∈ app_sessions (ap_database a) ∧ session_evolves x0 x) ∨
  ∃ earlier s r later x0, requests = earlier ++ (s, r) :: later ∧
    let before := handle earlier a in
    let served := serve auth_user secret app_origin s r before in
    x0 ∈ app_sessions (ap_database served.2) ∧ session_evolves x0 x ∧
    ∃ answer, served.1 = Ok answer ∧ opened_by own_key r before answer served.2 x0.
Proof.
  intros Hbound. revert x. induction requests as [|[s r] requests IH] using rev_ind; intros x Hx.
  { left. exists x. split; [done|reflexivity]. }
  pose proof (handle_bound requests a Hbound) as Hb1. pose proof Hb1 as [Hwf1 _].
  unfold handle in Hx. rewrite foldl_app in Hx. fold (handle requests a) in Hx. simpl in Hx.
  destruct (serve_opens s r (handle requests a)) as [_ Ho].
  destruct (Ho Hwf1 x Hx) as [(x1&Hx1&He1)|(answer&Hok&Hby)].
  - cbv zeta in IH. destruct (IH x1 Hx1) as [(x0&?&?)|(earlier&s'&r'&later&x0&->&?&?&?)].
    + left. exists x0. split; [done|by etrans].
    + cbv zeta in *. right. exists earlier, s', r', (later ++ [(s, r)]), x0. cbv zeta. split_and!; [by rewrite <- app_assoc|done|by etrans|done].
  - right. exists requests, s, r, [], x. cbv zeta. split_and!; [done|done|reflexivity|]. exists answer. split; [done|].
    by apply opened_by_own_key.
Qed.
End routes.

(** ** Witnesses *)
#[local] Existing Instance toy_cryptography.
#[local] Existing Instance ascii_unicode.

Definition relay : Application :=
  {| ap_presence := initial_presence; ap_database := home; ap_bootstrap := dw_bootstrap world0;
     ap_registrations := tablet_store |}.

Definition browser : Sender :=
  {| sn_headers := [("origin", site)]; sn_cookie := None; sn_host := None; sn_current := minutes 2; sn_db := at_minute |}.

(** A logout without a cookie, the laptop's login, the tablet's enrolment. *)
Definition visits : list (Sender * request) :=
  [(browser, Logout (λ _, 0%Z) at_minute);
   (browser, CompleteLogin (minutes 1) at_minute draws
      {| cq_account_id := 1; cq_challenge_id := 200; cq_nonce := encode_base64url nonce7;
         cq_signature := encode_base64url login_signature |});
   (browser, CompleteEnrollment (minutes 2) at_minute
      {| dr_device_id := 13; dr_challenge_id := 202; dr_nonce := repeat x05 32; dr_session_id := 102;
         dr_secrets := {| en_token := repeat x13 32; en_csrf := repeat x14 32 |}; dr_event_id := 502 |}
      {| rq_challenge_id := 201; rq_signature := encode_base64url tablet_signature |})].

#[local] Notation after := (handle (λ _, true) [] site visits relay).

Lemma visits_open : map ses_id (app_sessions (ap_database after)) = [100; 101; 102]%N.
Proof. vm_compute. reflexivity. Qed.

Lemma requests_keep_database_witness :
  (well_formed (ap_database after) ∧ consistent (ap_database after) = true ∧ foreign_keys (ap_database after) = true) ∧
  map ses_id (app_sessions (ap_database after)) = [100; 101; 102]%N.
Proof.
  split; [|vm_compute; reflexivity].
  apply (requests_keep_database (λ _, true) [] site visits relay); [exact home_well_formed|vm_compute; reflexivity].
Defined.

Lemma relay_bound : bound relay.
Proof. destruct tablet_bound as [[Hwf Hk] Hh]. by split_and!. Qed.

(** The tablet enrolled under the digest of its key. *)
Lemma fingerprints_of_keys_witness :
  map dev_id (devices (ap_database after)) = [10; 11; 12]%N ∧
  ∀ device, device ∈ devices (ap_database after) → dev_fingerprint device = sha256 (dev_signing_public_key_spki device).
Proof.
  split; [vm_compute; reflexivity|]. destruct relay_bound as (Hwf&Hk&Hh).
  exact (proj1 (fingerprints_of_keys (λ _, true) [] site visits relay Hwf Hk Hh)).
Defined.

(** The tablet's session. *)
Lemma sessions_opened_by_proof_witness :
  ∃ x, x ∈ app_sessions (ap_database after) ∧ ses_id x = 102%N ∧
    ∃ earlier s r later, visits = earlier ++ (s, r) :: later ∧ completes r = true.
Proof.
  assert (102%N ∈ map ses_id (app_sessions (ap_database after))) as Hin.
  { apply (bool_decide_eq_true_1 _). vm_compute. reflexivity. }
  apply list_elem_of_fmap in Hin as (x&Hid&Hx). exists x. split; [exact Hx|]. split; [symmetry; exact Hid|].
  destruct (sessions_opened_by_proof (λ _, true) [] site visits relay x relay_bound Hx)
    as [(x0&Hx0&He)|(earlier&s&r&later&x0&Heq&_&_&answer&_&Hby)].
  - exfalso. apply list_elem_of_singleton in Hx0 as ->. destruct He as [He _]. rewrite <- Hid in He. discriminate.
  - exists earlier, s, r, later. split; [exact Heq|]. destruct r; simpl in Hby; try contradiction; reflexivity.
Defined.
