(* ===== verification/ApplicationAccess.v ===== *)
(** * ApplicationAccess: who the routes let in, and what they let them reach

    A device logged out by a request is shut out of every route that needs a
    session, whatever was requested in between; and a request to such a route
    leaves the rows of other accounts alone. *)
From Stdlib.Strings Require Import Byte.
From S2P Require Import Prelude PyDict Json Models Sql Tables Schema Hashing Security Sessions SessionTheorems RateLimits.
From S2P Require Import TransferPort TransferRepository Integrity History Signaling Presence Socket Fixtures.
From S2P Require Import PresenceInvariant SocketInvariant PresenceTheorems TransferService RouteCalls Isolation.
From S2P Require Import Accounts Devices Challenges LinkingOtps Tickets Events.
From S2P Require Import Auth DeviceCrypto DeviceAuth DeviceRoutes TransferRoutes Adapters Turn Main Application Lifecycles DeviceAuthTheorems.
From S2P Require Import ApplicationTheorems.
From stdpp Require Import list strings relations.

(** ** Sessions of a well-formed database *)
Lemma well_formed_unique db : well_formed db → sessions_unique db.
Proof. intros (_&_&Hs&_). split; (apply sound_NoDup; [|done]); intros x y [? ?]; done. Qed.

(** The caller of a guarded route has a device of its account. *)
Lemma caller_device now current cookie db session db1 :
  well_formed db → get_authenticated_session now current cookie db = (Ok session, db1) →
  ∃ dev, dev ∈ devices db1 ∧ dev_user_id dev = ses_user_id session ∧ dev_id dev = ses_device_id session.
Proof.
  intros Hwf Hg. apply bind_ok_inv in Hg as ([r|]&db2&Ha&Hg); [|done]. injection Hg as <- <-.
  pose proof (authenticate_result _ _ _ _ _ _ (well_formed_unique _ Hwf) Ha r eq_refl)
    as (token&stored&_&_&(_&_&_&_&_&dev&Hdev&Hu&Hd&_)&_&Hs).
  assert (devices db2 = devices db) as Heq.
  { unfold authenticate in Ha. destruct (_token_hash _) as [h|]; [|done].
    apply bind_ok_inv in Ha as (found&db3&[= _ <-]&Ha). destruct found as [x|]; [|done].
    destruct (negb _); [done|]. apply bind_ok_inv in Ha as (y&db4&Ht&[= _ <-]).
    apply bind_ok_inv in Ht as (d&db5&[= <- <-]&Ht). by apply bind_ok_inv in Ht as (rows&db6&(_&Hdv&_)%update_step&[= _ <-]). }
  exists dev. rewrite Heq. split; [done|]. destruct Hs as [->|[-> _]]; done.
Qed.

(** ** A revoked session opens no route *)
Definition locked_out (token : pystr) (db : Db) : Prop :=
  ∃ x, x ∈ app_sessions db ∧ bears token x ∧ ses_revoked_at x ≠ None.

(** A revoked session stays stored and revoked. *)
Lemma revoked_kept db db' x :
  well_formed db → rtc statement db db' → x ∈ app_sessions db → ses_revoked_at x ≠ None →
  ∃ x', x' ∈ app_sessions db' ∧ session_evolves x x' ∧ ses_revoked_at x' ≠ None.
Proof.
  intros Hwf Hrun Hx Hr. destruct (run_step _ _ Hrun) as (_&_&Hs&_), Hwf as (_&_&Hws&_).
  destruct (Hs Hws) as [_ Hkept]. destruct (Hkept x Hx) as (x'&Hx'&He). exists x'. split_and!; [done|done|].
  destruct He as (_&_&_&_&_&_&_&He). destruct (ses_revoked_at x) as [t|] eqn:Ht; [|done]. by destruct (He t eq_refl) as [-> _].
Qed.

Lemma locked_out_run token db db' : well_formed db → rtc statement db db' → locked_out token db → locked_out token db'.
Proof.
  intros Hwf Hrun (x&Hx&Hb&Hr). destruct (revoked_kept _ _ _ Hwf Hrun Hx Hr) as (x'&Hx'&He&Hr').
  exists x'. split_and!; [done|by eapply bears_evolves|done].
Qed.

(** No handshake serves a revoked session, whatever its ticket. *)
Lemma revoked_not_admitted x db db' origin app_origin query configured now lookup session :
  well_formed db → rtc statement db db' → x ∈ app_sessions db → ses_revoked_at x ≠ None →
  (Tickets.authenticate_socket (T := Db) app_origin origin query configured now lookup db').1 = Ok (inr session) →
  ses_id session ≠ ses_id x.
Proof.
  intros Hwf Hrun Hx Hr Ha Hid. destruct (Tickets.authenticate_socket _ _ _ _ _ _ db') as [o db1] eqn:Hadm. simpl in Ha. subst o.
  apply admitted_spec in Hadm as (value&h&ticket&db0&_&_&_&Hc&->&Hf).
  apply first_row_elem, joined_elem in Hf as (Hs&_&Hu). to_prop.
  assert (rtc statement db db0) as Hrun0.
  { eapply rtc_r; [exact Hrun|]. unfold Tickets.Pg.consume_for_socket in Hc.
    pose proof (st_ticket_consume db' (now 0%nat) (λ r, bool_decide (tkt_token_hash r = h)) (λ _, true)) as Hst. by rewrite Hc in Hst. }
  destruct (revoked_kept _ _ _ Hwf Hrun0 Hx Hr) as (x'&Hx'&He&Hr').
  assert (session = x') as ->.
  { apply (NoDup_map_eq ses_id _ _ _ (proj1 (well_formed_unique db0 (db_step_well_formed _ _ (run_step _ _ Hrun0) Hwf)))); [done|done|].
    rewrite Hid. symmetry. apply He. }
  unfold Sessions.Pg.usable, Sessions.Pg.unexpired in Hu. destruct (ses_revoked_at x'); [|done]. simpl in Hu. by to_prop.
Qed.

Lemma locked_out_refused now current token db :
  well_formed db → locked_out token db →
  get_authenticated_session now current (Some token) db = (Raise (HTTPException 401), db).
Proof.
  intros Hwf (x&Hx&Hb&Hr). unfold get_authenticated_session, authenticate, _token_hash.
  destruct (negb _); [done|]. rewrite Hb. unfold bind, gets. cbn [find_row pg_sessions fst snd].
  destruct (Sessions.Pg.find_by_token_hash (now 0%nat) (ses_token_hash x) db) as [y|] eqn:Hf; [|done]. exfalso.
  unfold Sessions.Pg.find_by_token_hash in Hf. apply first_row_elem, joined_elem in Hf as (Hy&Hk&Hu). to_prop.
  assert (y = x) as ->.
  { eapply bearer_unique; [exact Hwf|done|done| |exact Hb]. unfold bears. by rewrite Hk. }
  unfold Sessions.Pg.usable, Sessions.Pg.unexpired in Hu. destruct (ses_revoked_at x); [|done]. simpl in Hu. by to_prop.
Qed.

(** ** A disconnected device has no socket *)
Lemma taken_gone account device s :
  presence_ok s → current_connection account device (take_device account device s).2 = None ∧ presence_ok (take_device account device s).2.
Proof.
  intros Hs. split; [|by eapply pblocks_ok; [apply b_take_device|]].
  unfold take_device, pop_outbound, bind, gets, modify, ret. simpl.
  destruct (current_connection account device s) as [c|] eqn:Hc; [|done]. simpl.
  apply account_sockets_ok in Hc as ((_&Hds&_&_)&_&_); [|apply Hs].
  unfold current_connection, account_sockets at 1. simpl. rewrite drop_if_empty_get by apply Hs.
  rewrite decide_True by done. by apply dict_get_del_eq.
Qed.

Lemma disconnected cfg presence c account device (w : World Db) :
  presence = true → presence_ok (w_presence w) →
  current_connection account device (w_presence (disconnect (T := Db) cfg presence c account device w).2) = None.
Proof.
  intros -> Hok. unfold disconnect, disconnect_device.
  destruct (taken_gone account device (w_presence w) Hok) as [Hgone Hok1]. unfold bind at 1, on_presence at 1, zoom.
  destruct (take_device account device (w_presence w)) as [[[[connection outbound]|]|e] s1]; [|exact Hgone..].
  set (w1 := Build_World s1 (w_store w)). simpl in Hgone, Hok1.
  set (R := λ w w' : World Db, only_leave (w_presence w) (w_presence w')).
  assert (PreOrder R) by (unfold R; split; [intros w2; reflexivity|intros w2 w3 w4 ??; by etrans]).
  assert (∀ A (m : M Presence A), respects only_leave m → respects R (on_presence m)) as Hp.
  { intros A m Hm w2. unfold R, on_presence. rewrite zoom_snd. apply Hm. }
  assert (respects R (do! on_presence (_stop_outbound outbound) in
    do! on_presence (_close (ac_websocket connection) WEBSOCKET_CLOSE_POLICY) in broadcast_presence cfg c account)) as Hl.
  { apply respects_bind; [done|apply Hp, l_stop|intros _]. apply respects_bind; [done|apply Hp, l_close|intros _]. apply l_broadcast. }
  destruct (Hl w1 Hok1) as [_ Hleave]. destruct (current_connection account device (w_presence _)) as [c'|] eqn:Hc'; [|done].
  apply Hleave in Hc'. simpl in Hc'. congruence.
Qed.

Section access.
Context `{Cryptography} `{UnicodeDatabase} (auth_user : UUID → bool) (secret : bytes) (app_origin : pystr).
#[local] Instance access_accounts : AccountStore Db := pg_accounts auth_user.
#[local] Instance access_limiter : LimiterStore Db := persistent_limiter secret.

(** The routes that depend on a session. *)
Definition guarded (r : request) : bool :=
  match r with
  | StartOtp _ _ _ | VerifyOtp _ _ _ _ _ _ _ _ _ | RegistrationChallenge_ _ _ _ | CompleteEnrollment _ _ _ _
  | LinkingChallenge _ _ _ _ | IssueLoginChallenge _ _ _ _ _ | CompleteLogin _ _ _ _ | WebSocket _ _ _ _ _ _ _ _ => false
  | _ => true
  end.

(** Whom the session check of a request lets in. *)
Definition caller (s : Sender) (a : Application) : outcome SessionRecord :=
  (get_authenticated_session (sn_db s) (sn_current s) (sn_cookie s) (ap_database a)).1.

Section refused.
Context (s : Sender) (a : Application) (token : pystr).
Hypotheses (Hwf : well_formed (ap_database a)) (Hcookie : sn_cookie s = Some token) (Hlocked : locked_out token (ap_database a)).

Lemma session_refused {A} (handler : SessionRecord → M Application A) :
  with_session s handler a = (Raise (HTTPException 401), a).
Proof.
  unfold with_session, bind, on_database, zoom. rewrite Hcookie, locked_out_refused by done. by destruct a.
Qed.

Lemma csrf_refused {A} (handler : SessionRecord → M Application A) :
  with_csrf app_origin s handler a = (Raise (HTTPException 401), a).
Proof.
  unfold with_csrf, require_session_csrf, bind, on_database, zoom. rewrite Hcookie, locked_out_refused by done. by destruct a.
Qed.

Lemma guarded_refused r : guarded r = true → serve auth_user secret app_origin s r a = (Raise (HTTPException 401), a).
Proof.
  destruct r; try done; intros _; unfold serve, serve_on, no_cookie, sets_cookie.
  all: first [apply csrf_refused|unfold bind at 1; by rewrite ?session_refused, ?csrf_refused|idtac].
  unfold current_session, bind, on_database, zoom. rewrite Hcookie, locked_out_refused by done. by destruct a.
Qed.
End refused.

(** ** A logged-out device *)

(** The device a request logs out, when its session check lets it in. *)
Definition logs_out (s : Sender) (r : request) (a : Application) : option (UUID * UUID) :=
  match caller s a, r with
  | Ok session, Logout _ _ => Some (ses_user_id session, ses_device_id session)
  | Ok session, LogoutDevice _ _ device_id => Some (ses_user_id session, device_id)
  | _, _ => None
  end.

(** Every session of the device is revoked. *)
Definition signed_out (account device : UUID) (db : Db) : Prop :=
  ∀ x, x ∈ app_sessions db → ses_user_id x = account → ses_device_id x = device → ses_revoked_at x ≠ None.

Lemma signed_out_quiet account device db db' :
  well_formed db → rtc quiet db db' → signed_out account device db → signed_out account device db'.
Proof.
  intros Hwf Hq Hout x' Hx' Hu Hd. destruct (quiet_descend _ _ Hq) as [_ Hdesc].
  destruct (Hdesc Hwf x' Hx') as (x&Hx&_&Hxu&Hxd&_&_&_&_&Hr).
  destruct (ses_revoked_at x) as [t|] eqn:Ht; [by destruct (Hr t eq_refl) as [-> _]|].
  exfalso. apply (Hout x Hx); congruence.
Qed.

(** What a guarded handler that answered ran on. *)
Lemma csrf_enters {A} s (handler : SessionRecord → M Application A) a answer a' :
  with_csrf app_origin s handler a = (Ok answer, a') →
  ∃ session a1, get_authenticated_session (sn_db s) (sn_current s) (sn_cookie s) (ap_database a) = (Ok session, ap_database a1) ∧
    ap_presence a1 = ap_presence a ∧ handler session a1 = (Ok answer, a').
Proof.
  intros Hr. apply bind_ok_inv in Hr as (session&a1&Hs&Hr). exists session, a1.
  unfold on_database, zoom in Hs. destruct (require_session_csrf _ _ _ _ _ _) as [o db] eqn:Hreq.
  injection Hs as -> <-. split_and!; [|done..]. cbn [ap_database]. unfold require_session_csrf in Hreq.
  apply bind_ok_inv in Hreq as (x&db1&Hg&Hreq). apply bind_ok_inv in Hreq as ([]&db2&[= _ <-]&Hreq).
  rewrite Hg. destruct (csrf_header _); [|done]. destruct (_valid_csrf_value _ _); [|done]. by injection Hreq as <- <-.
Qed.

Lemma in_world_ok {A} (m : M (World Db) A) a x a' :
  in_world m a = (Ok x, a') → ∃ w', m (Build_World (ap_presence a) (ap_database a)) = (Ok x, w') ∧
    ap_database a' = w_store w' ∧ ap_presence a' = w_presence w'.
Proof. unfold in_world, zoom. destruct (m _) as [o w']. intros [= -> <-]. by exists w'. Qed.

Lemma on_store_ok {A} (m : M Db A) (w : World Db) x w' :
  on_store m w = (Ok x, w') → m (w_store w) = (Ok x, w_store w') ∧ w_presence w' = w_presence w.
Proof. unfold on_store, zoom. destruct (m (w_store w)) as [o db]. by intros [= -> <-]. Qed.

Lemma logged_out_signed_out now account device reason db dev db' :
  Devices.Pg.logout_with_sessions now account device reason db = (Ok (Some dev), db') → signed_out account device db'.
Proof. intros (old&_&_&_&_&_&Hs)%with_sessions_spec. exact Hs. Qed.

(** Both routes sign the device out, then disconnect it. *)
Definition out_of (account device : UUID) (w w' : World Db) : Prop :=
  signed_out account device (w_store w') ∧
  (presence_ok (w_presence w) → current_connection account device (w_presence w') = None).

Lemma disconnects cfg c account device reason now dev w w1 w' :
  well_formed (w_store w) → Devices.Pg.logout_with_sessions now account device reason (w_store w) = (Ok (Some dev), w_store w1) →
  w_presence w1 = w_presence w → disconnect (T := Db) cfg true c account device w1 = (Ok tt, w') → out_of account device w w'.
Proof.
  intros Hwf Hl Hp Hd. pose proof (q_device_logout now account device reason (w_store w)) as Hq. rewrite Hl in Hq. split.
  - eapply signed_out_quiet; [| |by eapply logged_out_signed_out].
    + eapply db_step_well_formed; [|exact Hwf]. apply (quiet_descend _ _ Hq).
    + assert (respects (calls (rtc quiet)) (disconnect (T := Db) cfg true c account device)) as Hc by (unfold disconnect; walk).
      specialize (Hc w1). by rewrite Hd in Hc.
  - intros Hok. rewrite <- Hp in Hok. pose proof (disconnected cfg true c account device w1 eq_refl Hok) as Hn. by rewrite Hd in Hn.
Qed.

Lemma logout_device_out_of cfg c db_now session device w answer w' :
  well_formed (w_store w) → logout_device_route (T := Db) cfg true c db_now session device w = (Ok answer, w') →
  out_of (ses_user_id session) device w w'.
Proof.
  intros Hwf Hr. apply bind_ok_inv in Hr as ([dev|]&w1&[Hl Hp]%on_store_ok&Hr); [|done].
  apply bind_ok_inv in Hr as ([]&w2&Hd&[= _ <-]). by eapply disconnects.
Qed.

Lemma logout_out_of cfg c db_now session w answer w' :
  well_formed (w_store w) →
  (∃ dev, dev ∈ devices (w_store w) ∧ dev_user_id dev = ses_user_id session ∧ dev_id dev = ses_device_id session) →
  logout (T := Db) cfg true c db_now session w = (Ok answer, w') →
  out_of (ses_user_id session) (ses_device_id session) w w'.
Proof.
  intros Hwf (dev0&Hin&Hu&Hd0) Hr.
  apply bind_ok_inv in Hr as ([dev|]&w1&[Hl Hp]%on_store_ok&Hr); cbn [logout_device pg_devices] in Hl.
  2: { by destruct (with_sessions_none _ _ _ _ _ _ _ Hl dev0 Hin). }
  apply bind_ok_inv in Hr as ([]&w2&[= <-]&Hr). apply bind_ok_inv in Hr as ([]&w3&Hd&[= _ <-]). by eapply disconnects.
Qed.

Lemma logs_out_out_of s r a answer a' account device :
  well_formed (ap_database a) → serve auth_user secret app_origin s r a = (Ok answer, a') →
  logs_out s r a = Some (account, device) →
  signed_out account device (ap_database a') ∧
  (presence_ok (ap_presence a) → current_connection account device (ap_presence a') = None).
Proof.
  intros Hwf Hr Hl. unfold logs_out, caller in Hl.
  destruct (get_authenticated_session _ _ _ (ap_database a)) as [[session|e] db1] eqn:Hg; [|done]. simpl in Hl.
  pose proof (q_session_of (sn_db s) (sn_current s) (sn_cookie s) (ap_database a)) as Hq. rewrite Hg in Hq.
  assert (well_formed db1) as Hwf1 by (eapply db_step_well_formed; [apply (quiet_descend _ _ Hq)|done]).
  destruct r; try done; injection Hl as <- <-; unfold serve, serve_on in Hr.
  - apply csrf_enters in Hr as (session'&a1&Hg'&Hp&Hr). rewrite Hg in Hg'. injection Hg' as <- ->.
    apply bind_ok_inv in Hr as (x&a2&(w'&Hw&Hdb&Hpr)%in_world_ok&[= _ <-]). rewrite Hdb, Hpr, <- Hp.
    by eapply logout_device_out_of in Hw.
  - apply bind_ok_inv in Hr as (x&a2&Hr&[= _ <-]). apply csrf_enters in Hr as (session'&a1&Hg'&Hp&Hr).
    pose proof (caller_device _ _ _ _ _ _ Hwf Hg) as Hdev. rewrite Hg in Hg'. injection Hg' as <- ->.
    apply in_world_ok in Hr as (w'&Hw&Hdb&Hpr). rewrite Hdb, Hpr, <- Hp. by eapply logout_out_of in Hw.
Qed.

(** C4: logging a device out locks it out.  When a logout, or the logout of
    one of the account's devices, is answered on a well-formed database, every
    session of that device is revoked and its socket is no longer registered
    (when the presence manager was consistent).  Whatever is requested
    afterwards, by anyone, a request that brings the cookie of one of those
    sessions to a route that needs a session is refused with 401 and changes
    nothing, and no ticket opens a socket for one of them. *)
Theorem logout_locks_out s r a answer a' account device :
  well_formed (ap_database a) → serve auth_user secret app_origin s r a = (Ok answer, a') →
  logs_out s r a = Some (account, device) →
  signed_out account device (ap_database a') ∧
  (presence_ok (ap_presence a) → current_connection account device (ap_presence a') = None) ∧
  ∀ requests x, let later := handle auth_user secret app_origin requests a' in
    x ∈ app_sessions (ap_database a') → ses_user_id x = account → ses_device_id x = device →
    (∀ s' r' token, sn_cookie s' = Some token → hash_secret token = Ok (ses_token_hash x) → guarded r' = true →
       serve auth_user secret app_origin s' r' later = (Raise (HTTPException 401), later)) ∧
    (∀ origin query configured now lookup session,
       (Tickets.authenticate_socket (T := Db) (Some app_origin) origin query configured now lookup (ap_database later)).1 =
         Ok (inr session) → ses_id session ≠ ses_id x).
Proof.
  intros Hwf Hr Hl. destruct (logs_out_out_of _ _ _ _ _ _ _ Hwf Hr Hl) as [Hout Hsocket]. split_and!; [done..|].
  intros requests x later Hx Hu Hd.
  assert (well_formed (ap_database a')) as Hwf1.
  { eapply db_step_well_formed; [apply run_step|exact Hwf]. pose proof (serve_opens auth_user secret app_origin s r a) as [Hst _].
    by rewrite Hr in Hst. }
  pose proof (handle_statements auth_user secret app_origin requests a') as Hst. split.
  - intros s' r' token Hc Hb Hg. eapply guarded_refused; [|exact Hc| |exact Hg].
    + eapply db_step_well_formed; [by apply run_step|done].
    + eapply locked_out_run; [exact Hwf1|exact Hst|]. exists x. split_and!; [done|done|]. by apply Hout.
  - intros. eapply revoked_not_admitted; [exact Hwf1|exact Hst|done|by apply Hout|done].
Qed.

(** ** A request stays in its account *)

(** The session check reads one session and refreshes it. *)
Lemma checked_isolated now current cookie db o db1 :
  get_authenticated_session now current cookie db = (o, db1) →
  match o with Ok session => isolated (ses_user_id session) db db1 | Raise _ => db1 = db end.
Proof.
  unfold get_authenticated_session, authenticate. destruct (_token_hash cookie) as [h|]; [|by intros [= <- <-]].
  unfold bind at 1 2, gets. cbn [find_row touch_row pg_sessions fst snd].
  destruct (Sessions.Pg.find_by_token_hash _ _ _) as [x|]; [|by intros [= <- <-]].
  destruct (negb _); [by intros [= <- <-]|]. unfold bind at 1.
  pose proof (i_session_touch (ses_user_id x) (now 1%nat) (ses_id x) db) as Hi.
  destruct (Sessions.Pg.touch_last_seen _ _ _ db) as [[touched|e] db2] eqn:Ht.
  - intros [= <- <-]. destruct touched as [y|]; [|done]. simpl in *.
    apply bind_ok_inv in Ht as (d&db3&[= <- <-]&Ht). apply bind_ok_inv in Ht as (rows&db4&(_&_&Hup)%update_step&[= Hf <-]).
    destruct (update_first_row _ _ _ _ _ _ _ Hup Hf) as (old&_&Hc&->&_). unfold Sessions.Pg.owned in Hc. to_prop. by simpl; congruence.
  - intros [= <- <-]. unfold Sessions.Pg.touch_last_seen, Sessions.Pg.update, bind, gets, on_app_sessions, zoom in Ht. simpl in Ht.
    destruct (update_returning _ _ _ (app_sessions db)) as [[rows|e'] t] eqn:Hup; [done|]. injection Ht as _ <-.
    unfold update_returning in Hup. destruct (forallb _ _); [done|]. injection Hup as _ <-. by destruct db.
Qed.

(** What a request that needs a session may change. *)
Definition stays (s : Sender) (a a' : Application) : Prop :=
  match caller s a with
  | Ok session => isolated (ses_user_id session) (ap_database a) (ap_database a')
  | Raise _ => ap_database a' = ap_database a
  end.

Lemma session_stays {A} s (handler : SessionRecord → M Application A) a :
  (∀ session, respects (app_calls (isolated (ses_user_id session))) (handler session)) →
  stays s a (with_session s handler a).2.
Proof.
  intros Hh. unfold stays, caller, with_session, bind, on_database, zoom.
  destruct (get_authenticated_session _ _ _ _) as [o db1] eqn:Hg. apply checked_isolated in Hg. simpl.
  destruct o as [session|e]; [|done]. etrans; [exact Hg|]. apply Hh.
Qed.

Lemma csrf_stays {A} s (handler : SessionRecord → M Application A) a :
  (∀ session, respects (app_calls (isolated (ses_user_id session))) (handler session)) →
  stays s a (with_csrf app_origin s handler a).2.
Proof.
  intros Hh. unfold stays, caller, with_csrf, require_session_csrf, bind, on_database, zoom, lift.
  destruct (get_authenticated_session _ _ _ _) as [o db1] eqn:Hg. apply checked_isolated in Hg. cbn [fst snd].
  destruct o as [session|e]; [|done]. destruct (require_exact_origin _ _); [|done]. destruct (csrf_header _); [|done].
  destruct (_valid_csrf_value _ _); [|done]. etrans; [exact Hg|]. apply Hh.
Qed.

Lemma current_stays s raw a :
  stays s a (on_database (current_session app_origin (sn_headers s) (sn_db s) (sn_current s) (sn_cookie s) raw) a).2.
Proof.
  unfold stays, caller, on_database. rewrite zoom_snd. cbn [ap_database]. unfold current_session.
  match goal with |- context [bind ?m ?k (ap_database a)] => change (bind m k (ap_database a)) with
    (match m (ap_database a) with (Ok x, db) => k x db | (Raise e, db) => (Raise e, db) end) end.
  destruct (get_authenticated_session _ _ _ _) as [o db1] eqn:Hg. apply checked_isolated in Hg.
  destruct o as [session|e]; [|done]. cbn [fst].
  assert (respects (isolated (ses_user_id session)) (do! lift (check_optional_origin app_origin (sn_headers s)) in
    reissue_csrf (R := Db) (sn_db s 2%nat) raw (ses_user_id session) (ses_id session))) as Hr.
  { unfold reissue_csrf. simpl. walk. }
  specialize (Hr db1). destruct (bind _ _ db1) as [o db2]. simpl in *. by etrans.
Qed.

#[local] Hint Resolve d_linking_otp d_list_devices d_rename : respects.

(** C3: a request stays in its account.  Whatever a request to a route that
    needs a session asks for, and however it ends, the rows of every other
    account (devices, sessions, linking codes, transfers, tickets, security
    events) are left as they were, and so are the accounts, the login
    challenges and which sessions the account has; when the session check lets
    nobody in, the database does not change at all. *)
Theorem requests_stay_in_account s r a :
  guarded r = true → stays s a (serve auth_user secret app_origin s r a).2.
Proof.
  destruct r; try done; intros _; unfold serve, serve_on; rewrite ?no_cookie_snd, ?sets_cookie_snd.
  all: first [apply current_stays|apply session_stays|apply csrf_stays]; intros session; walk.
Qed.
End access.

(** ** Witnesses *)
#[local] Existing Instance toy_cryptography.
#[local] Existing Instance ascii_unicode.

Definition laptop_cookie : pystr := Eval vm_compute in encode_base64url (repeat x03 32).
Definition laptop_csrf : pystr := Eval vm_compute in encode_base64url (repeat x04 32).

(** The laptop, signed in by [visits]. *)
Definition leaver : Sender :=
  {| sn_headers := [("origin", site); ("x-csrf-token", laptop_csrf)]; sn_cookie := Some laptop_cookie; sn_host := None;
     sn_current := minutes 2; sn_db := at_minute |}.

Definition signed_in : Application := Eval vm_compute in handle (λ _, true) [] site visits relay.

Example signed_in_lists : (serve (λ _, true) [] site leaver ListDevices signed_in).1 = Ok None.
Proof. vm_compute. reflexivity. Qed.

Lemma signed_in_well_formed : well_formed (ap_database signed_in).
Proof.
  assert (signed_in = handle (λ _, true) [] site visits relay) as -> by (vm_compute; reflexivity).
  eapply db_step_well_formed; [apply run_step, handle_statements|exact home_well_formed].
Qed.

Lemma logout_locks_out_witness :
  ∃ a', serve (λ _, true) [] site leaver (Logout (λ _, 0%Z) at_minute) signed_in = (Ok (Some DeleteCookie), a') ∧
    serve (λ _, true) [] site leaver ListDevices a' = (Raise (HTTPException 401), a').
Proof.
  set (own x := bool_decide (ses_user_id x = 1%N ∧ ses_device_id x = 10%N ∧ hash_secret laptop_cookie = Ok (ses_token_hash x))).
  assert ((serve (λ _, true) [] site leaver (Logout (λ _, 0%Z) at_minute) signed_in).1 = Ok (Some DeleteCookie)) as Hok
    by (vm_compute; reflexivity).
  assert (find own (app_sessions (ap_database (serve (λ _, true) [] site leaver (Logout (λ _, 0%Z) at_minute) signed_in).2)) ≠
    None) as Hown by (vm_compute; discriminate).
  destruct (serve (λ _, true) [] site leaver (Logout (λ _, 0%Z) at_minute) signed_in) as [o a'] eqn:Hr.
  cbn [fst snd] in Hok, Hown. subst o.
  exists a'. split; [reflexivity|].
  assert (logs_out leaver (Logout (λ _, 0%Z) at_minute) signed_in = Some (1%N, 10%N)) as Hl by (vm_compute; reflexivity).
  destruct (logout_locks_out (λ _, true) [] site _ _ _ _ _ _ _ signed_in_well_formed Hr Hl) as (_&_&Hlater).
  assert (∃ x, x ∈ app_sessions (ap_database a') ∧ ses_user_id x = 1%N ∧ ses_device_id x = 10%N ∧
    hash_secret laptop_cookie = Ok (ses_token_hash x)) as (x&Hx&Hu&Hd&Hb).
  { destruct (find own (app_sessions (ap_database a'))) as [x|] eqn:Hx; [|exact (False_ind _ (Hown eq_refl))]. apply find_some in Hx as [Hx Hk]. apply bool_decide_eq_true_1 in Hk.
    exists x. split; [by apply list_elem_of_In|exact Hk]. }
  exact (proj1 (Hlater [] x Hx Hu Hd) leaver ListDevices laptop_cookie eq_refl Hb eq_refl).
Defined.

(** The phone is renamed, beside another account's device of the same name. *)
Definition stranger_phone : DeviceRecord :=
  {| dev_id := 31; dev_user_id := 2; dev_epoch := 0; dev_label := u "phone"; dev_signing_public_key_spki := tablet_key;
     dev_fingerprint := phone_fingerprint; dev_status := "active"; dev_created_at := 0; dev_last_seen_at := 0;
     dev_revoked_at := None; dev_linked_by_device_id := None |}.

Definition two_accounts : Application :=
  {| ap_presence := initial_presence;
     ap_database := Build_Db (app_users (ap_database signed_in)) (devices (ap_database signed_in) ++ [stranger_phone])
       (app_sessions (ap_database signed_in)) [] [] [] [] [] [];
     ap_bootstrap := ap_bootstrap signed_in; ap_registrations := ap_registrations signed_in |}.

Lemma requests_stay_in_account_witness :
  let after := (serve (λ _, true) [] site leaver (RenameDevice 11 (u "old phone")) two_accounts).2 in
  isolated 1 (ap_database two_accounts) (ap_database after) ∧
  map dev_label (devices (ap_database after)) = [u "laptop"; u "old phone"; u "tablet"; u "phone"].
Proof.
  assert (ses_user_id <$> (match caller leaver two_accounts with Ok x => Some x | Raise _ => None end) = Some 1%N) as Hc
    by (vm_compute; reflexivity).
  split; [|vm_compute; reflexivity].
  pose proof (requests_stay_in_account (λ _, true) [] site leaver (RenameDevice 11 (u "old phone")) two_accounts eq_refl) as Hs.
  unfold stays in Hs. destruct (caller leaver two_accounts) as [session|e]; [|discriminate Hc].
  injection Hc as Hc. rewrite Hc in Hs. exact Hs.
Defined.
