(* ===== verification/CrossSite.v ===== *)
(** * CrossSite: which requests count

    The browser sends the session cookie with requests another site's page
    makes.  Every request is either entitled, by its Origin, its session and its
    CSRF secret as its route asks for them, or ignored: refused, with nothing
    changed but the activity of the cookie's own session.  [Pipeline] has the
    theorem about the HTTP requests, with the middlewares around the routes. *)
From Stdlib.Strings Require Import Byte.
From S2P Require Import Prelude PyDict Json Models Sql Tables Schema Hashing Security Sessions SessionTheorems RateLimits.
From S2P Require Import TransferPort TransferRepository Integrity History Signaling Presence Socket Fixtures.
From S2P Require Import SocketInvariant TransferService RouteCalls.
From S2P Require Import Accounts Devices Challenges LinkingOtps Tickets Events.
From S2P Require Import Auth DeviceCrypto DeviceAuth DeviceRoutes TransferRoutes Adapters Turn Main Application DeviceAuthTheorems.
From S2P Require Import ApplicationTheorems ApplicationAccess.
From stdpp Require Import list strings relations.

(** ** What a session check leaves behind *)

(** [x'] is [x], or [x] is the session of the cookie and its last use and idle
    deadline were moved. *)
Definition row_refreshed (cookie : option pystr) (x x' : SessionRecord) : Prop :=
  x' = x ∨ (∃ token, cookie = Some token ∧ bears token x) ∧ ∃ now idle, x' = ses_touched x now idle.

Definition refreshed (cookie : option pystr) (db db' : Db) : Prop :=
  Forall2 (row_refreshed cookie) (app_sessions db) (app_sessions db') ∧
  db' = Build_Db (app_users db) (devices db) (app_sessions db') (device_challenges db) (device_linking_otps db)
          (transfer_requests db) (websocket_tickets db) (security_events db) (rate_limit_buckets db).

Lemma refreshed_refl cookie db : refreshed cookie db db.
Proof. split; [|by destruct db]. induction (app_sessions db); [apply Forall2_nil_2|apply Forall2_cons_2; [by left|done]]. Qed.

Lemma update_related {Row} (R : Row → Row → Prop) check cond set t :
  (∀ y, R y y) → (∀ y, y ∈ t → cond y = true → R y (set y)) → Forall2 R t (update_returning check cond set t).2.
Proof.
  intros Hrefl Hset. destruct (update_table check cond set t) as [->| ->].
  - clear -Hrefl. induction t; [apply Forall2_nil_2|by apply Forall2_cons_2].
  - unfold update_set. revert Hset. induction t as [|y t IH]; intros Hset; simpl; [apply Forall2_nil_2|apply Forall2_cons_2].
    + destruct (cond y) eqn:Hc; [|done]. apply Hset; [left|done].
    + apply IH. intros z Hz. apply Hset. by right.
Qed.

Lemma touch_refreshes now cookie token x db :
  well_formed db → x ∈ app_sessions db → cookie = Some token → bears token x →
  refreshed cookie db (Sessions.Pg.touch_last_seen now (ses_user_id x) (ses_id x) db).2.
Proof.
  intros Hwf Hx Hc Hb.
  assert (∀ cond set, (∀ y, cond y = true → ses_id y = ses_id x) → (∀ y, ∃ t idle, set y = ses_touched y t idle) →
    refreshed cookie db (Sessions.Pg.update cond set db).2) as Hup.
  { intros cond set Hcond Hset. unfold Sessions.Pg.update, on_app_sessions. rewrite zoom_snd. split; [|done]. simpl.
    apply update_related; [by left|]. intros y Hy Hk. right. split; [|by apply Hset]. exists token. split; [done|].
    assert (y = x) as ->; [|done]. eapply (NoDup_map_eq ses_id); [apply (well_formed_unique _ Hwf)|done|done|by apply Hcond]. }
  unfold Sessions.Pg.touch_last_seen, bind at 1, gets. cbn [fst snd]. unfold bind.
  match goal with |- context [Sessions.Pg.update ?c ?f db] => specialize (Hup c f); destruct (Sessions.Pg.update c f db) as [[rows|e] db'] end;
    (apply Hup; [intros y Hy; unfold Sessions.Pg.owned in Hy; by to_prop|by eexists _, _]).
Qed.

(** ** The session check *)

(** A live session, on the database's clock and on the process's. *)
Definition bearer (s : Sender) (db : Db) (stored : SessionRecord) : Prop :=
  ∃ token, sn_cookie s = Some token ∧ bears token stored ∧ live_session db (sn_db s 0%nat) stored ∧
    (sn_current s < ses_idle_expires_at stored)%Z ∧ (sn_current s < ses_absolute_expires_at stored)%Z.

(** The answers of a refusal: no session, no right to this, no valid body, or
    no database. *)
Definition refusal (e : exn) : Prop :=
  e ∈ [HTTPException 401; HTTPException 403; HTTPException 422; BackendUnavailableError].

Lemma update_raises {Row} (check : Row → bool) cond set t e t' :
  update_returning check cond set t = (Raise e, t') → e = BackendUnavailableError.
Proof. unfold update_returning. destruct (forallb _ _); [done|]. by intros [= <- _]. Qed.

Lemma check_refusal s (db : Db) e db' :
  get_authenticated_session (sn_db s) (sn_current s) (sn_cookie s) db = (Raise e, db') → refusal e.
Proof.
  unfold get_authenticated_session, authenticate. intros Hg.
  assert (e = HTTPException 401 ∨ e = BackendUnavailableError) as [->| ->]; [|unfold refusal; set_solver..].
  destruct (_token_hash _) as [h|]; [|injection Hg as <- _; auto]. unfold bind at 1 2, gets in Hg. cbn [fst snd] in Hg.
  destruct (find_row _ _ _) as [x|]; [|injection Hg as <- _; auto]. destruct (negb _); [injection Hg as <- _; auto|].
  cbn [touch_row pg_sessions] in Hg. unfold Sessions.Pg.touch_last_seen, bind, gets, Sessions.Pg.update, on_app_sessions, zoom in Hg.
  simpl in Hg. destruct (update_returning _ _ _ _) as [[rows|e'] t] eqn:Hu; [done|]. apply update_raises in Hu as ->.
  injection Hg as <- _. auto.
Qed.

Lemma check_spec s (db : Db) o db' :
  well_formed db → get_authenticated_session (sn_db s) (sn_current s) (sn_cookie s) db = (o, db') →
  refreshed (sn_cookie s) db db' ∧
  ∀ session, o = Ok session → ∃ stored, bearer s db stored ∧ ses_csrf_hash session = ses_csrf_hash stored.
Proof.
  intros Hwf Hg. split.
  - unfold get_authenticated_session, authenticate, _token_hash in Hg.
    destruct (sn_cookie s) as [token|] eqn:Hc; [|injection Hg as _ <-; apply refreshed_refl].
    destruct (negb _); [injection Hg as _ <-; apply refreshed_refl|].
    destruct (hash_secret token) as [h|] eqn:Hh; [|injection Hg as _ <-; apply refreshed_refl].
    unfold bind at 1 2, gets in Hg. cbn [find_row touch_row pg_sessions fst snd] in Hg.
    destruct (Sessions.Pg.find_by_token_hash _ _ _) as [x|] eqn:Hf; [|injection Hg as _ <-; apply refreshed_refl].
    destruct (negb _); [injection Hg as _ <-; apply refreshed_refl|].
    apply first_row_elem, joined_elem in Hf as (Hx&Hk&_). to_prop.
    pose proof (touch_refreshes (sn_db s 1%nat) (Some token) token x db Hwf Hx eq_refl ltac:(unfold bears; congruence)) as Ht.
    unfold bind in Hg. destruct (Sessions.Pg.touch_last_seen _ _ _ db) as [[touched|e] db2]; by injection Hg as _ <-.
  - intros session ->. apply bind_ok_inv in Hg as ([r|]&db1&Ha&Hg); [|done]. injection Hg as <- <-.
    destruct (authenticate_result _ _ _ _ _ _ (well_formed_unique _ Hwf) Ha r eq_refl)
      as (token&stored&Hc&Hh&Hl&Hu&Hs). unfold Sessions.Pg.unexpired in Hu. to_prop.
    exists stored. split; [by exists token|]. by destruct Hs as [->|[-> _]].
Qed.

(** ** The dichotomy *)

(** The Origin a request brings; a socket's comes with its handshake. *)
Definition request_origin (s : Sender) (r : request) : option pystr :=
  match r with WebSocket origin _ _ _ _ _ _ _ => origin | _ => header "origin" (sn_headers s) end.

(** Routes that refuse a request without an Origin; the others refuse a
    foreign one. *)
Definition insists (r : request) : bool :=
  match r with
  | StartOtp _ _ _ | VerifyOtp _ _ _ _ _ _ _ _ _ | ListDevices | CurrentSession _ | ListSessions | ListOnline _
  | ListTransfers _ | GetTransfer _ _ _ | GetPeerKey _ _ _ => false
  | _ => true
  end.

(** Routes that ask for the CSRF secret: those that need a session and insist
    on the Origin. *)
Definition needs_csrf (r : request) : bool := guarded r && insists r.

Definition entitled (app_origin : pystr) (s : Sender) (r : request) (a : Application) : Prop :=
  (if insists r then request_origin s r = Some app_origin
   else ∀ origin, request_origin s r = Some origin → origin = app_origin) ∧
  (guarded r = true → ∃ stored, bearer s (ap_database a) stored ∧
     (needs_csrf r = true → ∃ supplied,
        header "x-csrf-token" (sn_headers s) = Some supplied ∧ hash_secret supplied = Ok (ses_csrf_hash stored))).

(** Refused, or its socket closed before it was accepted. *)
Definition ignored (s : Sender) (r : request) (a : Application) (served : outcome (option cookie) * Application) : Prop :=
  refreshed (sn_cookie s) (ap_database a) (ap_database served.2) ∧
  ap_bootstrap served.2 = ap_bootstrap a ∧ ap_registrations served.2 = ap_registrations a ∧
  match r with
  | WebSocket _ _ _ _ _ websocket _ _ => ap_presence served.2 = (_close websocket WEBSOCKET_CLOSE_POLICY (ap_presence a)).2
  | _ => ap_presence served.2 = ap_presence a ∧ ∃ e, served.1 = Raise e ∧ refusal e
  end.

(** The Origin checks answer 403. *)
Lemma exact_raises app_origin hs e : require_exact_origin app_origin hs = Raise e → refusal e.
Proof.
  unfold require_exact_origin, request_origin_is_allowed. destruct (_ && _); [|done]. intros [= <-]. unfold refusal. set_solver.
Qed.

Lemma optional_raises app_origin hs e : check_optional_origin app_origin hs = Raise e → refusal e.
Proof. unfold check_optional_origin. destruct (header _ _); [apply exact_raises|done]. Qed.

Section cross_site.
Context `{Cryptography} `{UnicodeDatabase} (auth_user : UUID → bool) (secret : bytes) (app_origin : pystr).
#[local] Instance cross_accounts : AccountStore Db := pg_accounts auth_user.
#[local] Instance cross_limiter : LimiterStore Db := persistent_limiter secret.

Definition refused {A} (s : Sender) (a : Application) (served : outcome A * Application) : Prop :=
  refreshed (sn_cookie s) (ap_database a) (ap_database served.2) ∧
  ap_bootstrap served.2 = ap_bootstrap a ∧ ap_registrations served.2 = ap_registrations a ∧
  ap_presence served.2 = ap_presence a ∧ ∃ e, served.1 = Raise e ∧ refusal e.

Lemma refused_no_cookie {A} s a (m : M Application A) : refused s a (m a) → refused s a (no_cookie m a).
Proof.
  unfold refused. rewrite no_cookie_snd. intros (?&?&?&?&e&He&Hr). split_and!; try done.
  unfold no_cookie, bind. destruct (m a) as [[x|x] a']; [done|]. injection He as <-. by exists x.
Qed.

Lemma refused_sets_cookie {A} s a (m : M Application (A * cookie)) : refused s a (m a) → refused s a (sets_cookie m a).
Proof.
  unfold refused. rewrite sets_cookie_snd. intros (?&?&?&?&e&He&Hr). split_and!; try done.
  unfold sets_cookie, bind. destruct (m a) as [[x|x] a']; [done|]. injection He as <-. by exists x.
Qed.

Lemma refused_here {A} s a e : refusal e → refused s a (@Raise A e, a).
Proof. intros He. split_and!; [apply refreshed_refl|done..|by exists e]. Qed.

Section sender.
Context (s : Sender) (a : Application).
Hypothesis Hwf : well_formed (ap_database a).

(** The check of a dependency on the database, and the state it leaves. *)
Lemma checked_session (o : outcome SessionRecord) db' :
  get_authenticated_session (sn_db s) (sn_current s) (sn_cookie s) (ap_database a) = (o, db') →
  let a1 := Build_Application (ap_presence a) db' (ap_bootstrap a) (ap_registrations a) in
  (∀ A e, refusal e → refused s a (@Raise A e, a1)) ∧ (∀ e, o = Raise e → refusal e) ∧
  ∀ session, o = Ok session → ∃ stored, bearer s (ap_database a) stored ∧ ses_csrf_hash session = ses_csrf_hash stored.
Proof.
  intros Hg. split_and!; [|by intros e ->; eapply check_refusal|by apply check_spec in Hg as [_ Hs]].
  apply check_spec in Hg as [Href _]; [|done]. intros A e He. by split_and!; [..|exists e].
Qed.

Lemma with_session_cases {A} (handler : SessionRecord → M Application A) :
  refused s a (with_session s handler a) ∨
  (∃ stored, bearer s (ap_database a) stored) ∧
  ((∀ session a1, ∃ e, refusal e ∧ handler session a1 = (Raise e, a1)) → refused s a (with_session s handler a)).
Proof.
  unfold with_session, bind, on_database, zoom. destruct (get_authenticated_session _ _ _ _) as [o db'] eqn:Hg.
  apply checked_session in Hg as (Href&Hne&Hs). destruct o as [session|e]; [right|left; by apply Href, Hne].
  destruct (Hs session eq_refl) as (stored&Hb&_). split; [by exists stored|]. intros Hh.
  destruct (Hh session (Build_Application (ap_presence a) db' (ap_bootstrap a) (ap_registrations a))) as (e&He&->). by apply Href.
Qed.

Lemma with_csrf_cases {A} (handler : SessionRecord → M Application A) :
  refused s a (with_csrf app_origin s handler a) ∨
  header "origin" (sn_headers s) = Some app_origin ∧
  ∃ stored, bearer s (ap_database a) stored ∧ ∃ supplied,
    header "x-csrf-token" (sn_headers s) = Some supplied ∧ hash_secret supplied = Ok (ses_csrf_hash stored).
Proof.
  unfold with_csrf, require_session_csrf, bind, on_database, zoom, lift.
  destruct (get_authenticated_session _ _ _ _) as [o db'] eqn:Hg.
  apply checked_session in Hg as (Href&Hne&Hs). destruct o as [session|e]; [|left; by apply Href, Hne].
  destruct (require_exact_origin app_origin (sn_headers s)) as [[]|e] eqn:Ho; [|left; by apply Href, (exact_raises _ _ _ Ho)].
  assert (refusal (HTTPException 403)) as H403 by (unfold refusal; set_solver).
  destruct (csrf_header (sn_headers s)) as [supplied|] eqn:Hc; [|left; by apply Href].
  destruct (_valid_csrf_value supplied (ses_csrf_hash session)) eqn:Hv; [right|left; by apply Href]. split.
  - unfold require_exact_origin, request_origin_is_allowed in Ho. by case_bool_decide.
  - destruct (Hs session eq_refl) as (stored&Hb&Heq). exists stored. split; [done|]. exists supplied.
    unfold _valid_csrf_value in Hv. destruct (negb _); [done|]. destruct (hash_secret supplied) as [h|] eqn:Hsh; [|done]. to_prop.
    split; [|congruence]. unfold csrf_header in Hc. by destruct (header "x-csrf-token" (sn_headers s)) as [[|]|].
Qed.

(** A foreign Origin, and a missing one. *)
Lemma foreign_refused origin :
  header "origin" (sn_headers s) = Some origin → origin ≠ app_origin →
  ∃ e, check_optional_origin app_origin (sn_headers s) = Raise e.
Proof.
  intros Ho Hne. unfold check_optional_origin, require_exact_origin, request_origin_is_allowed. rewrite Ho.
  rewrite bool_decide_false by congruence. by eexists.
Qed.

Lemma exact_refused : header "origin" (sn_headers s) ≠ Some app_origin → ∃ e, require_exact_origin app_origin (sn_headers s) = Raise e.
Proof.
  intros Hne. unfold require_exact_origin, request_origin_is_allowed. rewrite bool_decide_false by done. by eexists.
Qed.

(** *** By the kind of route *)
Notation served r := (serve auth_user secret app_origin s r a).

Lemma refused_ignored r m :
  match r with WebSocket _ _ _ _ _ _ _ _ => False | _ => True end → refused s a m → ignored s r a m.
Proof. intros Hr (?&?&?&?&?). unfold ignored. by destruct r. Qed.

Lemma acceptable_or_foreign (o : option pystr) :
  (∀ origin, o = Some origin → origin = app_origin) ∨ ∃ origin, o = Some origin ∧ origin ≠ app_origin.
Proof.
  destruct o as [o|]; [|by left]. destruct (decide (o = app_origin)) as [->|Hne]; [left|right; eauto]. by intros ? [= <-].
Qed.

Lemma csrf_route {A} r (handler : SessionRecord → M Application A) :
  needs_csrf r = true → request_origin s r = header "origin" (sn_headers s) →
  (refused s a (with_csrf app_origin s handler a) → ignored s r a (served r)) →
  entitled app_origin s r a ∨ ignored s r a (served r).
Proof.
  intros Hn Ho Hi. destruct (with_csrf_cases handler) as [Href|(Horig&stored&Hb&Hx)]; [right; by apply Hi|left].
  pose proof Hn as [_ Hins]%andb_true_iff. split; [by rewrite Hins, Ho|]. intros _. by exists stored.
Qed.

Lemma session_route {A} r (handler : SessionRecord → M Application A) :
  needs_csrf r = false → insists r = false → request_origin s r = header "origin" (sn_headers s) →
  (∀ e, check_optional_origin app_origin (sn_headers s) = Raise e → ∀ session a1, ∃ e, refusal e ∧ handler session a1 = (Raise e, a1)) →
  (refused s a (with_session s handler a) → ignored s r a (served r)) →
  entitled app_origin s r a ∨ ignored s r a (served r).
Proof.
  intros Hn Hins Ho Hh Hi. destruct (with_session_cases handler) as [Href|[(stored&Hb) Hforeign]]; [right; by apply Hi|].
  destruct (acceptable_or_foreign (request_origin s r)) as [Hok|(origin&Horig&Hne)]; [left|right].
  - split; [by rewrite Hins|]. intros _. exists stored. rewrite Hn. by split.
  - apply Hi, Hforeign. rewrite Ho in Horig. destruct (foreign_refused origin Horig Hne) as [e He]. by apply (Hh e).
Qed.

(** The routes before a session: the Origin is checked before anything else. *)
Lemma early_route r :
  guarded r = false → request_origin s r = header "origin" (sn_headers s) →
  match r with WebSocket _ _ _ _ _ _ _ _ => False | _ => True end →
  (∀ e, (if insists r then require_exact_origin app_origin (sn_headers s)
         else check_optional_origin app_origin (sn_headers s)) = Raise e → ∃ e, refusal e ∧ served r = (Raise e, a)) →
  entitled app_origin s r a ∨ ignored s r a (served r).
Proof.
  intros Hg Ho Hws Hi. unfold entitled. rewrite Hg, Ho. destruct (insists r).
  - destruct (decide (header "origin" (sn_headers s) = Some app_origin)) as [Heq|Hne]; [by left|right].
    destruct (exact_refused Hne) as [e He]. destruct (Hi e He) as (e'&Hr&->). by apply refused_ignored, refused_here.
  - destruct (acceptable_or_foreign (header "origin" (sn_headers s))) as [Hok|(origin&Horig&Hne)]; [by left|right].
    destruct (foreign_refused origin Horig Hne) as [e He]. destruct (Hi e He) as (e'&Hr&->). by apply refused_ignored, refused_here.
Qed.

(** A handshake with another Origin is closed. *)
Lemma socket_route origin query now lookup i websocket c events :
  let r := WebSocket origin query now lookup i websocket c events in
  entitled app_origin s r a ∨ ignored s r a (served r).
Proof.
  intros r. destruct (decide (origin = Some app_origin)) as [->|Hne]; [by left|right].
  unfold ignored, serve, serve_on, r. rewrite no_cookie_snd.
  assert (websocket_presence production_presence (Some app_origin) origin query true now lookup i websocket c events
    (Build_World (ap_presence a) (ap_database a)) =
    on_presence (_close websocket WEBSOCKET_CLOSE_POLICY) (Build_World (ap_presence a) (ap_database a))) as Hw.
  { unfold websocket_presence, authenticate_socket, _websocket_origin_allowed. by rewrite bool_decide_false. }
  unfold in_world, zoom. rewrite Hw. unfold on_presence, zoom. cbn [w_presence w_store].
  destruct (_close websocket WEBSOCKET_CLOSE_POLICY (ap_presence a)) as [o p]. by split_and!; [apply refreshed_refl|..].
Qed.

(** [GET /auth/session] checks its session on the database, and goes on there. *)
Lemma current_session_route raw :
  entitled app_origin s (CurrentSession raw) a ∨ ignored s (CurrentSession raw) a (served (CurrentSession raw)).
Proof.
  apply (session_route _ (λ session, on_database (do! lift (check_optional_origin app_origin (sn_headers s)) in
    reissue_csrf (R := Db) (sn_db s 2%nat) raw (ses_user_id session) (ses_id session)))); try done.
  - intros e He session a1. exists e. split; [by eapply optional_raises|]. unfold on_database, zoom, bind, lift. rewrite He. by destruct a1.
  - intros Href. apply refused_ignored; [done|]. unfold serve, serve_on. apply refused_no_cookie.
    assert (on_database (current_session app_origin (sn_headers s) (sn_db s) (sn_current s) (sn_cookie s) raw) a =
      with_session s (λ session, on_database (do! lift (check_optional_origin app_origin (sn_headers s)) in
        reissue_csrf (R := Db) (sn_db s 2%nat) raw (ses_user_id session) (ses_id session))) a) as ->; [|done].
    unfold with_session, current_session, on_database, zoom, bind at 1 3. cbv beta iota zeta.
    by destruct (get_authenticated_session _ _ _ _) as [[session|e] db'].
Qed.
End sender.

(** A check that raises first leaves all as it is. *)
Ltac early He :=
  unfold no_cookie, sets_cookie, in_otp_service, in_device_service, in_world, on_database, zoom, start_otp_route, verify_otp_route,
    registration_challenge, complete_enrollment, linking_challenge, issue_login_challenge_route,
    complete_login_challenge_route, admitted_body, list_devices, list_sessions, list_transfers, get_transfer,
    get_transfer_peer_key, bind, lift;
  rewrite ?He;
  repeat match goal with |- context [if ?b then _ else _] => destruct b end; rewrite ?He;
  match goal with a : Application |- _ => destruct a end;
  eexists; (split; [|reflexivity]);
  first [by eapply exact_raises|by eapply optional_raises|unfold refusal; set_solver].

(** Every request is entitled or ignored, whatever its route: the sockets'
    handshakes included. *)
Lemma entitled_or_ignored s r a :
  well_formed (ap_database a) →
  entitled app_origin s r a ∨ ignored s r a (serve auth_user secret app_origin s r a).
Proof.
  intros Hwf. destruct r.
  all: first
    [ apply (early_route s a); [reflexivity|reflexivity|exact I|]; intros e He; unfold serve, serve_on; cbn [insists] in He;
      solve [early He]
    | apply (current_session_route s a Hwf)
    | eapply (session_route s a Hwf); [reflexivity|reflexivity|reflexivity|
        |intros Href; apply refused_ignored; [exact I|]; apply refused_no_cookie; exact Href];
      intros e He session a1; solve [early He]
    | eapply (csrf_route s a Hwf); [reflexivity|reflexivity|]; intros Href; apply refused_ignored; [exact I|];
      first [exact Href|apply refused_no_cookie; exact Href|apply refused_sets_cookie; exact Href]
    | apply (socket_route s a) ].
Qed.
End cross_site.
