(* ===== verification/Pipeline.v ===== *)
(** * Pipeline: an HTTP request through the application [app/main.py] builds

    [ConfiguredCORSMiddleware], added last and so outermost, then
    [RequestBodyLimitMiddleware], then the exception handlers, then the route.
    An exception no handler takes passes through both middlewares; the server
    makes a 500 without their headers of it.  The request comes with its method,
    its headers and the messages of its body; the route's arguments are what the
    framework parses of them. *)
From Stdlib.Strings Require Import Byte.
From S2P Require Import Prelude PyDict Json Models Schema Hashing Security Sessions RateLimits.
From S2P Require Import TransferPort TransferRepository Integrity Presence Socket Accounts Devices Challenges LinkingOtps Tickets Events.
From S2P Require Import Auth DeviceCrypto DeviceAuth DeviceRoutes Main Application Fixtures ApplicationTheorems ApplicationAccess CrossSite.
From stdpp Require Import list strings.

(** [status_code=status.HTTP_202_ACCEPTED] on the OTP start, 200 elsewhere *)
Definition success_status (r : request) : Z := match r with StartOtp _ _ _ => 202 | _ => 200 end.

Definition plain (status : Z) : response := {| status_code := status; response_headers := [] |}.

(** [_provider_error in (BackendUnavailableError, PostgresError, InterfaceError)] *)
Definition is_provider_failure (e : exn) : bool := bool_decide (e ∈ [BackendUnavailableError; PostgresError; InterfaceError]).

Section pipeline.
Context {S : Type} (serve : Sender → request → M (ApplicationOn S) (option cookie)) (app_origin : pystr).

(** The exception handlers around a route: the framework's own for
    [HTTPException], [_backend_unavailable] for a provider failure. *)
Definition handled (s : Sender) (r : request) : M (ApplicationOn S) response :=
  try_except (do! serve s r in ret (plain (success_status r)))
    (λ e, match e with HTTPException _ => true | _ => is_provider_failure e end)
    (λ e, match e with
          | HTTPException status => ret (plain status)
          | _ => let! answer := in_world _backend_unavailable in ret (plain answer.1)
          end).

(** [RequestBodyLimitMiddleware] with its default limit *)
Definition body_limited (ms : list message) (s : Sender) (r : request) : M (ApplicationOn S) response :=
  match limit_body "http" MAX_HTTP_REQUEST_BYTES (sn_headers s) ms with
  | TooLarge => ret (plain 413)
  | PassThrough | Replay _ => handled s r
  end.

(** A preflight never reaches the application. *)
Definition is_preflight (method : pystr) (hs : headers) : bool :=
  bool_decide (method = u "OPTIONS") && negb (is_null (header "access-control-request-method" hs)).

Definition http (method : pystr) (ms : list message) (s : Sender) (r : request) : M (ApplicationOn S) response :=
  if is_preflight method (sn_headers s) then ret (Security.dispatch (Some app_origin) method (sn_headers s) (plain 200))
  else let! next := body_limited ms s r in ret (Security.dispatch (Some app_origin) method (sn_headers s) next).
End pipeline.

(** ** Another site's page *)
Section foreign.
Context `{Cryptography} `{UnicodeDatabase} (auth_user : UUID → bool) (secret : bytes) (app_origin : pystr).

Notation serve' := (serve auth_user secret app_origin).

(** An error without a CORS header: the page learns nothing of it. *)
Definition opaque_error (r : response) : Prop := (400 ≤ status_code r)%Z ∧ response_headers r = [].

Lemma refusal_handled s r a e a' :
  serve' s r a = (Raise e, a') → refusal e →
  ∃ response, handled serve' s r a = (Ok response, Build_Application
    (if is_provider_failure e then increment "backend_unavailable" 1 (ap_presence a') else ap_presence a')
    (ap_database a') (ap_bootstrap a') (ap_registrations a')) ∧ opaque_error response.
Proof.
  intros Hs Hr. unfold handled, try_except, bind at 1. rewrite Hs. unfold opaque_error.
  apply list_elem_of_In in Hr. destruct Hr as [<-|[<-|[<-|[<-|[]]]]].
  1-3: eexists; split; [by destruct a'|split; [discriminate|done]].
  eexists. split; [reflexivity|split; [discriminate|done]].
Qed.

Lemma dispatch_foreign method hs next :
  header "origin" hs ≠ Some app_origin → opaque_error next → opaque_error (Security.dispatch (Some app_origin) method hs next).
Proof.
  intros Ho Hn. destruct (other_origin_uncredentialed app_origin method hs next Ho) as [->| ->]; [done|by split].
Qed.

(** A preflight of another origin is refused. *)
Lemma foreign_preflight method ms s r a :
  is_preflight method (sn_headers s) = true → header "origin" (sn_headers s) ≠ Some app_origin →
  http serve' app_origin method ms s r a = (Ok (plain 400), a).
Proof.
  intros Hpre Hno. unfold http. rewrite Hpre. unfold is_preflight in Hpre. to_prop. unfold Security.dispatch.
  rewrite decide_True by done. destruct (header "access-control-request-method" _); [|done].
  by rewrite bool_decide_eq_false_2.
Qed.

(** Nothing changed but the cookie's own session's last use and idle deadline,
    and the counter of provider failures. *)
Definition untouched (s : Sender) (a a' : Application) : Prop :=
  refreshed (sn_cookie s) (ap_database a) (ap_database a') ∧
  ap_bootstrap a' = ap_bootstrap a ∧ ap_registrations a' = ap_registrations a ∧
  (ap_presence a' = ap_presence a ∨ ap_presence a' = increment "backend_unavailable" 1 (ap_presence a)).

(** C13: an HTTP request is entitled or powerless.  Sent through the whole
    pipeline (middlewares, exception handlers, route) with whatever method,
    body, cookie and headers, a request on a well-formed database that is not a
    preflight either is entitled: its Origin is the configured one (where the
    route insists on an Origin; elsewhere, none or that one); its cookie, where
    the route needs a session, is the token of a stored session that is
    unrevoked and unexpired on both clocks, of a live account and an active
    device of its epoch; and, for the routes that change state for a session,
    its header carries that session's CSRF secret.  Or it is answered with an
    error, which a page of another origin cannot even read, and nothing changes
    but the last use and idle deadline of the cookie's own session and the
    counter of provider failures. *)
Theorem requests_entitled_or_powerless method ms s r a :
  well_formed (ap_database a) → is_preflight method (sn_headers s) = false →
  match r with WebSocket _ _ _ _ _ _ _ _ => False | _ => True end →
  entitled app_origin s r a ∨
  ∃ response a', http serve' app_origin method ms s r a = (Ok response, a') ∧
    (400 ≤ status_code response)%Z ∧ untouched s a a' ∧
    (header "origin" (sn_headers s) ≠ Some app_origin → response_headers response = []).
Proof.
  intros Hwf Hpre Hr. destruct (entitled_or_ignored auth_user secret app_origin s r a Hwf) as [He|Hi]; [by left|right].
  assert (∃ next a', body_limited serve' ms s r a = (Ok next, a') ∧ opaque_error next ∧ untouched s a a') as (next&a'&Hn&He&Hu).
  { unfold body_limited. destruct (limit_body _ _ _ _).
    3: { eexists _, a. split; [reflexivity|]. split; [by split|]. split_and!; [apply refreshed_refl|auto..]. }
    all: destruct (serve' s r a) as [o a1] eqn:Hs.
    all: assert (ap_presence a1 = ap_presence a ∧ ∃ e, o = Raise e ∧ refusal e) as (Hp&e&->&Href) by (destruct Hi as (_&_&_&Hi); by destruct r).
    all: destruct Hi as (Hdb&Hb&Hg&_); destruct (refusal_handled _ _ _ _ _ Hs Href) as (response&->&Ho).
    all: eexists _, _; split; [reflexivity|]; split; [exact Ho|]; split_and!; try done; simpl; rewrite Hp; destruct (is_provider_failure e); auto. }
  exists (Security.dispatch (Some app_origin) method (sn_headers s) next), a'. unfold http. rewrite Hpre. unfold bind. rewrite Hn.
  split_and!; [done| |done|intros Ho; by destruct (dispatch_foreign method (sn_headers s) next Ho He)]. destruct He as [He _].
  unfold is_preflight in Hpre. unfold Security.dispatch. destruct (decide (method = u "OPTIONS")) as [->|].
  { rewrite bool_decide_true in Hpre by done. destruct (header "access-control-request-method" _); [done|].
    destruct (bool_decide (header "origin" _ = _)); exact He. }
  destruct (bool_decide (header "origin" _ = _)); exact He.
Qed.
End foreign.

(** ** Witnesses *)
#[local] Existing Instance toy_cryptography.
#[local] Existing Instance ascii_unicode.

(** A page of another site, in the laptop's browser: the cookie comes along,
    and even a CSRF secret it had stolen would not help. *)
Definition forger : Sender :=
  {| sn_headers := [("origin", u "https://elsewhere.example.test"); ("x-csrf-token", laptop_csrf)];
     sn_cookie := Some laptop_cookie; sn_host := None; sn_current := minutes 2; sn_db := at_minute |}.

(** The laptop's own page, without the secret. *)
Definition careless : Sender :=
  {| sn_headers := [("origin", site)]; sn_cookie := Some laptop_cookie; sn_host := None; sn_current := minutes 2;
     sn_db := at_minute |}.

#[local] Notation sent s := (http (serve (λ _, true) [] site) site (u "POST") [] s (Logout (λ _, 0%Z) at_minute) signed_in).

Lemma requests_entitled_or_powerless_witness :
  entitled site leaver (Logout (λ _, 0%Z) at_minute) signed_in ∧
  (∃ response a', sent forger = (Ok response, a') ∧ (400 ≤ status_code response)%Z ∧ untouched forger signed_in a' ∧
     response_headers response = []).
Proof.
  split.
  - destruct (requests_entitled_or_powerless (λ _, true) [] site (u "POST") [] leaver (Logout (λ _, 0%Z) at_minute) signed_in
      signed_in_well_formed eq_refl I) as [He|(response&a'&Hr&Hs&_)]; [exact He|]. exfalso.
    assert (status_code <$> (match (sent leaver).1 with Ok x => Some x | Raise _ => None end) = Some 200%Z) as Hok
      by (vm_compute; reflexivity).
    rewrite Hr in Hok. injection Hok as Hok. rewrite Hok in Hs. exact (Hs eq_refl).
  - destruct (requests_entitled_or_powerless (λ _, true) [] site (u "POST") [] forger (Logout (λ _, 0%Z) at_minute) signed_in
      signed_in_well_formed eq_refl I) as [[Ho _]|(response&a'&Hr&Hs&Hu&Hh)].
    + exfalso. revert Ho. vm_compute. discriminate.
    + exists response, a'. split_and!; [exact Hr|exact Hs|exact Hu|]. apply Hh. vm_compute. discriminate.
Defined.

Example careless_refused : status_code <$> (match (sent careless).1 with Ok x => Some x | Raise _ => None end) = Some 403%Z.
Proof. vm_compute. reflexivity. Qed.
