(* ===== verification/ApplicationPresence.v ===== *)
(** * ApplicationPresence: the limits of the presence manager, whatever is requested

    Every route runs blocks of the presence manager and statements of the
    database, so the manager's invariant, and with it its resource limits, holds
    after any requests. *)
From Stdlib.Strings Require Import Byte.
From S2P Require Import Prelude PyDict Json Models Sql Tables Schema Hashing Security Sessions RateLimits.
From S2P Require Import TransferPort TransferRepository Integrity History Signaling Presence Socket Fixtures.
From S2P Require Import PresenceInvariant SocketInvariant PresenceTheorems TransferService TransferServiceTheorems RouteCalls.
From S2P Require Import Accounts Devices Challenges LinkingOtps Tickets Events.
From S2P Require Import Auth DeviceCrypto DeviceAuth DeviceRoutes TransferRoutes Adapters Turn Main Application ApplicationTheorems.
From stdpp Require Import list strings relations.

(** A good world over a well-formed database. *)
Definition sound_world (w : World Db) : Prop := well_formed (w_store w) ∧ world_ok w.

(** A database that moved by statements is a lawful transfer store. *)
Lemma step_lawful db db' : well_formed db → db_step db db' → lawful db db'.
Proof.
  intros Hwf Hstep. destruct (db_step_well_formed _ _ Hstep Hwf) as (_&_&_&_&_&Hs'&_).
  destruct Hstep as (_&_&_&_&_&Ht&_), Hwf as (_&_&_&_&_&Hs&_). destruct (Ht Hs) as [_ Hrows]. intros _. split; [|exact Hrows].
  change (NoDup (map tr_id (transfer_requests db'))). by apply sound_NoDup.
Qed.

(** From a good world over a well-formed database: a sequence of the atomic
    steps, to another. *)
Definition advances (w w' : World Db) : Prop := sound_world w → rtc wstep w w' ∧ sound_world w'.

#[export] Instance advances_preorder : PreOrder advances.
Proof.
  split; [intros w Hw; by split|]. intros x y z Hxy Hyz Hx. destruct (Hxy Hx) as [Hs Hy]. destruct (Hyz Hy) as [Hs' Hz].
  split; [by etrans|done].
Qed.

Lemma steps_advance w w' : (sound_world w → rtc wstep w w' ∧ well_formed (w_store w')) → advances w w'.
Proof. intros Hw Hs. destruct (Hw Hs) as [Hst Hwf]. split; [done|]. split; [done|]. by eapply wsteps_ok; [|apply Hs]. Qed.

Lemma statements_advance w db' : rtc statement (w_store w) db' → advances w (Build_World (w_presence w) db').
Proof.
  intros Hrun%run_step. apply steps_advance. intros [Hwf Hok]. split; [|by eapply db_step_well_formed].
  apply rtc_once. by apply w_repository, step_lawful.
Qed.

Lemma w_on_store {A} (m : M Db A) : respects (rtc quiet) m → respects advances (on_store m).
Proof. intros Hm w. unfold on_store. rewrite zoom_snd. apply statements_advance, quiet_statements, Hm. Qed.

(** A coroutine that runs as steps of the world and calls of the database. *)
Lemma w_runs {A} (m : M (World Db) A) : respects runs m → respects (calls (rtc quiet)) m → respects advances m.
Proof.
  intros Hr Hc w. apply steps_advance. intros [Hwf Hok]. split; [by apply Hr|].
  eapply db_step_well_formed; [|exact Hwf]. apply run_step, quiet_statements, Hc.
Qed.

Lemma w_on_presence {A} (m : M Presence A) : respects (rtc pblock) m → respects advances (on_presence (T := Db) m).
Proof. intros Hm. apply w_runs; [by apply runs_on_presence|apply c_presence; apply _]. Qed.
#[local] Hint Resolve w_on_store w_on_presence : respects.

(** ** The routes *)
Section presence_routes.
Context (cfg : PresenceConfig).

Lemma w_online now a : respects advances (online_devices (T := Db) cfg now a).
Proof. apply w_runs; [apply r_online|apply c_online; apply _]. Qed.
Lemma w_disconnect c a d : respects advances (disconnect_device (T := Db) cfg c a d).
Proof. apply w_runs; [apply r_disconnect_device|apply c_disconnect; apply _]. Qed.
#[local] Hint Resolve w_online w_disconnect : respects.

Lemma w_logout_device presence c db_now session d :
  respects advances (logout_device_route (T := Db) cfg presence c db_now session d).
Proof. unfold logout_device_route, disconnect. simpl. walk. Qed.
Lemma w_logout presence c db_now session : respects advances (logout (T := Db) cfg presence c db_now session).
Proof. unfold logout, disconnect, revoke_session. simpl. walk. Qed.

Lemma w_serve_admitted c connection events : respects advances (serve_admitted (T := Db) cfg c connection events).
Proof. apply w_runs; [apply r_serve_admitted|apply c_serve_admitted]. Qed.
#[local] Hint Resolve w_serve_admitted q_authenticate : respects.
Lemma w_websocket app_origin origin query configured now lookup id websocket c events :
  respects advances (websocket_presence cfg app_origin origin query configured now lookup id websocket c events).
Proof. unfold websocket_presence. walk. Qed.
End presence_routes.
#[local] Hint Resolve w_online w_logout_device w_logout w_websocket : respects.

Section transfer_routes.
Context (cfg : TransferServiceConfig) (session : SessionRecord).

Lemma w_notify now a d p : respects advances (_notify (T := Db) cfg now a d p).
Proof. unfold _notify. walk. Qed.
Lemma w_device_of a d : respects advances (device_of (T := Db) a d).
Proof. unfold device_of. walk. Qed.
#[local] Hint Resolve w_notify w_device_of : respects.

Lemma w_create c at_ i a d1 d2 v : respects advances (create_offer (T := Db) cfg c at_ i a d1 d2 v).
Proof. unfold create_offer, create_checked, _validate_devices, _ensure_capacity. simpl. walk. Qed.

Lemma w_expire_stale c at_ a i : respects advances (expire_stale (T := Db) cfg c at_ a i).
Proof. apply w_runs; [apply r_expire|apply c_expire_stale]. Qed.
Lemma w_current c at_ a i : respects advances (_current_or_expire (T := Db) cfg c at_ a i).
Proof. apply w_runs; [apply r_current|apply c_current]. Qed.
Lemma w_accept c at_ a i d : respects advances (accept_offer (T := Db) cfg c at_ a i d).
Proof. apply w_runs; [apply r_accept|apply c_accept]. Qed.
Lemma w_reject_offer c at_ a i d : respects advances (reject_offer (T := Db) cfg c at_ a i d).
Proof. apply w_runs; [apply r_reject_offer|apply c_reject_offer]. Qed.
Lemma w_cancel c at_ a i d : respects advances (cancel_transfer (T := Db) cfg c at_ a i d).
Proof. apply w_runs; [apply r_cancel|apply c_cancel]. Qed.
Lemma w_peer_key c at_ a i d e : respects advances (get_peer_device_key (T := Db) cfg c at_ a i d e).
Proof. apply w_runs; [apply r_peer_key|apply c_peer_key]. Qed.
Lemma w_list_loop a rs cs : respects advances (list_loop (T := Db) cfg cs a rs).
Proof. apply w_runs; [apply r_list_loop|apply c_list_loop]. Qed.
#[local] Hint Resolve w_create w_expire_stale w_current w_accept w_reject_offer w_cancel w_peer_key w_list_loop : respects.

Lemma w_create_route c at_ i payload : respects advances (create_transfer_offer (T := Db) cfg c at_ i payload session).
Proof. unfold create_transfer_offer. walk. Qed.
Lemma w_list_route app_origin hs cs : respects advances (list_transfers (T := Db) cfg app_origin hs cs session).
Proof. unfold list_transfers, list_transfers_for. walk. Qed.
Lemma w_get_route app_origin hs c at_ i : respects advances (get_transfer (T := Db) cfg app_origin hs c at_ i session).
Proof. unfold get_transfer, TransferService.get. walk. Qed.
Lemma w_peer_route app_origin hs c at_ i :
  respects advances (get_transfer_peer_key (T := Db) cfg app_origin hs c at_ i session).
Proof. unfold get_transfer_peer_key. walk. Qed.
Lemma w_accept_route c at_ i : respects advances (accept_transfer (T := Db) cfg c at_ i session).
Proof. unfold accept_transfer, unavailable. walk. Qed.
Lemma w_reject_route c at_ i : respects advances (reject_transfer (T := Db) cfg c at_ i session).
Proof. unfold reject_transfer, unavailable. walk. Qed.
Lemma w_cancel_route c at_ i : respects advances (cancel_transfer_route (T := Db) cfg c at_ i session).
Proof. unfold cancel_transfer_route, unavailable. walk. Qed.
Lemma w_expire_route c at_ i : respects advances (expire_transfer (T := Db) cfg c at_ i session).
Proof. unfold expire_transfer, unavailable. walk. Qed.
Lemma w_turn `{UnicodeDatabase} secret answer current c at_ i host :
  respects advances (issue_turn_credentials (H1 := persistent_limiter secret) (H2 := turn_provider answer)
    cfg current c at_ session i host).
Proof. unfold issue_turn_credentials, issue, denied. simpl. walk. Qed.
End transfer_routes.
#[local] Hint Resolve w_create_route w_list_route w_get_route w_peer_route w_accept_route w_reject_route w_cancel_route
  w_expire_route w_turn : respects.

(** ** The application *)
Section application.
Context `{Cryptography} `{UnicodeDatabase} (auth_user : UUID → bool) (secret : bytes) (app_origin : pystr).
#[local] Instance presence_accounts : AccountStore Db := pg_accounts auth_user.
#[local] Instance presence_limiter : LimiterStore Db := persistent_limiter secret.

(** The part of the state the manager's steps are about. *)
Definition world_of (a : Application) : World Db := Build_World (ap_presence a) (ap_database a).

Definition app_advances (a a' : Application) : Prop := advances (world_of a) (world_of a').

#[local] Instance app_advances_preorder : PreOrder app_advances.
Proof. split; unfold app_advances; [intros a; reflexivity|intros x y z ? ?; by etrans]. Qed.

Lemma p_world {A} (m : M (World Db) A) : respects advances m → respects app_advances (in_world m).
Proof. intros Hm a. unfold app_advances, in_world. rewrite zoom_snd. unfold world_of. simpl. specialize (Hm (world_of a)). by destruct (m _).2. Qed.

(** What leaves the presence manager alone. *)
Lemma p_statements a a' :
  ap_presence a' = ap_presence a → rtc statement (ap_database a) (ap_database a') → app_advances a a'.
Proof. intros Hp Hst. unfold app_advances, world_of. rewrite Hp. exact (statements_advance (world_of a) _ Hst). Qed.

Lemma p_database {A} (m : M Db A) : respects (rtc quiet) m → respects app_advances (on_database m).
Proof. intros Hm a. apply p_statements; unfold on_database; rewrite zoom_snd; [done|]. apply quiet_statements, Hm. Qed.
Lemma p_device {A} (m : M (DeviceWorld Db) A) :
  respects (device_calls (rtc quiet)) m → respects app_advances (in_device_service m).
Proof.
  intros Hm a. apply p_statements; unfold in_device_service; rewrite zoom_snd; [done|]. simpl. apply quiet_statements.
  apply (Hm (Build_DeviceWorld (ap_database a) (ap_bootstrap a) (ap_registrations a))).
Qed.
Lemma p_otp {A} (m : M (AuthWorld Db) A) : respects (otp_calls (rtc quiet)) m → respects app_advances (in_otp_service m).
Proof.
  intros Hm a. apply p_statements; unfold in_otp_service; rewrite zoom_snd; [done|]. simpl. apply quiet_statements.
  apply (Hm (Build_AuthWorld (ap_database a) (ap_bootstrap a))).
Qed.
#[local] Hint Resolve p_database p_world p_device p_otp : respects.
#[local] Hint Resolve o_start o_verify d_registration_challenge d_linking_otp d_linking_challenge d_login_challenge
  d_list_devices d_rename : respects.

Lemma serve_advances s r : respects app_advances (serve auth_user secret app_origin s r).
Proof.
  destruct (completes r) eqn:Hc.
  - intros a. apply p_statements; [|apply (serve_opens auth_user secret app_origin s r a)].
    destruct r; try done; unfold serve, serve_on; rewrite sets_cookie_snd; unfold in_device_service; by rewrite zoom_snd.
  - destruct r; try done; unfold serve, serve_on, no_cookie, sets_cookie, with_csrf, with_session; walk.
Qed.

(** C6: a request is a sequence of the manager's steps.  From a well-formed
    database and a good world, serving any request to its end (a socket's whole
    life included, with any messages and clocks) is a sequence of the atomic
    steps for which the resource limits are proved under every interleaving, and
    leads to such a state again; so after any requests the sockets, queues and
    signaling budgets are within their limits, and each budget is charged to
    the account that owns its transfer. *)
Theorem requests_are_steps a :
  well_formed (ap_database a) → world_ok (world_of a) →
  (∀ s r, rtc wstep (world_of a) (world_of (serve auth_user secret app_origin s r a).2)) ∧
  ∀ requests, let after := handle auth_user secret app_origin requests a in
    rtc wstep (world_of a) (world_of after) ∧ well_formed (ap_database after) ∧ world_ok (world_of after) ∧
    within_limits (ap_presence after).
Proof.
  intros Hwf Hok. assert (sound_world (world_of a)) as Ha by done. split; [intros s r; by apply serve_advances|]. intros requests after.
  assert (app_advances a after) as Hadv; [|destruct (Hadv Ha) as [Hst [Hwf' Hok']]; split_and!; [done..|apply presence_ok_limits, Hok']].
  unfold after. clear after Ha Hwf Hok. revert a. induction requests as [|[s r] requests IH]; intros a; [reflexivity|].
  etrans; [apply serve_advances|apply IH].
Qed.
End application.

(** ** Witness *)
#[local] Existing Instance toy_cryptography.
#[local] Existing Instance ascii_unicode.

(** The laptop's socket, after the visits: its ticket is spent, it sends a
    text that is no JSON, and is closed. *)
Definition laptop_visit : Sender * request :=
  (browser, WebSocket (Some site) [ticket_value] (λ _, seconds 30) (λ _, {| at_clock := seconds 30; at_wall := seconds 30 |})
     900 5 (λ _, seconds 30)
     [(λ _, seconds 31, λ _, {| at_clock := seconds 31; at_wall := seconds 31 |},
       λ _, {| at_clock := seconds 31; at_wall := seconds 31 |}, Text (u "{") None)]).

Lemma requests_are_steps_witness :
  let after := handle (λ _, true) [] site (visits ++ [laptop_visit]) relay in
  rtc wstep (world_of relay) (world_of after) ∧ within_limits (ap_presence after) ∧
  map tkt_consumed_at (websocket_tickets (ap_database after)) = [Some (seconds 30)] ∧
  dict_get "socket_registered" (pm_metrics (ap_presence after)) = Some 1%Z ∧ pm_closed (ap_presence after) = [(5%N, 1003%Z)].
Proof.
  assert (world_ok (world_of relay)) as Hok.
  { split_and!; [apply initial_presence_ok| |done]. change (NoDup (map tr_id (transfer_requests home))). constructor. }
  destruct (requests_are_steps (λ _, true) [] site relay home_well_formed Hok) as [_ Hall].
  destruct (Hall (visits ++ [laptop_visit])) as (Hst&_&_&Hlim). split_and!.
  - exact Hst.
  - exact Hlim.
  - vm_compute. reflexivity.
  - vm_compute. reflexivity.
  - vm_compute. reflexivity.
Defined.
